(* ===== verification/_CoqProject ===== *)
-Q . S2P
Prelude.v
Mem.v
Cksum.v
Protocol.v
Interfaces.v
RoutingTable.v
ArpCache.v
Instance.v
Router.v
RouterFrames.v
RouterProps.v
RouterSafety.v
RouterTimeouts.v
RouterHazards.v
RouterExamples.v
RouterThreads.v
Sha1.v
Sockets.v
Chat.v
ChatProps.v
CString.v
CStdio.v
Vns.v
VnsProps.v
VnsLayout.v
PacketQueue.v
NetTcp.v
TcpSum.v
HashTable.v
Stcp.v
StcpProps.v
StcpNet.v
StcpLive.v
StcpHazards.v
HttpParse.v
HttpProps.v
Proxy.v
ProxyProps.v
ProxyProcs.v
Mysock.v
Demux.v
MysockApi.v
DemuxRep.v
DemuxProps.v
DemuxHazards.v
FileTransfer.v
FileTransferProps.v
FileFetch.v
FileNet.v
FileStart.v
FileHazards.v
FramedNet.v
NetIo.v
RouterDump.v
RouterPrint.v
RouterStart.v
RouterStartProps.v
HttpHeap.v
RouterSession.v
StcpTypes.v
Connect.v
Skeleton.v
