(* ===== verification/Prelude.v ===== *)
(** * A verification of four network programs in C

    The repository holds four projects around one course on computer networks;
    this development models their C code and proves what makes each of them
    correct. Sources are named below as files under src/.

    ** The programs

    - The router (router/src/router). [sr_main.c] opens a session with a server
      that emulates the hardware ([sr_vns_comm.c]): it authenticates, receives
      the description of the interfaces, loads the routing table ([sr_rt.c]) and
      then reads frames, each handed to [sr_handlepacket] ([sr_router.c]). The
      router answers ARP requests and pings, forwards by longest prefix, and
      reports errors by ICMP. A next hop that the ARP cache ([sr_arpcache.c])
      does not know makes the frame wait on a request, which a thread of its own
      retries every second and gives up after five attempts.
    - The transport layer (transport-layer/src). An application uses mysockets
      ([mysock_api.c]). Each connection has a thread that runs STCP, a reduced
      TCP ([transport.c]), over calls that wait for events and move data
      ([stcp_api.c]), and a thread that receives packets from the network
      ([network_io_socket.c]), which are carried over a TCP connection, each
      behind its length ([network_io_tcp.c]). Connection requests at a listening
      mysocket are queued by [connection_demux.c].
    - The HTTP proxy (http-proxy/src): [proxy.c] receives a request, has it
      parsed by [proxy_parse.c], sends a rewritten one to the server it names
      and returns the answer.
    - The sockets client and server (sockets/src): what is typed at one end is
      printed at the other.
    - Over mysockets, the transport layer's own client and server
      (transport-layer/src/client.c and server.c) transfer files by name.

    ** Conventions

    A C computation is a function to [res]: a value, or the [fault] that stops it
    (an access out of bounds, a null, freed or unwritten object, a [memcpy] between
    overlapping regions, a failed assertion, a wait that nothing ends, fuel that ran out). Code that changes
    state runs in the state-and-fault monad [M] of this file. Memory blocks are
    lists of bytes with checked access ([rd], [wr]); a packed struct is a list of
    fields at offsets (Mem). Integers are [Z], with the wrap-around of their C
    type written out ([u16], [u32], [i32], ...); the host is little-endian, so
    [htons] and [htonl] swap bytes. What the kernel and the C library decide is
    an argument or a list of outcomes: the contents of fresh memory and the
    result of [write] in the router (the class [Env] of Instance, and
    [ReliableEnv] where a theorem needs complete writes), the outcomes of
    [recv] and [send] for connected sockets (Sockets), what [memcpy] does with
    overlapping regions, which C leaves undefined (the class [Memcpy] of PacketQueue:
    [moving_memcpy] moves the bytes, [strict_memcpy] is a fault; theorems that need
    the former say so), [rand], [inet_aton],
    files by their lines, and the resolver by the addresses it finds.
    Assertions are taken to be compiled in. Threads take turns: each call that
    the code protects by a lock is one step, except in the router, where a command
    is (see below).

    ** Files

    - Prelude: results, the monad and its laws, integers, bytes, buffers.
    - Mem: fields of structs. Protocol: the packet formats of [sr_protocol.h].
    - Cksum: [cksum] of [sr_utils.c].
    - Interfaces ([sr_if.c]), RoutingTable ([sr_rt.c], the longest-prefix match of
      [sr_router.c], the check of [sr_main.c]), ArpCache (the tables of
      [sr_arpcache.c]), Instance ([struct sr_instance] as the record
      [sr_instance], [sr_send_packet], [sr_log_packet]), Router ([sr_router.c],
      and what of [sr_arpcache.c] sends). RouterFrames states what the builders
      of frames produce; RouterProps what handling a frame does; RouterSafety
      that it does not fault; RouterTimeouts what happens over time;
      RouterHazards where it goes wrong; RouterExamples is a small network to
      which the theorems are applied. RouterThreads: the thread that handles
      frames and the thread that sweeps the cache, together.
    - Sha1 ([sha1.c]); Vns and VnsProps (the session of [sr_vns_comm.c]); VnsLayout
      (the structs of [vnscommand.h]).
    - RouterDump (the packet dump file of [sr_dumper.c]), RouterPrint (the printing
      functions of [sr_utils.c], [sr_rt.c], [sr_if.c] and [sr_arpcache.c]), RouterStart ([sr_main.c]
      from its options to its main loop; the record [process] is the instance with
      the session's socket, the files written and what was printed).
      RouterStartProps: how the program comes to its loop. RouterSession: the loop,
      with the turns of the sweeping thread and the time between commands ([meantime],
      of Router), and the run from the command line to the exit status.
    - PacketQueue (the buffer queues of [mysock.c], [mywrite] and [myread]),
      NetTcp ([network_io_tcp.c] and the receive thread of a connection), TcpSum
      ([tcp_sum.c] and the header of [transport.h]), HashTable ([mysock_hash.h]),
      Stcp ([transport.c] over [stcp_api.c]). An [endpoint] is what the transport
      thread sees of a [mysock_context_t]; its fields have the code's names.
      StcpProps: one endpoint and the handshake. StcpNet: two endpoints over a
      network that loses, duplicates and reorders. StcpLive: complete transfer
      and close. StcpTypes: one endpoint against any network and application.
      StcpHazards: where it goes wrong.
    - FramedNet: STCP connections whose segments travel as frames in TCP streams,
      STCP (Stcp) and framing (NetTcp) composed. NetIo: the descriptors, pipes and
      threads of [network_io_socket.c] and [network_io_tcp.c].
    - Mysock (descriptor table and contexts of [mysock.c]), Demux
      ([connection_demux.c]), MysockApi ([mysock_api.c]). Here a context is the
      record [mysock_context], and the process state is [mysocks]: the table
      [global_ctx], the hash table [listen_table], and the queues its entries
      point to. DemuxRep: the abstract backlog and its representation.
      DemuxProps: the refinement. DemuxHazards: where it goes wrong, and
      examples. Connect: the transport threads of Stcp run on these contexts
      ([thread_part] takes the [endpoint] out of a context and puts its queues
      back), and a connection from its SYN to [myaccept].
    - Skeleton: the template [transport3.c], over the same calls as Stcp.
    - FileTransfer (client.c and server.c of transport-layer/src, against the class
      [Conn] of connections), FileTransferProps (the promises [ConnSpec] of a
      connection, and that a mysocket's application side keeps them), FileFetch
      (what the client stores), FileNet (both programs end to end, and over STCP),
      FileStart (over the descriptors of a process, and the start-up),
      FileHazards (where it goes wrong).
    - CString and CStdio (the library functions used on strings, numbers and
      files), HttpParse and HttpProps ([proxy_parse.c]), HttpHeap (the same
      functions with the blocks they allocate and free), Proxy and ProxyProps
      ([proxy.c]: what one process does), ProxyProcs ([proxy.c]: [main], the accept
      loop, the children and the signal handler; the state [procs] has the
      parent's position, descriptors and [errno], the children, and what has
      become of each connection).
    - Sockets (connected sockets), Chat and ChatProps (the client and server of
      sockets/src), with the buffer of [stdout] ([stdio]).

    ** What the theorems show

    Router. The checksum is the ones'-complement sum in closed form, for every
    buffer that its accumulator can hold ([cksum_closed_form]). The route chosen is the longest that
    covers the address, the last of equals ([lpm_longest]), and a table file in
    any layout of blanks loads as its routes ([load_file_routes]). A frame in
    transit leaves with its time to live and checksum updated, by the route's
    interface, to the next hop's address ([forward_hit]); when the next hop is
    unknown it is kept and leaves when the answer comes ([miss_then_reply],
    [arp_reply_flushes]) or its sender hears of it after five attempts
    ([timeout_reports], where the senders' next hops are known). ARP requests and
    pings are answered ([arp_request_answered], [echo_answered]) and errors reported
    with the quoted header ([icmp_errors_sent]), more than the README wants of both. The cache keeps its invariant under
    every sequence of operations ([cache_reachable_wf]). No frame of at least 14
    bytes and not of 34 to 41 makes the code fault while no request has used up its
    attempts ([handlepacket_safe]), and neither does any order of such frames, sweeps
    of the cache and waits
    ([threads_safe]); [timeout_recursion] shows why that condition is there, and
    [sweeps_between_calls] that sweeps between the calls for one packet are harmless
    under that condition, and free a request in use without it.
    SHA-1 computes the standard's digest however the message is cut
    ([sha1_correct]). Commands of the server are read whole however the stream is
    cut ([vns_packet_delivered], [hwinfo_loads], [auth_answered]); the main loop
    handles a session's frames in order, among sweeps and waits, and returns at its
    end ([session_served]), and the whole program runs from its command line to its
    exit status ([router_starts], [router_runs]). The dump file reads back as the
    frames logged ([dump_round_trip]), what is sent to the server reads back by
    the structs of the header file ([messages_read_back]), and what is printed of
    a frame accesses nothing beyond its length ([print_hdrs_reports]).

    Transport. Whatever the network loses, duplicates or reorders, an application
    reads a prefix of what the other wrote ([stcp_prefix]), and a turn of a
    transport thread faults only by its overlapping [memcpy] ([stcp_no_fault]); over an orderly network everything
    arrives and both ends close ([transfer_complete], [graceful_close]). Against
    any peer at all, an endpoint keeps its numbers in their types and sends only
    segments ([stcp_typed]). The handshake agrees on numbers and windows ([handshake]). Segments are accepted
    exactly with a right checksum ([checksum_roundtrip]). Packets cross the TCP
    stream whole ([tcp_delivers]), so that STCP over such streams is STCP over an
    orderly network ([framed_refines]). No descriptor is lost or closed twice
    ([descriptors_owned]), and a thread is stopped only between packets
    ([stop_waits_for_packet]). The hash table keeps a stack of values for each key,
    and is a finite map while only absent keys are inserted ([hash_refines_map]). A listening mysocket is a bounded first-come
    first-served queue ([demux_refines]); a client's SYN that arrives there becomes a
    connection that [myaccept] gives out when the handshake is done, and not
    before, and whose two ends are those of the theorems above
    ([connect_accept]). The template of the layer does nothing of this
    ([skeleton_never_returns]). The file transfer's server answers every
    request of at most 254 bytes ([server_answers]), the client stores the file that
    the server has ([file_round_trip]), and over STCP on a faulty network it waits, fails, stores
    nothing, or stores exactly that ([transfer_over_stcp]).

    Proxy. The header table is a map ([headers_refine_map]), parsing undoes
    printing ([parse_unparse]), receiving ends with the first piece that ends in an
    empty line, or a full buffer, and sending sends everything once
    ([receive_send_exact]); a GET request is rewritten, forwarded without its headers
    and answered with the response up to there ([proxy_forwards]), others are refused ([proxy_refuses]). The
    parser frees each block it allocates once ([no_leak_no_double_free]), but
    setting a header by the request's own key reads it freed ([own_key_dangles]).
    In every order of the steps of the parent, its children, the signal handler and
    the kernel, no descriptor leaks, each client has a conversation of its own and
    no error report is disturbed ([proxy_processes]); everything accepted can
    be served, every child is reaped, and the handler ends ([proxy_drains]).

    Sockets. What is typed is printed, with the newlines between messages held back
    when the output is a file ([chat_delivers]).

    Each project also has theorems about inputs on which the code goes wrong, as
    found while modelling: their names say how ([early_fin_loses_data],
    [refused_syn_wedges], [close_listener_deadlocks], [relisten_dangles],
    [parse_hazards], [interrupts_corrupt], [bad_lengths_overread], ...).

    ** Fuel and bounds

    The checksum's fold takes at most three turns ([cksum_fold_enough]).
    [sr_handlepacket] needs one unit of fuel, and [handle_arpreq] one more for
    each level of its recursion; theorems hold for every larger amount. The loops
    over sockets have fuel computed from the outcomes the socket still has
    ([recv_work], [send_to_socket], [input_work], [tcp_io_read]), and their
    theorems show that it suffices. The router's main loop has as many turns as its
    schedule, a list of what goes on before each command, has elements; one for each
    command suffices. SHA-1's padding loop fills a block of 64
    bytes ([fill_zeros] with 65). [myclose] recurses once, from a listening
    socket to its connections, which do not listen. The theorems about streams of
    STCP assume fewer than 2^32 - 2 bytes in each direction, so that no sequence
    number is used twice.

    ** Not modelled

    Debugging output, except for the strings that are read to make it, and the
    printing of [print_addr_ip] and the usage texts, which only call the library;
    the freeing of memory that nothing reads again, outside the HTTP parser;
    failures of [malloc]. [getopt] is the list of options it finds; the sockets
    programs are taken after the check of their argument count. The structs of
    vnscommand.h that the router neither builds nor reads by name. [myaccept]
    holds the listening table's lock for reading while it waits; here a call that
    would wait is [Blocked] and is made again later. In Connect the receive thread
    and the transport thread of a connection take turns at whole parts of their
    code, cut where they wait. A command of the router is handled as a whole between
    sweeps, in the main loop as well, although the code takes the cache's lock for
    each call only; [sweeps_between_calls] has sweeps between the calls of
    [send_or_queue] while the clock stands still. That the two threads access the
    same request without the lock, where [handle_arpreq] is called for a frame, is
    not modelled beyond that. The conversation of a child of the proxy
    is one step of ProxyProcs, since nobody else touches its sockets; a child
    whose conversation is undefined behaviour may die, and what else it might do
    within its own process is left open. The Python and shell parts
    (internet-measurement, the emulation under router/src) are not C.

    ** This file

    Results with faults, the state-and-fault monad, byte buffers with
    bounds-checked access, little-endian codecs and machine-width wrap-around. *)
From Stdlib Require Export ZArith Lia Bool.
From stdpp Require Export base tactics option list numbers sets gmap strings.
From Stdlib Require Import Strings.Ascii.

Declare Scope cnet_scope.
Delimit Scope cnet_scope with cnet.
#[global] Open Scope Z_scope.

(** * Faults and results *)

(** What stops a C computation: undefined behaviour the model detects
    (an access out of bounds, a null or freed pointer, an object never
    written, a copy between overlapping regions), a failed
    [assert], a blocked wait, or a recursion deeper than the fuel given. *)
Inductive fault :=
| OutOfBounds
| NullDeref
| UseAfterFree
| AssertFail
| Uninit
| Overlap
| Blocked
| OutOfFuel.

#[export] Instance fault_eq_dec : EqDecision fault.
Proof. solve_decision. Defined.

Inductive res (A : Type) :=
| Ok (a : A)
| Fault (e : fault).
Arguments Ok {A} a.
Arguments Fault {A} e.

#[export] Instance res_ret : MRet res := fun A a => Ok a.
#[export] Instance res_bind : MBind res := fun A B f m =>
  match m with Ok a => f a | Fault e => Fault e end.

Lemma res_bind_ok {A B} (a : A) (f : A -> res B) : (Ok a ≫= f) = f a.
Proof. reflexivity. Qed.

(** A computation that returns, with a result that satisfies [Q]. *)
Definition ok_with {A} (r : res A) (Q : A -> Prop) : Prop :=
  match r with Ok a => Q a | Fault _ => False end.

Lemma ok_with_inv {A} (r : res A) Q : ok_with r Q -> exists a, r = Ok a /\ Q a.
Proof. destruct r; simpl; [eauto|done]. Qed.

(** * The state-and-fault monad *)

Definition M (S A : Type) : Type := S -> res (A * S).

#[export] Instance M_ret {S} : MRet (M S) := fun A a s => Ok (a, s).
#[export] Instance M_bind {S} : MBind (M S) := fun A B f m s =>
  match m s with Ok (a, s') => f a s' | Fault e => Fault e end.

Definition get {S} : M S S := fun s => Ok (s, s).
Definition put {S} (s : S) : M S unit := fun _ => Ok (tt, s).
Definition modify {S} (f : S -> S) : M S unit := fun s => Ok (tt, f s).
Definition gets {S A} (f : S -> A) : M S A := fun s => Ok (f s, s).
Definition fail {S A} (e : fault) : M S A := fun _ => Fault e.
Definition lift {S A} (r : res A) : M S A := fun s =>
  match r with Ok a => Ok (a, s) | Fault e => Fault e end.
(** Dereferencing a pointer that may be null. *)
Definition deref {S A} (p : option A) : M S A :=
  match p with Some a => fun s => Ok (a, s) | None => fail NullDeref end.
Definition assertM {S} (b : bool) : M S unit :=
  if b then fun s => Ok (tt, s) else fail AssertFail.

(** A loop over a list that is fixed when the loop starts. *)
Fixpoint for_each {S A} (f : A -> M S unit) (l : list A) : M S unit :=
  match l with
  | [] => mret tt
  | x :: l => f x;; for_each f l
  end.

(** Weakest precondition of a computation that must not fault. *)
Definition wp {S A} (m : M S A) (Q : A -> S -> Prop) (s : S) : Prop :=
  match m s with Ok (a, s') => Q a s' | Fault _ => False end.

Section monad_laws.
Context {S : Type}.

Lemma bind_ret_l {A B} (a : A) (f : A -> M S B) s : (mret a ≫= f) s = f a s.
Proof. reflexivity. Qed.

Lemma bind_ret_r {A} (m : M S A) s : (m ≫= mret) s = m s.
Proof. unfold mbind, M_bind, mret, M_ret. by destruct (m s) as [[]|]. Qed.

Lemma bind_assoc {A B C} (m : M S A) (f : A -> M S B) (g : B -> M S C) s :
  ((m ≫= f) ≫= g) s = (m ≫= (fun a => f a ≫= g)) s.
Proof. unfold mbind, M_bind. by destruct (m s) as [[]|]. Qed.

(** A bind whose first half is known to return. *)
Lemma bind_ok {A B} (m : M S A) (f : A -> M S B) s a s' :
  m s = Ok (a, s') -> (m ≫= f) s = f a s'.
Proof. intros H. unfold mbind, M_bind. by rewrite H. Qed.

Lemma bind_fault {A B} (m : M S A) (f : A -> M S B) s e :
  m s = Fault e -> (m ≫= f) s = Fault e.
Proof. intros H. unfold mbind, M_bind. by rewrite H. Qed.

Lemma bind_inv {A B} (m : M S A) (f : A -> M S B) s b s' :
  (m ≫= f) s = Ok (b, s') -> exists a s1, m s = Ok (a, s1) /\ f a s1 = Ok (b, s').
Proof.
  unfold mbind, M_bind. destruct (m s) as [[a s1]|e]; [eauto|discriminate].
Qed.

(** The equations that run a computation one step. *)
Lemma bind_get {B} (f : S -> M S B) s : (get ≫= f) s = f s s.
Proof. reflexivity. Qed.
Lemma bind_put {B} t (f : unit -> M S B) s : (put t ≫= f) s = f tt t.
Proof. reflexivity. Qed.
Lemma bind_modify {B} g (f : unit -> M S B) s : (modify g ≫= f) s = f tt (g s).
Proof. reflexivity. Qed.
Lemma bind_gets {A B} (g : S -> A) (f : A -> M S B) s : (gets g ≫= f) s = f (g s) s.
Proof. reflexivity. Qed.
Lemma bind_lift {A B} a (f : A -> M S B) s : (lift (Ok a) ≫= f) s = f a s.
Proof. reflexivity. Qed.
Lemma bind_lift_fault {A B} e (f : A -> M S B) s : (lift (Fault e) ≫= f) s = Fault e.
Proof. reflexivity. Qed.
Lemma bind_deref {A B} a (f : A -> M S B) s : (deref (Some a) ≫= f) s = f a s.
Proof. reflexivity. Qed.
Lemma bind_deref_null {A B} (f : A -> M S B) s : (deref None ≫= f) s = Fault NullDeref.
Proof. reflexivity. Qed.
Lemma bind_assert {B} (f : unit -> M S B) s : (assertM true ≫= f) s = f tt s.
Proof. reflexivity. Qed.

Lemma wp_lift {A} (a : A) (Q : A -> S -> Prop) s : Q a s -> wp (lift (Ok a)) Q s.
Proof. done. Qed.

Lemma wp_ret {A} (a : A) (Q : A -> S -> Prop) s : Q a s -> wp (mret a) Q s.
Proof. done. Qed.

Lemma wp_bind {A B} (m : M S A) (f : A -> M S B) Q s :
  wp m (fun a => wp (f a) Q) s -> wp (m ≫= f) Q s.
Proof. unfold wp, mbind, M_bind. by destruct (m s) as [[]|]. Qed.

Lemma wp_mono {A} (m : M S A) (P Q : A -> S -> Prop) s :
  wp m P s -> (forall a s', P a s' -> Q a s') -> wp m Q s.
Proof. unfold wp. destruct (m s) as [[]|]; auto. Qed.

Lemma wp_eq {A} (m : M S A) Q s a s' : m s = Ok (a, s') -> Q a s' -> wp m Q s.
Proof. intros H HQ. unfold wp. by rewrite H. Qed.

Lemma wp_ok {A} (m : M S A) Q s :
  wp m Q s -> exists a s', m s = Ok (a, s') /\ Q a s'.
Proof. unfold wp. destruct (m s) as [[a s']|]; [eauto|done]. Qed.

(** The loop rule: an invariant of the state kept by every turn. *)
Lemma wp_for_each {A} (f : A -> M S unit) (l : list A) (I : S -> Prop) s :
  I s -> (forall x s, x ∈ l -> I s -> wp (f x) (fun _ => I) s) ->
  wp (for_each f l) (fun _ => I) s.
Proof.
  revert s. induction l as [|x l IH]; intros s HI Hf; [done|].
  apply wp_bind. eapply wp_mono; [apply Hf; [set_solver|done]|].
  intros [] s' HI'. apply IH; [done|]. intros y t Hy. apply Hf. set_solver.
Qed.
End monad_laws.

#[export] Hint Rewrite @bind_ret_l @bind_get @bind_put @bind_modify @bind_gets @bind_lift
  @bind_lift_fault @bind_deref @bind_deref_null @bind_assert @bind_assoc : exec.
(** Run the goal's computation as far as its equations reach. *)
Ltac exec := autorewrite with exec; cbn beta iota.

(** * Machine integers *)

Definition u8 (z : Z) : Z := z mod 256.
Definition u16 (z : Z) : Z := z mod 65536.
Definition u32 (z : Z) : Z := z mod 4294967296.
Definition u64 (z : Z) : Z := z mod 18446744073709551616.
(** Two's complement reading of a 32-bit pattern, the C [int] of this ABI. *)
Definition i32 (z : Z) : Z :=
  let w := u32 z in if w <? 2147483648 then w else w - 4294967296.

Lemma u8_range z : 0 <= u8 z < 256.
Proof. apply Z.mod_pos_bound; lia. Qed.
Lemma u16_range z : 0 <= u16 z < 65536.
Proof. apply Z.mod_pos_bound; lia. Qed.
Lemma u32_range z : 0 <= u32 z < 4294967296.
Proof. apply Z.mod_pos_bound; lia. Qed.
Lemma u8_small z : 0 <= z < 256 -> u8 z = z.
Proof. apply Z.mod_small. Qed.
Lemma u16_small z : 0 <= z < 65536 -> u16 z = z.
Proof. apply Z.mod_small. Qed.
Lemma u32_small z : 0 <= z < 4294967296 -> u32 z = z.
Proof. apply Z.mod_small. Qed.
Lemma u64_small z : 0 <= z < 18446744073709551616 -> u64 z = z.
Proof. apply Z.mod_small. Qed.
Lemma u32_idem z : u32 (u32 z) = u32 z.
Proof. apply u32_small, u32_range. Qed.
Lemma u32_add_l a b : u32 (u32 a + b) = u32 (a + b).
Proof. unfold u32. apply Zplus_mod_idemp_l. Qed.
Lemma u32_add_r a b : u32 (a + u32 b) = u32 (a + b).
Proof. unfold u32. apply Zplus_mod_idemp_r. Qed.
Lemma u32_sub_l a b : u32 (u32 a - b) = u32 (a - b).
Proof. unfold u32. apply Zminus_mod_idemp_l. Qed.
Lemma u32_sub_r a b : u32 (a - u32 b) = u32 (a - b).
Proof. unfold u32. apply Zminus_mod_idemp_r. Qed.

(** Joining two bit fields: [x << n | y]. *)
Lemma lor_shiftl n a b : 0 <= n -> 0 <= b < 2 ^ n -> Z.lor (Z.shiftl a n) b = a * 2 ^ n + b.
Proof.
  intros Hn Hb. rewrite <-Z.add_nocarry_lor; [by rewrite Z.shiftl_mul_pow2|].
  apply Z.bits_inj'. intros i Hi. rewrite Z.land_spec, Z.bits_0.
  destruct (Z.lt_ge_cases i n).
  - by rewrite Z.shiftl_spec_low.
  - rewrite (Z.testbit_eqb b) by done.
    rewrite (Z.div_small b) by (pose proof (Z.pow_le_mono_r 2 n i); lia).
    apply andb_false_r.
Qed.

Lemma land_mask n z : 0 <= n -> Z.land z (Z.ones n) = z mod 2 ^ n.
Proof. apply Z.land_ones. Qed.

(** Masking cannot make a number longer. *)
Lemma land_bound k a b : 0 <= k -> 0 <= a < 2 ^ k -> 0 <= Z.land a b < 2 ^ k.
Proof.
  intros Hk Ha. replace (Z.land a b) with (Z.land a b mod 2 ^ k);
    [apply Z.mod_pos_bound; lia|].
  rewrite <-Z.land_ones by done.
  rewrite <-Z.land_assoc, (Z.land_comm b), Z.land_assoc, Z.land_ones by done.
  by rewrite Z.mod_small.
Qed.

(** Case analysis on an integer test of the goal, or of a hypothesis. *)
Ltac case_test :=
  match goal with
  | |- context [?a =? ?b] => destruct (Z.eqb_spec a b)
  | |- context [?a <? ?b] => destruct (Z.ltb_spec a b)
  | |- context [?a <=? ?b] => destruct (Z.leb_spec a b)
  | |- context [?a >? ?b] => destruct (Z.gtb_spec a b)
  | |- context [?a >=? ?b] => destruct (Z.geb_spec a b)
  | |- context [(?a =? ?b)%nat] => destruct (Nat.eqb_spec a b)
  | |- context [(?a <? ?b)%nat] => destruct (Nat.ltb_spec a b)
  | |- context [(?a <=? ?b)%nat] => destruct (Nat.leb_spec a b)
  end.

(** * Bytes and buffers *)

(** A byte is a [Z] in range; a buffer is the list of its bytes. *)
Abbreviation buffer := (list Z) (only parsing).
Definition is_byte (b : Z) : Prop := 0 <= b < 256.
Definition bytes_ok (l : buffer) : Prop := Forall is_byte l.

#[export] Instance is_byte_dec b : Decision (is_byte b).
Proof. unfold is_byte. apply _. Defined.
#[export] Instance bytes_ok_dec l : Decision (bytes_ok l).
Proof. unfold bytes_ok. apply _. Defined.

Definition str (s : string) : buffer :=
  List.map (fun a => Z.of_N (N_of_ascii a)) (String.list_ascii_of_string s).

Definition slice {A} (off n : nat) (l : list A) : list A := take n (drop off l).
(** Overwrite [length src] elements of [l] from [off] on. *)
Definition splice {A} (off : nat) (src l : list A) : list A :=
  take off l ++ src ++ drop (off + length src) l.

(** Bounds-checked load and store of a run of bytes: [memcpy] from, and to, a
    buffer of known size. *)
Definition rd (off n : nat) (l : buffer) : res buffer :=
  if (off + n <=? length l)%nat then Ok (slice off n l) else Fault OutOfBounds.
Definition wr (off : nat) (src l : buffer) : res buffer :=
  if (off + length src <=? length l)%nat then Ok (splice off src l)
  else Fault OutOfBounds.

(** Little-endian integers, the host's representation. *)
Fixpoint le_val (l : buffer) : Z :=
  match l with [] => 0 | b :: l => b + 256 * le_val l end.
Fixpoint le_bytes (n : nat) (z : Z) : buffer :=
  match n with O => [] | S n => z mod 256 :: le_bytes n (z / 256) end.
(** Big-endian (network order) reading of the same bytes. *)
Definition be_val (l : buffer) : Z := le_val (rev l).
Definition be_bytes (n : nat) (z : Z) : buffer := rev (le_bytes n z).

(** [htons]/[ntohs] and [htonl]/[ntohl] on the little-endian host swap the
    bytes of their 16- or 32-bit argument. *)
Definition bswap (n : nat) (z : Z) : Z := le_val (rev (le_bytes n z)).
Abbreviation htons := (bswap 2) (only parsing).
Abbreviation ntohs := (bswap 2) (only parsing).
Abbreviation htonl := (bswap 4) (only parsing).
Abbreviation ntohl := (bswap 4) (only parsing).

(** * Lemmas on buffers *)

Lemma length_slice {A} off n (l : list A) :
  (off + n <= length l)%nat -> length (slice off n l) = n.
Proof. intros H. unfold slice. rewrite length_take, length_drop. lia. Qed.

Lemma length_splice {A} off (src l : list A) :
  (off + length src <= length l)%nat -> length (splice off src l) = length l.
Proof.
  intros H. unfold splice. rewrite !length_app, length_take, length_drop. lia.
Qed.

Lemma lookup_slice {A} off n (l : list A) i :
  slice off n l !! i = if decide (i < n)%nat then l !! (off + i)%nat else None.
Proof.
  unfold slice. case_decide as Hi.
  - rewrite lookup_take_lt by done. apply lookup_drop.
  - apply lookup_take_ge. lia.
Qed.

Lemma lookup_splice {A} off (src l : list A) i :
  (off + length src <= length l)%nat ->
  splice off src l !! i =
  if decide (i < off)%nat then l !! i
  else if decide (i < off + length src)%nat then src !! (i - off)%nat
  else l !! i.
Proof.
  intros H. unfold splice.
  assert (Hl : length (take off l) = off) by (rewrite length_take; lia).
  case_decide as H1; [|case_decide as H2].
  - rewrite lookup_app_l by lia. by apply lookup_take_lt.
  - rewrite lookup_app_r, Hl by lia. by apply lookup_app_l; lia.
  - rewrite lookup_app_r, Hl, lookup_app_r, lookup_drop by lia. f_equal. lia.
Qed.

(** Two buffers agree when they agree byte by byte. *)
Ltac by_lookup :=
  apply list_eq; intros ?i;
  rewrite ?lookup_slice, ?lookup_splice by lia;
  repeat case_decide; try lia;
  rewrite ?lookup_slice, ?lookup_splice by lia;
  repeat case_decide; try lia; try done; try (f_equal; lia).

Lemma slice_splice_eq {A} off n (src l : list A) :
  n = length src -> (off + n <= length l)%nat ->
  slice off n (splice off src l) = src.
Proof.
  intros -> H. apply list_eq. intros i. rewrite lookup_slice.
  case_decide.
  - rewrite lookup_splice by lia. repeat case_decide; try lia. f_equal. lia.
  - symmetry. apply lookup_ge_None. lia.
Qed.

Lemma slice_splice_ne {A} o n off (src l : list A) :
  (off + length src <= length l)%nat ->
  (o + n <= off \/ off + length src <= o)%nat ->
  slice o n (splice off src l) = slice o n l.
Proof. intros. by_lookup. Qed.

(** A store inside the region read is a store in the part read. *)
Lemma slice_splice_inside {A} o n off (src l : list A) :
  (o <= off)%nat -> (off + length src <= o + n)%nat -> (o + n <= length l)%nat ->
  slice o n (splice off src l) = splice (off - o) src (slice o n l).
Proof.
  intros. apply list_eq. intros i.
  rewrite lookup_slice, lookup_splice, lookup_splice, lookup_slice
    by (rewrite ?length_slice; lia).
  repeat case_decide; try lia; try done; f_equal; lia.
Qed.

Lemma slice_all {A} (l : list A) : slice 0 (length l) l = l.
Proof. unfold slice. rewrite drop_0. apply take_ge. lia. Qed.

Lemma splice_all {A} (src l : list A) :
  length src = length l -> splice 0 src l = src.
Proof.
  intros H. unfold splice. rewrite take_0, drop_ge by lia. apply app_nil_r.
Qed.

(** Filling a buffer from the front. *)
Lemma splice_app {A} (off : nat) (pre src l : list A) :
  length pre = off -> splice off src (pre ++ l) = (pre ++ src) ++ drop (length src) l.
Proof.
  intros <-. unfold splice. rewrite take_app_length, <-app_assoc.
  f_equal. f_equal. rewrite <-drop_drop. by rewrite drop_app_length.
Qed.


Lemma splice_slice_id {A} off n (l : list A) :
  (off + n <= length l)%nat -> splice off (slice off n l) l = l.
Proof.
  intros H. apply list_eq. intros i.
  rewrite lookup_splice by (rewrite length_slice; lia).
  rewrite length_slice by lia. repeat case_decide; try done.
  rewrite lookup_slice. case_decide; [f_equal|]; lia.
Qed.

Lemma slice_app_l {A} off n (l k : list A) :
  (off + n <= length l)%nat -> slice off n (l ++ k) = slice off n l.
Proof.
  intros H. apply list_eq. intros i. rewrite !lookup_slice. case_decide; [|done].
  apply lookup_app_l. lia.
Qed.

Lemma slice_app_r {A} off n (l k : list A) :
  (length l <= off)%nat -> slice off n (l ++ k) = slice (off - length l) n k.
Proof.
  intros H. apply list_eq. intros i. rewrite !lookup_slice. case_decide; [|done].
  rewrite lookup_app_r by lia. f_equal. lia.
Qed.

Lemma slice_slice {A} o n o' n' (l : list A) :
  (o + n <= n')%nat -> slice o n (slice o' n' l) = slice (o' + o) n l.
Proof.
  intros H. apply list_eq. intros i. rewrite !lookup_slice.
  repeat case_decide; try lia; try done. f_equal. lia.
Qed.

Lemma bytes_ok_app l k : bytes_ok (l ++ k) <-> bytes_ok l /\ bytes_ok k.
Proof. apply Forall_app. Qed.
Lemma bytes_ok_slice off n l : bytes_ok l -> bytes_ok (slice off n l).
Proof. intros H. apply Forall_take, Forall_drop, H. Qed.
Lemma bytes_ok_splice off src l :
  bytes_ok src -> bytes_ok l -> bytes_ok (splice off src l).
Proof.
  intros. unfold splice. rewrite !bytes_ok_app.
  split; [by apply Forall_take|]. split; [done|by apply Forall_drop].
Qed.

(** * Lemmas on the little-endian codec *)

Lemma length_le_bytes n z : length (le_bytes n z) = n.
Proof. revert z. induction n; intros z; simpl; [done|]. by rewrite IHn. Qed.

Lemma le_bytes_ok n z : bytes_ok (le_bytes n z).
Proof.
  revert z. induction n; intros z; simpl; constructor; [|apply IHn].
  unfold is_byte. apply Z.mod_pos_bound. lia.
Qed.

Lemma le_val_bound l : bytes_ok l -> 0 <= le_val l < 256 ^ Z.of_nat (length l).
Proof.
  induction 1 as [|b l Hb Hl IH]; simpl length; simpl le_val.
  - change (256 ^ Z.of_nat 0) with 1. lia.
  - rewrite Nat2Z.inj_succ, Z.pow_succ_r by lia. unfold is_byte in Hb. lia.
Qed.

Lemma le_val_le_bytes n z : le_val (le_bytes n z) = z mod 256 ^ Z.of_nat n.
Proof.
  revert z. induction n as [|n IH]; intros z.
  - change (256 ^ Z.of_nat 0) with 1. by rewrite Z.mod_1_r.
  - cbn [le_bytes le_val]. rewrite IH, Nat2Z.inj_succ, Z.pow_succ_r by lia.
    rewrite Z.rem_mul_r by lia. done.
Qed.

Lemma le_bytes_le_val l : bytes_ok l -> le_bytes (length l) (le_val l) = l.
Proof.
  induction 1 as [|b l Hb Hl IH]; [done|]. simpl.
  unfold is_byte in Hb.
  replace ((b + 256 * le_val l) mod 256) with b
    by (rewrite (Z.mul_comm 256), Z_mod_plus_full, Z.mod_small; lia).
  replace ((b + 256 * le_val l) / 256) with (le_val l)
    by (rewrite (Z.mul_comm 256), Z_div_plus_full, Z.div_small; lia).
  by rewrite IH.
Qed.

Lemma bytes_ok_rev l : bytes_ok l -> bytes_ok (rev l).
Proof. unfold bytes_ok. rewrite !Forall_forall. intros H x Hx. apply H. by rewrite list_elem_of_In, <-in_rev, <-list_elem_of_In in Hx. Qed.

(** Reading a field of the network in host order and swapping gives its
    big-endian value. *)
Lemma bswap_le_val l : bytes_ok l -> bswap (length l) (le_val l) = be_val l.
Proof. intros H. unfold bswap, be_val. by rewrite le_bytes_le_val. Qed.

Lemma bswap_range n z : 0 <= bswap n z < 256 ^ Z.of_nat n.
Proof.
  pose proof (le_val_bound (rev (le_bytes n z)) (bytes_ok_rev _ (le_bytes_ok n z))).
  rewrite length_rev, length_le_bytes in H. done.
Qed.

Lemma bswap_bswap n z : 0 <= z < 256 ^ Z.of_nat n -> bswap n (bswap n z) = z.
Proof.
  intros H. unfold bswap at 1.
  replace (le_bytes n (bswap n z)) with (rev (le_bytes n z)).
  - rewrite rev_involutive, le_val_le_bytes. by apply Z.mod_small.
  - unfold bswap. rewrite <-(length_le_bytes n z) at 2. rewrite <-length_rev.
    symmetry. apply le_bytes_le_val, bytes_ok_rev, le_bytes_ok.
Qed.

(** The bytes of a swapped integer are those of the integer in network order. *)
Lemma le_bytes_bswap n z : le_bytes n (bswap n z) = be_bytes n z.
Proof.
  unfold bswap, be_bytes. rewrite <-(length_le_bytes n z) at 1. rewrite <-length_rev.
  apply le_bytes_le_val, bytes_ok_rev, le_bytes_ok.
Qed.

Lemma bswap_inj n x y :
  0 <= x < 256 ^ Z.of_nat n -> 0 <= y < 256 ^ Z.of_nat n ->
  bswap n x = bswap n y -> x = y.
Proof. intros Hx Hy H. by rewrite <-(bswap_bswap n x), H, bswap_bswap. Qed.

(** Induction on a list two elements at a time. *)
Lemma list_pair_ind {A} (P : list A -> Prop) :
  P [] -> (forall a, P [a]) -> (forall a b l, P l -> P (a :: b :: l)) -> forall l, P l.
Proof.
  intros H0 H1 H2 l. enough (P l /\ forall a, P (a :: l)) by tauto.
  induction l as [|b l [IH1 IH2]]; auto.
Qed.

(** * Checked access *)

Lemma rd_ok off n l : (off + n <= length l)%nat -> rd off n l = Ok (slice off n l).
Proof. intros H. unfold rd. by rewrite (proj2 (Nat.leb_le _ _)). Qed.
Lemma rd_all n l : length l = n -> rd 0 n l = Ok l.
Proof. intros <-. rewrite rd_ok by lia. by rewrite slice_all. Qed.
Lemma rd_oob off n l : (length l < off + n)%nat -> rd off n l = Fault OutOfBounds.
Proof. intros H. unfold rd. by rewrite (proj2 (Nat.leb_gt _ _)). Qed.
Lemma wr_ok off src l :
  (off + length src <= length l)%nat -> wr off src l = Ok (splice off src l).
Proof. intros H. unfold wr. by rewrite (proj2 (Nat.leb_le _ _)). Qed.
Lemma wr_oob off src l :
  (length l < off + length src)%nat -> wr off src l = Fault OutOfBounds.
Proof. intros H. unfold wr. by rewrite (proj2 (Nat.leb_gt _ _)). Qed.

Create HintDb cnet.
#[export] Hint Resolve le_bytes_ok bytes_ok_slice bytes_ok_splice bytes_ok_rev : cnet.
#[export] Hint Rewrite @length_app @length_le_bytes @length_rev @length_take
  @length_drop @length_replicate : len.

(** Goals about lengths of buffers built by stores. *)
Ltac len :=
  repeat first
    [ progress autorewrite with len
    | rewrite length_splice by len
    | rewrite length_slice by len ];
  simpl length; try lia.
