(* ===== verification/Mem.v ===== *)
(** Struct fields inside byte buffers: the loads and stores a packed C struct
    pointer into a packet compiles to, with the laws of reading through
    stores. *)
From S2P Require Import Prelude.

(** A field of a packed struct: its offset from the struct's start and its
    size in bytes. *)
Record field := Field { f_off : nat; f_size : nat }.

(** [p->f] for an integer field of a struct at [base] in [buf] (host order). *)
Definition ld (f : field) (base : nat) (buf : buffer) : res Z :=
  bs ← rd (base + f_off f) (f_size f) buf; mret (le_val bs).
(** [p->f = v]: the value is truncated to the width of the field. *)
Definition st (f : field) (base : nat) (v : Z) (buf : buffer) : res buffer :=
  wr (base + f_off f) (le_bytes (f_size f) v) buf.
(** [memcpy(dst, p->f, sizeof p->f)] and [memcpy(p->f, src, sizeof p->f)]. *)
Definition ld_arr (f : field) (base : nat) (buf : buffer) : res buffer :=
  rd (base + f_off f) (f_size f) buf.
Definition st_arr (f : field) (base : nat) (src : buffer) (buf : buffer) : res buffer :=
  src' ← rd 0 (f_size f) src; wr (base + f_off f) src' buf.

(** The bytes and the value of a field that is in bounds. *)
Definition fbytes (f : field) (base : nat) (buf : buffer) : buffer :=
  slice (base + f_off f) (f_size f) buf.
Definition fval (f : field) (base : nat) (buf : buffer) : Z :=
  le_val (fbytes f base buf).
(** What a store leaves. *)
Definition fset (f : field) (base : nat) (v : Z) (buf : buffer) : buffer :=
  splice (base + f_off f) (le_bytes (f_size f) v) buf.
Definition fset_arr (f : field) (base : nat) (src buf : buffer) : buffer :=
  splice (base + f_off f) src buf.

Definition in_field (f : field) (base : nat) (buf : buffer) : Prop :=
  (base + f_off f + f_size f <= length buf)%nat.

Section field_lemmas.
Context (f : field) (base : nat).

Lemma ld_ok buf : in_field f base buf -> ld f base buf = Ok (fval f base buf).
Proof. intros H. unfold ld. by rewrite rd_ok by (unfold in_field in H; lia). Qed.

Lemma ld_oob buf :
  (length buf < base + f_off f + f_size f)%nat -> ld f base buf = Fault OutOfBounds.
Proof. intros H. unfold ld. by rewrite rd_oob by lia. Qed.

Lemma ld_arr_ok buf :
  in_field f base buf -> ld_arr f base buf = Ok (fbytes f base buf).
Proof. intros H. by apply rd_ok. Qed.

Lemma st_ok v buf : in_field f base buf -> st f base v buf = Ok (fset f base v buf).
Proof.
  intros H. unfold st. apply wr_ok. rewrite length_le_bytes. apply H.
Qed.

Lemma st_oob v buf :
  (length buf < base + f_off f + f_size f)%nat ->
  st f base v buf = Fault OutOfBounds.
Proof. intros H. unfold st. apply wr_oob. by rewrite length_le_bytes. Qed.

Lemma st_arr_ok src buf :
  length src = f_size f -> in_field f base buf ->
  st_arr f base src buf = Ok (fset_arr f base src buf).
Proof.
  intros Hs H. unfold st_arr. rewrite rd_all by done. apply wr_ok. rewrite Hs. apply H.
Qed.

Lemma length_fset v buf :
  in_field f base buf -> length (fset f base v buf) = length buf.
Proof. intros H. apply length_splice. rewrite length_le_bytes. apply H. Qed.

Lemma length_fset_arr src buf :
  length src = f_size f -> in_field f base buf ->
  length (fset_arr f base src buf) = length buf.
Proof. intros Hs H. apply length_splice. rewrite Hs. apply H. Qed.

Lemma length_fbytes buf : in_field f base buf -> length (fbytes f base buf) = f_size f.
Proof. intros H. by apply length_slice. Qed.

Lemma fbytes_ok buf : bytes_ok buf -> bytes_ok (fbytes f base buf).
Proof. apply bytes_ok_slice. Qed.

Lemma fval_range buf :
  in_field f base buf -> bytes_ok buf ->
  0 <= fval f base buf < 256 ^ Z.of_nat (f_size f).
Proof.
  intros H Hb. unfold fval.
  pose proof (le_val_bound _ (fbytes_ok buf Hb)) as Hr.
  by rewrite length_fbytes in Hr.
Qed.

Lemma fset_bytes_ok v buf : bytes_ok buf -> bytes_ok (fset f base v buf).
Proof. intros H. apply bytes_ok_splice; [apply le_bytes_ok|done]. Qed.

Lemma fset_arr_bytes_ok src buf :
  bytes_ok src -> bytes_ok buf -> bytes_ok (fset_arr f base src buf).
Proof. apply bytes_ok_splice. Qed.

(** Reading back the field just written. *)
Lemma fval_fset v buf :
  in_field f base buf -> fval f base (fset f base v buf) = v mod 256 ^ Z.of_nat (f_size f).
Proof.
  intros H. unfold fval, fbytes, fset.
  rewrite slice_splice_eq by (rewrite ?length_le_bytes; done).
  apply le_val_le_bytes.
Qed.

Lemma fbytes_fset v buf :
  in_field f base buf -> fbytes f base (fset f base v buf) = le_bytes (f_size f) v.
Proof.
  intros H. unfold fbytes, fset.
  by rewrite slice_splice_eq by (rewrite ?length_le_bytes; done).
Qed.

Lemma fbytes_fset_arr src buf :
  length src = f_size f -> in_field f base buf ->
  fbytes f base (fset_arr f base src buf) = src.
Proof.
  intros Hs H. unfold fbytes, fset_arr.
  by rewrite slice_splice_eq by (rewrite ?Hs; done).
Qed.

(** Writing back the value read changes nothing. *)
Lemma fset_fval buf :
  bytes_ok buf -> in_field f base buf -> fset f base (fval f base buf) buf = buf.
Proof.
  intros Hb H. unfold fset, fval.
  rewrite <-(length_fbytes buf) at 1 by done.
  rewrite le_bytes_le_val by (by apply fbytes_ok).
  by apply splice_slice_id.
Qed.
End field_lemmas.

(** Reading a region that a store does not touch. *)
Lemma slice_fset_ne o n f base v buf :
  in_field f base buf ->
  (o + n <= base + f_off f \/ base + f_off f + f_size f <= o)%nat ->
  slice o n (fset f base v buf) = slice o n buf.
Proof.
  intros H Hd. unfold fset. apply slice_splice_ne; rewrite length_le_bytes; [apply H|lia].
Qed.

Lemma slice_fset_arr_ne o n f base src buf :
  length src = f_size f -> in_field f base buf ->
  (o + n <= base + f_off f \/ base + f_off f + f_size f <= o)%nat ->
  slice o n (fset_arr f base src buf) = slice o n buf.
Proof. intros Hs H Hd. apply slice_splice_ne; rewrite Hs; [apply H|lia]. Qed.

Definition disjoint_fields (f : field) (b : nat) (g : field) (c : nat) : Prop :=
  (b + f_off f + f_size f <= c + f_off g \/ c + f_off g + f_size g <= b + f_off f)%nat.

Lemma fbytes_fset_ne f b g c v buf :
  in_field g c buf -> disjoint_fields f b g c ->
  fbytes f b (fset g c v buf) = fbytes f b buf.
Proof. intros H Hd. apply slice_fset_ne; [done|unfold disjoint_fields in Hd; lia]. Qed.

Lemma fval_fset_ne f b g c v buf :
  in_field g c buf -> disjoint_fields f b g c ->
  fval f b (fset g c v buf) = fval f b buf.
Proof. intros H Hd. unfold fval. by rewrite fbytes_fset_ne. Qed.

Lemma fbytes_fset_arr_ne f b g c src buf :
  length src = f_size g -> in_field g c buf -> disjoint_fields f b g c ->
  fbytes f b (fset_arr g c src buf) = fbytes f b buf.
Proof. intros Hs H Hd. apply slice_fset_arr_ne; [done|done|unfold disjoint_fields in Hd; lia]. Qed.

Lemma fval_fset_arr_ne f b g c src buf :
  length src = f_size g -> in_field g c buf -> disjoint_fields f b g c ->
  fval f b (fset_arr g c src buf) = fval f b buf.
Proof. intros. unfold fval. by rewrite fbytes_fset_arr_ne. Qed.

(** The second of two stores to a field wins. *)
Lemma fset_fset f b v w buf :
  in_field f b buf -> fset f b v (fset f b w buf) = fset f b v buf.
Proof.
  intros H. unfold fset, in_field in *. apply list_eq. intros i.
  rewrite !lookup_splice by (rewrite ?length_splice, ?length_le_bytes; rewrite ?length_le_bytes; lia).
  rewrite !length_le_bytes. by repeat case_decide.
Qed.

(** Putting back the value that was there. *)
Lemma fset_back f b v buf :
  bytes_ok buf -> in_field f b buf -> fset f b (fval f b buf) (fset f b v buf) = buf.
Proof. intros Hb H. rewrite fset_fset by done. by apply fset_fval. Qed.

(** Side conditions of the laws above, from hypotheses that give the lengths
    of the buffers. *)
Ltac field_lits :=
  repeat match goal with
  | |- context [f_off ?f] =>
      let v := eval cbv in (f_off f) in is_nat_lit v; change (f_off f) with v
  | |- context [f_size ?f] =>
      let v := eval cbv in (f_size f) in is_nat_lit v; change (f_size f) with v
  end
with is_nat_lit v := match v with O => idtac | S ?w => is_nat_lit w end.
Ltac in_bounds :=
  unfold in_field, disjoint_fields; field_lits; first [done | lia].

(** Run one load or store of the goal. A store names the buffer it makes and
    keeps its length, its being bytes, and the equation that defines it. *)
Ltac mem_store_at q f b v p :=
  rewrite (st_ok f b v p) by in_bounds; cbn [mbind res_bind];
  let L := fresh "L" q in let B := fresh "B" q in let E := fresh "E" q in
  assert (L : length (fset f b v p) = length p) by (apply length_fset; in_bounds);
  try (assert (B : bytes_ok (fset f b v p)) by (apply fset_bytes_ok; assumption));
  remember (fset f b v p) as q eqn:E in *.
Ltac mem_store_arr_at q f b v p :=
  rewrite (st_arr_ok f b v p) by in_bounds; cbn [mbind res_bind];
  let L := fresh "L" q in let B := fresh "B" q in let E := fresh "E" q in
  assert (L : length (fset_arr f b v p) = length p) by (apply length_fset_arr; in_bounds);
  try (assert (B : bytes_ok (fset_arr f b v p)) by (apply fset_arr_bytes_ok; assumption));
  remember (fset_arr f b v p) as q eqn:E in *.
Ltac mem_step_at c :=
  match c with
  | mbind _ ?d => mem_step_at d
  | ld ?f ?b ?p => rewrite (ld_ok f b p) by in_bounds; cbn [mbind res_bind]
  | ld_arr ?f ?b ?p => rewrite (ld_arr_ok f b p) by in_bounds; cbn [mbind res_bind]
  | rd ?o ?n ?p => rewrite (rd_ok o n p) by lia; cbn [mbind res_bind]
  | st ?f ?b ?v ?p => let q := fresh "p" in mem_store_at q f b v p
  | st_arr ?f ?b ?v ?p => let q := fresh "p" in mem_store_arr_at q f b v p
  end.
Ltac mem_step :=
  match goal with
  | |- ok_with ?c _ => mem_step_at c
  | |- ?c = _ => mem_step_at c
  end.

(** Read a field, or a slice, of the goal back through the stores above. *)
Ltac mem_read_step :=
  match goal with
  | E : ?q = fset ?g ?c ?v ?p |- context [fval ?f ?b ?q] =>
      rewrite E; first [ rewrite (fval_fset_ne f b g c v p) by in_bounds
                       | rewrite (fval_fset f b v p) by in_bounds ]
  | E : ?q = fset_arr ?g ?c ?v ?p |- context [fval ?f ?b ?q] =>
      rewrite E; rewrite (fval_fset_arr_ne f b g c v p) by in_bounds
  | E : ?q = fset ?g ?c ?v ?p |- context [fbytes ?f ?b ?q] =>
      rewrite E; first [ rewrite (fbytes_fset_ne f b g c v p) by in_bounds
                       | rewrite (fbytes_fset f b v p) by in_bounds ]
  | E : ?q = fset_arr ?g ?c ?v ?p |- context [fbytes ?f ?b ?q] =>
      rewrite E; first [ rewrite (fbytes_fset_arr_ne f b g c v p) by in_bounds
                       | rewrite (fbytes_fset_arr f b v p) by in_bounds ]
  | E : ?q = fset ?g ?c ?v ?p |- context [slice ?o ?n ?q] =>
      rewrite E, (slice_fset_ne o n g c v p) by in_bounds
  | E : ?q = fset_arr ?g ?c ?v ?p |- context [slice ?o ?n ?q] =>
      rewrite E, (slice_fset_arr_ne o n g c v p) by in_bounds
  end.
Ltac mem_read := repeat mem_read_step.

(** Run a load in the state-and-fault monad. *)
Ltac mload :=
  match goal with
  | |- context [mbind _ (lift (ld ?f ?b ?p)) ?s] => rewrite (ld_ok f b p) by in_bounds
  | |- context [mbind _ (lift (ld_arr ?f ?b ?p)) ?s] =>
      rewrite (ld_arr_ok f b p) by in_bounds
  | |- context [mbind _ (lift (rd ?o ?n ?p)) ?s] => rewrite (rd_ok o n p) by lia
  end; exec.
