(* ===== verification/Cksum.v ===== *)
(** The Internet checksum of the router (router/src/router/sr_utils.c) and its
    closed form: the ones'-complement sum modulo 65535. *)
From S2P Require Import Prelude.

(** [for (sum = 0; len >= 2; data += 2, len -= 2) sum += data[0] << 8 | data[1];
    if (len > 0) sum += data[0] << 8;], in 32-bit arithmetic. *)
Fixpoint cksum_sum (data : buffer) (sum : Z) : Z :=
  match data with
  | a :: b :: rest => cksum_sum rest (u32 (sum + Z.lor (Z.shiftl a 8) b))
  | [a] => u32 (sum + Z.shiftl a 8)
  | [] => sum
  end.

(** [while (sum > 0xffff) sum = (sum >> 16) + (sum & 0xffff);] *)
Fixpoint cksum_fold (fuel : nat) (sum : Z) : res Z :=
  match fuel with
  | O => Fault OutOfFuel
  | S fuel =>
      if sum >? 0xffff
      then cksum_fold fuel (u32 (Z.shiftr sum 16 + Z.land sum 0xffff))
      else Ok sum
  end.

(** Three turns are enough for any 32-bit sum ([cksum_fold_enough]). *)
Definition cksum (data : buffer) : res Z :=
  sum ← cksum_fold 3 (cksum_sum data 0);
  let sum := htons (u16 (u32 (Z.lnot sum))) in
  mret (if sum =? 0 then 0xffff else sum).

(** The exact (unbounded) sum of the big-endian 16-bit words of the data. *)
Fixpoint word_sum (data : buffer) : Z :=
  match data with
  | a :: b :: rest => (256 * a + b) + word_sum rest
  | [a] => 256 * a
  | [] => 0
  end.

(** The checksum as a number: the value of the field in network byte order. *)
Definition cksum_value (data : buffer) : Z := 65535 - word_sum data mod 65535.

(** RFC 1071: data that carries its checksum sums to zero modulo 65535, i.e. to
    all ones in ones' complement. *)
Definition rfc1071_valid (data : buffer) : Prop :=
  word_sum data mod 65535 = 0 /\ word_sum data <> 0.

(** * The accumulated sum *)

Lemma word_sum_nonneg data : bytes_ok data -> 0 <= word_sum data.
Proof.
  induction data as [|a|a b l IH] using list_pair_ind; simpl; intros H;
    [lia| |]; repeat (apply Forall_cons in H as [? H]); unfold is_byte in *.
  - lia.
  - specialize (IH H). lia.
Qed.

Lemma word_sum_bound data :
  bytes_ok data -> 2 * word_sum data <= 65535 * (Z.of_nat (length data) + 1).
Proof.
  induction data as [|a|a b l IH] using list_pair_ind; simpl; intros H;
    [lia| |]; repeat (apply Forall_cons in H as [? H]); unfold is_byte in *.
  - lia.
  - specialize (IH H). lia.
Qed.

Lemma cksum_sum_exact data sum :
  bytes_ok data -> 0 <= sum -> sum + word_sum data < 4294967296 ->
  cksum_sum data sum = sum + word_sum data.
Proof.
  revert sum. induction data as [|a|a b l IH] using list_pair_ind;
    cbn [cksum_sum word_sum]; intros sum H Hs Hlt;
    [lia| |]; repeat (apply Forall_cons in H as [? H]); unfold is_byte in *.
  - rewrite Z.shiftl_mul_pow2 by lia. rewrite u32_small; lia.
  - pose proof (word_sum_nonneg _ H).
    rewrite lor_shiftl by lia. rewrite u32_small by lia.
    rewrite IH; try done; lia.
Qed.

(** * Folding the carries *)

Lemma fold_step_bound sum :
  0 <= sum < 4294967296 ->
  let s := u32 (Z.shiftr sum 16 + Z.land sum 0xffff) in
  s = sum / 65536 + sum mod 65536 /\ s mod 65535 = sum mod 65535.
Proof.
  intros H. simpl. rewrite Z.shiftr_div_pow2 by lia.
  change 0xffff with (Z.ones 16). rewrite Z.land_ones by lia.
  change (2 ^ 16) with 65536.
  pose proof (Z.mod_pos_bound sum 65536 ltac:(lia)).
  pose proof (Z.div_pos sum 65536 ltac:(lia) ltac:(lia)).
  pose proof (Z.div_lt_upper_bound sum 65536 65536 ltac:(lia) ltac:(lia)).
  rewrite u32_small by lia. split; [done|].
  rewrite (Z.div_mod sum 65536) at 3 by lia.
  replace (65536 * (sum / 65536) + sum mod 65536)
    with (sum / 65536 + sum mod 65536 + sum / 65536 * 65535) by lia.
  by rewrite Z_mod_plus_full.
Qed.

Lemma cksum_fold_done fuel sum : sum <= 65535 -> cksum_fold (S fuel) sum = Ok sum.
Proof. intros H. cbn [cksum_fold]. case_test; [lia|done]. Qed.

Lemma cksum_fold_step fuel sum :
  0 <= sum < 4294967296 -> 65535 < sum ->
  exists s, cksum_fold (S fuel) sum = cksum_fold fuel s /\ 0 < s /\
    s mod 65535 = sum mod 65535 /\ s = sum / 65536 + sum mod 65536.
Proof.
  intros H Hlt. destruct (fold_step_bound sum H) as [Hs Hm]. simpl in Hs, Hm.
  exists (sum / 65536 + sum mod 65536). split.
  - cbn [cksum_fold]. rewrite Hs. case_test; [done|lia].
  - rewrite <-Hs at 2. rewrite Hm. repeat split.
    Z.div_mod_to_equations; lia.
Qed.

(** The fuel is enough: the fold of any 32-bit sum returns, with the sum
    modulo 65535 in 16 bits, and zero only for zero. *)
Lemma cksum_fold_enough sum :
  0 <= sum < 4294967296 ->
  exists r, cksum_fold 3 sum = Ok r /\ 0 <= r <= 65535 /\
    r mod 65535 = sum mod 65535 /\ (r = 0 <-> sum = 0).
Proof.
  intros H. destruct (Z.le_gt_cases sum 65535) as [?|Hgt].
  { exists sum. rewrite cksum_fold_done by lia. repeat split; lia. }
  destruct (cksum_fold_step 2 sum H Hgt) as (s & -> & Hs & Hm & Hd).
  assert (Hb : s <= 131070) by (subst s; clear -H; Z.div_mod_to_equations; lia).
  destruct (Z.le_gt_cases s 65535) as [?|Hgt'].
  { exists s. rewrite cksum_fold_done by lia. repeat split; lia. }
  destruct (cksum_fold_step 1 s ltac:(lia) Hgt') as (t & -> & Ht & Hm' & Hd').
  assert (t <= 65535) by (clear -Hb Hs Hd'; subst t; Z.div_mod_to_equations; lia).
  exists t. rewrite cksum_fold_done by lia. repeat split; lia.
Qed.

(** The largest buffer for which the 32-bit accumulator cannot wrap. *)
Definition cksum_max_len : Z := 131071.

Lemma cksum_sum_word_sum data :
  bytes_ok data -> Z.of_nat (length data) <= cksum_max_len ->
  cksum_sum data 0 = word_sum data /\ 0 <= word_sum data < 4294967296.
Proof.
  unfold cksum_max_len. intros Hb Hl.
  pose proof (word_sum_nonneg _ Hb). pose proof (word_sum_bound _ Hb).
  rewrite cksum_sum_exact by (done || lia). lia.
Qed.

Lemma cksum_value_range data : 1 <= cksum_value data <= 65535.
Proof.
  unfold cksum_value. pose proof (Z.mod_pos_bound (word_sum data) 65535). lia.
Qed.

(** What [cksum] returns, on every buffer whose sum cannot wrap: the value
    65535 - (sum mod 65535), stored in network byte order, and never zero. *)
Lemma cksum_eq data :
  bytes_ok data -> Z.of_nat (length data) <= cksum_max_len ->
  cksum data = Ok (htons (cksum_value data)).
Proof.
  intros Hb Hl. destruct (cksum_sum_word_sum data Hb Hl) as [Hs Hr].
  destruct (cksum_fold_enough _ Hr) as (r & Hf & Hrr & Hm & Hz).
  unfold cksum. rewrite Hs, Hf. cbn [mbind res_bind mret res_ret].
  assert (Hu : u16 (u32 (Z.lnot r)) = 65535 - r).
  { unfold Z.lnot, u16, u32. rewrite <-Z.sub_1_r.
    replace ((- r - 1) mod 4294967296) with (4294967295 - r)
      by (apply (Z.mod_unique _ _ (-1)); lia).
    symmetry. apply (Z.mod_unique _ _ 65535); lia. }
  rewrite Hu. f_equal. unfold cksum_value. rewrite <-Hm.
  destruct (Z.eq_dec r 65535) as [->|Hne]; [done|].
  rewrite (Z.mod_small r) by lia.
  case_test; [|done]. exfalso.
  assert (65535 - r = 0); [|lia].
  apply (bswap_inj 2); [simpl; lia|simpl; lia|]. done.
Qed.

Lemma cksum_ntohs data :
  bytes_ok data -> Z.of_nat (length data) <= cksum_max_len ->
  exists c, cksum data = Ok c /\ ntohs c = cksum_value data /\ 0 < c < 65536.
Proof.
  intros Hb Hl. pose proof (cksum_value_range data).
  exists (htons (cksum_value data)). split; [by apply cksum_eq|].
  split; [apply bswap_bswap; simpl; lia|].
  pose proof (bswap_range 2 (cksum_value data)) as Hr.
  change (256 ^ Z.of_nat 2) with 65536 in Hr.
  destruct (Z.eq_dec (bswap 2 (cksum_value data)) 0) as [E|?]; [|lia].
  assert (cksum_value data = 0); [|lia].
  apply (bswap_inj 2); [simpl; lia|simpl; lia|]. by rewrite E.
Qed.

(** * The sum of parts *)

Lemma word_sum_app data rest :
  Nat.Even (length data) -> word_sum (data ++ rest) = word_sum data + word_sum rest.
Proof.
  induction data as [|a|a b l IH] using list_pair_ind; simpl; intros He.
  - lia.
  - destruct He as [k Hk]. simpl in Hk. lia.
  - rewrite IH; [lia|]. destruct He as [k Hk]. exists (k - 1)%nat. simpl in Hk. lia.
Qed.

(** The one 16-bit word of a two-byte field. *)
Lemma word_sum_pair l : length l = 2%nat -> word_sum l = be_val l.
Proof.
  destruct l as [|a [|b [|]]]; try discriminate. intros _.
  unfold be_val. simpl. lia.
Qed.

(** Replacing one aligned 16-bit word changes the sum by the difference. *)
Lemma word_sum_splice off src data :
  Nat.Even off -> length src = 2%nat -> (off + 2 <= length data)%nat ->
  word_sum (splice off src data) =
  word_sum data - be_val (slice off 2 data) + be_val src.
Proof.
  intros He Hs Hl. unfold splice.
  assert (Ht : length (take off data) = off) by (rewrite length_take; lia).
  rewrite word_sum_app by (by rewrite Ht).
  rewrite word_sum_app by (rewrite Hs; by exists 1%nat).
  assert (Hd : word_sum data =
    word_sum (take off data) + be_val (slice off 2 data) +
    word_sum (drop (off + 2) data)).
  { rewrite <-(take_drop off data) at 1.
    rewrite word_sum_app by (by rewrite Ht).
    rewrite <-(take_drop 2 (drop off data)), drop_drop.
    assert (Hs2 : length (take 2 (drop off data)) = 2%nat)
      by (rewrite length_take, length_drop; lia).
    rewrite word_sum_app by (rewrite Hs2; by exists 1%nat).
    rewrite (word_sum_pair _ Hs2). unfold slice. lia. }
  rewrite Hs, (word_sum_pair src Hs). lia.
Qed.

(** Storing the checksum of data whose checksum word is zero makes the data
    valid in the sense of RFC 1071. *)
Lemma cksum_stored_valid off data c :
  bytes_ok data -> Z.of_nat (length data) <= cksum_max_len -> Nat.Even off ->
  (off + 2 <= length data)%nat -> slice off 2 data = [0; 0] ->
  cksum data = Ok c -> rfc1071_valid (splice off (le_bytes 2 c) data).
Proof.
  intros Hb Hl He Ho Hz Hc.
  destruct (cksum_ntohs data Hb Hl) as (c' & Hc' & Hn & Hr).
  rewrite Hc in Hc'. injection Hc' as <-.
  pose proof (cksum_value_range data) as Hv.
  pose proof (word_sum_nonneg data Hb) as Hw.
  unfold rfc1071_valid. rewrite word_sum_splice by (done || by rewrite length_le_bytes).
  rewrite Hz. change (be_val (le_bytes 2 c)) with (ntohs c). rewrite Hn.
  change (be_val [0; 0]) with 0. unfold cksum_value in *. split; [|lia].
  rewrite (Z.div_mod (word_sum data) 65535) at 1 by lia.
  replace (65535 * (word_sum data / 65535) + word_sum data mod 65535 - 0 +
           (65535 - word_sum data mod 65535))
    with ((word_sum data / 65535 + 1) * 65535) by lia.
  apply Z_mod_mult.
Qed.

(** * Theorems *)

(** C18: On every buffer of bytes short enough that its 32-bit accumulator
    cannot wrap, [cksum] returns, and what it returns, read in network byte
    order, is 65535 minus the ones'-complement sum of the data; it is never
    zero. *)
Theorem cksum_closed_form data :
  bytes_ok data -> Z.of_nat (length data) <= 131071 ->
  exists c, cksum data = Ok c /\ 0 < c < 65536 /\
    ntohs c = 65535 - word_sum data mod 65535.
Proof.
  intros Hb Hl. destruct (cksum_ntohs data Hb Hl) as (c & Hc & Hn & Hr). eauto.
Qed.

Lemma cksum_closed_form_witness :
  exists c, cksum [0x45; 0; 0; 0x54; 1] = Ok c /\ 0 < c < 65536 /\
    ntohs c = 65535 - word_sum [0x45; 0; 0; 0x54; 1] mod 65535.
Proof.
  apply (cksum_closed_form [0x45; 0; 0; 0x54; 1]).
  - repeat constructor; unfold is_byte; lia.
  - simpl. lia.
Defined.
