(* ===== verification/Protocol.v ===== *)
(** The wire formats of router/src/router/sr_protocol.h: the packed structs as
    fields inside a frame, the protocol constants, and the views of a frame as
    records with their encoders. *)
From S2P Require Import Prelude Mem.

(** * Constants *)
Definition ICMP_DATA_SIZE : nat := 28.
Definition ETHER_ADDR_LEN : nat := 6.
Definition sr_IFACE_NAMELEN : nat := 32.
Definition IP_DF : Z := 0x4000.
Definition ip_protocol_icmp : Z := 1.
Definition ethertype_arp : Z := 0x0806.
Definition ethertype_ip : Z := 0x0800.
Definition arp_op_request : Z := 1.
Definition arp_op_reply : Z := 2.
Definition arp_hrd_ethernet : Z := 1.

(** * [struct sr_ethernet_hdr] *)
Definition ether_dhost := Field 0 6.
Definition ether_shost := Field 6 6.
Definition ether_type := Field 12 2.
Definition sizeof_ether : nat := 14.

(** * [struct sr_ip_hdr]; [ip_hl] and [ip_v] share the first byte, low nibble
    first on the little-endian host. *)
Definition ip_hl_v := Field 0 1.
Definition ip_tos := Field 1 1.
Definition ip_len := Field 2 2.
Definition ip_id := Field 4 2.
Definition ip_off := Field 6 2.
Definition ip_ttl := Field 8 1.
Definition ip_p := Field 9 1.
Definition ip_sum := Field 10 2.
Definition ip_src := Field 12 4.
Definition ip_dst := Field 16 4.
Definition sizeof_ip : nat := 20.

Definition ld_ip_hl (base : nat) (buf : buffer) : res Z :=
  b ← ld ip_hl_v base buf; mret (Z.land b 0xf).
Definition ld_ip_v (base : nat) (buf : buffer) : res Z :=
  b ← ld ip_hl_v base buf; mret (Z.shiftr b 4).
Definition st_ip_hl (base : nat) (v : Z) (buf : buffer) : res buffer :=
  b ← ld ip_hl_v base buf;
  st ip_hl_v base (Z.lor (Z.land b 0xf0) (Z.land v 0xf)) buf.
Definition st_ip_v (base : nat) (v : Z) (buf : buffer) : res buffer :=
  b ← ld ip_hl_v base buf;
  st ip_hl_v base (Z.lor (Z.land b 0xf) (Z.shiftl (Z.land v 0xf) 4)) buf.

(** * [struct sr_icmp_hdr] and [struct sr_icmp_t3_hdr] *)
Definition icmp_type := Field 0 1.
Definition icmp_code := Field 1 1.
Definition icmp_sum := Field 2 2.
Definition t3_unused := Field 4 2.
Definition t3_next_mtu := Field 6 2.
Definition t3_data := Field 8 ICMP_DATA_SIZE.
Definition sizeof_icmp_t3 : nat := 36.

(** * [struct sr_arp_hdr] *)
Definition ar_hrd := Field 0 2.
Definition ar_pro := Field 2 2.
Definition ar_hln := Field 4 1.
Definition ar_pln := Field 5 1.
Definition ar_op := Field 6 2.
Definition ar_sha := Field 8 6.
Definition ar_sip := Field 14 4.
Definition ar_tha := Field 18 6.
Definition ar_tip := Field 24 4.
Definition sizeof_arp : nat := 28.

(** * Views: what a receiver reads in a frame, fields in host order *)

Record ether_view := EtherView { ev_dhost : buffer; ev_shost : buffer; ev_type : Z }.

Record ip_view := IpView {
  iv_hl : Z; iv_v : Z; iv_tos : Z; iv_len : Z; iv_id : Z; iv_off : Z;
  iv_ttl : Z; iv_p : Z; iv_sum : Z; iv_src : Z; iv_dst : Z }.

Record arp_view := ArpView {
  av_hrd : Z; av_pro : Z; av_hln : Z; av_pln : Z; av_op : Z;
  av_sha : buffer; av_sip : Z; av_tha : buffer; av_tip : Z }.

(** Addresses ([ip_src], [ar_sip], ...) are kept as the code keeps them, in
    network byte order; the other fields are converted. *)
Definition view_ether (fr : buffer) : ether_view :=
  EtherView (fbytes ether_dhost 0 fr) (fbytes ether_shost 0 fr)
    (ntohs (fval ether_type 0 fr)).

Definition view_ip (fr : buffer) : ip_view :=
  let g f := fval f sizeof_ether fr in
  IpView (Z.land (g ip_hl_v) 0xf) (Z.shiftr (g ip_hl_v) 4) (g ip_tos)
    (ntohs (g ip_len)) (ntohs (g ip_id)) (ntohs (g ip_off)) (g ip_ttl) (g ip_p)
    (ntohs (g ip_sum)) (g ip_src) (g ip_dst).

Definition view_arp (fr : buffer) : arp_view :=
  let g f := fval f sizeof_ether fr in
  ArpView (ntohs (g ar_hrd)) (ntohs (g ar_pro)) (g ar_hln) (g ar_pln)
    (ntohs (g ar_op)) (fbytes ar_sha sizeof_ether fr) (g ar_sip)
    (fbytes ar_tha sizeof_ether fr) (g ar_tip).

(** The bytes of an Ethernet and an ARP header with given fields. *)
Definition encode_ether (e : ether_view) : buffer :=
  ev_dhost e ++ ev_shost e ++ be_bytes 2 (ev_type e).
Definition encode_arp (a : arp_view) : buffer :=
  be_bytes 2 (av_hrd a) ++ be_bytes 2 (av_pro a) ++ [av_hln a] ++ [av_pln a] ++
  be_bytes 2 (av_op a) ++ av_sha a ++ le_bytes 4 (av_sip a) ++ av_tha a ++
  le_bytes 4 (av_tip a).

(** The IP header of a frame as raw bytes. *)
Definition ip_header (fr : buffer) : buffer := slice sizeof_ether sizeof_ip fr.
