(* ===== verification/Interfaces.v ===== *)
(** The interface list of the router (router/src/router/sr_if.c): lookup by
    name, address and Ethernet address, and the incremental construction the
    hardware description drives. *)
From S2P Require Import Prelude Mem Protocol.

(** A C string held in a [char name[32]] array: its bytes up to the NUL, or
    all 32 when the NUL did not fit. *)
Abbreviation cstr := (list Z) (only parsing).

Record sr_if := SrIf { if_name : cstr; if_addr : buffer; if_ip : Z; if_speed : Z }.

(** [strncpy(dst, src, n)] followed by reads bounded by [n]. *)
Definition strncpy (n : nat) (src : cstr) : cstr := take n src.
(** [!strncmp(a, b, n)] *)
Definition strncmp_eq (n : nat) (a b : cstr) : bool := bool_decide (take n a = take n b).

(** [sr_get_interface] *)
Fixpoint sr_get_interface (if_list : list sr_if) (name : cstr) : option sr_if :=
  match if_list with
  | [] => None
  | i :: rest =>
      if strncmp_eq sr_IFACE_NAMELEN (if_name i) name then Some i
      else sr_get_interface rest name
  end.

(** [get_interface_from_ip] *)
Fixpoint get_interface_from_ip (if_list : list sr_if) (ip_address : Z) : option sr_if :=
  match if_list with
  | [] => None
  | i :: rest =>
      if ip_address =? if_ip i then Some i else get_interface_from_ip rest ip_address
  end.

(** The inner loop of [get_interface_from_eth]: compare the first [n] bytes. *)
Fixpoint eth_match (n : nat) (a b : buffer) : res bool :=
  match n with
  | O => Ok true
  | S n =>
      match a, b with
      | x :: a, y :: b => if x =? y then eth_match n a b else Ok false
      | _, _ => Fault OutOfBounds
      end
  end.

(** [get_interface_from_eth] *)
Fixpoint get_interface_from_eth (if_list : list sr_if) (eth_address : buffer)
  : res (option sr_if) :=
  match if_list with
  | [] => Ok None
  | i :: rest =>
      m ← eth_match ETHER_ADDR_LEN (if_addr i) eth_address;
      if (m : bool) then Ok (Some i) else get_interface_from_eth rest eth_address
  end.

(** [sr_add_interface]: a record whose address and IP are whatever [malloc]
    returned goes to the end of the list. *)
Definition sr_add_interface (junk : sr_if) (if_list : list sr_if) (name : cstr)
  : list sr_if :=
  if_list ++ [SrIf (strncpy sr_IFACE_NAMELEN name) (if_addr junk) (if_ip junk)
                (if_speed junk)].

(** Update the last element; the code asserts that there is one. *)
Fixpoint on_last (f : sr_if -> sr_if) (if_list : list sr_if) : res (list sr_if) :=
  match if_list with
  | [] => Fault AssertFail
  | [i] => Ok [f i]
  | i :: rest => r ← on_last f rest; mret (i :: r)
  end.

(** [sr_set_ether_addr] and [sr_set_ether_ip] *)
Definition sr_set_ether_addr (if_list : list sr_if) (addr : buffer) : res (list sr_if) :=
  a ← rd 0 6 addr;
  on_last (fun i => SrIf (if_name i) a (if_ip i) (if_speed i)) if_list.
Definition sr_set_ether_ip (if_list : list sr_if) (ip_nbo : Z) : res (list sr_if) :=
  on_last (fun i => SrIf (if_name i) (if_addr i) (u32 ip_nbo) (if_speed i)) if_list.

(** * Lookup *)

Lemma strncmp_eq_spec n a b : strncmp_eq n a b = true <-> take n a = take n b.
Proof. apply bool_decide_eq_true. Qed.

Lemma strncmp_eq_refl n a : strncmp_eq n a a = true.
Proof. by apply strncmp_eq_spec. Qed.

(** A name shorter than the array compares as itself. *)
Lemma strncmp_eq_short n a b :
  (length a <= n)%nat -> (length b <= n)%nat -> strncmp_eq n a b = true <-> a = b.
Proof. intros. rewrite strncmp_eq_spec, !take_ge by lia. done. Qed.

Lemma sr_get_interface_some l name i :
  sr_get_interface l name = Some i ->
  exists l1 l2, l = l1 ++ i :: l2 /\
    strncmp_eq sr_IFACE_NAMELEN (if_name i) name = true /\
    forall j, j ∈ l1 -> strncmp_eq sr_IFACE_NAMELEN (if_name j) name = false.
Proof.
  induction l as [|j l IH]; simpl; [done|].
  destruct (strncmp_eq _ (if_name j) name) eqn:E.
  - intros [= ->]. exists [], l. repeat split; [done|]. intros k Hk. by apply not_elem_of_nil in Hk.
  - intros (l1 & l2 & -> & H1 & H2)%IH. exists (j :: l1), l2.
    repeat split; [done|]. intros k [->|Hk]%elem_of_cons; auto.
Qed.

Lemma sr_get_interface_none l name :
  sr_get_interface l name = None <->
  forall i, i ∈ l -> strncmp_eq sr_IFACE_NAMELEN (if_name i) name = false.
Proof.
  induction l as [|j l IH]; simpl.
  - split; [|done]. intros _ i Hi. by apply not_elem_of_nil in Hi.
  - destruct (strncmp_eq _ (if_name j) name) eqn:E.
    + split; [done|]. intros H. rewrite H in E; [done|]. set_solver.
    + rewrite IH. split; [|set_solver].
      intros H i [->|Hi]%elem_of_cons; auto.
Qed.

Lemma sr_get_interface_elem l name i : sr_get_interface l name = Some i -> i ∈ l.
Proof. intros (l1 & l2 & -> & _)%sr_get_interface_some. set_solver. Qed.

Lemma get_interface_from_ip_some l ip i :
  get_interface_from_ip l ip = Some i -> i ∈ l /\ if_ip i = ip.
Proof.
  induction l as [|j l IH]; simpl; [done|]. case_test; [intros [= ->]; set_solver|].
  intros [? ?]%IH. set_solver.
Qed.

Lemma on_last_app f l i : on_last f (l ++ [i]) = Ok (l ++ [f i]).
Proof.
  induction l as [|j l IH]; [done|]. simpl.
  destruct (l ++ [i]) as [|k m] eqn:E; [by destruct l|].
  by rewrite IH.
Qed.
