(* ===== verification/RoutingTable.v ===== *)
(** The routing table (router/src/router/sr_rt.c) and the longest-prefix match
    of router/src/router/sr_router.c. *)
From S2P Require Import Prelude Mem Protocol Interfaces.

(** [struct sr_rt]; the three addresses are in network byte order, i.e. the
    host's little-endian reading of their four bytes. *)
Record sr_rt := SrRt { rt_dest : Z; rt_gw : Z; rt_mask : Z; rt_iface : cstr }.

(** * Construction *)

(** [sr_add_rt_entry]: at the end of the list. *)
Definition sr_add_rt_entry (table : list sr_rt) (dest gw mask : Z) (if_name : cstr)
  : list sr_rt :=
  table ++ [SrRt dest gw mask (strncpy sr_IFACE_NAMELEN if_name)].

Definition isspace (c : Z) : bool :=
  (c =? 32) || ((9 <=? c) && (c <=? 13)).

(** One [%s] of [sscanf]: skip white space, take the run of other characters. *)
Fixpoint skip_space (l : cstr) : cstr :=
  match l with
  | c :: rest => if isspace c then skip_space rest else l
  | [] => []
  end.
Fixpoint take_word (l : cstr) : cstr * cstr :=
  match l with
  | c :: rest =>
      if isspace c then ([], l)
      else let '(w, r) := take_word rest in (c :: w, r)
  | [] => ([], [])
  end.
Definition scan_word (l : cstr) : option (cstr * cstr) :=
  match skip_space l with
  | [] => None
  | l => Some (take_word l)
  end.

(** [sscanf(line, "%s %s %s %s", dest, gw, mask, iface)]: conversions after the
    first one that fails leave their arrays as they were; a word of 32
    characters or more does not fit its [char[32]] array. *)
Fixpoint sscanf_words (line : cstr) (bufs : list (option cstr)) : res (list (option cstr)) :=
  match bufs with
  | [] => Ok []
  | b :: bufs =>
      match scan_word line with
      | None => Ok (b :: bufs)
      | Some (w, rest) =>
          if (length w <? 32)%nat
          then r ← sscanf_words rest bufs; mret (Some w :: r)
          else Fault OutOfBounds
      end
  end.

(** [fgets(line, size, fp)]: at most [n = size - 1] characters, through the
    newline; the rest of the file stays. *)
Fixpoint fgets_take (n : nat) (file : cstr) : cstr * cstr :=
  match n, file with
  | O, _ | _, [] => ([], file)
  | S n, c :: rest =>
      if c =? 10 then ([c], rest)
      else let '(l, r) := fgets_take n rest in (c :: l, r)
  end.
Definition fgets (size : nat) (file : cstr) : option (cstr * cstr) :=
  match file with [] => None | _ => Some (fgets_take (size - 1) file) end.

Definition BUFSIZ : nat := Z.to_nat 8192.

(** Reading an array some earlier line must have filled. *)
Definition filled (b : option cstr) : res cstr :=
  match b with Some w => Ok w | None => Fault Uninit end.

Section load.
(** [inet_aton(3)], which the code calls from the C library. *)
Context (inet_aton : cstr -> option Z).

(** The body of the loop on one line: the new arrays, and the new state of
    the table, or [None] for [return -1]. *)
Definition load_line (line : cstr) (bufs : list (option cstr))
    (clear : bool) (table : list sr_rt)
  : res (list (option cstr) * option (list sr_rt)) :=
  bufs ← sscanf_words line bufs;
  match bufs with
  | [bdest; bgw; bmask; biface] =>
      dest ← filled bdest;
      match inet_aton dest with None => mret (bufs, None) | Some dest_addr =>
      gw ← filled bgw;
      match inet_aton gw with None => mret (bufs, None) | Some gw_addr =>
      mask ← filled bmask;
      match inet_aton mask with None => mret (bufs, None) | Some mask_addr =>
      let table := if clear then table else [] in
      iface ← filled biface;
      mret (bufs, Some (sr_add_rt_entry table dest_addr gw_addr mask_addr iface))
      end end end
  | _ => Fault OutOfBounds
  end.

Fixpoint load_lines (fuel : nat) (file : cstr) (bufs : list (option cstr))
    (clear : bool) (table : list sr_rt) : res (Z * list sr_rt) :=
  match fuel with
  | O => Fault OutOfFuel
  | S fuel =>
      match fgets BUFSIZ file with
      | None => Ok (0, table)
      | Some (line, file) =>
          '(bufs, t) ← load_line line bufs clear table;
          match t with
          | None => mret (-1, table)
          | Some table => load_lines fuel file bufs true table
          end
      end
  end.

(** [sr_load_rt]; [file] is the file's contents, [None] when it cannot be
    read. A file of n characters has at most n lines. *)
Definition sr_load_rt (table : list sr_rt) (file : option cstr) : res (Z * list sr_rt) :=
  match file with
  | None => Ok (-1, table)
  | Some file => load_lines (S (length file)) file [None; None; None; None] false table
  end.
End load.

(** * Longest-prefix match *)

(** The loop of [sr_get_longest_prefix_match]. *)
Fixpoint lpm_walk (ip : Z) (rt_walker : list sr_rt) (longest_match : option sr_rt)
    (longest_mask : Z) : option sr_rt :=
  match rt_walker with
  | [] => longest_match
  | r :: next =>
      let mask := rt_mask r in
      let dest := rt_dest r in
      if Z.land ip mask =? Z.land dest mask then
        if mask >=? longest_mask then lpm_walk ip next (Some r) mask
        else lpm_walk ip next longest_match longest_mask
      else lpm_walk ip next longest_match longest_mask
  end.

Definition sr_get_longest_prefix_match (routing_table : list sr_rt) (ip : Z) : option sr_rt :=
  lpm_walk ip routing_table None 0.

(** [sr_verify_routing_table] (router/src/router/sr_main.c): 999 when a list is
    empty, else how many routes name an interface that is not there. *)
Definition sr_verify_routing_table (if_list : list sr_if) (routing_table : list sr_rt) : Z :=
  match if_list, routing_table with
  | [], _ | _, [] => 999
  | _, _ =>
      fold_left (fun ret r =>
        if existsb (fun i => strncmp_eq sr_IFACE_NAMELEN (if_name i) (rt_iface r)) if_list
        then ret else ret + 1) routing_table 0
  end.

(** A route covers an address when they agree under the route's mask. *)
Definition rt_covers (ip : Z) (r : sr_rt) : Prop :=
  Z.land ip (rt_mask r) = Z.land (rt_dest r) (rt_mask r).

#[export] Instance rt_covers_dec ip r : Decision (rt_covers ip r).
Proof. unfold rt_covers. apply _. Defined.

(** The netmask with [n] leading ones, as the code holds it. *)
Definition prefix_mask (n : Z) : Z := htonl (Z.shiftl (Z.ones n) (32 - n)).

(** Two addresses share their first [n] bits. *)
Definition same_prefix (n : Z) (a b : Z) : Prop :=
  Z.shiftr (ntohl a) (32 - n) = Z.shiftr (ntohl b) (32 - n).

(** A table of CIDR routes: every mask is contiguous. *)
Definition cidr_table (t : list sr_rt) (plen : sr_rt -> Z) : Prop :=
  forall r, r ∈ t -> 0 <= plen r <= 32 /\ rt_mask r = prefix_mask (plen r).

Definition is_u32 (z : Z) : Prop := 0 <= z < 4294967296.

(** * The walk *)

Lemma lpm_walk_spec ip t best m :
  (forall r, r ∈ t -> 0 <= rt_mask r) ->
  match lpm_walk ip t best m with
  | None => best = None /\ forall r, r ∈ t -> rt_covers ip r -> rt_mask r < m
  | Some r =>
      (best = Some r /\ forall x, x ∈ t -> rt_covers ip x -> rt_mask x < m) \/
      exists t1 t2, t = t1 ++ r :: t2 /\ rt_covers ip r /\ m <= rt_mask r /\
        (forall x, x ∈ t1 -> rt_covers ip x -> rt_mask x <= rt_mask r) /\
        (forall x, x ∈ t2 -> rt_covers ip x -> rt_mask x < rt_mask r)
  end.
Proof.
  revert best m. induction t as [|h t IH]; intros best m Hpos; simpl.
  { destruct best; [left|]; (split; [done|]); intros x Hx;
      by apply not_elem_of_nil in Hx. }
  assert (Hpos' : forall r, r ∈ t -> 0 <= rt_mask r) by (intros; apply Hpos; set_solver).
  destruct (Z.eqb_spec (Z.land ip (rt_mask h)) (Z.land (rt_dest h) (rt_mask h)))
    as [Hc|Hc]; [destruct (Z.geb_spec (rt_mask h) m) as [Hm|Hm]|].
  - specialize (IH (Some h) (rt_mask h) Hpos').
    destruct (lpm_walk ip t (Some h) (rt_mask h)) as [r|]; [|by destruct IH].
    right. destruct IH as [[[= ->] H2]|(t1 & t2 & -> & Hr & Hle & H1 & H2)].
    + exists [], t. repeat split; try done; try lia.
      intros x Hx. by apply not_elem_of_nil in Hx.
    + exists (h :: t1), t2. repeat split; try done; try lia.
      intros x [->|Hx]%elem_of_cons; [lia|auto].
  - specialize (IH best m Hpos').
    destruct (lpm_walk ip t best m) as [r|].
    + destruct IH as [[-> H2]|(t1 & t2 & -> & Hr & Hle & H1 & H2)].
      * left. split; [done|]. intros x [->|Hx]%elem_of_cons; [lia|auto].
      * right. exists (h :: t1), t2. repeat split; try done; try lia.
        intros x [->|Hx]%elem_of_cons; [lia|auto].
    + destruct IH as [-> H2]. split; [done|].
      intros x [->|Hx]%elem_of_cons; [lia|auto].
  - specialize (IH best m Hpos').
    destruct (lpm_walk ip t best m) as [r|].
    + destruct IH as [[-> H2]|(t1 & t2 & -> & Hr & Hle & H1 & H2)].
      * left. split; [done|]. intros x [->|Hx]%elem_of_cons; [done|auto].
      * right. exists (h :: t1), t2. repeat split; try done.
        intros x [->|Hx]%elem_of_cons; [done|auto].
    + destruct IH as [-> H2]. split; [done|].
      intros x [->|Hx]%elem_of_cons; [done|auto].
Qed.

Lemma lpm_some t ip r :
  (forall r, r ∈ t -> 0 <= rt_mask r) ->
  sr_get_longest_prefix_match t ip = Some r ->
  exists t1 t2, t = t1 ++ r :: t2 /\ rt_covers ip r /\
    (forall x, x ∈ t1 -> rt_covers ip x -> rt_mask x <= rt_mask r) /\
    (forall x, x ∈ t2 -> rt_covers ip x -> rt_mask x < rt_mask r).
Proof.
  intros Hpos H. pose proof (lpm_walk_spec ip t None 0 Hpos) as Hs.
  unfold sr_get_longest_prefix_match in H. rewrite H in Hs.
  destruct Hs as [[? ?]|(t1 & t2 & ? & ? & ? & ? & ?)]; [done|].
  by exists t1, t2.
Qed.

Lemma lpm_none t ip :
  (forall r, r ∈ t -> 0 <= rt_mask r) ->
  sr_get_longest_prefix_match t ip = None ->
  forall r, r ∈ t -> ~ rt_covers ip r.
Proof.
  intros Hpos H r Hr Hc. pose proof (lpm_walk_spec ip t None 0 Hpos) as Hs.
  unfold sr_get_longest_prefix_match in H. rewrite H in Hs.
  destruct Hs as [_ Hs]. specialize (Hs r Hr Hc). specialize (Hpos r Hr). lia.
Qed.

Lemma lpm_elem t ip r : sr_get_longest_prefix_match t ip = Some r -> r ∈ t.
Proof.
  enough (H : forall t best m r, lpm_walk ip t best m = Some r -> best = Some r \/ r ∈ t).
  { intros Hr. by destruct (H _ _ _ _ Hr). }
  clear. induction t as [|h t IH]; simpl; intros best m r; [auto|].
  repeat case_test; intros [?|?]%IH; rewrite elem_of_cons; naive_solver.
Qed.

(** * Masks in the order of the host *)

Lemma le_bytes_land n a b :
  le_bytes n (Z.land a b) = zip_with Z.land (le_bytes n a) (le_bytes n b).
Proof.
  revert a b. induction n as [|n IH]; intros a b; [done|]. simpl.
  rewrite <-IH. change 256 with (2 ^ 8). f_equal.
  - rewrite <-!Z.land_ones by lia. apply Z.bits_inj'. intros i Hi.
    rewrite !Z.land_spec.
    by destruct (Z.testbit a i), (Z.testbit b i), (Z.testbit (Z.ones 8) i).
  - f_equal. rewrite <-!Z.shiftr_div_pow2 by lia. apply Z.shiftr_land.
Qed.

Lemma rev_zip_with {A B C} (f : A -> B -> C) l k :
  length l = length k -> rev (zip_with f l k) = zip_with f (rev l) (rev k).
Proof.
  revert k. induction l as [|x l IH]; intros [|y k]; try done. simpl. intros [= H].
  rewrite IH by done. rewrite zip_with_app by (by rewrite !length_rev). done.
Qed.

(** Swapping bytes commutes with a bitwise and. *)
Lemma bswap_land n a b :
  bswap n (Z.land a b) = Z.land (bswap n a) (bswap n b).
Proof.
  unfold bswap. rewrite le_bytes_land, rev_zip_with by (by rewrite !length_le_bytes).
  set (x := rev (le_bytes n a)). set (y := rev (le_bytes n b)).
  assert (Hx : bytes_ok x) by (apply bytes_ok_rev, le_bytes_ok).
  assert (Hy : bytes_ok y) by (apply bytes_ok_rev, le_bytes_ok).
  assert (Hl : length x = length y) by (unfold x, y; by rewrite !length_rev, !length_le_bytes).
  rewrite <-(le_bytes_le_val x Hx) at 1. rewrite <-(le_bytes_le_val y Hy) at 1.
  rewrite <-Hl, <-le_bytes_land, le_val_le_bytes. apply Z.mod_small.
  pose proof (le_val_bound x Hx) as Bx. revert Bx.
  change 256 with (2 ^ 8). rewrite <-Z.pow_mul_r by lia. apply land_bound. lia.
Qed.

(** Masking with the top bits keeps exactly them. *)
Lemma land_high_mask n x :
  0 <= n <= 32 -> 0 <= x < 2 ^ 32 ->
  Z.land x (Z.shiftl (Z.ones n) (32 - n)) = Z.shiftl (Z.shiftr x (32 - n)) (32 - n).
Proof.
  intros Hn Hx. apply Z.bits_inj'. intros i Hi. rewrite Z.land_spec.
  destruct (Z.lt_ge_cases i (32 - n)).
  - rewrite !Z.shiftl_spec_low by lia. by rewrite andb_false_r.
  - rewrite !Z.shiftl_spec, Z.shiftr_spec by lia.
    replace (i - (32 - n) + (32 - n)) with i by lia.
    destruct (Z.lt_ge_cases i 32).
    + rewrite Z.ones_spec_low by lia. by rewrite andb_true_r.
    + rewrite Z.testbit_eqb by lia. rewrite Z.div_small; [done|].
      pose proof (Z.pow_le_mono_r 2 32 i). lia.
Qed.

(** Under a CIDR mask, covering an address is sharing its leading bits. *)
Lemma covers_same_prefix n ip dest :
  0 <= n <= 32 -> is_u32 ip -> is_u32 dest ->
  Z.land ip (prefix_mask n) = Z.land dest (prefix_mask n) <-> same_prefix n ip dest.
Proof.
  intros Hn Hip Hd. unfold same_prefix.
  assert (Hm : 0 <= Z.shiftl (Z.ones n) (32 - n) < 256 ^ Z.of_nat 4).
  { rewrite Z.shiftl_mul_pow2, Z.ones_equiv by lia.
    replace (Z.pred (2 ^ n) * 2 ^ (32 - n)) with (2 ^ 32 - 2 ^ (32 - n)).
    - change (256 ^ Z.of_nat 4) with (2 ^ 32).
      pose proof (Z.pow_pos_nonneg 2 (32 - n)).
      pose proof (Z.pow_le_mono_r 2 (32 - n) 32). lia.
    - rewrite <-Z.sub_1_r, Z.mul_sub_distr_r, <-Z.pow_add_r by lia.
      replace (n + (32 - n)) with 32 by lia. lia. }
  assert (Heq : forall a, is_u32 a -> ntohl (Z.land a (prefix_mask n)) =
    Z.shiftl (Z.shiftr (ntohl a) (32 - n)) (32 - n)).
  { intros a Ha. rewrite bswap_land. unfold prefix_mask.
    rewrite bswap_bswap by done. apply land_high_mask; [done|].
    exact (bswap_range 4 a). }
  assert (Hb : forall a, is_u32 a -> 0 <= Z.land a (prefix_mask n) < 256 ^ Z.of_nat 4).
  { intros a Ha. apply (land_bound 32); [lia|exact Ha]. }
  split; intros H.
  - apply (f_equal (bswap 4)) in H. rewrite !Heq in H by done.
    apply (f_equal (fun z => Z.shiftr z (32 - n))) in H.
    by rewrite !Z.shiftr_shiftl_l, !Z.sub_diag, !Z.shiftl_0_r in H by lia.
  - apply (bswap_inj 4); [by apply Hb|by apply Hb|].
    rewrite !Heq by done. by rewrite H.
Qed.

(** In the host's order of the raw masks, longer prefixes are larger: the
    comparison [mask >= longest_mask] of the code compares prefix lengths. *)
Lemma prefix_mask_mono n m :
  0 <= n <= 32 -> 0 <= m <= 32 -> prefix_mask n <= prefix_mask m <-> n <= m.
Proof.
  intros Hn Hm.
  assert (H : forallb (fun i => forallb (fun j =>
    Bool.eqb (prefix_mask i <=? prefix_mask j) (i <=? j)) (seqZ 0 33)) (seqZ 0 33) = true)
    by (vm_compute; reflexivity).
  rewrite forallb_forall in H. specialize (H n).
  rewrite <-list_elem_of_In, elem_of_seqZ in H.
  specialize (H ltac:(lia)). rewrite forallb_forall in H. specialize (H m).
  rewrite <-list_elem_of_In, elem_of_seqZ in H. specialize (H ltac:(lia)).
  apply eqb_prop in H. rewrite <-(Z.leb_le n m), <-H. by rewrite Z.leb_le.
Qed.

Lemma prefix_mask_nonneg n : 0 <= prefix_mask n.
Proof. apply (bswap_range 4). Qed.

(** * Loading a table *)

(** The text of one route, as the file writes it. *)
Record route_text := RouteText {
  x_dest : cstr; x_s1 : nat; x_gw : cstr; x_s2 : nat; x_mask : cstr; x_s3 : nat;
  x_if : cstr }.

(** Four words separated by one space or more ([x_s1], ... count the extra
    ones), and the newline. *)
Definition spaces (n : nat) : cstr := replicate n 32.
Definition render_route (x : route_text) : cstr :=
  x_dest x ++ 32 :: spaces (x_s1 x) ++ x_gw x ++ 32 :: spaces (x_s2 x) ++
  x_mask x ++ 32 :: spaces (x_s3 x) ++ x_if x ++ [10].

(** A word [sscanf] can store: no white space, and short enough. *)
Definition word (w : cstr) : Prop :=
  w <> [] /\ Forall (fun c => isspace c = false) w /\ (length w <= 31)%nat.
Definition route_text_ok (x : route_text) : Prop :=
  word (x_dest x) /\ word (x_gw x) /\ word (x_mask x) /\ word (x_if x) /\
  Z.of_nat (x_s1 x + x_s2 x + x_s3 x) <= 8000.

Lemma take_word_app w c r :
  Forall (fun c => isspace c = false) w -> isspace c = true ->
  take_word (w ++ c :: r) = (w, c :: r).
Proof.
  intros Hw Hc. induction Hw as [|a w Ha Hw IH]; simpl; [by rewrite Hc|].
  by rewrite Ha, IH.
Qed.

Lemma scan_word_app w c r :
  word w -> isspace c = true -> scan_word (w ++ c :: r) = Some (w, c :: r).
Proof.
  intros (Hne & Hw & _) Hc. unfold scan_word.
  assert (Hs : skip_space (w ++ c :: r) = w ++ c :: r).
  { destruct w as [|a w]; [done|]. simpl. apply Forall_cons in Hw as [-> _]. done. }
  rewrite Hs. destruct (w ++ c :: r) as [|a l] eqn:E.
  - by destruct w.
  - rewrite <-E. by rewrite take_word_app.
Qed.

Lemma sscanf_word w c r b bufs :
  word w -> isspace c = true ->
  sscanf_words (w ++ c :: r) (b :: bufs) =
  (r' ← sscanf_words (c :: r) bufs; mret (Some w :: r')).
Proof.
  intros Hw Hc. cbn [sscanf_words]. rewrite scan_word_app by done.
  destruct Hw as (_ & _ & Hl). case_test; [done|lia].
Qed.

Lemma sscanf_skip c r bufs :
  isspace c = true -> sscanf_words (c :: r) bufs = sscanf_words r bufs.
Proof.
  intros Hc. destruct bufs as [|b bufs]; [done|]. cbn [sscanf_words].
  unfold scan_word. simpl. by rewrite Hc.
Qed.

Lemma sscanf_spaces n r bufs : sscanf_words (spaces n ++ r) bufs = sscanf_words r bufs.
Proof. induction n as [|n IH]; [done|]. simpl. by rewrite sscanf_skip. Qed.

Lemma sscanf_route x bufs :
  route_text_ok x -> length bufs = 4%nat ->
  sscanf_words (render_route x) bufs =
  Ok [Some (x_dest x); Some (x_gw x); Some (x_mask x); Some (x_if x)].
Proof.
  intros (Hd & Hg & Hm & Hi & _) Hb.
  destruct bufs as [|b1 [|b2 [|b3 [|b4 [|]]]]]; try done.
  unfold render_route.
  repeat (rewrite sscanf_word by done; rewrite sscanf_skip by done;
          rewrite ?sscanf_spaces). done.
Qed.

Lemma fgets_take_line n l rest :
  Forall (fun c => c <> 10) l -> (length l < n)%nat ->
  fgets_take n (l ++ 10 :: rest) = (l ++ [10], rest).
Proof.
  intros Hl. revert n. induction Hl as [|c l Hc Hl IH]; intros [|n] Hn; simpl in *; try lia.
  - done.
  - case_test; [done|]. by rewrite IH by lia.
Qed.

Lemma word_no_newline w : word w -> Forall (fun c => c <> 10) w.
Proof. intros (_ & H & _). eapply Forall_impl; [exact H|]. by intros c Hc ->. Qed.

Lemma spaces_no_newline n : Forall (fun c => c <> 10) (spaces n).
Proof. by apply Forall_replicate. Qed.

Lemma fgets_route x rest :
  route_text_ok x -> fgets BUFSIZ (render_route x ++ rest) = Some (render_route x, rest).
Proof.
  intros (Hd & Hg & Hm & Hi & Hs).
  assert (E : exists l, render_route x = l ++ [10] /\ Forall (fun c => c <> 10) l /\
    (length l < BUFSIZ - 1)%nat).
  { exists (x_dest x ++ 32 :: spaces (x_s1 x) ++ x_gw x ++ 32 :: spaces (x_s2 x) ++
      x_mask x ++ 32 :: spaces (x_s3 x) ++ x_if x).
    unfold render_route. split; [by rewrite <-!app_assoc; simpl; rewrite <-!app_assoc; simpl; rewrite <-!app_assoc; simpl; rewrite <-!app_assoc|].
    split.
    - rewrite !Forall_app, !Forall_cons, !Forall_app, !Forall_cons, !Forall_app,
        !Forall_cons, !Forall_app.
      repeat split; auto using word_no_newline, spaces_no_newline.
    - destruct Hd as (_ & _ & ?), Hg as (_ & _ & ?), Hm as (_ & _ & ?), Hi as (_ & _ & ?).
      unfold spaces. rewrite ?length_app; simpl length;
        rewrite ?length_app, ?length_replicate; simpl length;
        rewrite ?length_app, ?length_replicate; simpl length;
        rewrite ?length_app, ?length_replicate; simpl length.
      unfold BUFSIZ. lia. }
  destruct E as (l & E & Hl & Hlen). rewrite E, <-app_assoc. simpl app.
  unfold fgets. destruct (l ++ 10 :: rest) as [|c r] eqn:Ec; [by destruct l|].
  rewrite <-Ec. by rewrite fgets_take_line.
Qed.

Lemma fgets_blank rest : fgets BUFSIZ (10 :: rest) = Some ([10], rest).
Proof.
  unfold fgets, BUFSIZ. destruct (Z.to_nat 8192 - 1)%nat eqn:E; [lia|done].
Qed.

Section load_lemmas.
Context (inet_aton : cstr -> option Z).

(** The entry a well-formed line denotes. *)
Definition route_entry (x : route_text) : option sr_rt :=
  d ← inet_aton (x_dest x); g ← inet_aton (x_gw x); m ← inet_aton (x_mask x);
  Some (SrRt d g m (strncpy sr_IFACE_NAMELEN (x_if x))).

Definition route_bufs (x : route_text) : list (option cstr) :=
  [Some (x_dest x); Some (x_gw x); Some (x_mask x); Some (x_if x)].

Lemma load_line_bufs line bufs x e clear t :
  sscanf_words line bufs = Ok (route_bufs x) -> route_entry x = Some e ->
  load_line inet_aton line bufs clear t =
  Ok (route_bufs x, Some ((if clear then t else []) ++ [e])).
Proof.
  intros Hs He. unfold load_line. rewrite Hs. unfold route_entry in He.
  cbn [mbind res_bind filled route_bufs].
  destruct (inet_aton (x_dest x)); [|done].
  destruct (inet_aton (x_gw x)); [|done].
  destruct (inet_aton (x_mask x)); [|done].
  simpl in He. injection He as <-. done.
Qed.

Lemma load_lines_route fuel x e rest bufs clear t :
  route_text_ok x -> route_entry x = Some e -> length bufs = 4%nat ->
  load_lines inet_aton (S fuel) (render_route x ++ rest) bufs clear t =
  load_lines inet_aton fuel rest (route_bufs x) true ((if clear then t else []) ++ [e]).
Proof.
  intros Hx He Hb. cbn [load_lines]. rewrite fgets_route by done.
  by rewrite (load_line_bufs _ _ x e) by (by apply sscanf_route || done).
Qed.

(** A blank line leaves the arrays of the previous line in place. *)
Lemma load_lines_blank fuel x e rest t :
  route_entry x = Some e ->
  load_lines inet_aton (S fuel) (10 :: rest) (route_bufs x) true t =
  load_lines inet_aton fuel rest (route_bufs x) true (t ++ [e]).
Proof.
  intros He. cbn [load_lines]. rewrite fgets_blank. by rewrite (load_line_bufs [10] _ x e).
Qed.

Lemma load_lines_blanks k fuel x e t :
  route_entry x = Some e -> (k < fuel)%nat ->
  load_lines inet_aton fuel (replicate k 10) (route_bufs x) true t =
  Ok (0, t ++ replicate k e).
Proof.
  intros He. revert fuel t. induction k as [|k IH]; intros [|fuel] t Hk; try lia.
  - cbn. by rewrite app_nil_r.
  - cbn [replicate]. rewrite (load_lines_blank _ x e) by done.
    rewrite IH by lia. by rewrite <-app_assoc.
Qed.

Lemma load_lines_routes xs es x e k fuel bufs clear t :
  Forall route_text_ok xs -> route_text_ok x ->
  Forall2 (fun x e => route_entry x = Some e) xs es -> route_entry x = Some e ->
  length bufs = 4%nat -> (length xs + S k < fuel)%nat ->
  load_lines inet_aton fuel
    (List.concat (map render_route xs) ++ render_route x ++ replicate k 10) bufs clear t =
  Ok (0, (if clear then t else []) ++ es ++ e :: replicate k e).
Proof.
  intros Hxs Hx Hes He. revert es fuel bufs clear t Hes.
  induction Hxs as [|y ys Hy Hys IH]; intros es fuel bufs clear t Hes Hb Hf;
    inversion Hes as [|? f ? fs Hf1 Hfs]; subst; destruct fuel as [|fuel]; simpl in Hf; try lia.
  - cbn [map List.concat app]. rewrite (load_lines_route _ x e) by done.
    rewrite (load_lines_blanks _ _ x e) by (done || lia).
    by rewrite <-app_assoc.
  - cbn [map List.concat]. rewrite <-app_assoc.
    rewrite (load_lines_route _ y f) by done.
    rewrite (IH fs) by (done || lia). by rewrite <-app_assoc.
Qed.
End load_lemmas.

(** * Theorems *)

(** C8: On a CIDR table, [sr_get_longest_prefix_match] returns a route that
    shares its prefix with the address, no route that does is longer, and of
    equally long ones it is the last in the table; it returns nothing exactly
    when no route matches. The code compares raw network-order masks with
    [>=]; on contiguous masks that is the order of prefix lengths. *)
Theorem lpm_longest table plen ip :
  cidr_table table plen -> is_u32 ip -> (forall r, r ∈ table -> is_u32 (rt_dest r)) ->
  match sr_get_longest_prefix_match table ip with
  | Some r =>
      exists before after, table = before ++ r :: after /\
        same_prefix (plen r) ip (rt_dest r) /\
        (forall x, x ∈ before -> same_prefix (plen x) ip (rt_dest x) -> plen x <= plen r) /\
        (forall x, x ∈ after -> same_prefix (plen x) ip (rt_dest x) -> plen x < plen r)
  | None => forall x, x ∈ table -> ~ same_prefix (plen x) ip (rt_dest x)
  end.
Proof.
  intros Ht Hip Hd.
  assert (Hpos : forall r, r ∈ table -> 0 <= rt_mask r)
    by (intros r Hr; destruct (Ht r Hr) as [_ ->]; apply prefix_mask_nonneg).
  assert (Hcov : forall x, x ∈ table ->
    rt_covers ip x <-> same_prefix (plen x) ip (rt_dest x)).
  { intros x Hx. unfold rt_covers. destruct (Ht x Hx) as [Hp ->].
    apply covers_same_prefix; auto. }
  assert (Hmono : forall x y, x ∈ table -> y ∈ table ->
    rt_mask x <= rt_mask y <-> plen x <= plen y).
  { intros x y Hx Hy. destruct (Ht x Hx) as [? ->], (Ht y Hy) as [? ->].
    by apply prefix_mask_mono. }
  destruct (sr_get_longest_prefix_match table ip) as [r|] eqn:E.
  - destruct (lpm_some _ _ _ Hpos E) as (t1 & t2 & Et & Hc & H1 & H2).
    assert (Hr : r ∈ table) by set_solver.
    exists t1, t2. repeat split; [done|by apply Hcov| |]; intros x Hx Hs.
    + assert (x ∈ table) by set_solver. apply Hmono; [done..|].
      apply H1; [done|]. by apply Hcov.
    + assert (x ∈ table) by set_solver. apply Z.nle_gt. rewrite <-Hmono by done.
      apply Z.nle_gt, H2; [done|]. by apply Hcov.
  - intros x Hx Hs. apply (lpm_none _ _ Hpos E x Hx). by apply Hcov.
Qed.

(** A default route, 10.1.0.0/16 and 10.1.1.0/24. *)
Definition demo_table : list sr_rt :=
  [SrRt 0 7 (prefix_mask 0) []; SrRt 0x0000010a 8 (prefix_mask 16) [];
   SrRt 0x0001010a 9 (prefix_mask 24) []].
Definition demo_plen (r : sr_rt) : Z :=
  if rt_gw r =? 7 then 0 else if rt_gw r =? 8 then 16 else 24.

Lemma lpm_longest_witness :
  match sr_get_longest_prefix_match demo_table 0x0501010a with
  | Some r => rt_gw r = 9 /\
      exists before after, demo_table = before ++ r :: after /\
        same_prefix (demo_plen r) 0x0501010a (rt_dest r) /\
        (forall x, x ∈ before ->
          same_prefix (demo_plen x) 0x0501010a (rt_dest x) -> demo_plen x <= demo_plen r) /\
        (forall x, x ∈ after ->
          same_prefix (demo_plen x) 0x0501010a (rt_dest x) -> demo_plen x < demo_plen r)
  | None => False
  end.
Proof.
  pose proof (lpm_longest demo_table demo_plen 0x0501010a) as H.
  destruct (sr_get_longest_prefix_match demo_table 0x0501010a) as [r|] eqn:E;
    [|vm_compute in E; discriminate].
  split; [vm_compute in E; by injection E as <-|]. apply H.
  - unfold cidr_table. apply Forall_forall. repeat constructor; vm_compute; congruence.
  - unfold is_u32. lia.
  - apply Forall_forall. repeat constructor; vm_compute; congruence.
Defined.

(** Loading a file of n >= 1 well-formed lines followed by k blank lines
    succeeds and replaces the table by the n routes in order, with the last
    route k more times: a blank line re-adds the previous one, since [sscanf]
    leaves its arrays as they were. *)
Theorem load_file_routes inet_aton table xs es x e k :
  Forall route_text_ok (xs ++ [x]) ->
  Forall2 (fun x e => route_entry inet_aton x = Some e) (xs ++ [x]) (es ++ [e]) ->
  sr_load_rt inet_aton table
    (Some (List.concat (map render_route (xs ++ [x])) ++ replicate k 10)) =
  Ok (0, es ++ [e] ++ replicate k e).
Proof.
  intros [Hxs [Hx _]%Forall_cons]%Forall_app Hes.
  apply Forall2_app_inv in Hes as [Hes He];
    [|apply Forall2_length in Hes; rewrite !length_app in Hes; simpl in Hes; lia].
  apply Forall2_cons in He as [He _].
  assert (Hr : forall y, (1 <= length (render_route y))%nat).
  { intros y. unfold render_route. rewrite length_app. simpl length. lia. }
  assert (Hn : (length xs <= length (List.concat (map render_route xs)))%nat).
  { clear -Hr. induction xs as [|y ys IH]; simpl; [lia|]. rewrite length_app.
    specialize (Hr y). lia. }
  specialize (Hr x). rewrite map_app, concat_app. cbn [map List.concat].
  rewrite app_nil_r, <-app_assoc. unfold sr_load_rt.
  rewrite (load_lines_routes inet_aton xs es x e k _ _ false table);
    [done..|].
  rewrite !length_app, length_replicate. lia.
Qed.

(** A reader of dotted decimal addresses, for the examples. *)
Fixpoint dotted (l : cstr) (cur : Z) (acc : Z) (pos : Z) : option Z :=
  match l with
  | [] => Some (acc + cur * 256 ^ pos)
  | c :: l =>
      if c =? 46 then dotted l 0 (acc + cur * 256 ^ pos) (pos + 1)
      else if (48 <=? c) && (c <=? 57) then dotted l (cur * 10 + (c - 48)) acc pos
      else None
  end.
Definition dotted_quad (l : cstr) : option Z := dotted l 0 0 0.

(** The repository's own table (router/src/rtable): three routes and two blank
    lines. *)
Definition repo_routes : list route_text :=
  [RouteText (str "192.168.2.2") 2 (str "192.168.2.2") 3 (str "255.255.255.255") 3 (str "eth1");
   RouteText (str "172.64.3.10") 2 (str "172.64.3.10") 3 (str "255.255.255.255") 3 (str "eth2")].
Definition repo_route3 : route_text :=
  RouteText (str "10.0.1.100") 3 (str "10.0.1.100") 4 (str "255.255.255.255") 3 (str "eth3").

Lemma load_file_routes_witness :
  sr_load_rt dotted_quad []
    (Some (List.concat (map render_route (repo_routes ++ [repo_route3])) ++ replicate 2 10)) =
  Ok (0, [SrRt 0x0202a8c0 0x0202a8c0 0xffffffff (str "eth1");
          SrRt 0x0a0340ac 0x0a0340ac 0xffffffff (str "eth2");
          SrRt 0x6401000a 0x6401000a 0xffffffff (str "eth3");
          SrRt 0x6401000a 0x6401000a 0xffffffff (str "eth3");
          SrRt 0x6401000a 0x6401000a 0xffffffff (str "eth3")]).
Proof.
  apply (load_file_routes dotted_quad [] repo_routes
    [SrRt 0x0202a8c0 0x0202a8c0 0xffffffff (str "eth1");
     SrRt 0x0a0340ac 0x0a0340ac 0xffffffff (str "eth2")] repo_route3
    (SrRt 0x6401000a 0x6401000a 0xffffffff (str "eth3")) 2).
  - repeat constructor; vm_compute; congruence.
  - repeat constructor; vm_compute; reflexivity.
Defined.
