(* ===== verification/ArpCache.v ===== *)
(** The ARP cache and request queue (router/src/router/sr_arpcache.c/.h): the
    table of address mappings and the list of outstanding requests with the
    packets that wait on them. *)
From S2P Require Import Prelude Mem Protocol Interfaces.

Definition SR_ARPCACHE_SZ : nat := 100.
Definition SR_ARPCACHE_TO : Z := 15.

(** [struct sr_packet], without its [next] pointer: lists of packets are
    lists. *)
Record sr_packet := SrPacket { pk_buf : buffer; pk_len : nat; pk_iface : cstr }.

(** [struct sr_arpentry] *)
Record sr_arpentry := SrArpEntry { ae_mac : buffer; ae_ip : Z; ae_added : Z; ae_valid : bool }.

(** [struct sr_arpreq]. [rq_addr] is the address the node was allocated at:
    the code holds pointers to requests across calls that may free them. *)
Record sr_arpreq := SrArpReq {
  rq_addr : nat; rq_ip : Z; rq_sent : Z; rq_times_sent : Z; rq_packets : list sr_packet }.

(** [struct sr_arpcache]; a request is allocated exactly while it is in
    [ac_requests] (or held by the caller of [sr_arpcache_insert]). [ac_next]
    is the next unused address. *)
Record sr_arpcache := SrArpCache {
  ac_entries : list sr_arpentry; ac_requests : list sr_arpreq; ac_next : nat }.

Definition set_entries (c : sr_arpcache) (e : list sr_arpentry) : sr_arpcache :=
  SrArpCache e (ac_requests c) (ac_next c).
Definition set_requests (c : sr_arpcache) (r : list sr_arpreq) : sr_arpcache :=
  SrArpCache (ac_entries c) r (ac_next c).

(** * Operations *)

(** [sr_arpcache_init]: every entry zeroed, no request. *)
Definition zero_entry : sr_arpentry := SrArpEntry (replicate 6 0) 0 0 false.
Definition sr_arpcache_init : sr_arpcache :=
  SrArpCache (replicate SR_ARPCACHE_SZ zero_entry) [] 0.

(** [sr_arpcache_lookup]: the loop does not stop at a match, so the last one
    wins. *)
Definition sr_arpcache_lookup (cache : sr_arpcache) (ip : Z) : option sr_arpentry :=
  fold_left (fun entry e => if ae_valid e && (ae_ip e =? ip) then Some e else entry)
    (ac_entries cache) None.

(** The request for an address, the first in the list. *)
Definition find_req (ip : Z) (reqs : list sr_arpreq) : option sr_arpreq :=
  find (fun r => rq_ip r =? ip) reqs.

(** Following a pointer to a request: freed ones are gone from the list. *)
Definition req_at (cache : sr_arpcache) (p : nat) : option sr_arpreq :=
  find (fun r => (rq_addr r =? p)%nat) (ac_requests cache).

(** [*p = r], for a request in the list. *)
Definition req_update (cache : sr_arpcache) (p : nat) (f : sr_arpreq -> sr_arpreq)
  : sr_arpcache :=
  set_requests cache
    (map (fun r => if (rq_addr r =? p)%nat then f r else r) (ac_requests cache)).

Definition push_packet (pkt : sr_packet) (r : sr_arpreq) : sr_arpreq :=
  SrArpReq (rq_addr r) (rq_ip r) (rq_sent r) (rq_times_sent r) (pkt :: rq_packets r).

(** [sr_arpcache_queuereq] for non-null [packet] and [iface]: the request for
    [ip], created at the head of the list when there is none, with a copy of the
    packet pushed in front of its packets (unless its length is zero). Returns
    the cache and the pointer. *)
Definition sr_arpcache_queuereq (cache : sr_arpcache) (ip : Z) (packet : buffer)
    (packet_len : nat) (iface : cstr) : res (sr_arpcache * nat) :=
  let '(cache, p) :=
    match find_req ip (ac_requests cache) with
    | Some req => (cache, rq_addr req)
    | None =>
        let p := ac_next cache in
        (SrArpCache (ac_entries cache) (SrArpReq p ip 0 0 [] :: ac_requests cache) (S p), p)
    end in
  if (packet_len =? 0)%nat then Ok (cache, p)
  else
    buf ← rd 0 packet_len packet;
    let new_pkt := SrPacket buf packet_len (strncpy sr_IFACE_NAMELEN iface) in
    mret (req_update cache p (push_packet new_pkt), p).

(** Unlink the first element that satisfies a test. *)
Fixpoint unlink (test : sr_arpreq -> bool) (reqs : list sr_arpreq) : list sr_arpreq :=
  match reqs with
  | [] => []
  | r :: rest => if test r then rest else r :: unlink test rest
  end.

(** Store in the first entry that is not valid; a full table is unchanged. *)
Fixpoint store_entry (e : sr_arpentry) (entries : list sr_arpentry) : list sr_arpentry :=
  match entries with
  | [] => []
  | x :: rest => if ae_valid x then x :: store_entry e rest else e :: rest
  end.

(** [sr_arpcache_insert]: returns the request for [ip], unlinked from the list,
    if there was one. *)
Definition sr_arpcache_insert (now : Z) (cache : sr_arpcache) (mac : buffer) (ip : Z)
  : res (sr_arpcache * option sr_arpreq) :=
  let req := find_req ip (ac_requests cache) in
  let cache := set_requests cache (unlink (fun r => rq_ip r =? ip) (ac_requests cache)) in
  m ← rd 0 6 mac;
  mret (set_entries cache (store_entry (SrArpEntry m ip now true) (ac_entries cache)), req).

(** [sr_arpreq_destroy]: unlink the node if it is in the list, and free it. *)
Definition sr_arpreq_destroy (cache : sr_arpcache) (p : nat) : sr_arpcache :=
  set_requests cache (unlink (fun r => (rq_addr r =? p)%nat) (ac_requests cache)).

(** The first loop of [sr_arpcache_timeout]: invalidate entries older than
    [SR_ARPCACHE_TO] seconds. *)
Definition expire_entries (curtime : Z) (cache : sr_arpcache) : sr_arpcache :=
  set_entries cache
    (map (fun e => if ae_valid e && (curtime - ae_added e >? SR_ARPCACHE_TO)
                   then SrArpEntry (ae_mac e) (ae_ip e) (ae_added e) false else e)
       (ac_entries cache)).

(** * Invariant *)

(** The table has its fixed size; requests sit at distinct allocated addresses
    and ask for distinct IP addresses. *)
Record cache_wf (c : sr_arpcache) : Prop := {
  wf_size : length (ac_entries c) = SR_ARPCACHE_SZ;
  wf_addr : NoDup (map rq_addr (ac_requests c));
  wf_fresh : Forall (fun r => (rq_addr r < ac_next c)%nat) (ac_requests c);
  wf_ip : NoDup (map rq_ip (ac_requests c)) }.

(** No address is bound twice by a valid entry. *)
Definition entries_unique (c : sr_arpcache) : Prop :=
  forall i j e f, ac_entries c !! i = Some e -> ac_entries c !! j = Some f ->
    ae_valid e = true -> ae_valid f = true -> ae_ip e = ae_ip f -> i = j.

Lemma find_some {A} (f : A -> bool) l x : find f l = Some x -> x ∈ l /\ f x = true.
Proof. intros H. apply List.find_some in H as [? ?]. by rewrite list_elem_of_In. Qed.

Lemma find_none {A} (f : A -> bool) l x : find f l = None -> x ∈ l -> f x = false.
Proof. intros H Hx%list_elem_of_In. by eapply List.find_none. Qed.

Lemma unlink_sublist test l : sublist (unlink test l) l.
Proof.
  induction l as [|x l IH]; simpl; [constructor|].
  destruct (test x); [by apply sublist_cons|by apply sublist_skip].
Qed.

Lemma unlink_elem test l x : x ∈ unlink test l -> x ∈ l.
Proof.
  revert x. induction l as [|y l IH]; simpl; intros x; [done|].
  destruct (test y); rewrite !elem_of_cons; naive_solver.
Qed.

Lemma unlink_map_NoDup {B} (f : sr_arpreq -> B) test l :
  NoDup (map f l) -> NoDup (map f (unlink test l)).
Proof.
  induction l as [|y l IH]; simpl; [done|]. rewrite NoDup_cons. intros [Hn Hd].
  destruct (test y); [done|]. simpl. apply NoDup_cons. split; [|auto].
  intros Hin. apply Hn. apply list_elem_of_fmap in Hin as (z & -> & Hz).
  apply list_elem_of_fmap. exists z. split; [done|]. by eapply unlink_elem.
Qed.

Lemma unlink_Forall (P : sr_arpreq -> Prop) test l : Forall P l -> Forall P (unlink test l).
Proof. rewrite !Forall_forall. intros H x Hx%unlink_elem. auto. Qed.

(** After unlinking from a list with distinct keys the key is gone. *)
Lemma unlink_gone {B} `{EqDecision B} (f : sr_arpreq -> B) (k : B) (test : sr_arpreq -> bool) l :
  (forall r, test r = true <-> f r = k) -> NoDup (map f l) ->
  forall r, r ∈ unlink test l -> f r <> k.
Proof.
  intros Ht. induction l as [|y l IH]; simpl; [intros _ r Hr; by apply not_elem_of_nil in Hr|].
  rewrite NoDup_cons. intros [Hn Hd] r. destruct (test y) eqn:E.
  - apply Ht in E. intros Hr He. apply Hn. apply list_elem_of_fmap. exists r. by rewrite E, He.
  - intros [->|Hr]%elem_of_cons; [|by apply IH]. intros He. apply Ht in He. congruence.
Qed.

Lemma unlink_other test l r : r ∈ l -> test r = false -> r ∈ unlink test l.
Proof.
  induction l as [|y l IH]; simpl; [done|].
  rewrite elem_of_cons. intros [->|Hr] Ht.
  - rewrite Ht. by left.
  - destruct (test y); [done|]. right. auto.
Qed.

(** * Preservation of the invariant *)

Lemma init_wf : cache_wf sr_arpcache_init.
Proof. split; simpl; try constructor. Qed.

Lemma set_entries_wf c e :
  cache_wf c -> length e = length (ac_entries c) -> cache_wf (set_entries c e).
Proof. intros [H1 H2 H3 H4] He. split; simpl; congruence. Qed.

Lemma unlink_wf c test : cache_wf c -> cache_wf (set_requests c (unlink test (ac_requests c))).
Proof.
  intros [H1 H2 H3 H4]. split; simpl; try done.
  - by apply unlink_map_NoDup.
  - by apply unlink_Forall.
  - by apply unlink_map_NoDup.
Qed.

(** Updates that keep a request's address and key. *)
Definition keeps_key (f : sr_arpreq -> sr_arpreq) : Prop :=
  forall r, rq_addr (f r) = rq_addr r /\ rq_ip (f r) = rq_ip r.

Lemma push_packet_keeps pkt : keeps_key (push_packet pkt).
Proof. done. Qed.

Lemma map_update_keys {B} (g : sr_arpreq -> B) f p l :
  (forall r, g (f r) = g r) ->
  map g (map (fun r => if (rq_addr r =? p)%nat then f r else r) l) = map g l.
Proof.
  intros Hg. rewrite map_map. apply map_ext. intros r. by case_test.
Qed.

Lemma req_update_wf c p f : keeps_key f -> cache_wf c -> cache_wf (req_update c p f).
Proof.
  intros Hf [H1 H2 H3 H4]. unfold req_update. split; simpl; try done.
  - rewrite map_update_keys; [done|apply Hf].
  - rewrite Forall_forall in *. intros r (q & -> & Hq)%list_elem_of_fmap.
    specialize (H3 q Hq). case_test; [|done]. by rewrite (proj1 (Hf q)).
  - rewrite map_update_keys; [done|apply Hf].
Qed.

Lemma new_req_wf c ip :
  cache_wf c -> find_req ip (ac_requests c) = None ->
  cache_wf (SrArpCache (ac_entries c) (SrArpReq (ac_next c) ip 0 0 [] :: ac_requests c)
              (S (ac_next c))).
Proof.
  intros [H1 H2 H3 H4] Hn. split; simpl; try done.
  - apply NoDup_cons. split; [|done]. intros (r & Hr & Hin)%list_elem_of_fmap.
    rewrite Forall_forall in H3. specialize (H3 r Hin). lia.
  - apply Forall_cons. simpl. split; [lia|]. eapply Forall_impl; [exact H3|].
    simpl. intros. lia.
  - apply NoDup_cons. split; [|done]. intros (r & Hr & Hin)%list_elem_of_fmap.
    apply (find_none _ _ r) in Hn; [|done]. simpl in Hr, Hn. lia.
Qed.

Lemma queuereq_wf c ip packet n iface c' p :
  cache_wf c -> sr_arpcache_queuereq c ip packet n iface = Ok (c', p) -> cache_wf c'.
Proof.
  intros Hwf. unfold sr_arpcache_queuereq.
  destruct (find_req ip (ac_requests c)) as [req|] eqn:Ef.
  - case_test; [by intros [= <- <-]|].
    destruct (rd 0 n packet); [|done]. intros [= <- <-].
    by apply req_update_wf.
  - case_test; [intros [= <- <-]; by apply new_req_wf|].
    destruct (rd 0 n packet); [|done]. intros [= <- <-].
    by apply req_update_wf; [|apply new_req_wf].
Qed.

Lemma length_store_entry e l : length (store_entry e l) = length l.
Proof. induction l as [|x l IH]; simpl; [done|]. destruct (ae_valid x); simpl; congruence. Qed.

Lemma insert_wf now c mac ip c' r :
  cache_wf c -> sr_arpcache_insert now c mac ip = Ok (c', r) -> cache_wf c'.
Proof.
  intros Hwf. unfold sr_arpcache_insert. destruct (rd 0 6 mac); [|done].
  intros [= <- <-]. apply set_entries_wf; [by apply unlink_wf|].
  apply length_store_entry.
Qed.

Lemma destroy_wf c p : cache_wf c -> cache_wf (sr_arpreq_destroy c p).
Proof. apply unlink_wf. Qed.

Lemma expire_wf t c : cache_wf c -> cache_wf (expire_entries t c).
Proof. intros H. apply set_entries_wf; [done|]. by rewrite length_map. Qed.

#[export] Hint Resolve init_wf req_update_wf queuereq_wf insert_wf destroy_wf expire_wf
  push_packet_keeps : cnet.

(** * Lookup *)

Lemma lookup_fold ip l best :
  fold_left (fun entry e => if ae_valid e && (ae_ip e =? ip) then Some e else entry) l best =
  match fold_left (fun entry e => if ae_valid e && (ae_ip e =? ip) then Some e else entry) l None
  with Some e => Some e | None => best end.
Proof.
  revert best. induction l as [|x l IH]; intros best; simpl; [done|].
  rewrite IH, (IH (if ae_valid x && (ae_ip x =? ip) then Some x else None)).
  destruct (fold_left _ l None); [done|]. by destruct (_ && _).
Qed.

Definition answers (ip : Z) (e : sr_arpentry) : Prop := ae_valid e = true /\ ae_ip e = ip.

#[export] Instance answers_dec ip e : Decision (answers ip e).
Proof. unfold answers. apply _. Defined.

Definition lookup_in (l : list sr_arpentry) (ip : Z) : option sr_arpentry :=
  fold_left (fun entry e => if ae_valid e && (ae_ip e =? ip) then Some e else entry) l None.

Lemma lookup_in_app l k ip :
  lookup_in (l ++ k) ip =
  match lookup_in k ip with Some e => Some e | None => lookup_in l ip end.
Proof. unfold lookup_in. rewrite fold_left_app. apply lookup_fold. Qed.

Lemma lookup_in_cons x k ip :
  lookup_in (x :: k) ip =
  match lookup_in k ip with
  | Some e => Some e
  | None => if ae_valid x && (ae_ip x =? ip) then Some x else None end.
Proof. apply (lookup_in_app [x]). Qed.

Lemma answers_bool ip e : ae_valid e && (ae_ip e =? ip) = true <-> answers ip e.
Proof. unfold answers. by rewrite andb_true_iff, Z.eqb_eq. Qed.

Lemma lookup_in_none l ip : lookup_in l ip = None <-> Forall (fun e => ~ answers ip e) l.
Proof.
  induction l as [|x l IH]; [by split|]. rewrite lookup_in_cons, Forall_cons, <-IH.
  destruct (lookup_in l ip); [by split; [|intros []]|].
  rewrite <-answers_bool. destruct (_ && _); naive_solver.
Qed.

(** The entry found answers, and none after it in the table does. *)
Lemma lookup_in_some l ip e :
  lookup_in l ip = Some e <->
  exists l1 l2, l = l1 ++ e :: l2 /\ answers ip e /\ Forall (fun e => ~ answers ip e) l2.
Proof.
  induction l as [|x l IH].
  - split; [done|]. intros (l1 & l2 & Hl & _). by destruct l1.
  - rewrite lookup_in_cons. destruct (lookup_in l ip) as [f|] eqn:E.
    + rewrite IH. split.
      * intros (l1 & l2 & -> & H). by exists (x :: l1), l2.
      * intros ([|y l1] & l2 & [= -> ->] & H1 & H2); [|by exists l1, l2].
        apply lookup_in_none in H2. congruence.
    + split.
      * destruct (_ && _) eqn:Ex; [|done]. intros [= ->]. exists [], l.
        by rewrite <-answers_bool, <-lookup_in_none.
      * intros ([|y l1] & l2 & [= -> ->] & H1 & H2).
        -- apply answers_bool in H1. by rewrite H1.
        -- apply lookup_in_none in E. apply Forall_app in E as [_ E].
           apply Forall_cons in E as [E _]. done.
Qed.

Lemma sr_arpcache_lookup_in c ip : sr_arpcache_lookup c ip = lookup_in (ac_entries c) ip.
Proof. done. Qed.

(** Where a mapping is stored. *)
Lemma store_entry_spec e l :
  (Forall (fun x => ae_valid x = true) l /\ store_entry e l = l) \/
  exists l1 x l2, l = l1 ++ x :: l2 /\ Forall (fun x => ae_valid x = true) l1 /\
    ae_valid x = false /\ store_entry e l = l1 ++ e :: l2.
Proof.
  induction l as [|x l IH]; simpl; [by left|].
  destruct (ae_valid x) eqn:E.
  - destruct IH as [[H1 H2]|(l1 & y & l2 & -> & H1 & H2 & H3)].
    + left. by rewrite H2, Forall_cons.
    + right. exists (x :: l1), y, l2. by rewrite H3, Forall_cons.
  - right. by exists [], x, l.
Qed.

(** * Runs of cache operations *)

(** What the rest of the program does to the cache. *)
Inductive cache_op :=
| OpQueue (ip : Z) (packet : buffer) (packet_len : nat) (iface : cstr)
| OpInsert (now : Z) (mac : buffer) (ip : Z)
| OpDestroy (p : nat)
| OpSent (p : nat) (now : Z)
| OpExpire (curtime : Z).

(** [req->sent = now; req->times_sent++;] in [handle_arpreq]. *)
Definition mark_sent (now : Z) (r : sr_arpreq) : sr_arpreq :=
  SrArpReq (rq_addr r) (rq_ip r) now (u32 (rq_times_sent r + 1)) (rq_packets r).

Definition run_op (c : sr_arpcache) (op : cache_op) : res sr_arpcache :=
  match op with
  | OpQueue ip packet n iface => '(c, _) ← sr_arpcache_queuereq c ip packet n iface; mret c
  | OpInsert now mac ip => '(c, _) ← sr_arpcache_insert now c mac ip; mret c
  | OpDestroy p => mret (sr_arpreq_destroy c p)
  | OpSent p now => mret (req_update c p (mark_sent now))
  | OpExpire t => mret (expire_entries t c)
  end.

Inductive cache_reachable : sr_arpcache -> Prop :=
| reach_init : cache_reachable sr_arpcache_init
| reach_op c op c' : cache_reachable c -> run_op c op = Ok c' -> cache_reachable c'.

Lemma mark_sent_keeps now : keeps_key (mark_sent now).
Proof. done. Qed.

Lemma run_op_wf c op c' : cache_wf c -> run_op c op = Ok c' -> cache_wf c'.
Proof.
  intros Hwf. destruct op as [ip pk n i|now mac ip|p|p now|t]; cbn [run_op].
  - destruct (sr_arpcache_queuereq c ip pk n i) as [[d q]|] eqn:E; [|done].
    intros [= <-]. by eapply queuereq_wf.
  - destruct (sr_arpcache_insert now c mac ip) as [[d q]|] eqn:E; [|done].
    intros [= <-]. by eapply insert_wf.
  - intros [= <-]. by apply destroy_wf.
  - intros [= <-]. by apply req_update_wf.
  - intros [= <-]. by apply expire_wf.
Qed.

(** Queue packets one after the other for the same address. *)
Fixpoint queue_all (c : sr_arpcache) (ip : Z) (pkts : list (buffer * cstr)) : res sr_arpcache :=
  match pkts with
  | [] => Ok c
  | (b, i) :: pkts =>
      '(c, _) ← sr_arpcache_queuereq c ip b (length b) i; queue_all c ip pkts
  end.

Definition queued (p : buffer * cstr) : sr_packet :=
  SrPacket p.1 (length p.1) (strncpy sr_IFACE_NAMELEN p.2).

Lemma find_map_update p f ip l :
  keeps_key f ->
  find_req ip (map (fun r => if (rq_addr r =? p)%nat then f r else r) l) =
  (fun r => if (rq_addr r =? p)%nat then f r else r) <$> find_req ip l.
Proof.
  intros Hf. unfold find_req. induction l as [|x l IH]; simpl; [done|].
  assert (Hx : rq_ip (if (rq_addr x =? p)%nat then f x else x) = rq_ip x)
    by (case_test; [apply Hf|done]).
  rewrite Hx. by destruct (rq_ip x =? ip).
Qed.

(** The packets that wait for an address. *)
Definition waiting (c : sr_arpcache) (ip : Z) : list sr_packet :=
  match find_req ip (ac_requests c) with Some r => rq_packets r | None => [] end.

Lemma queuereq_waiting c ip b i :
  (0 < length b)%nat ->
  exists c' p r, sr_arpcache_queuereq c ip b (length b) i = Ok (c', p) /\
    ac_entries c' = ac_entries c /\
    find_req ip (ac_requests c') = Some r /\ rq_addr r = p /\
    rq_packets r = queued (b, i) :: waiting c ip.
Proof.
  intros Hb. unfold sr_arpcache_queuereq, waiting.
  rewrite (rd_all (length b)) by done.
  destruct (find_req ip (ac_requests c)) as [r|] eqn:E; (case_test; [lia|]).
  - eexists _, _, (push_packet (queued (b, i)) r). split; [done|]. split; [done|].
    unfold req_update. cbn [set_requests ac_requests].
    rewrite find_map_update, E by done. simpl. by rewrite Nat.eqb_refl.
  - eexists _, _, (push_packet (queued (b, i)) (SrArpReq (ac_next c) ip 0 0 [])).
    split; [done|]. split; [done|].
    unfold req_update. cbn [set_requests ac_requests].
    rewrite find_map_update by done. unfold find_req. simpl. rewrite Z.eqb_refl. simpl.
    by rewrite Nat.eqb_refl.
Qed.

Lemma queue_all_waiting pkts c ip :
  Forall (fun p => (0 < length p.1)%nat) pkts ->
  exists c', queue_all c ip pkts = Ok c' /\ ac_entries c' = ac_entries c /\
    waiting c' ip = rev (map queued pkts) ++ waiting c ip /\
    (pkts <> [] -> is_Some (find_req ip (ac_requests c'))).
Proof.
  revert c. induction pkts as [|[b i] pkts IH]; intros c Hp.
  { exists c. done. }
  apply Forall_cons in Hp as [Hb Hp]. simpl in Hb.
  destruct (queuereq_waiting c ip b i Hb) as (c1 & p & r & H1 & He & Hf & Ha & Hr).
  cbn [queue_all]. rewrite H1. cbn [mbind res_bind].
  destruct (IH c1 Hp) as (c' & H2 & He' & Hw & Hs).
  exists c'. split; [done|]. split; [congruence|]. split.
  - rewrite Hw. unfold waiting at 1. rewrite Hf, Hr. simpl.
    by rewrite <-app_assoc.
  - intros _. destruct pkts as [|q pkts]; [|by apply Hs].
    simpl in H2. injection H2 as <-. eauto.
Qed.

(** ** What is learnt *)

(** [c'] is the cache [c] after it has learnt at time [now] that [ip] has the address
    [mac], as far as lookups can tell: when no valid entry has the address and a slot
    is free, [ip] is answered with [mac]; an answer it has is never lost; in a full
    table the mapping is dropped; every other address is answered as before. The
    request for [ip] is gone, and no other. *)
Record learnt (now : Z) (mac : buffer) (ip : Z) (c c' : sr_arpcache) : Prop := {
  ln_stored : sr_arpcache_lookup c ip = None ->
    Exists (fun e => ae_valid e = false) (ac_entries c) ->
    sr_arpcache_lookup c' ip = Some (SrArpEntry mac ip now true);
  ln_known : is_Some (sr_arpcache_lookup c ip) -> is_Some (sr_arpcache_lookup c' ip);
  ln_full : Forall (fun e => ae_valid e = true) (ac_entries c) -> ac_entries c' = ac_entries c;
  ln_others : forall ip', ip' <> ip -> sr_arpcache_lookup c' ip' = sr_arpcache_lookup c ip';
  ln_gone : find_req ip (ac_requests c') = None;
  ln_requests : forall ip', ip' <> ip ->
    find_req ip' (ac_requests c') = find_req ip' (ac_requests c) }.

Lemma find_unlink_other ip ip' l :
  ip' <> ip -> find_req ip' (unlink (fun r => rq_ip r =? ip) l) = find_req ip' l.
Proof.
  intros Hne. unfold find_req. induction l as [|x l IH]; [done|]. cbn.
  destruct (Z.eqb_spec (rq_ip x) ip) as [->|]; [by rewrite (proj2 (Z.eqb_neq ip ip')) by congruence|].
  cbn. by rewrite IH.
Qed.

Lemma find_unlink_gone ip l :
  NoDup (map rq_ip l) -> find_req ip (unlink (fun r => rq_ip r =? ip) l) = None.
Proof.
  intros Hd. unfold find_req. destruct (find _ _) as [x|] eqn:Hx; [exfalso|done].
  apply find_some in Hx as [Hx Hi]. apply Z.eqb_eq in Hi. revert Hi.
  by apply (unlink_gone rq_ip ip (fun r => rq_ip r =? ip) l); [intros; apply Z.eqb_eq| |].
Qed.

Lemma insert_learns now c mac ip :
  cache_wf c -> length mac = 6%nat ->
  exists c', sr_arpcache_insert now c mac ip = Ok (c', find_req ip (ac_requests c)) /\
    learnt now mac ip c c'.
Proof.
  intros Hwf Hm. unfold sr_arpcache_insert. rewrite rd_all by done.
  eexists. split; [done|]. set (new := SrArpEntry mac ip now true).
  assert (Hother : forall l1 x l2, ae_valid x = false -> forall ip', ip' <> ip ->
    lookup_in (l1 ++ new :: l2) ip' = lookup_in (l1 ++ x :: l2) ip').
  { intros l1 x l2 Hx ip' Hne. rewrite !lookup_in_app, !lookup_in_cons, Hx. cbn.
    by rewrite (proj2 (Z.eqb_neq ip ip')) by congruence. }
  destruct (store_entry_spec new (ac_entries c)) as [[Hall Hs]|(l1 & x & l2 & El & H1 & Hx & Hs)].
  - split; rewrite ?sr_arpcache_lookup_in; cbn [ac_entries ac_requests set_entries set_requests];
      rewrite ?Hs; try done.
    + intros _ Hex. apply Exists_exists in Hex as (e & He & Hv).
      rewrite Forall_forall in Hall. by rewrite Hall in Hv.
    + apply find_unlink_gone, Hwf.
    + intros ip' Hne. by apply find_unlink_other.
  - split; rewrite ?sr_arpcache_lookup_in; cbn [ac_entries ac_requests set_entries set_requests];
      rewrite ?Hs, ?El.
    + intros Hn _. apply lookup_in_some. exists l1, l2. split; [done|]. split; [done|].
      apply lookup_in_none in Hn. apply Forall_app in Hn as [_ Hn].
      by apply Forall_cons in Hn as [_ Hn].
    + intros _. rewrite lookup_in_app, lookup_in_cons. destruct (lookup_in l2 ip); [by eexists|].
      cbn. rewrite Z.eqb_refl. by eexists.
    + intros Hall. apply Forall_app in Hall as [_ Hall]. apply Forall_cons in Hall as [Hv _].
      congruence.
    + intros ip' Hne. rewrite !sr_arpcache_lookup_in. cbn [ac_entries set_entries set_requests].
      rewrite ?Hs, El. by apply Hother.
    + apply find_unlink_gone, Hwf.
    + intros ip' Hne. by apply find_unlink_other.
Qed.

(** * Theorems *)

(** C33: In every reachable cache the table has its 100 entries, and the
    requests sit at distinct allocated addresses and ask for distinct IP
    addresses: one request per next hop, whatever the history. *)
Theorem cache_reachable_wf c : cache_reachable c -> cache_wf c.
Proof. induction 1; [apply init_wf|by eapply run_op_wf]. Qed.

(** Storing a mapping when no valid entry has the address and a slot is
    free makes exactly that mapping visible: the address is answered by the new
    one and every other address is answered as before. *)
Theorem insert_lookup now c mac ip :
  length mac = 6%nat -> sr_arpcache_lookup c ip = None ->
  Exists (fun e => ae_valid e = false) (ac_entries c) ->
  exists c', sr_arpcache_insert now c mac ip = Ok (c', find_req ip (ac_requests c)) /\
    sr_arpcache_lookup c' ip = Some (SrArpEntry mac ip now true) /\
    (forall ip', ip' <> ip -> sr_arpcache_lookup c' ip' = sr_arpcache_lookup c ip').
Proof.
  intros Hm Hn Hex. unfold sr_arpcache_insert. rewrite rd_all by done.
  eexists. split; [done|].
  rewrite !sr_arpcache_lookup_in in *. cbn [ac_entries set_entries set_requests].
  destruct (store_entry_spec (SrArpEntry mac ip now true) (ac_entries c))
    as [[Hall _]|(l1 & x & l2 & El & _ & Hx & ->)].
  { exfalso. apply Exists_exists in Hex as (e & He & Hv).
    rewrite Forall_forall in Hall. rewrite Hall in Hv; done. }
  split.
  - apply lookup_in_some. exists l1, l2. split; [done|]. split; [done|].
    apply lookup_in_none in Hn. rewrite El in Hn. apply Forall_app in Hn as [_ Hn].
    by apply Forall_cons in Hn as [_ Hn].
  - intros ip' Hne. rewrite !sr_arpcache_lookup_in, El. cbn [ac_entries set_entries].
    rewrite !lookup_in_app, !lookup_in_cons. simpl. rewrite Hx.
    destruct (Z.eqb_spec ip ip'); [congruence|done].
Qed.

Definition demo_cache : sr_arpcache := sr_arpcache_init.

Lemma insert_lookup_witness :
  exists c', sr_arpcache_insert 7 demo_cache [1; 2; 3; 4; 5; 6] 99 =
      Ok (c', find_req 99 (ac_requests demo_cache)) /\
    sr_arpcache_lookup c' 99 = Some (SrArpEntry [1; 2; 3; 4; 5; 6] 99 7 true) /\
    (forall ip', ip' <> 99 -> sr_arpcache_lookup c' ip' = sr_arpcache_lookup demo_cache ip').
Proof.
  apply (insert_lookup 7 demo_cache [1; 2; 3; 4; 5; 6] 99); [done|reflexivity|].
  by apply Exists_cons_hd.
Defined.

(** Two packets wait for one address and one for another; a request is marked as
    sent; the first address is learnt; the other request is destroyed; time passes. *)
Definition demo_ops : list cache_op :=
  [OpQueue 99 [1; 2] 2 (str "eth1"); OpQueue 77 [3] 1 (str "eth2");
   OpQueue 99 [4] 1 (str "eth1"); OpSent 0 5; OpInsert 7 [1; 2; 3; 4; 5; 6] 99;
   OpDestroy 1; OpExpire 30].
Fixpoint run_ops (c : sr_arpcache) (ops : list cache_op) : res sr_arpcache :=
  match ops with
  | [] => Ok c
  | op :: ops => c ← run_op c op; run_ops c ops
  end.
Definition demo_run (n : nat) : sr_arpcache :=
  match run_ops sr_arpcache_init (take n demo_ops) with Ok c => c | Fault _ => sr_arpcache_init end.

Lemma cache_reachable_wf_witness :
  map (fun r => (rq_ip r, length (rq_packets r))) (ac_requests (demo_run 4)) = [(77, 1%nat); (99, 2%nat)] /\
  cache_wf (demo_run 4) /\
  sr_arpcache_lookup (demo_run 6) 99 = Some (SrArpEntry [1; 2; 3; 4; 5; 6] 99 7 true) /\
  ac_requests (demo_run 6) = [] /\ sr_arpcache_lookup (demo_run 7) 99 = None /\
  cache_wf (demo_run 7).
Proof.
  assert (Hr : forall n, (n <= 7)%nat -> cache_reachable (demo_run n)).
  { induction n as [|n IH]; intros Hn; [apply reach_init|].
    destruct (demo_ops !! n) as [op|] eqn:E; [|apply lookup_ge_None in E; cbn in E; lia].
    apply (reach_op (demo_run n) op); [apply IH; lia|].
    do 7 (destruct n as [|n]; [injection E as <-; vm_compute; reflexivity|]). lia. }
  split; [vm_compute; reflexivity|]. split; [apply (cache_reachable_wf (demo_run 4)), Hr; lia|].
  split; [vm_compute; reflexivity|]. split; [vm_compute; reflexivity|].
  split; [vm_compute; reflexivity|]. apply (cache_reachable_wf (demo_run 7)), Hr. lia.
Defined.

(** A mapping that is learnt while an older valid one for the same address
    sits later in the table is not used: the lookup keeps answering the old
    address, because it keeps the last match and the store takes the first free
    slot. *)
Theorem insert_shadowed now c mac ip before free after old :
  length mac = 6%nat -> ac_entries c = before ++ free :: after ->
  Forall (fun e => ae_valid e = true) before -> ae_valid free = false ->
  lookup_in after ip = Some old ->
  exists c', sr_arpcache_insert now c mac ip = Ok (c', find_req ip (ac_requests c)) /\
    SrArpEntry mac ip now true ∈ ac_entries c' /\ sr_arpcache_lookup c' ip = Some old.
Proof.
  intros Hm He Hb Hf Ho. unfold sr_arpcache_insert. rewrite rd_all by done.
  eexists. split; [done|].
  rewrite sr_arpcache_lookup_in. cbn [ac_entries set_entries set_requests].
  assert (Hs : store_entry (SrArpEntry mac ip now true) (ac_entries c) =
    before ++ SrArpEntry mac ip now true :: after).
  { rewrite He. clear He. induction Hb as [|x l Hx Hl IH]; simpl; [by rewrite Hf|].
    by rewrite Hx, IH. }
  rewrite Hs. split; [set_solver|]. by rewrite lookup_in_app, lookup_in_cons, Ho.
Qed.

Definition demo_old : sr_arpentry := SrArpEntry [9; 9; 9; 9; 9; 9] 99 5 true.
Definition demo_shadow : sr_arpcache :=
  SrArpCache (zero_entry :: demo_old :: replicate 98 zero_entry) [] 0.

Lemma insert_shadowed_witness :
  exists c', sr_arpcache_insert 7 demo_shadow [1; 2; 3; 4; 5; 6] 99 =
      Ok (c', find_req 99 (ac_requests demo_shadow)) /\
    SrArpEntry [1; 2; 3; 4; 5; 6] 99 7 true ∈ ac_entries c' /\
    sr_arpcache_lookup c' 99 = Some demo_old.
Proof.
  by apply (insert_shadowed 7 demo_shadow [1; 2; 3; 4; 5; 6] 99 [] zero_entry
    (demo_old :: replicate 98 zero_entry) demo_old).
Defined.

(** The reply for an address hands back every packet queued for it since,
    with its bytes and interface, in reverse order of arrival, and leaves no
    request for the address behind. *)
Theorem queue_then_insert c ip pkts now mac :
  cache_wf c -> find_req ip (ac_requests c) = None ->
  Forall (fun p => (0 < length p.1)%nat) pkts -> pkts <> [] -> length mac = 6%nat ->
  exists c1 c2 req, queue_all c ip pkts = Ok c1 /\
    sr_arpcache_insert now c1 mac ip = Ok (c2, Some req) /\
    rq_packets req = rev (map queued pkts) /\ find_req ip (ac_requests c2) = None.
Proof.
  intros Hwf Hn Hp Hne Hm.
  destruct (queue_all_waiting pkts c ip Hp) as (c1 & Hq & _ & Hw & Hs).
  destruct (Hs Hne) as [req Hreq]. unfold waiting in Hw. rewrite Hreq, Hn, app_nil_r in Hw.
  assert (Hwf1 : cache_wf c1).
  { clear -Hwf Hq. revert c Hwf Hq. induction pkts as [|[b i] pkts IH]; intros c Hwf Hq.
    - by injection Hq as <-.
    - cbn [queue_all] in Hq.
      destruct (sr_arpcache_queuereq c ip b (length b) i) as [[d q]|] eqn:E; [|done].
      apply (IH d); [|done]. by eapply queuereq_wf. }
  eexists c1, _, req. split; [done|]. unfold sr_arpcache_insert. rewrite Hreq.
  rewrite rd_all by done. split; [done|]. split; [done|].
  cbn [ac_requests set_entries set_requests].
  destruct (find_req ip (unlink _ _)) as [r|] eqn:E; [|done]. exfalso.
  apply find_some in E as [Hr Hip]. apply Z.eqb_eq in Hip.
  revert Hip. apply (unlink_gone rq_ip ip (fun r => rq_ip r =? ip) (ac_requests c1));
    [intros; apply Z.eqb_eq|apply Hwf1|done].
Qed.

Lemma queue_then_insert_witness :
  exists c1 c2 req, queue_all demo_cache 99 [([1; 2], str "eth1"); ([3], str "eth2")] = Ok c1 /\
    sr_arpcache_insert 7 c1 [1; 2; 3; 4; 5; 6] 99 = Ok (c2, Some req) /\
    rq_packets req = rev (map queued [([1; 2], str "eth1"); ([3], str "eth2")]) /\
    find_req 99 (ac_requests c2) = None.
Proof.
  apply (queue_then_insert demo_cache 99 [([1; 2], str "eth1"); ([3], str "eth2")] 7
    [1; 2; 3; 4; 5; 6]); [apply init_wf|done| |done|done].
  repeat constructor; simpl; lia.
Defined.
