(* ===== verification/Instance.v ===== *)
(** The state of one virtual router, [struct sr_instance]
    (router/src/router/sr_router.h), the monad its code runs in, and the way
    frames leave it ([sr_send_packet] of router/src/router/sr_vns_comm.c). *)
From S2P Require Import Prelude Mem Protocol Interfaces RoutingTable ArpCache.

(** What the C library and the kernel decide: the contents of memory returned
    by [malloc], and how many bytes [write] accepts. *)
Class Env := {
  uninit : nat -> nat -> buffer;
  sock_write : nat -> nat -> Z;
  uninit_length : forall k n, length (uninit k n) = n;
  uninit_bytes : forall k n, bytes_ok (uninit k n) }.

(** A record of the packet log: the seconds of the time stamp, the captured
    length, the packet length the record states, and the captured bytes. *)
Record pcap_rec := PcapRec { pc_sec : Z; pc_caplen : Z; pc_len : Z; pc_data : buffer }.

(** [struct sr_instance]. [in_clock] is what [time(NULL)] answers while one
    event is handled; [in_wire] is what has been written to [sockfd];
    [in_allocs] counts calls to [malloc]. *)
Record sr_instance := SrInstance {
  in_user : cstr;
  in_if_list : list sr_if;
  in_routing_table : list sr_rt;
  in_cache : sr_arpcache;
  in_logfile : option (list pcap_rec);
  in_clock : Z;
  in_wire : list buffer;
  in_allocs : nat }.

Definition set_if_list (s : sr_instance) (l : list sr_if) : sr_instance :=
  SrInstance (in_user s) l (in_routing_table s) (in_cache s) (in_logfile s)
    (in_clock s) (in_wire s) (in_allocs s).
Definition set_table (s : sr_instance) (t : list sr_rt) : sr_instance :=
  SrInstance (in_user s) (in_if_list s) t (in_cache s) (in_logfile s)
    (in_clock s) (in_wire s) (in_allocs s).
Definition set_cache (s : sr_instance) (c : sr_arpcache) : sr_instance :=
  SrInstance (in_user s) (in_if_list s) (in_routing_table s) c (in_logfile s)
    (in_clock s) (in_wire s) (in_allocs s).
Definition set_logfile (s : sr_instance) (f : option (list pcap_rec)) : sr_instance :=
  SrInstance (in_user s) (in_if_list s) (in_routing_table s) (in_cache s) f
    (in_clock s) (in_wire s) (in_allocs s).
Definition set_clock (s : sr_instance) (t : Z) : sr_instance :=
  SrInstance (in_user s) (in_if_list s) (in_routing_table s) (in_cache s) (in_logfile s)
    t (in_wire s) (in_allocs s).
Definition set_wire (s : sr_instance) (w : list buffer) : sr_instance :=
  SrInstance (in_user s) (in_if_list s) (in_routing_table s) (in_cache s) (in_logfile s)
    (in_clock s) w (in_allocs s).
Definition set_allocs (s : sr_instance) (n : nat) : sr_instance :=
  SrInstance (in_user s) (in_if_list s) (in_routing_table s) (in_cache s) (in_logfile s)
    (in_clock s) (in_wire s) n.

Abbreviation RM := (M sr_instance).

Definition PACKET_DUMP_SIZE : Z := 1024.
Definition VNSPACKET : Z := 4.
Definition sizeof_c_packet_header : nat := 24.

(** [strncpy] into a fixed array, which it pads with NULs. *)
Definition strncpy_pad (n : nat) (s : cstr) : buffer := take n s ++ replicate (n - length s) 0.

(** The header a frame travels behind: total length, message type, and the
    interface name in 16 bytes ([c_packet_header], vnscommand.h). *)
Definition packet_header (total_len : Z) (iface : cstr) : buffer :=
  le_bytes 4 (htonl total_len) ++ le_bytes 4 (htonl VNSPACKET) ++ strncpy_pad 16 iface.

(** The message that carries a frame out of an interface. *)
Definition vns_message (iface : cstr) (frame : buffer) : buffer :=
  packet_header (u32 (Z.of_nat (length frame) + 24)) iface ++ frame.

Section instance.
Context `{Env}.

(** [malloc(n)] *)
Definition malloc (n : nat) : RM buffer := fun s =>
  Ok (uninit (in_allocs s) n, set_allocs s (S (in_allocs s))).

(** [sr_log_packet]: appends at most [PACKET_DUMP_SIZE] bytes of the packet
    to the log, when there is one. *)
Definition sr_log_packet (buf : buffer) (len : Z) : RM unit :=
  s ← get;
  match in_logfile s with
  | None => mret tt
  | Some f =>
      let size := Z.min PACKET_DUMP_SIZE len in
      let caplen := u32 size in
      let hlen := u32 (if size <? PACKET_DUMP_SIZE then size else PACKET_DUMP_SIZE) in
      data ← lift (if caplen <=? Z.of_nat (length buf)
                   then rd 0 (Z.to_nat caplen) buf else Fault OutOfBounds);
      put (set_logfile s (Some (f ++ [PcapRec (in_clock s) caplen hlen data])))
  end.

(** [sr_ether_addrs_match_interface] *)
Definition sr_ether_addrs_match_interface (buf : buffer) (name : cstr) : RM bool :=
  s ← get;
  match sr_get_interface (in_if_list s) name with
  | None => mret false
  | Some iface =>
      shost ← lift (ld_arr ether_shost 0 buf);
      mret (bool_decide (shost = if_addr iface))
  end.

(** [write(sr->sockfd, msg, n)]: the bytes accepted go on the wire. *)
Definition write_sock (msg : buffer) : RM Z :=
  s ← get;
  let n := sock_write (length (in_wire s)) (length msg) in
  let n := Z.min n (Z.of_nat (length msg)) in
  put (set_wire s (in_wire s ++ [take (Z.to_nat n) msg]));;
  mret n.

(** [sr_send_packet] *)
Definition sr_send_packet (buf : buffer) (len : nat) (iface : cstr) : RM Z :=
  let total_len := u32 (Z.of_nat len + 24) in
  if (len <? sizeof_ether)%nat then mret (-1)
  else
    malloc (len + sizeof_c_packet_header);;
    payload ← lift (rd 0 len buf);
    let sr_pkt := packet_header total_len iface ++ payload in
    sr_log_packet buf (i32 (Z.of_nat len));;
    ok ← sr_ether_addrs_match_interface buf iface;
    if negb ok then mret (-1)
    else
      w ← write_sock sr_pkt;
      mret (if w <? total_len then -1 else 0).
End instance.

(** * What sending does *)

(** A kernel that accepts whole messages. *)
Class ReliableEnv `{Env} : Prop :=
  write_all : forall k n, Z.of_nat n <= sock_write k n.

Section sending.
Context `{Env}.

(** The parts of the state that sending leaves alone. *)
Definition same_config (s s' : sr_instance) : Prop :=
  in_user s' = in_user s /\ in_if_list s' = in_if_list s /\
  in_routing_table s' = in_routing_table s /\ in_clock s' = in_clock s.

Lemma same_config_refl s : same_config s s.
Proof. done. Qed.
Lemma same_config_trans s1 s2 s3 :
  same_config s1 s2 -> same_config s2 s3 -> same_config s1 s3.
Proof. unfold same_config. intuition congruence. Qed.

(** The log after a packet of [len] bytes. *)
Definition log_packet (f : option (list pcap_rec)) (now : Z) (buf : buffer)
  : option (list pcap_rec) :=
  (fun f => f ++ [PcapRec now (Z.min 1024 (Z.of_nat (length buf)))
                    (Z.min 1024 (Z.of_nat (length buf)))
                    (take (Z.to_nat 1024) buf)]) <$> f.

Lemma bind_malloc {B} n (f : buffer -> RM B) s :
  (malloc n ≫= f) s = f (uninit (in_allocs s) n) (set_allocs s (S (in_allocs s))).
Proof. reflexivity. Qed.

Lemma write_sock_all `{!ReliableEnv} msg s :
  write_sock msg s = Ok (Z.of_nat (length msg), set_wire s (in_wire s ++ [msg])).
Proof.
  unfold write_sock. exec. pose proof (write_all (length (in_wire s)) (length msg)).
  rewrite Z.min_r by lia. by rewrite Nat2Z.id, take_ge by lia.
Qed.

Lemma sr_log_packet_eq s buf :
  Z.of_nat (length buf) < 2147483648 ->
  sr_log_packet buf (i32 (Z.of_nat (length buf))) s =
  Ok (tt, set_logfile s (log_packet (in_logfile s) (in_clock s) buf)).
Proof.
  intros Hl. unfold sr_log_packet, i32. rewrite (u32_small (Z.of_nat _)) by lia.
  case_test; [|lia]. exec.
  destruct (in_logfile s) as [f|] eqn:Ef; [|by destruct s; simpl in *; subst].
  unfold PACKET_DUMP_SIZE.
  assert (Hn : 0 <= Z.min 1024 (Z.of_nat (length buf)) <= 1024) by lia.
  set (n := Z.min 1024 (Z.of_nat (length buf))) in *.
  replace (u32 (if n <? 1024 then n else 1024)) with n
    by (case_test; rewrite u32_small; lia).
  rewrite u32_small by lia.
  replace (n <=? Z.of_nat (length buf)) with true by (symmetry; apply Z.leb_le; lia).
  rewrite rd_ok by lia.
  assert (Hs : slice 0 (Z.to_nat n) buf = take (Z.to_nat 1024) buf).
  { unfold slice. rewrite drop_0. destruct (Z.le_gt_cases (Z.of_nat (length buf)) 1024).
    - by rewrite !take_ge by lia.
    - f_equal. lia. }
  rewrite Hs. exec. done.
Qed.

(** A frame of at least 14 bytes whose source address is that of the
    interface it leaves by goes on the wire. *)
Lemma sr_send_packet_sent `{!ReliableEnv} s buf name i :
  (14 <= length buf)%nat -> Z.of_nat (length buf) < 2147483624 ->
  sr_get_interface (in_if_list s) name = Some i ->
  fbytes ether_shost 0 buf = if_addr i ->
  sr_send_packet buf (length buf) name s =
  Ok (0, set_wire (set_logfile (set_allocs s (S (in_allocs s)))
      (log_packet (in_logfile s) (in_clock s) buf))
    (in_wire s ++ [vns_message name buf])).
Proof.
  intros H1 H2 Hi Hs. unfold sr_send_packet, sizeof_ether.
  case_test; [lia|]. rewrite bind_malloc, (rd_all (length buf)) by done. exec.
  rewrite (bind_ok _ _ _ _ _ (sr_log_packet_eq (set_allocs s _) buf ltac:(lia))).
  set (s1 := set_logfile _ _).
  rewrite (bind_ok _ _ s1 true s1).
  2: { unfold sr_ether_addrs_match_interface. exec.
       change (in_if_list s1) with (in_if_list s). rewrite Hi.
       rewrite ld_arr_ok by (unfold in_field; simpl; lia). exec. rewrite Hs.
       by rewrite bool_decide_eq_true_2. }
  cbn [negb].
  set (msg := packet_header _ _ ++ _).
  assert (Hm : Z.of_nat (length msg) = Z.of_nat (length buf) + 24).
  { unfold msg, packet_header, strncpy_pad. rewrite !length_app, !length_le_bytes,
      length_take, length_replicate. lia. }
  rewrite (bind_ok _ _ s1 _ _ (write_sock_all _ _)).
  rewrite u32_small by lia. case_test; [lia|].
  unfold vns_message, msg. done.
Qed.

(** Whatever the frame, sending changes only the wire, the log and the
    allocation count, and does not fault when the buffer has its length. *)
Lemma sr_send_packet_total s buf name :
  Z.of_nat (length buf) < 2147483624 ->
  wp (sr_send_packet buf (length buf) name)
    (fun _ s' => same_config s s' /\ in_cache s' = in_cache s) s.
Proof.
  intros Hl. unfold sr_send_packet, sizeof_ether, wp.
  case_test; [done|]. rewrite bind_malloc, (rd_all (length buf)) by done. exec.
  rewrite (bind_ok _ _ _ _ _ (sr_log_packet_eq (set_allocs s _) buf ltac:(lia))).
  set (s1 := set_logfile _ _).
  assert (Hm : exists b, sr_ether_addrs_match_interface buf name s1 = Ok (b, s1)).
  { unfold sr_ether_addrs_match_interface. exec.
    destruct (sr_get_interface _ name); [|by eexists].
    rewrite ld_arr_ok by (unfold in_field; simpl; lia). exec. by eexists. }
  destruct Hm as [b Hm]. rewrite (bind_ok _ _ _ _ _ Hm). by destruct b.
Qed.
End sending.

(** * Environments for the examples *)

#[export, refine] Instance zero_env : Env := {|
  uninit := fun _ n => replicate n 0; sock_write := fun _ n => Z.of_nat n |}.
Proof.
  - intros. apply length_replicate.
  - intros. apply Forall_replicate. unfold is_byte. lia.
Defined.

#[export] Instance zero_env_reliable : ReliableEnv.
Proof. intros k n. simpl. lia. Qed.
