(* ===== verification/Router.v ===== *)
(** The router's packet processing (router/src/router/sr_router.c) and the part
    of router/src/router/sr_arpcache.c that sends: [handle_arpreq], the sweep
    and the time-out turn. *)
From S2P Require Import Prelude Mem Cksum Protocol Interfaces RoutingTable ArpCache Instance.

(** What goes on while the thread that handles frames waits for the next: the thread
    that [sr_init] starts makes a turn, or seconds pass. *)
Inductive meantime :=
  | Sweep
  | Wait (seconds : Z).

Section router.
Context `{Env}.

(** * Access to the instance *)

Definition get_iface (name : cstr) : RM (option sr_if) :=
  gets (fun s => sr_get_interface (in_if_list s) name).
Definition get_route (ip : Z) : RM (option sr_rt) :=
  gets (fun s => sr_get_longest_prefix_match (in_routing_table s) ip).
Definition get_mac (ip : Z) : RM (option sr_arpentry) :=
  gets (fun s => sr_arpcache_lookup (in_cache s) ip).
Definition queuereq (ip : Z) (packet : buffer) (len : nat) (iface : cstr) : RM nat :=
  s ← get;
  '(c, p) ← lift (sr_arpcache_queuereq (in_cache s) ip packet len iface);
  put (set_cache s c);;
  mret p.
Definition cksum_at (off len : nat) (packet : buffer) : res Z :=
  data ← rd off len packet; cksum data.

(** Following a pointer to a request that may have been freed. *)
Definition req_deref (req : nat) : RM sr_arpreq :=
  s ← get;
  match req_at (in_cache s) req with Some r => mret r | None => fail UseAfterFree end.

(** * ARP messages *)

(** The fields [sr_send_arp_request] fills. *)
Definition fill_arp_request (tip : Z) (iface : sr_if) (p : buffer) : res buffer :=
  p ← st_arr ether_dhost 0 (replicate 6 0xff) p;
  p ← st_arr ether_shost 0 (if_addr iface) p;
  p ← st ether_type 0 (htons ethertype_arp) p;
  p ← st ar_hrd 14 (htons arp_hrd_ethernet) p;
  p ← st ar_pro 14 (htons ethertype_ip) p;
  p ← st ar_hln 14 6 p;
  p ← st ar_pln 14 4 p;
  p ← st ar_op 14 (htons arp_op_request) p;
  p ← st_arr ar_sha 14 (if_addr iface) p;
  p ← st ar_sip 14 (if_ip iface) p;
  p ← st_arr ar_tha 14 (replicate 6 0) p;
  st ar_tip 14 tip p.

(** [sr_send_arp_request] *)
Definition sr_send_arp_request (tip : Z) (iface : option sr_if) : RM unit :=
  let len := (sizeof_ether + sizeof_arp)%nat in
  arp_packet ← malloc len;
  iface ← deref iface;
  arp_packet ← lift (fill_arp_request tip iface arp_packet);
  sr_send_packet arp_packet len (if_name iface);;
  mret tt.

(** The fields [sr_send_arp_reply] fills. *)
Definition fill_arp_reply (iface : sr_if) (req p : buffer) : res buffer :=
  shost ← ld_arr ether_shost 0 req;
  p ← st_arr ether_dhost 0 shost p;
  p ← st_arr ether_shost 0 (if_addr iface) p;
  p ← st ether_type 0 (htons ethertype_arp) p;
  p ← st ar_hrd 14 (htons arp_hrd_ethernet) p;
  p ← st ar_pro 14 (htons ethertype_ip) p;
  p ← st ar_hln 14 6 p;
  p ← st ar_pln 14 4 p;
  p ← st ar_op 14 (htons arp_op_reply) p;
  p ← st_arr ar_sha 14 (if_addr iface) p;
  p ← st ar_sip 14 (if_ip iface) p;
  sha ← ld_arr ar_sha 14 req;
  p ← st_arr ar_tha 14 sha p;
  sip ← ld ar_sip 14 req;
  st ar_tip 14 sip p.

(** [sr_send_arp_reply] *)
Definition sr_send_arp_reply (req_packet : buffer) (len : nat) (interface : cstr) : RM unit :=
  iface ← get_iface interface;
  reply_packet ← malloc len;
  iface ← deref iface;
  reply_packet ← lift (fill_arp_reply iface req_packet reply_packet);
  sr_send_packet reply_packet len interface;;
  mret tt.

(** One turn of the loop over a request's packets when its reply arrives. *)
Definition flush_packet (sha : buffer) (pkt : sr_packet) : RM unit :=
  out_iface ← get_iface (pk_iface pkt);
  buf ← lift (st_arr ether_dhost 0 sha (pk_buf pkt));
  out_iface ← deref out_iface;
  buf ← lift (st_arr ether_shost 0 (if_addr out_iface) buf);
  sr_send_packet buf (pk_len pkt) (pk_iface pkt);;
  mret tt.

(** [sr_handle_arp_packet]; [sr_arpreq_destroy] of the request, which is no
    longer in the list, only frees it. *)
Definition sr_handle_arp_packet (packet : buffer) (len : nat) (interface : cstr) : RM unit :=
  if (len <? sizeof_ether + sizeof_arp)%nat then mret tt
  else
    iface ← get_iface interface;
    match iface with
    | None => mret tt
    | Some iface =>
        op ← lift (ld ar_op 14 packet);
        tip ← lift (ld ar_tip 14 packet);
        if ntohs op =? arp_op_request then
          if tip =? if_ip iface then sr_send_arp_reply packet len interface
          else mret tt
        else if ntohs op =? arp_op_reply then
          if tip =? if_ip iface then
            sha ← lift (ld_arr ar_sha 14 packet);
            sip ← lift (ld ar_sip 14 packet);
            s ← get;
            '(c, req) ← lift (sr_arpcache_insert (in_clock s) (in_cache s) sha sip);
            put (set_cache s c);;
            match req with
            | None => mret tt
            | Some req =>
                for_each (flush_packet sha) (rq_packets req);;
                modify (fun s => set_cache s (sr_arpreq_destroy (in_cache s) (rq_addr req)))
            end
          else mret tt
        else mret tt
    end.

(** * ICMP errors *)

(** The IP and ICMP headers [sr_send_error] builds; [iface] is the interface
    the offending packet came in by. *)
Definition fill_icmp_error (packet : buffer) (iface : option sr_if) (type code : Z)
    (p : buffer) : res buffer :=
  src ← ld ip_src 14 packet;
  p ← st_ip_hl 14 5 p;
  p ← st_ip_v 14 4 p;
  p ← st ip_tos 14 0 p;
  p ← st ip_len 14 (htons (Z.of_nat (sizeof_ip + sizeof_icmp_t3))) p;
  p ← st ip_id 14 (htons 0) p;
  p ← st ip_off 14 (htons IP_DF) p;
  p ← st ip_ttl 14 64 p;
  p ← st ip_p 14 ip_protocol_icmp p;
  match iface with
  | None => Fault NullDeref
  | Some iface =>
      p ← st ip_src 14 (if_ip iface) p;
      p ← st ip_dst 14 src p;
      p ← st ip_sum 14 0 p;
      sum ← cksum_at 14 sizeof_ip p;
      p ← st ip_sum 14 sum p;
      p ← st icmp_type 34 type p;
      p ← st icmp_code 34 code p;
      p ← st t3_unused 34 0 p;
      p ← st t3_next_mtu 34 0 p;
      data ← rd 14 ICMP_DATA_SIZE packet;
      p ← st_arr t3_data 34 data p;
      p ← st icmp_sum 34 0 p;
      sum ← cksum_at 34 sizeof_icmp_t3 p;
      st icmp_sum 34 sum p
  end.

(** [sr_send_error]; [handle] is [handle_arpreq], which the code calls and
    which calls this function. *)
Definition sr_send_error (handle : nat -> RM unit) (packet : buffer) (interface : cstr)
    (type code : Z) : RM unit :=
  let icmp_len := (sizeof_ether + sizeof_ip + sizeof_icmp_t3)%nat in
  icmp_packet ← malloc icmp_len;
  iface ← get_iface interface;
  src ← lift (ld ip_src 14 packet);
  rt ← get_route src;
  match rt with
  | None => mret tt
  | Some rt =>
      out_iface ← get_iface (rt_iface rt);
      match out_iface with
      | None => mret tt
      | Some out_iface =>
          icmp_packet ← lift (fill_icmp_error packet iface type code icmp_packet);
          arp_entry ← get_mac (rt_gw rt);
          match arp_entry with
          | Some arp_entry =>
              p ← lift (st_arr ether_dhost 0 (ae_mac arp_entry) icmp_packet);
              p ← lift (st_arr ether_shost 0 (if_addr out_iface) p);
              p ← lift (st ether_type 0 (htons ethertype_ip) p);
              sr_send_packet p icmp_len (if_name out_iface);;
              mret tt
          | None =>
              p ← lift (st ether_type 0 (htons ethertype_ip) icmp_packet);
              p ← lift (st_arr ether_shost 0 (if_addr out_iface) p);
              req ← queuereq (rt_gw rt) p icmp_len (if_name out_iface);
              handle req
          end
      end
  end.

(** [sr_send_icmp_host_unreachable] to the sender of one waiting packet; the
    loop then reads [pkt->next], in memory the request owns. *)
Definition unreachable_turn (handle : nat -> RM unit) (req : nat) (pkt : sr_packet)
  : RM unit :=
  sr_send_error handle (pk_buf pkt) (pk_iface pkt) 3 1;;
  req_deref req;;
  mret tt.

(** [handle_arpreq]. The fuel bounds its recursion through [sr_send_error]. *)
Fixpoint handle_arpreq (fuel : nat) (req : nat) : RM unit :=
  match fuel with
  | O => fail OutOfFuel
  | S fuel =>
      r ← req_deref req;
      s ← get;
      let now := in_clock s in
      if now - rq_sent r >? 1 then
        if rq_times_sent r >=? 5 then
          for_each (unreachable_turn (handle_arpreq fuel) req) (rq_packets r);;
          modify (fun s => set_cache s (sr_arpreq_destroy (in_cache s) req))
        else
          pkt ← deref (head (rq_packets r));
          iface ← get_iface (pk_iface pkt);
          sr_send_arp_request (rq_ip r) iface;;
          modify (fun s => set_cache s (req_update (in_cache s) req (mark_sent now)))
      else mret tt
  end.

(** * Packets for the router and packets to forward *)

Section with_fuel.
Context (fuel : nat).

Definition sr_send_icmp_port_unreachable (packet : buffer) (interface : cstr) : RM unit :=
  sr_send_error (handle_arpreq fuel) packet interface 3 3.
Definition sr_send_icmp_time_exceeded (packet : buffer) (interface : cstr) : RM unit :=
  sr_send_error (handle_arpreq fuel) packet interface 11 0.
Definition sr_send_icmp_host_unreachable (packet : buffer) (interface : cstr) : RM unit :=
  sr_send_error (handle_arpreq fuel) packet interface 3 1.
Definition sr_send_icmp_net_unreachable (packet : buffer) (interface : cstr) : RM unit :=
  sr_send_error (handle_arpreq fuel) packet interface 3 0.

(** [sr_handle_icmp_echo_request]: turns the copy [p] of the request
    [packet] into the reply. *)
Definition sr_handle_icmp_echo_request (packet p : buffer) (len : nat) : res buffer :=
  ty ← ld ether_type 0 packet;
  p ← st ether_type 0 ty p;
  hl ← ld_ip_hl 14 packet;
  p ← st_ip_hl 14 hl p;
  v ← ld_ip_v 14 packet;
  p ← st_ip_v 14 v p;
  tos ← ld ip_tos 14 packet;
  p ← st ip_tos 14 tos p;
  l ← ld ip_len 14 packet;
  p ← st ip_len 14 l p;
  id ← ld ip_id 14 packet;
  p ← st ip_id 14 id p;
  off ← ld ip_off 14 packet;
  p ← st ip_off 14 off p;
  p ← st ip_ttl 14 64 p;
  p ← st ip_p 14 ip_protocol_icmp p;
  src ← ld ip_src 14 packet;
  p ← st ip_dst 14 src p;
  dst ← ld ip_dst 14 packet;
  p ← st ip_src 14 dst p;
  p ← st ip_sum 14 0 p;
  sum ← cksum_at 14 sizeof_ip p;
  p ← st ip_sum 14 sum p;
  p ← st icmp_type 34 0 p;
  p ← st icmp_code 34 0 p;
  p ← st icmp_sum 34 0 p;
  sum ← cksum_at 34 (len - sizeof_ether - sizeof_ip) p;
  st icmp_sum 34 sum p.

(** The end of [sr_handle_icmp_packet] and of [sr_forward_packet]: fill the
    Ethernet addresses and send, or queue until the next hop answers. *)
Definition send_or_queue (p : buffer) (len : nat) (rt : sr_rt) (out_iface : sr_if)
  : RM unit :=
  arp_entry ← get_mac (rt_gw rt);
  match arp_entry with
  | Some arp_entry =>
      p ← lift (st_arr ether_shost 0 (if_addr out_iface) p);
      p ← lift (st_arr ether_dhost 0 (ae_mac arp_entry) p);
      sr_send_packet p len (if_name out_iface);;
      mret tt
  | None =>
      req ← queuereq (rt_gw rt) p len (if_name out_iface);
      handle_arpreq fuel req
  end.

(** [sr_handle_icmp_packet] *)
Definition sr_handle_icmp_packet (packet : buffer) (len : nat) (interface : cstr)
  : RM unit :=
  malloc len;;
  new_packet ← lift (rd 0 len packet);
  type ← lift (ld icmp_type 34 packet);
  if type =? 8 then
    new_packet ← lift (sr_handle_icmp_echo_request packet new_packet len);
    src ← lift (ld ip_src 14 packet);
    rt ← get_route src;
    match rt with
    | None => mret tt
    | Some rt =>
        out_iface ← get_iface (rt_iface rt);
        match out_iface with
        | None => mret tt
        | Some out_iface => send_or_queue new_packet len rt out_iface
        end
    end
  else mret tt.

(** [sr_forward_packet] *)
Definition sr_forward_packet (packet : buffer) (len : nat) (interface : cstr) : RM unit :=
  ttl ← lift (ld ip_ttl 14 packet);
  packet ← lift (st ip_ttl 14 (u8 (ttl - 1)) packet);
  ttl ← lift (ld ip_ttl 14 packet);
  if ttl <=? 0 then sr_send_icmp_time_exceeded packet interface
  else
    packet ← lift (st ip_sum 14 0 packet);
    sum ← lift (cksum_at 14 sizeof_ip packet);
    packet ← lift (st ip_sum 14 sum packet);
    dst ← lift (ld ip_dst 14 packet);
    rt ← get_route dst;
    match rt with
    | None => sr_send_icmp_net_unreachable packet interface
    | Some rt =>
        out_iface ← get_iface (rt_iface rt);
        match out_iface with
        | None => mret tt
        | Some out_iface => send_or_queue packet len rt out_iface
        end
    end.

(** The loop of [sr_handle_ip_packet] over the interfaces. *)
Definition is_for_us (if_list : list sr_if) (dst : Z) : bool :=
  existsb (fun i => if_ip i =? dst) if_list.

(** [sr_handle_ip_packet] *)
Definition sr_handle_ip_packet (packet : buffer) (len : nat) (interface : cstr) : RM unit :=
  if (len <? sizeof_ether + sizeof_ip)%nat then mret tt
  else
    old_sum ← lift (ld ip_sum 14 packet);
    packet ← lift (st ip_sum 14 0 packet);
    calculated_sum ← lift (cksum_at 14 sizeof_ip packet);
    packet ← lift (st ip_sum 14 old_sum packet);
    if negb (old_sum =? calculated_sum) then mret tt
    else
      dst ← lift (ld ip_dst 14 packet);
      for_us ← gets (fun s => is_for_us (in_if_list s) dst);
      if (for_us : bool) then
        p ← lift (ld ip_p 14 packet);
        if p =? ip_protocol_icmp then sr_handle_icmp_packet packet len interface
        else sr_send_icmp_port_unreachable packet interface
      else sr_forward_packet packet len interface.

(** [sr_handlepacket] *)
Definition sr_handlepacket (packet : buffer) (len : nat) (interface : cstr) : RM unit :=
  ty ← lift (ld ether_type 0 packet);
  if ntohs ty =? ethertype_arp then sr_handle_arp_packet packet len interface
  else if ntohs ty =? ethertype_ip then sr_handle_ip_packet packet len interface
  else mret tt.

(** [req->next] *)
Fixpoint next_of (req : nat) (reqs : list sr_arpreq) : option nat :=
  match reqs with
  | [] => None
  | r :: rest => if (rq_addr r =? req)%nat then rq_addr <$> head rest else next_of req rest
  end.

(** The loop of [sr_arpcache_sweepreqs], which keeps the next pointer
    across the call. *)
Fixpoint sweep_loop (turns : nat) (req : option nat) : RM unit :=
  match req with
  | None => mret tt
  | Some req =>
      match turns with
      | O => fail OutOfFuel
      | S turns =>
          req_deref req;;
          next ← gets (fun s => next_of req (ac_requests (in_cache s)));
          handle_arpreq fuel req;;
          sweep_loop turns next
      end
  end.

(** [sr_arpcache_sweepreqs]: the walk ends with the list it starts with, as
    requests are only added at its head. *)
Definition sr_arpcache_sweepreqs : RM unit :=
  s ← get;
  let reqs := ac_requests (in_cache s) in
  sweep_loop (length reqs) (rq_addr <$> head reqs).

(** One turn of the loop of [sr_arpcache_timeout], run every second. *)
Definition sr_arpcache_timeout_turn : RM unit :=
  modify (fun s => set_cache s (expire_entries (in_clock s) (in_cache s)));;
  sr_arpcache_sweepreqs.

(** [sr_arpcache_timeout], as its turns and the time between them come up. *)
Definition run_meantime (ev : meantime) : RM unit :=
  match ev with
  | Sweep => sr_arpcache_timeout_turn
  | Wait seconds => modify (fun s => set_clock s (in_clock s + seconds))
  end.
End with_fuel.

(** [sr_init]; the turns of the thread it starts come up in the main loop, between
    commands (RouterStart). *)
Definition sr_init : RM unit := modify (fun s => set_cache s sr_arpcache_init).
End router.
