(* ===== verification/RouterFrames.v ===== *)
(** What the frame builders of the router produce: checksummed headers, the
    test of incoming headers, ARP messages, ICMP errors, echo replies and
    forwarded packets, each as a predicate on the bytes of the frame. *)
From S2P Require Import Prelude Mem Cksum Protocol Interfaces RoutingTable ArpCache Instance Router.

(** * Checksummed regions *)

(** Zeroing the checksum field, computing the checksum of the region and
    storing it, as the router does for every header it writes. *)
Lemma cksum_field f base off n p :
  f_size f = 2%nat -> (off <= base + f_off f)%nat -> (base + f_off f + 2 <= off + n)%nat ->
  (off + n <= length p)%nat -> Nat.Even (base + f_off f - off) ->
  Z.of_nat n <= 131071 -> bytes_ok p ->
  exists c, cksum_at off n (fset f base 0 p) = Ok c /\ 0 < c < 65536 /\
    rfc1071_valid (slice off n (fset f base c (fset f base 0 p))).
Proof.
  intros Hf H1 H2 H3 He Hn Hb.
  assert (Hi : in_field f base p) by (unfold in_field; lia).
  set (p0 := fset f base 0 p).
  assert (Hl : length p0 = length p) by (by apply length_fset).
  assert (Hb0 : bytes_ok p0) by (by apply fset_bytes_ok).
  assert (Hs : length (slice off n p0) = n) by (apply length_slice; lia).
  destruct (cksum_ntohs (slice off n p0)) as (c & Hc & _ & Hr);
    [by apply bytes_ok_slice|unfold cksum_max_len; lia|].
  exists c. unfold cksum_at. rewrite rd_ok by lia. cbn [mbind res_bind].
  split; [done|]. split; [done|]. unfold fset at 1. rewrite Hf.
  rewrite slice_splice_inside by (rewrite ?length_le_bytes; lia).
  apply cksum_stored_valid; try done; try (unfold cksum_max_len; lia).
  - by apply bytes_ok_slice.
  - rewrite slice_slice by lia. replace (off + (base + f_off f - off))%nat
      with (base + f_off f)%nat by lia.
    unfold p0, fset. rewrite Hf.
    by rewrite slice_splice_eq by (rewrite ?length_le_bytes; lia).
Qed.

(** * The test of an incoming header *)

(** The headers the router accepts: valid ones, apart from those whose
    checksum field is zero. *)
Definition accepts_header (packet : buffer) : Prop :=
  rfc1071_valid (ip_header packet) /\ fval ip_sum 14 packet <> 0.

(** A word with the checksum added sums to zero exactly when it is the
    checksum. *)
Lemma complement_unique W o :
  0 <= W -> 0 < o <= 65535 -> (W + o) mod 65535 = 0 <-> o = 65535 - W mod 65535.
Proof.
  intros HW Ho. pose proof (Z.mod_pos_bound W 65535 ltac:(lia)).
  rewrite (Z.div_mod W 65535) at 1 by lia.
  replace (65535 * (W / 65535) + W mod 65535 + o)
    with (W mod 65535 + o + W / 65535 * 65535) by lia.
  rewrite Z_mod_plus_full. split; [|intros ->; by rewrite Zplus_minus].
  intros Hm. apply Z.mod_divide in Hm as [k Hk]; [|lia]. assert (k = 1); lia.
Qed.

Lemma header_test packet :
  (34 <= length packet)%nat -> bytes_ok packet ->
  exists c, cksum_at 14 20 (fset ip_sum 14 0 packet) = Ok c /\
    (fval ip_sum 14 packet = c <-> accepts_header packet).
Proof.
  intros Hl Hb. set (p0 := fset ip_sum 14 0 packet).
  assert (Hl0 : length p0 = length packet) by (apply length_fset; in_bounds).
  assert (Hb0 : bytes_ok p0) by (by apply fset_bytes_ok).
  assert (Hs : length (slice 14 20 p0) = 20%nat) by (apply length_slice; lia).
  pose proof (word_sum_nonneg _ (bytes_ok_slice 14 20 p0 Hb0)) as HW.
  set (W := word_sum (slice 14 20 p0)) in *.
  assert (Hc : cksum_at 14 20 p0 = Ok (htons (65535 - W mod 65535))).
  { unfold cksum_at. rewrite rd_ok by lia. cbn [mbind res_bind].
    apply cksum_eq; [by apply bytes_ok_slice|]. rewrite Hs. done. }
  eexists. split; [exact Hc|].
  set (o := fval ip_sum 14 packet).
  assert (Ho : 0 <= o < 65536) by (apply (fval_range ip_sum 14); [in_bounds|done]).
  assert (Hsum : word_sum (ip_header packet) = W + ntohs o).
  { unfold ip_header, sizeof_ether, sizeof_ip.
    rewrite <-(fset_back ip_sum 14 0 packet) at 1 by (done || in_bounds).
    fold o. fold p0. unfold fset at 1. simpl.
    rewrite slice_splice_inside by (rewrite ?length_le_bytes; simpl; lia). simpl.
    rewrite word_sum_splice by (rewrite ?length_le_bytes; first [by exists 5%nat | done | rewrite length_slice; lia]).
    fold W. rewrite slice_slice by lia. simpl.
    replace (slice 24 2 p0) with [0; 0]
      by (symmetry; exact (fbytes_fset ip_sum 14 0 packet ltac:(in_bounds))).
    change (be_val [0; 0]) with 0.
    change (be_val [o mod 256; (o / 256) mod 256]) with (bswap 2 o). lia. }
  pose proof (Z.mod_pos_bound W 65535 ltac:(lia)) as HWm.
  pose proof (bswap_range 2 o) as Hno. change (256 ^ Z.of_nat 2) with 65536 in Hno.
  unfold accepts_header, rfc1071_valid. rewrite Hsum. fold o.
  assert (Hz : ntohs o = 0 <-> o = 0).
  { split; [|by intros ->]. intros Ez. apply (bswap_inj 2); [done|done|].
    by rewrite Ez. }
  split.
  - intros Heq. assert (Hn : ntohs o = 65535 - W mod 65535)
      by (rewrite Heq; apply bswap_bswap; simpl; lia).
    assert (o <> 0) by (rewrite <-Hz; lia).
    split; [|done]. split; [|lia]. apply complement_unique; lia.
  - intros [[Hm _] Hne]. apply complement_unique in Hm; [|lia|lia].
    rewrite <-Hm. symmetry. by apply bswap_bswap.
Qed.

(** * ARP messages *)

Definition arp_frame (e : ether_view) (a : arp_view) : buffer :=
  encode_ether e ++ encode_arp a.

(** The broadcast question for the address [tip]. *)
Definition arp_request_frame (tip : Z) (i : sr_if) : buffer :=
  arp_frame (EtherView (replicate 6 0xff) (if_addr i) ethertype_arp)
    (ArpView 1 ethertype_ip 6 4 arp_op_request (if_addr i) (if_ip i)
       (replicate 6 0) tip).
(** The answer to a frame [req], out of interface [i]. *)
Definition arp_reply_frame (req : buffer) (i : sr_if) : buffer :=
  arp_frame (EtherView (fbytes ether_shost 0 req) (if_addr i) ethertype_arp)
    (ArpView 1 ethertype_ip 6 4 arp_op_reply (if_addr i) (if_ip i)
       (fbytes ar_sha 14 req) (fval ar_sip 14 req)).

Ltac fill_side := unfold in_field; field_lits; len.
Ltac fill_step :=
  first
    [ rewrite st_arr_ok by fill_side | rewrite st_ok by fill_side ];
  cbn [mbind res_bind]; unfold fset_arr, fset; rewrite splice_app by fill_side;
  rewrite ?drop_drop; field_lits.

Lemma fill_arp_request_ok tip i p :
  length p = 42%nat -> length (if_addr i) = 6%nat ->
  fill_arp_request tip i p = Ok (arp_request_frame tip i).
Proof.
  intros Hp Hi. unfold fill_arp_request. rewrite <-(app_nil_l p).
  do 12 fill_step. f_equal.
  rewrite drop_ge by len. rewrite app_nil_r.
  unfold arp_request_frame, arp_frame, encode_ether, encode_arp. simpl.
  rewrite <-!app_assoc. done.
Qed.

Lemma fill_arp_reply_ok i req p :
  (42 <= length p)%nat -> (42 <= length req)%nat -> length (if_addr i) = 6%nat ->
  fill_arp_reply i req p = Ok (arp_reply_frame req i ++ drop 42 p).
Proof.
  intros Hp Hr Hi. change p with ([] ++ p) at 1. unfold fill_arp_reply.
  assert (L1 : length (fbytes ether_shost 0 req) = 6%nat) by (apply length_fbytes; in_bounds).
  assert (L2 : length (fbytes ar_sha 14 req) = 6%nat) by (apply length_fbytes; in_bounds).
  mem_step. do 10 fill_step. mem_step. fill_step. mem_step. fill_step. f_equal.
  rewrite L1, L2, Hi.
  unfold arp_reply_frame, arp_frame, encode_ether, encode_arp.
  rewrite <-!app_assoc. done.
Qed.

Lemma length_arp_frame e a :
  length (ev_dhost e) = 6%nat -> length (ev_shost e) = 6%nat ->
  length (av_sha a) = 6%nat -> length (av_tha a) = 6%nat ->
  length (arp_frame e a) = 42%nat.
Proof.
  intros H1 H2 H3 H4. unfold arp_frame, encode_ether, encode_arp, be_bytes.
  repeat rewrite ?length_app, ?length_rev, ?length_le_bytes. simpl. lia.
Qed.

(** The source address of an ARP frame. *)
Lemma arp_frame_shost e a rest :
  length (ev_dhost e) = 6%nat -> length (ev_shost e) = 6%nat ->
  fbytes ether_shost 0 (arp_frame e a ++ rest) = ev_shost e.
Proof.
  intros H1 H2. unfold fbytes, arp_frame, encode_ether. simpl.
  rewrite <-!app_assoc. rewrite slice_app_r by lia. rewrite H1. simpl.
  rewrite slice_app_l by lia. rewrite <-H2. apply slice_all.
Qed.

(** * ICMP errors *)

Lemma land_mod_15 x : Z.land (x mod 256 ^ 1) 15 = Z.land x 15.
Proof.
  change (256 ^ 1) with (2 ^ 8). rewrite <-Z.land_ones by lia.
  by rewrite <-Z.land_assoc.
Qed.

(** Storing the two nibbles of the first byte of an IP header. *)
Lemma nibbles b hl v :
  0 <= hl < 16 -> 0 <= v < 16 ->
  Z.lor (Z.land (Z.lor (Z.land b 240) (Z.land hl 15) mod 256 ^ 1) 15)
    (Z.shiftl (Z.land v 15) 4) mod 256 ^ 1 = 16 * v + hl.
Proof.
  intros Hh Hv. rewrite land_mod_15.
  rewrite Z.land_lor_distr_l, <-!Z.land_assoc. change (Z.land 240 15) with 0.
  rewrite Z.land_0_r, Z.lor_0_l. change (Z.land 15 15) with 15.
  change 15 with (Z.ones 4). rewrite !Z.land_ones by lia. change (2 ^ 4) with 16.
  rewrite (Z.mod_small hl), (Z.mod_small v), Z.lor_comm, lor_shiftl by lia.
  change (2 ^ 4) with 16. change (256 ^ 1) with 256. rewrite Z.mod_small; lia.
Qed.

Lemma split_nibbles b :
  is_byte b -> 0 <= Z.land b 15 < 16 /\ 0 <= Z.shiftr b 4 < 16 /\
    16 * Z.shiftr b 4 + Z.land b 15 = b.
Proof.
  unfold is_byte. intros Hb. change 15 with (Z.ones 4).
  rewrite Z.land_ones, Z.shiftr_div_pow2 by lia. change (2 ^ 4) with 16.
  Z.div_mod_to_equations. lia.
Qed.

(** [q] is the ICMP error of the given type and code about [packet], sent
    from the address [from]: 20 bytes of IP header and 36 of ICMP behind an
    Ethernet header, both checksums valid, quoting 28 bytes. *)
Record icmp_error (packet q : buffer) (from type code : Z) : Prop := {
  ie_length : length q = 70%nat;
  ie_ip : exists sum, view_ip q =
    IpView 5 4 0 56 0 0x4000 64 1 sum from (fval ip_src 14 packet);
  ie_ip_sum : rfc1071_valid (ip_header q);
  ie_type : fval icmp_type 34 q = type;
  ie_code : fval icmp_code 34 q = code;
  ie_zero : fval t3_unused 34 q = 0 /\ fval t3_next_mtu 34 q = 0;
  ie_data : fbytes t3_data 34 q = slice 14 28 packet;
  ie_icmp_sum : rfc1071_valid (slice 34 36 q) }.

(** An error keeps being one when the Ethernet header changes. *)
Lemma icmp_error_ether packet q q' from type code :
  icmp_error packet q from type code -> length q' = length q ->
  slice 14 56 q' = slice 14 56 q -> icmp_error packet q' from type code.
Proof.
  intros Hq Hl Hs.
  assert (Hsl : forall o n, (14 <= o)%nat -> (o + n <= 70)%nat -> slice o n q' = slice o n q).
  { intros o n H1 H2. replace o with (14 + (o - 14))%nat by lia.
    rewrite <-!(slice_slice (o - 14) n 14 56) by lia. by rewrite Hs. }
  assert (Hf : forall f b, (14 <= b)%nat -> (b + f_off f + f_size f <= 70)%nat ->
    fbytes f b q' = fbytes f b q) by (intros; apply Hsl; lia).
  assert (Hv : forall f b, (14 <= b)%nat -> (b + f_off f + f_size f <= 70)%nat ->
    fval f b q' = fval f b q) by (intros; unfold fval; by rewrite Hf).
  destruct Hq as [H1 [sum H2] H3 H4 H5 [H6 H7] H8 H9].
  split; rewrite ?Hv, ?Hf by (field_lits; lia); try done; try congruence.
  - exists sum. rewrite <-H2. unfold view_ip.
    by rewrite !Hv by (unfold sizeof_ether; field_lits; lia).
  - unfold ip_header. rewrite Hsl by (unfold sizeof_ether, sizeof_ip; lia). done.
  - rewrite Hsl by lia. done.
Qed.

(** Run one step of a builder; a checksum step keeps what the checksum is for. *)
Ltac cksum_step_at c :=
  match c with
  | mbind _ ?d => cksum_step_at d
  | cksum_at ?o ?n ?q =>
      match goal with
      | E : q = fset ?f ?b 0 ?p |- _ =>
          let s := fresh "sum" in let Hc := fresh "Hs" in
          let Hr := fresh "Hr" in let Hv := fresh "Hv" in
          destruct (cksum_field f b o n p) as (s & Hc & Hr & Hv);
          [ done | field_lits; lia | field_lits; lia | lia
          | apply Nat.even_spec; reflexivity | lia | done | ];
          rewrite <-E in Hc, Hv; rewrite Hc; cbn [mbind res_bind]
      end
  end.
Ltac frame_step :=
  match goal with
  | |- ok_with ?c _ => first [cksum_step_at c | mem_step]
  end.

Lemma slice_same {A} o n o' n' (l k : list A) :
  (o' <= o)%nat -> (o + n <= o' + n')%nat -> slice o' n' l = slice o' n' k ->
  slice o n l = slice o n k.
Proof.
  intros H1 H2 H. replace o with (o' + (o - o'))%nat by lia.
  rewrite <-!(slice_slice (o - o') n o' n') by lia. by rewrite H.
Qed.

Lemma fill_icmp_error_ok packet i type code p :
  (42 <= length packet)%nat -> bytes_ok packet -> length p = 70%nat -> bytes_ok p ->
  0 <= if_ip i < 2 ^ 32 -> 0 <= type < 256 -> 0 <= code < 256 ->
  ok_with (fill_icmp_error packet (Some i) type code p)
    (fun q => icmp_error packet q (if_ip i) type code /\ bytes_ok q).
Proof.
  intros Hk Hkb Hl Hb Hi Ht Hc. unfold fill_icmp_error, st_ip_hl, st_ip_v.
  unfold sizeof_ip, sizeof_icmp_t3, ICMP_DATA_SIZE.
  assert (Hkd : length (slice 14 28 packet) = 28%nat) by (apply length_slice; lia).
  assert (Hkdb : bytes_ok (slice 14 28 packet)) by (by apply bytes_ok_slice).
  pose proof (fval_range ip_src 14 packet ltac:(in_bounds) Hkb) as Hsrc.
  do 25 frame_step. simpl. split; [|done]. split.
  - lia.
  - assert (Hhl : fval ip_hl_v 14 p18 = 69)
      by (mem_read; apply (nibbles (fval ip_hl_v 14 p) 5 4); lia).
    exists (ntohs (fval ip_sum 14 p18)). unfold view_ip, sizeof_ether. rewrite Hhl.
    f_equal; mem_read; rewrite ?Z.mod_small by done; done.
  - unfold ip_header, sizeof_ether, sizeof_ip. mem_read. done.
  - mem_read. by apply Z.mod_small.
  - mem_read. by apply Z.mod_small.
  - split; mem_read; done.
  - mem_read. done.
  - done.
Qed.

(** * Echo replies *)

(** [q] answers the echo request [packet]: addresses exchanged, a fresh time to
    live, type and code zero, both checksums valid; the rest of the frame (but
    its Ethernet addresses, still to be set) is that of the request. *)
Record echo_reply (packet q : buffer) : Prop := {
  er_length : length q = length packet;
  er_src : fval ip_src 14 q = fval ip_dst 14 packet;
  er_dst : fval ip_dst 14 q = fval ip_src 14 packet;
  er_ttl : fval ip_ttl 14 q = 64;
  er_p : fval ip_p 14 q = ip_protocol_icmp;
  er_ip_sum : rfc1071_valid (ip_header q);
  er_type : fval icmp_type 34 q = 0 /\ fval icmp_code 34 q = 0;
  er_icmp_sum : rfc1071_valid (slice 34 (length packet - 34) q);
  er_front : slice 12 10 q = slice 12 10 packet;
  er_data : slice 38 (length packet - 38) q = slice 38 (length packet - 38) packet }.

Lemma st_same f b p :
  bytes_ok p -> in_field f b p -> st f b (fval f b p) p = Ok p.
Proof. intros Hb Hi. rewrite st_ok by done. by rewrite fset_fval. Qed.

(** Copying the two nibbles of the version and length byte onto themselves. *)
Lemma copy_nibbles p (k : buffer -> res buffer) :
  bytes_ok p -> in_field ip_hl_v 14 p ->
  (hl ← ld_ip_hl 14 p; q ← st_ip_hl 14 hl p; v ← ld_ip_v 14 p; q ← st_ip_v 14 v q; k q) =
  k p.
Proof.
  intros Hb Hi. unfold ld_ip_hl, ld_ip_v, st_ip_hl, st_ip_v.
  assert (Hr : is_byte (fval ip_hl_v 14 p)) by (exact (fval_range ip_hl_v 14 p Hi Hb)).
  destruct (split_nibbles _ Hr) as (Hh & Hv & Hs).
  rewrite !(ld_ok _ _ p) by done. cbn [mbind res_bind mret res_ret].
  rewrite st_ok by done. cbn [mbind res_bind].
  rewrite ld_ok by (unfold in_field in *; by rewrite length_fset).
  cbn [mbind res_bind]. rewrite fval_fset by done.
  rewrite st_ok by (unfold in_field in *; by rewrite length_fset).
  cbn [mbind res_bind]. rewrite fset_fset by done. f_equal.
  transitivity (fset ip_hl_v 14 (fval ip_hl_v 14 p) p); [|by apply fset_fval].
  set (b := fval ip_hl_v 14 p) in *. unfold fset. f_equal.
  pose proof (nibbles b (Z.land b 15) (Z.shiftr b 4) Hh Hv) as Hn.
  assert (H1 : forall x, le_bytes 1 x = [x mod 256 ^ 1]) by done.
  change (forall x, le_bytes (f_size ip_hl_v) x = [x mod 256 ^ 1]) in H1.
  rewrite !H1. change (256 ^ Z.of_nat (f_size ip_hl_v)) with (256 ^ 1). rewrite Hn, Hs.
  f_equal. symmetry. by apply Z.mod_small.
Qed.

Lemma sr_handle_icmp_echo_request_ok packet :
  (38 <= length packet)%nat -> Z.of_nat (length packet) <= 131071 -> bytes_ok packet ->
  ok_with (sr_handle_icmp_echo_request packet packet (length packet))
    (fun q => echo_reply packet q /\ bytes_ok q).
Proof.
  intros Hl Hm Hb. unfold sr_handle_icmp_echo_request.
  assert (Hs : forall f b, in_field f b packet -> st f b (fval f b packet) packet = Ok packet)
    by (intros; by apply st_same).
  unfold sizeof_ether, sizeof_ip.
  mem_step. rewrite Hs by in_bounds. cbn [mbind res_bind].
  rewrite copy_nibbles by (done || in_bounds).
  do 4 (mem_step; rewrite Hs by in_bounds; cbn [mbind res_bind]).
  pose proof (fval_range ip_src 14 packet ltac:(in_bounds) Hb) as Hsrc.
  pose proof (fval_range ip_dst 14 packet ltac:(in_bounds) Hb) as Hdst.
  replace (length packet - 14 - 20)%nat with (length packet - 34)%nat by lia.
  do 14 frame_step.
  simpl. split; [|done]. split; try (mem_read; rewrite ?Z.mod_small by done; done).
  - lia.
  - unfold ip_header, sizeof_ether, sizeof_ip. mem_read. done.
  - split; mem_read; done.
Qed.

(** * Forwarded packets *)

(** [q] is [packet] one hop further: the time to live one lower, in eight bits,
    the header's checksum valid, every other byte from the Ethernet type on unchanged. *)
Record forwarded (packet q : buffer) : Prop := {
  fw_length : length q = length packet;
  fw_ttl : fval ip_ttl 14 q = u8 (fval ip_ttl 14 packet - 1);
  fw_sum : rfc1071_valid (ip_header q);
  fw_front : slice 12 10 q = slice 12 10 packet;
  fw_proto : fval ip_p 14 q = fval ip_p 14 packet;
  fw_rest : slice 26 (length packet - 26) q = slice 26 (length packet - 26) packet }.

(** The buffer after the time to live and the checksum are rewritten. *)
Definition forward_fill (packet : buffer) : res buffer :=
  packet ← st ip_ttl 14 (u8 (fval ip_ttl 14 packet - 1)) packet;
  packet ← st ip_sum 14 0 packet;
  sum ← cksum_at 14 sizeof_ip packet;
  st ip_sum 14 sum packet.

Lemma forward_fill_ok packet :
  (34 <= length packet)%nat -> bytes_ok packet ->
  ok_with (forward_fill packet) (fun q => forwarded packet q /\ bytes_ok q).
Proof.
  intros Hl Hb. unfold forward_fill, sizeof_ip.
  do 4 frame_step. simpl. split; [|done]. split.
  - lia.
  - mem_read. apply Z.mod_small, u8_range.
  - done.
  - by mem_read.
  - by mem_read.
  - by mem_read.
Qed.

(** Putting the Ethernet addresses of the next link in front of a frame. *)
Lemma set_ether_ok shost dhost q :
  (14 <= length q)%nat -> length shost = 6%nat -> length dhost = 6%nat ->
  exists r, st_arr ether_shost 0 shost q = Ok (fset_arr ether_shost 0 shost q) /\
    st_arr ether_dhost 0 dhost (fset_arr ether_shost 0 shost q) = Ok r /\
    length r = length q /\ fbytes ether_shost 0 r = shost /\ fbytes ether_dhost 0 r = dhost /\
    (forall o n, (12 <= o)%nat -> slice o n r = slice o n q) /\
    (bytes_ok shost -> bytes_ok dhost -> bytes_ok q -> bytes_ok r).
Proof.
  intros Hq Hs Hd. rewrite st_arr_ok by (done || in_bounds).
  set (q1 := fset_arr ether_shost 0 shost q).
  assert (L1 : length q1 = length q) by (apply length_fset_arr; done || in_bounds).
  rewrite st_arr_ok by (done || in_bounds). eexists. split; [done|]. split; [done|].
  split; [rewrite length_fset_arr; done || in_bounds|].
  split; [|split; [|split]].
  - rewrite fbytes_fset_arr_ne by (done || in_bounds).
    apply fbytes_fset_arr; done || in_bounds.
  - apply fbytes_fset_arr; done || in_bounds.
  - intros o n Ho. rewrite slice_fset_arr_ne by (done || in_bounds).
    apply slice_fset_arr_ne; done || in_bounds.
  - intros. apply fset_arr_bytes_ok; [done|]. by apply fset_arr_bytes_ok.
Qed.

(** [r] is [q] between other Ethernet addresses. *)
Record readdressed (q r shost dhost : buffer) : Prop := {
  ra_length : length r = length q;
  ra_shost : fbytes ether_shost 0 r = shost;
  ra_dhost : fbytes ether_dhost 0 r = dhost;
  ra_rest : forall o n, (12 <= o)%nat -> slice o n r = slice o n q }.

Lemma readdressed_fval q r sh dh f b :
  readdressed q r sh dh -> (12 <= b + f_off f)%nat -> fval f b r = fval f b q.
Proof. intros [_ _ _ H] Hb. unfold fval, fbytes. by rewrite H. Qed.

Lemma forwarded_readdressed packet q r sh dh :
  forwarded packet q -> readdressed q r sh dh -> forwarded packet r.
Proof.
  intros [H1 H2 H3 H4 H5 H6] Hr. pose proof Hr as [Hl _ _ Hs].
  split; rewrite ?(readdressed_fval _ _ _ _ _ _ Hr) by (field_lits; lia); unfold ip_header;
    rewrite ?Hs by (unfold sizeof_ether; lia); try done. congruence.
Qed.

Lemma echo_reply_readdressed packet q r sh dh :
  echo_reply packet q -> readdressed q r sh dh -> echo_reply packet r.
Proof.
  intros [H1 H2 H3 H4 H5 H6 H7 H8 H9 H10] Hr. pose proof Hr as [Hl _ _ Hs].
  split; rewrite ?(readdressed_fval _ _ _ _ _ _ Hr) by (field_lits; lia); unfold ip_header;
    rewrite ?Hs by (unfold sizeof_ether; lia); try done. congruence.
Qed.

Lemma icmp_error_readdressed packet q r sh dh from type code :
  icmp_error packet q from type code -> readdressed q r sh dh ->
  icmp_error packet r from type code.
Proof.
  intros H [Hl _ _ Hs]. eapply icmp_error_ether; [done|done|]. apply Hs. lia.
Qed.
