(* ===== verification/RouterProps.v ===== *)
(** The behaviour of the router's packet processing: what it sends, queues and
    learns for each kind of frame. *)
From S2P Require Import Prelude Mem Cksum Protocol Interfaces RoutingTable ArpCache Instance Router RouterFrames.

(** The longest frame considered; no Ethernet frame comes near. *)
Definition frame_max : Z := 131071.

(** The state changed by what went on the wire (and in the packet log), not in
    its configuration. *)
Definition emitted (msgs : list buffer) (s s' : sr_instance) : Prop :=
  same_config s s' /\ in_wire s' = in_wire s ++ msgs.

Lemma emitted_nil s : emitted [] s s.
Proof. split; [done|]. by rewrite app_nil_r. Qed.

Lemma emitted_trans m1 m2 s1 s2 s3 :
  emitted m1 s1 s2 -> emitted m2 s2 s3 -> emitted (m1 ++ m2) s1 s3.
Proof.
  intros [H1 W1] [H2 W2]. split; [by eapply same_config_trans|].
  by rewrite W2, W1, app_assoc.
Qed.

Lemma sr_get_interface_name l name i :
  sr_get_interface l name = Some i -> sr_get_interface l (if_name i) = Some i.
Proof.
  intros (l1 & l2 & -> & H1 & H2)%sr_get_interface_some.
  apply strncmp_eq_spec in H1.
  induction l1 as [|j l1 IH]; simpl; [by rewrite strncmp_eq_refl|].
  assert (Hj : strncmp_eq sr_IFACE_NAMELEN (if_name j) (if_name i) = false).
  { specialize (H2 j ltac:(set_solver)). apply not_true_iff_false in H2.
    apply not_true_iff_false. rewrite strncmp_eq_spec in *. by rewrite H1. }
  rewrite Hj. apply IH. set_solver.
Qed.

(** A look-up only reads 32 bytes of the name. *)
Lemma sr_get_interface_strncpy l name :
  sr_get_interface l (strncpy sr_IFACE_NAMELEN name) = sr_get_interface l name.
Proof.
  induction l as [|j l IH]; [done|]. cbn [sr_get_interface]. rewrite IH.
  unfold strncmp_eq, strncpy.
  by rewrite take_take, Nat.min_id.
Qed.

Lemma NoDup_map_inj {A B} (f : A -> B) l x y :
  NoDup (map f l) -> x ∈ l -> y ∈ l -> f x = f y -> x = y.
Proof.
  induction l as [|z l IH]; simpl; [intros _ Hx; by apply not_elem_of_nil in Hx|].
  rewrite NoDup_cons, !elem_of_cons. intros [Hn Hd] [->|Hx] [->|Hy] He; auto.
  - exfalso. apply Hn. rewrite He. by apply list_elem_of_fmap_2.
  - exfalso. apply Hn. rewrite <-He. by apply list_elem_of_fmap_2.
Qed.

Lemma not_Some_is_None {A} (o : option A) : (forall x, o <> Some x) -> o = None.
Proof. destruct o; [|done]. intros H. by destruct (H a). Qed.

(** * Configurations *)

(** Addresses have their sizes: what [sr_handle_hwinfo] and the ARP code
    store. *)
Definition if_ok (i : sr_if) : Prop :=
  length (if_addr i) = 6%nat /\ bytes_ok (if_addr i) /\ 0 <= if_ip i < 2 ^ 32.
Definition entry_ok (e : sr_arpentry) : Prop :=
  length (ae_mac e) = 6%nat /\ bytes_ok (ae_mac e).

(** A frame the router may be handed: bytes, and not absurdly long. *)
Definition frame_ok (fr : buffer) : Prop :=
  bytes_ok fr /\ Z.of_nat (length fr) <= frame_max.

#[export] Instance if_ok_dec i : Decision (if_ok i).
Proof. unfold if_ok. apply _. Defined.
#[export] Instance entry_ok_dec e : Decision (entry_ok e).
Proof. unfold entry_ok. apply _. Defined.
#[export] Instance frame_ok_dec fr : Decision (frame_ok fr).
Proof. unfold frame_ok. apply _. Defined.

Section sending.
Context `{ReliableEnv}.

Lemma send_emits s p name i :
  (14 <= length p)%nat -> Z.of_nat (length p) <= frame_max ->
  sr_get_interface (in_if_list s) name = Some i ->
  fbytes ether_shost 0 p = if_addr i ->
  exists s', sr_send_packet p (length p) name s = Ok (0, s') /\
    emitted [vns_message name p] s s' /\ in_cache s' = in_cache s.
Proof.
  unfold frame_max. intros H1 H2 Hi Hs. eexists.
  split; [eapply sr_send_packet_sent; try done; lia|]. done.
Qed.

(** With the next hop's address at hand the frame goes out at once. *)
Lemma send_or_queue_hit fuel s p rt o e :
  (14 <= length p)%nat -> frame_ok p ->
  sr_arpcache_lookup (in_cache s) (rt_gw rt) = Some e ->
  sr_get_interface (in_if_list s) (if_name o) = Some o -> if_ok o -> entry_ok e ->
  exists r s', send_or_queue fuel p (length p) rt o s = Ok (tt, s') /\
    emitted [vns_message (if_name o) r] s s' /\ in_cache s' = in_cache s /\
    readdressed p r (if_addr o) (ae_mac e) /\ frame_ok r.
Proof.
  intros H1 [Hb H2] He Ho [Hi1 [Hi2 _]] [He1 He2].
  destruct (set_ether_ok (if_addr o) (ae_mac e) p H1 Hi1 He1)
    as (r & E1 & E2 & Lr & Es & Ed & Er & Br).
  destruct (send_emits s r (if_name o) o) as (s' & Hs & Hem & Hc);
    [lia|lia|done|done|].
  exists r, s'. split.
  - unfold send_or_queue, get_mac. exec. rewrite He, E1. exec. rewrite E2. exec.
    rewrite <-Lr. by rewrite (bind_ok _ _ _ _ _ Hs).
  - split; [done|]. split; [done|]. split; [by split|]. split; [auto|lia].
Qed.

Lemma sr_forward_packet_eq fuel s packet interface :
  (34 <= length packet)%nat -> bytes_ok packet -> fval ip_ttl 14 packet <> 1 ->
  exists q, forwarded packet q /\ bytes_ok q /\
    sr_forward_packet fuel packet (length packet) interface s =
    match sr_get_longest_prefix_match (in_routing_table s) (fval ip_dst 14 packet) with
    | None => sr_send_icmp_net_unreachable fuel q interface s
    | Some rt =>
        match sr_get_interface (in_if_list s) (rt_iface rt) with
        | None => Ok (tt, s)
        | Some o => send_or_queue fuel q (length packet) rt o s
        end
    end.
Proof.
  intros Hl Hb Ht.
  destruct (ok_with_inv _ _ (forward_fill_ok packet Hl Hb))
    as (q & Hf & Hq & Hqb).
  exists q. split; [done|]. split; [done|].
  unfold sr_forward_packet. mload.
  unfold forward_fill in Hf. rewrite st_ok in * by in_bounds. cbn [mbind res_bind] in Hf.
  exec. set (p1 := fset ip_ttl 14 _ packet) in *.
  assert (L1 : length p1 = length packet) by (apply length_fset; in_bounds).
  pose proof (fval_range ip_ttl 14 packet ltac:(in_bounds) Hb) as Hr.
  change (256 ^ Z.of_nat (f_size ip_ttl)) with 256 in Hr.
  assert (T1 : fval ip_ttl 14 p1 = u8 (fval ip_ttl 14 packet - 1)).
  { unfold p1. rewrite fval_fset by in_bounds. apply Z.mod_small, u8_range. }
  assert (T2 : 0 < u8 (fval ip_ttl 14 packet - 1)).
  { pose proof (u8_range (fval ip_ttl 14 packet - 1)).
    unfold u8 in *. Z.div_mod_to_equations. lia. }
  mload. rewrite T1. case_test; [lia|].
  rewrite (st_ok ip_sum 14 0 p1) in * by in_bounds. cbn [mbind res_bind] in Hf. exec.
  destruct (cksum_at 14 sizeof_ip _) as [c|] eqn:Ec; [|done]. cbn [mbind res_bind] in Hf.
  exec. rewrite Hf. exec.
  assert (Hlq : length q = length packet) by apply Hq.
  mload. unfold get_route, get_iface. exec.
  assert (Hd : fval ip_dst 14 q = fval ip_dst 14 packet).
  { unfold fval, fbytes. simpl. f_equal.
    eapply slice_same; [| |apply (fw_rest packet q Hq)]; simpl; lia. }
  rewrite Hd. destruct (sr_get_longest_prefix_match _ _) as [rt|]; [|done]. exec.
  by destruct (sr_get_interface _ _).
Qed.
End sending.

Section packets.
Context `{ReliableEnv}.

(** The checksum test, which puts the checksum field back. *)
Lemma sr_handle_ip_packet_eq fuel s packet interface :
  (34 <= length packet)%nat -> bytes_ok packet ->
  (accepts_header packet ->
   sr_handle_ip_packet fuel packet (length packet) interface s =
   if is_for_us (in_if_list s) (fval ip_dst 14 packet) then
     if fval ip_p 14 packet =? ip_protocol_icmp
     then sr_handle_icmp_packet fuel packet (length packet) interface s
     else sr_send_icmp_port_unreachable fuel packet interface s
   else sr_forward_packet fuel packet (length packet) interface s) /\
  (~ accepts_header packet ->
   sr_handle_ip_packet fuel packet (length packet) interface s = Ok (tt, s)).
Proof.
  intros Hl Hb. destruct (header_test packet Hl Hb) as (c & Hc & Hiff).
  enough (E : sr_handle_ip_packet fuel packet (length packet) interface s =
    if fval ip_sum 14 packet =? c then
     if is_for_us (in_if_list s) (fval ip_dst 14 packet) then
     if fval ip_p 14 packet =? ip_protocol_icmp
     then sr_handle_icmp_packet fuel packet (length packet) interface s
     else sr_send_icmp_port_unreachable fuel packet interface s
     else sr_forward_packet fuel packet (length packet) interface s
    else Ok (tt, s)).
  { rewrite E. split; intros Ha; case_test; tauto. }
  unfold sr_handle_ip_packet, sizeof_ether, sizeof_ip. destruct (Nat.ltb_spec (length packet) (14 + 20)); [lia|].
  mload. rewrite st_ok by in_bounds. exec. rewrite Hc. exec.
  assert (L0 : length (fset ip_sum 14 0 packet) = length packet)
    by (apply length_fset; in_bounds).
  rewrite st_ok by in_bounds. exec.
  rewrite fset_back by (done || in_bounds).
  destruct (Z.eqb_spec (fval ip_sum 14 packet) c); cbn [negb]; [|done].
  mload. destruct (is_for_us _ _); [|done]. mload. by destruct (_ =? _).
Qed.

Lemma handlepacket_ip fuel s packet interface :
  (14 <= length packet)%nat -> ntohs (fval ether_type 0 packet) = ethertype_ip ->
  sr_handlepacket fuel packet (length packet) interface s =
  sr_handle_ip_packet fuel packet (length packet) interface s.
Proof.
  intros Hl Ht. unfold sr_handlepacket. mload. by rewrite Ht.
Qed.

Lemma handlepacket_arp fuel s packet interface :
  (14 <= length packet)%nat -> ntohs (fval ether_type 0 packet) = ethertype_arp ->
  sr_handlepacket fuel packet (length packet) interface s =
  sr_handle_arp_packet packet (length packet) interface s.
Proof.
  intros Hl Ht. unfold sr_handlepacket. mload. by rewrite Ht.
Qed.

(** An IP packet whose header is accepted, and that is not for the router. *)
Record in_transit (s : sr_instance) (packet : buffer) : Prop := {
  it_length : (34 <= length packet)%nat;
  it_frame : frame_ok packet;
  it_type : ntohs (fval ether_type 0 packet) = ethertype_ip;
  it_header : accepts_header packet;
  it_dst : is_for_us (in_if_list s) (fval ip_dst 14 packet) = false }.

Lemma handlepacket_transit fuel s packet interface :
  in_transit s packet ->
  sr_handlepacket fuel packet (length packet) interface s =
  sr_forward_packet fuel packet (length packet) interface s.
Proof.
  intros [H1 [H2 _] H3 H4 H5]. rewrite handlepacket_ip by (done || lia).
  destruct (sr_handle_ip_packet_eq fuel s packet interface H1 H2) as [E _].
  rewrite E by done. by rewrite H5.
Qed.

(** The route a packet takes: the longest prefix match, through an interface
    that exists. *)
Definition routed (s : sr_instance) (dst : Z) (rt : sr_rt) (o : sr_if) : Prop :=
  sr_get_longest_prefix_match (in_routing_table s) dst = Some rt /\
  sr_get_interface (in_if_list s) (rt_iface rt) = Some o /\ if_ok o.

(** C2: A packet in transit with time to live above one, for a destination
    whose next hop is in the ARP cache, is sent out of the route's interface
    and nothing else is: its time to live is one lower, its header checksum
    is valid again, every other byte from the Ethernet type on is as it came,
    and the Ethernet addresses are those of the interface and of the next
    hop. *)
Theorem forward_hit fuel s packet interface rt o e :
  in_transit s packet -> 2 <= fval ip_ttl 14 packet ->
  routed s (fval ip_dst 14 packet) rt o ->
  sr_arpcache_lookup (in_cache s) (rt_gw rt) = Some e -> entry_ok e ->
  exists q s', sr_handlepacket fuel packet (length packet) interface s = Ok (tt, s') /\
    emitted [vns_message (if_name o) q] s s' /\ in_cache s' = in_cache s /\
    forwarded packet q /\ fval ip_ttl 14 q = fval ip_ttl 14 packet - 1 /\
    fbytes ether_shost 0 q = if_addr o /\ fbytes ether_dhost 0 q = ae_mac e.
Proof.
  intros Ht Httl (Hrt & Ho & Hok) He Hme. rewrite handlepacket_transit by done.
  destruct Ht as [H1 [H2 H2'] H3 H4 H5].
  destruct (sr_forward_packet_eq fuel s packet interface H1 H2 ltac:(lia))
    as (q & Hq & Hqb & ->).
  rewrite Hrt, Ho. pose proof (fw_length _ _ Hq) as Hlq. rewrite <-Hlq.
  destruct (send_or_queue_hit fuel s q rt o e) as (r & s' & Hs & Hem & Hc & Hr & _);
    try done; [lia|split; [done|lia]|by eapply sr_get_interface_name|].
  exists r, s'. split; [done|]. split; [done|]. split; [done|].
  assert (Hf : forwarded packet r) by (by eapply forwarded_readdressed).
  split; [done|]. split; [|split; apply Hr].
  rewrite (fw_ttl _ _ Hf). pose proof (fval_range ip_ttl 14 packet ltac:(in_bounds) H2).
  apply u8_small. change (256 ^ Z.of_nat (f_size ip_ttl)) with 256 in *. lia.
Qed.

(** ** Unknown next hops *)

Lemma sr_send_arp_request_emits s tip i :
  if_ok i -> sr_get_interface (in_if_list s) (if_name i) = Some i ->
  exists s', sr_send_arp_request tip (Some i) s = Ok (tt, s') /\
    emitted [vns_message (if_name i) (arp_request_frame tip i)] s s' /\
    in_cache s' = in_cache s.
Proof.
  intros (Hi & Hib & _) Hg. unfold sr_send_arp_request, sizeof_ether, sizeof_arp.
  rewrite bind_malloc. exec. rewrite fill_arp_request_ok
    by (done || by rewrite uninit_length). exec.
  set (s1 := set_allocs s _). set (p := arp_request_frame tip i).
  assert (Lp : length p = 42%nat) by (by apply length_arp_frame).
  destruct (send_emits s1 p (if_name i) i) as (s' & Hs & Hem & Hc).
  - lia.
  - rewrite Lp. done.
  - done.
  - unfold p, arp_request_frame. rewrite <-(app_nil_r (arp_frame _ _)).
    by rewrite arp_frame_shost.
  - rewrite Lp in Hs. change (14 + 28)%nat with 42%nat.
    rewrite (bind_ok _ _ _ _ _ Hs). by exists s'.
Qed.

Lemma find_req_addr reqs r ip :
  NoDup (map rq_addr reqs) -> find_req ip reqs = Some r ->
  find (fun x => (rq_addr x =? rq_addr r)%nat) reqs = Some r.
Proof.
  intros Hd [Hr Hip]%find_some. induction reqs as [|x l IH]; [by apply not_elem_of_nil in Hr|].
  simpl in *. apply NoDup_cons in Hd as [Hn Hd].
  apply elem_of_cons in Hr as [<-|Hr]; [by rewrite Nat.eqb_refl|].
  case_test; [|auto]. exfalso. apply Hn. rewrite e. by apply list_elem_of_fmap_2.
Qed.
Lemma queuereq_new s ip p n o :
  find_req ip (ac_requests (in_cache s)) = None -> length p = n -> (0 < n)%nat ->
  queuereq ip p n o s =
  Ok (ac_next (in_cache s),
    set_cache s (SrArpCache (ac_entries (in_cache s))
      (map (fun r => if (rq_addr r =? ac_next (in_cache s))%nat
                     then push_packet (SrPacket p n (strncpy sr_IFACE_NAMELEN o)) r else r)
        (SrArpReq (ac_next (in_cache s)) ip 0 0 [] :: ac_requests (in_cache s)))
      (S (ac_next (in_cache s))))).
Proof.
  intros Hf Hl Hn. unfold queuereq, sr_arpcache_queuereq. exec. rewrite Hf.
  destruct (Nat.eqb_spec n 0); [lia|]. rewrite rd_all by done. exec. done.
Qed.

Lemma map_addr_ne f p (l : list sr_arpreq) :
  Forall (fun r => (rq_addr r < p)%nat) l ->
  map (fun r => if (rq_addr r =? p)%nat then f r else r) l = l.
Proof. induction 1; simpl; [done|]. case_test; [lia|]. by rewrite IHForall. Qed.

(** The request just created, with the packet that waits on it. *)
Definition new_req (s : sr_instance) (ip : Z) (p : buffer) (o : sr_if) : sr_arpreq :=
  SrArpReq (ac_next (in_cache s)) ip (in_clock s) 1
    [SrPacket p (length p) (strncpy sr_IFACE_NAMELEN (if_name o))].

(** With the next hop unknown and nothing outstanding for it, the packet
    waits and the next hop is asked for. The clock counts seconds since 1970:
    that it has passed one makes the first request due. *)
Lemma send_or_queue_miss fuel s p rt o :
  (0 < length p)%nat -> cache_wf (in_cache s) -> 1 < in_clock s ->
  sr_arpcache_lookup (in_cache s) (rt_gw rt) = None ->
  find_req (rt_gw rt) (ac_requests (in_cache s)) = None ->
  sr_get_interface (in_if_list s) (if_name o) = Some o -> if_ok o ->
  exists s', send_or_queue (S fuel) p (length p) rt o s = Ok (tt, s') /\
    emitted [vns_message (if_name o) (arp_request_frame (rt_gw rt) o)] s s' /\
    in_cache s' = SrArpCache (ac_entries (in_cache s))
      (new_req s (rt_gw rt) p o :: ac_requests (in_cache s)) (S (ac_next (in_cache s))).
Proof.
  intros Hp Hwf Hclk Hm Hf Ho Hok. unfold send_or_queue, get_mac. exec. rewrite Hm.
  rewrite (bind_ok _ _ _ _ _ (queuereq_new s _ p _ _ Hf eq_refl Hp)).
  cbn [map rq_addr]. rewrite Nat.eqb_refl, map_addr_ne by apply Hwf.
  set (r := push_packet _ _). set (c := SrArpCache _ _ _). set (s1 := set_cache s c).
  cbn [handle_arpreq].
  rewrite (bind_ok (req_deref _) _ s1 r s1)
    by (unfold req_deref, req_at; exec; simpl; by rewrite Nat.eqb_refl).
  exec. change (in_clock s1) with (in_clock s).
  change (rq_sent r) with 0. change (rq_times_sent r) with 0.
  destruct (Z.gtb_spec (in_clock s - 0) 1); [|lia]. cbn [Z.geb Z.compare].
  change (head (rq_packets r))
    with (Some (SrPacket p (length p) (strncpy sr_IFACE_NAMELEN (if_name o)))).
  unfold get_iface. exec. cbn [pk_iface].
  rewrite sr_get_interface_strncpy. change (in_if_list s1) with (in_if_list s). rewrite Ho.
  destruct (sr_send_arp_request_emits s1 (rq_ip r) o Hok Ho) as (s2 & Hs2 & Hem & Hc2).
  rewrite (bind_ok _ _ _ _ _ Hs2). eexists. split; [done|].
  split; [by destruct Hem|].
  unfold req_update, set_requests. cbn [in_cache set_cache]. rewrite Hc2.
  cbn [in_cache set_cache s1 c ac_requests ac_entries ac_next map rq_addr push_packet r].
  rewrite Nat.eqb_refl, map_addr_ne by apply Hwf. done.
Qed.

(** A packet in transit whose next hop has no entry and no outstanding
    request is not sent: it is queued, with its time to live and checksum
    already updated, in a request for the next hop, and one ARP request for
    that address is broadcast out of the route's interface. *)
Theorem forward_miss fuel s packet interface rt o :
  in_transit s packet -> 2 <= fval ip_ttl 14 packet ->
  routed s (fval ip_dst 14 packet) rt o -> cache_wf (in_cache s) -> 1 < in_clock s ->
  sr_arpcache_lookup (in_cache s) (rt_gw rt) = None ->
  find_req (rt_gw rt) (ac_requests (in_cache s)) = None ->
  exists q s', sr_handlepacket (S fuel) packet (length packet) interface s = Ok (tt, s') /\
    emitted [vns_message (if_name o) (arp_request_frame (rt_gw rt) o)] s s' /\
    forwarded packet q /\
    in_cache s' = SrArpCache (ac_entries (in_cache s))
      (new_req s (rt_gw rt) q o :: ac_requests (in_cache s)) (S (ac_next (in_cache s))).
Proof.
  intros Ht Httl (Hrt & Ho & Hok) Hwf Hclk Hm Hf. rewrite handlepacket_transit by done.
  destruct Ht as [H1 [H2 H2'] H3 H4 H5].
  destruct (sr_forward_packet_eq (S fuel) s packet interface H1 H2 ltac:(lia))
    as (q & Hq & Hqb & ->).
  rewrite Hrt, Ho. pose proof (fw_length _ _ Hq) as Hlq. rewrite <-Hlq.
  destruct (send_or_queue_miss fuel s q rt o) as (s' & Hs & Hem & Hc);
    try done; [lia|by eapply sr_get_interface_name|].
  by exists q, s'.
Qed.

(** ** ARP *)

Lemma set_ether_ok' shost dhost q :
  (14 <= length q)%nat -> length shost = 6%nat -> length dhost = 6%nat ->
  exists q1 r, st_arr ether_dhost 0 dhost q = Ok q1 /\
    st_arr ether_shost 0 shost q1 = Ok r /\ readdressed q r shost dhost /\
    (bytes_ok shost -> bytes_ok dhost -> bytes_ok q -> bytes_ok r).
Proof.
  intros Hq Hs Hd. rewrite st_arr_ok by (done || in_bounds).
  set (q1 := fset_arr ether_dhost 0 dhost q). exists q1.
  assert (L1 : length q1 = length q) by (apply length_fset_arr; done || in_bounds).
  eexists. split; [done|]. split; [by rewrite st_arr_ok by (done || in_bounds)|].
  split; [split|].
  - rewrite length_fset_arr; done || in_bounds.
  - apply fbytes_fset_arr; done || in_bounds.
  - rewrite fbytes_fset_arr_ne by (done || in_bounds).
    apply fbytes_fset_arr; done || in_bounds.
  - intros o n Ho. rewrite slice_fset_arr_ne by (done || in_bounds).
    apply slice_fset_arr_ne; done || in_bounds.
  - intros. apply fset_arr_bytes_ok; [done|]. by apply fset_arr_bytes_ok.
Qed.

(** A packet as [sr_arpcache_queuereq] stores it. *)
Definition pkt_ok (ifs : list sr_if) (pkt : sr_packet) : Prop :=
  pk_len pkt = length (pk_buf pkt) /\ (42 <= length (pk_buf pkt))%nat /\
  frame_ok (pk_buf pkt) /\
  exists i, sr_get_interface ifs (pk_iface pkt) = Some i /\ if_ok i.

(** The message a waiting packet becomes when its next hop is known. *)
Definition flushed (ifs : list sr_if) (mac : buffer) (pkt : sr_packet) (msg : buffer) : Prop :=
  exists i r, sr_get_interface ifs (pk_iface pkt) = Some i /\
    msg = vns_message (pk_iface pkt) r /\ readdressed (pk_buf pkt) r (if_addr i) mac.

Lemma flush_packets_ok mac pkts s :
  length mac = 6%nat -> Forall (pkt_ok (in_if_list s)) pkts ->
  exists msgs s', for_each (flush_packet mac) pkts s = Ok (tt, s') /\
    Forall2 (flushed (in_if_list s) mac) pkts msgs /\ emitted msgs s s' /\
    in_cache s' = in_cache s.
Proof.
  intros Hm. revert s. induction pkts as [|pkt pkts IH]; intros s Hp.
  { exists [], s. split; [done|]. split; [done|]. split; [apply emitted_nil|done]. }
  apply Forall_cons in Hp as [(Hl & H42 & [Hb Hmax] & i & Hi & Hok) Hp].
  destruct (set_ether_ok' (if_addr i) mac (pk_buf pkt)) as (q1 & r & E1 & E2 & Hr & _);
    [lia|apply Hok|done|].
  pose proof (ra_length _ _ _ _ Hr) as Lr.
  destruct (send_emits s r (pk_iface pkt) i) as (s1 & Hs1 & He1 & Hc1);
    [lia|lia|done|apply Hr|].
  assert (Hf : flush_packet mac pkt s = Ok (tt, s1)).
  { unfold flush_packet, get_iface. exec. rewrite E1. exec. rewrite Hi. exec.
    rewrite E2. exec. rewrite Hl, <-Lr. by rewrite (bind_ok _ _ _ _ _ Hs1). }
  pose proof He1 as [(_ & Hifs & _) _].
  destruct (IH s1) as (msgs & s' & Hs' & Hfl & Hem & Hc); [by rewrite Hifs|].
  exists (vns_message (pk_iface pkt) r :: msgs), s'. cbn [for_each].
  rewrite (bind_ok _ _ _ _ _ Hf). split; [done|]. rewrite Hifs in Hfl. split.
  - constructor; [|done]. by exists i, r.
  - split; [|congruence]. apply (emitted_trans [_] msgs s s1 s'); done.
Qed.
(** An ARP frame for the router's interface [i], with the given operation. *)
Record arp_for (s : sr_instance) (packet interface : buffer) (i : sr_if) (op : Z) : Prop := {
  af_length : (42 <= length packet)%nat;
  af_frame : frame_ok packet;
  af_type : ntohs (fval ether_type 0 packet) = ethertype_arp;
  af_if : sr_get_interface (in_if_list s) interface = Some i;
  af_ok : if_ok i;
  af_op : ntohs (fval ar_op 14 packet) = op;
  af_tip : fval ar_tip 14 packet = if_ip i }.

Lemma handle_arp_eq s packet interface i op :
  arp_for s packet interface i op ->
  sr_handle_arp_packet packet (length packet) interface s =
  if op =? arp_op_request then sr_send_arp_reply packet (length packet) interface s
  else if op =? arp_op_reply then
    (sha ← lift (ld_arr ar_sha 14 packet);
     sip ← lift (ld ar_sip 14 packet);
     s ← get;
     '(c, req) ← lift (sr_arpcache_insert (in_clock s) (in_cache s) sha sip);
     put (set_cache s c);;
     match req with
     | None => mret tt
     | Some req =>
         for_each (flush_packet sha) (rq_packets req);;
         modify (fun s => set_cache s (sr_arpreq_destroy (in_cache s) (rq_addr req)))
     end) s
  else Ok (tt, s).
Proof.
  intros [H1 H2 H3 H4 H5 H6 H7]. unfold sr_handle_arp_packet, sizeof_ether, sizeof_arp.
  destruct (Nat.ltb_spec (length packet) (14 + 28)); [lia|]. unfold get_iface. exec.
  rewrite H4. mload. mload. rewrite H6, H7, Z.eqb_refl.
  destruct (op =? arp_op_request); [done|]. by destruct (op =? arp_op_reply).
Qed.

(** An ARP request for the address of the interface it came in by is
    answered, to its sender, with that interface's Ethernet address; an answer
    to a request longer than 42 bytes carries, behind the ARP message, bytes
    of freshly allocated memory that nobody has written. *)
Theorem arp_request_answered fuel s packet interface i :
  arp_for s packet interface i arp_op_request ->
  exists s', sr_handlepacket fuel packet (length packet) interface s = Ok (tt, s') /\
    emitted [vns_message interface (arp_reply_frame packet i ++
      drop 42 (uninit (in_allocs s) (length packet)))] s s' /\
    in_cache s' = in_cache s.
Proof.
  intros Ha. pose proof Ha as [H1 [H2 H2'] H3 H4 H5 H6 H7].
  rewrite handlepacket_arp by (done || lia). rewrite (handle_arp_eq _ _ _ _ _ Ha).
  cbn [Z.eqb arp_op_request Pos.eqb]. unfold sr_send_arp_reply, get_iface. exec.
  rewrite bind_malloc, H4. exec.
  rewrite fill_arp_reply_ok by (rewrite ?uninit_length; apply H5 || lia). exec.
  set (p := arp_reply_frame packet i ++ _). set (s1 := set_allocs s _).
  assert (Lp : length p = length packet).
  { unfold p. rewrite length_app, length_drop, uninit_length.
    unfold arp_reply_frame. rewrite length_arp_frame; [lia|..]; try apply H5;
      apply length_fbytes; in_bounds. }
  destruct (send_emits s1 p interface i) as (s' & Hs & Hem & Hc).
  - lia.
  - rewrite Lp. done.
  - done.
  - unfold p, arp_reply_frame. apply arp_frame_shost; [apply length_fbytes; in_bounds|].
    apply H5.
  - rewrite <-Lp. rewrite (bind_ok _ _ _ _ _ Hs). by exists s'.
Qed.

(** C27: An ARP reply for an outstanding request makes the cache learn the mapping,
    removes the request, and sends every packet that waited on it, in the order of
    its list, from its interface to the address just learnt. What the cache learns: the
    address is answered with the reply's when no valid entry had it and a slot was
    free, keeps an answer it had, and stays unknown when the table of 100 entries is
    full of valid ones, where the code drops the mapping; other addresses and other
    requests are left alone. *)
Theorem arp_reply_flushes fuel s packet interface i req :
  arp_for s packet interface i arp_op_reply -> cache_wf (in_cache s) ->
  find_req (fval ar_sip 14 packet) (ac_requests (in_cache s)) = Some req ->
  Forall (pkt_ok (in_if_list s)) (rq_packets req) ->
  exists msgs s' c, sr_handlepacket fuel packet (length packet) interface s = Ok (tt, s') /\
    Forall2 (flushed (in_if_list s) (fbytes ar_sha 14 packet)) (rq_packets req) msgs /\
    emitted msgs s s' /\ in_cache s' = c /\
    learnt (in_clock s) (fbytes ar_sha 14 packet) (fval ar_sip 14 packet) (in_cache s) c.
Proof.
  intros Ha Hwf Hreq Hpk. pose proof Ha as [H1 [H2 H2'] H3 H4 H5 H6 H7].
  rewrite handlepacket_arp by (done || lia). rewrite (handle_arp_eq _ _ _ _ _ Ha).
  cbn [Z.eqb arp_op_request arp_op_reply Pos.eqb]. mload. mload.
  set (mac := fbytes ar_sha 14 packet). set (ip := fval ar_sip 14 packet) in *.
  assert (Lm : length mac = 6%nat) by (apply length_fbytes; in_bounds).
  destruct (insert_learns (in_clock s) (in_cache s) mac ip Hwf Lm) as (c & Ei & Hlearnt).
  assert (Hc : c = set_entries
     (set_requests (in_cache s) (unlink (fun r => rq_ip r =? ip) (ac_requests (in_cache s))))
     (store_entry (SrArpEntry mac ip (in_clock s) true) (ac_entries (in_cache s)))).
  { unfold sr_arpcache_insert in Ei. rewrite rd_all in Ei by done. by injection Ei as <-. }
  rewrite Ei, Hreq. exec.
  destruct (flush_packets_ok mac (rq_packets req) (set_cache s c) Lm Hpk)
    as (msgs & s1 & Hs1 & Hfl & Hem & Hc1).
  rewrite (bind_ok _ _ _ _ _ Hs1). exists msgs. eexists. exists c.
  split; [done|]. split; [done|]. split; [by destruct Hem|].
  apply find_some in Hreq as Hin. destruct Hin as [Hin Hip]. apply Z.eqb_eq in Hip.
  assert (Hgone : forall x, x ∈ ac_requests c -> rq_ip x <> ip).
  { rewrite Hc. apply (unlink_gone rq_ip); [intros; apply Z.eqb_eq|apply Hwf]. }
  split; [|exact Hlearnt].
  - cbn [in_cache set_cache]. rewrite Hc1. cbn [in_cache set_cache].
    unfold sr_arpreq_destroy.
    assert (Hu : unlink (fun r => (rq_addr r =? rq_addr req)%nat) (ac_requests c) =
      ac_requests c); [|rewrite Hu; by destruct c].
    assert (Hne : Forall (fun x => (rq_addr x =? rq_addr req)%nat = false) (ac_requests c)).
    { apply Forall_forall. intros x Hx. apply Nat.eqb_neq. intros He.
      apply (Hgone x Hx).
      assert (Hx' : x ∈ ac_requests (in_cache s))
        by (rewrite Hc in Hx; simpl in Hx; exact (unlink_elem _ _ _ Hx)).
      pose proof (wf_addr _ Hwf) as Hd.
      replace x with req; [done|]. symmetry. by apply (NoDup_map_inj rq_addr _ x req Hd). }
    clear -Hne. induction Hne as [|x l Hx _ IH]; simpl; [done|]. by rewrite Hx, IH.
Qed.
(** ** ICMP *)

(** An IP packet for one of the router's own addresses. *)
Record for_router (s : sr_instance) (packet : buffer) : Prop := {
  fr_length : (34 <= length packet)%nat;
  fr_frame : frame_ok packet;
  fr_type : ntohs (fval ether_type 0 packet) = ethertype_ip;
  fr_header : accepts_header packet;
  fr_dst : is_for_us (in_if_list s) (fval ip_dst 14 packet) = true }.

Lemma handlepacket_for_router fuel s packet interface :
  for_router s packet ->
  sr_handlepacket fuel packet (length packet) interface s =
  if fval ip_p 14 packet =? ip_protocol_icmp
  then sr_handle_icmp_packet fuel packet (length packet) interface s
  else sr_send_icmp_port_unreachable fuel packet interface s.
Proof.
  intros [H1 [H2 _] H3 H4 H5]. rewrite handlepacket_ip by (done || lia).
  destruct (sr_handle_ip_packet_eq fuel s packet interface H1 H2) as [E _].
  rewrite E by done. by rewrite H5.
Qed.

Lemma sr_handle_icmp_packet_eq fuel s packet interface :
  (38 <= length packet)%nat -> frame_ok packet -> fval icmp_type 34 packet = 8 ->
  exists q, echo_reply packet q /\ bytes_ok q /\
    let s1 := set_allocs s (S (in_allocs s)) in
    sr_handle_icmp_packet fuel packet (length packet) interface s =
    match sr_get_longest_prefix_match (in_routing_table s) (fval ip_src 14 packet) with
    | None => Ok (tt, s1)
    | Some rt =>
        match sr_get_interface (in_if_list s) (rt_iface rt) with
        | None => Ok (tt, s1)
        | Some o => send_or_queue fuel q (length packet) rt o s1
        end
    end.
Proof.
  intros Hl [Hb Hm] Ht.
  destruct (ok_with_inv _ _ (sr_handle_icmp_echo_request_ok packet Hl Hm Hb))
    as (q & Hq & Hq1 & Hq2).
  exists q. split; [done|]. split; [done|]. cbv zeta. unfold sr_handle_icmp_packet.
  rewrite bind_malloc. rewrite rd_all by done. exec. mload. rewrite Ht.
  cbn [Z.eqb Pos.eqb]. rewrite Hq. exec. mload. unfold get_route, get_iface. exec.
  cbn [in_routing_table set_allocs].
  destruct (sr_get_longest_prefix_match _ _) as [rt|]; [|done]. exec.
  cbn [in_if_list set_allocs]. by destruct (sr_get_interface _ _).
Qed.

(** C26: An ICMP echo request to any of the router's addresses is answered when the
    next hop of the route back to the sender is in the ARP cache: the reply, with the
    addresses exchanged, a time to live of 64, type zero, both checksums valid and
    identifier, sequence number and data unchanged, leaves by that route. The code
    answers every packet of type 8: it does not look at the request's ICMP checksum,
    which the README wants to be valid. *)
Theorem echo_answered fuel s packet interface rt o e :
  for_router s packet -> fval ip_p 14 packet = ip_protocol_icmp ->
  (38 <= length packet)%nat -> fval icmp_type 34 packet = 8 ->
  routed s (fval ip_src 14 packet) rt o ->
  sr_arpcache_lookup (in_cache s) (rt_gw rt) = Some e -> entry_ok e ->
  exists q s', sr_handlepacket fuel packet (length packet) interface s = Ok (tt, s') /\
    emitted [vns_message (if_name o) q] s s' /\ in_cache s' = in_cache s /\
    echo_reply packet q /\ fbytes ether_shost 0 q = if_addr o /\
    fbytes ether_dhost 0 q = ae_mac e.
Proof.
  intros Hfr Hp Hl Ht (Hrt & Ho & Hok) He Hme.
  rewrite handlepacket_for_router, Hp, Z.eqb_refl by done.
  destruct Hfr as [H1 [H2 H2'] H3 H4 H5].
  destruct (sr_handle_icmp_packet_eq fuel s packet interface Hl (conj H2 H2') Ht)
    as (q & Hq & Hqb & E). cbv zeta in E. rewrite E, Hrt, Ho. clear E.
  pose proof (er_length _ _ Hq) as Hlq. rewrite <-Hlq. set (s1 := set_allocs s _).
  destruct (send_or_queue_hit fuel s1 q rt o e) as (r & s' & Hs & Hem & Hc & Hr & _);
    try done; [lia|split; [done|lia]|by eapply sr_get_interface_name|].
  exists r, s'. split; [done|]. split; [done|]. split; [done|].
  split; [by eapply echo_reply_readdressed|]. split; apply Hr.
Qed.

(** An error about a packet whose sender's next hop is known goes out at
    once. *)
Lemma sr_send_error_hit handle s packet interface i type code rt o e :
  (42 <= length packet)%nat -> bytes_ok packet ->
  sr_get_interface (in_if_list s) interface = Some i -> if_ok i ->
  0 <= type < 256 -> 0 <= code < 256 ->
  routed s (fval ip_src 14 packet) rt o ->
  sr_arpcache_lookup (in_cache s) (rt_gw rt) = Some e -> entry_ok e ->
  exists q s', sr_send_error handle packet interface type code s = Ok (tt, s') /\
    emitted [vns_message (if_name o) q] s s' /\ in_cache s' = in_cache s /\
    icmp_error packet q (if_ip i) type code /\ fbytes ether_shost 0 q = if_addr o /\
    fbytes ether_dhost 0 q = ae_mac e.
Proof.
  intros Hl Hb Hi Hiok Ht Hc (Hrt & Ho & Hok) He [Hm Hmb].
  unfold sr_send_error, sizeof_ether, sizeof_ip, sizeof_icmp_t3.
  rewrite bind_malloc. set (s1 := set_allocs s _). unfold get_iface, get_route, get_mac.
  exec. mload. change (in_routing_table s1) with (in_routing_table s). rewrite Hrt. exec.
  change (in_if_list s1) with (in_if_list s). rewrite Ho, Hi.
  destruct (ok_with_inv _ _ (fill_icmp_error_ok packet i type code
    (uninit (in_allocs s) (14 + 20 + 36)) Hl Hb (uninit_length _ _) (uninit_bytes _ _)
    ltac:(apply Hiok) Ht Hc)) as (q & -> & Hq & Hqb). exec.
  change (in_cache s1) with (in_cache s). rewrite He.
  pose proof (ie_length _ _ _ _ _ Hq) as Lq.
  destruct (set_ether_ok' (if_addr o) (ae_mac e) q) as (q1 & r & E1 & E2 & Hr & Hrb);
    [lia|apply Hok|done|].
  rewrite E1. exec. rewrite E2. exec. pose proof (ra_length _ _ _ _ Hr) as Lr.
  rewrite st_ok by in_bounds. exec.
  set (r' := fset ether_type 0 _ r).
  assert (Lr' : length r' = length r) by (apply length_fset; in_bounds).
  assert (Hs : fbytes ether_shost 0 r' = if_addr o)
    by (unfold r'; rewrite fbytes_fset_ne by in_bounds; apply Hr).
  destruct (send_emits s1 r' (if_name o) o) as (s' & Hs' & Hem & Hca);
    [lia|unfold frame_max; lia|by eapply sr_get_interface_name|done|].
  replace (14 + 20 + 36)%nat with (length r') by lia. rewrite (bind_ok _ _ _ _ _ Hs').
  exists r', s'. split; [done|]. split; [done|]. split; [done|]. split; [|split; [done|]].
  - eapply icmp_error_ether; [by eapply icmp_error_readdressed|lia|].
    apply slice_fset_ne; in_bounds.
  - unfold r'. rewrite fbytes_fset_ne by in_bounds. apply Hr.
Qed.

(** Why the router sends an error about a packet, which it quotes as
    [quoted]. *)
Inductive error_reason (s : sr_instance) (packet : buffer) : Z -> Z -> buffer -> Prop :=
| TimeExceeded :
    in_transit s packet -> fval ip_ttl 14 packet = 1 ->
    error_reason s packet 11 0 (fset ip_ttl 14 0 packet)
| NetUnreachable quoted :
    in_transit s packet -> 2 <= fval ip_ttl 14 packet -> forwarded packet quoted ->
    sr_get_longest_prefix_match (in_routing_table s) (fval ip_dst 14 packet) = None ->
    error_reason s packet 3 0 quoted
| PortUnreachable :
    for_router s packet -> fval ip_p 14 packet <> ip_protocol_icmp ->
    error_reason s packet 3 3 packet.

Lemma forward_expired fuel s packet interface :
  (34 <= length packet)%nat -> fval ip_ttl 14 packet = 1 ->
  sr_forward_packet fuel packet (length packet) interface s =
  sr_send_icmp_time_exceeded fuel (fset ip_ttl 14 0 packet) interface s.
Proof.
  intros Hl Ht. unfold sr_forward_packet. mload. rewrite st_ok by in_bounds. exec.
  rewrite Ht. change (u8 (1 - 1)) with 0.
  assert (L : length (fset ip_ttl 14 0 packet) = length packet)
    by (apply length_fset; in_bounds).
  mload. rewrite fval_fset by in_bounds. done.
Qed.

Lemma forwarded_src packet q :
  (34 <= length packet)%nat -> forwarded packet q ->
  fval ip_src 14 q = fval ip_src 14 packet.
Proof.
  intros Hl Hq. unfold fval, fbytes. simpl. f_equal.
  eapply slice_same; [| |apply (fw_rest packet q Hq)]; simpl; lia.
Qed.

(** C24: When the time to live of a packet of at least 42 bytes runs out, when no route
    covers its destination, or when it is for the router and of any protocol but ICMP,
    and the next hop of the route back to its source is in the ARP cache, exactly one
    frame is sent, by that route: an ICMP error of the type and code for the reason,
    from the address of the interface the packet came in by, quoting the packet's
    header and first eight bytes, with both checksums valid. The README wants port
    unreachable for TCP and UDP only and other protocols ignored; the code sends it
    for them as well. *)
Theorem icmp_errors_sent fuel s packet interface i rt o e type code quoted :
  error_reason s packet type code quoted -> (42 <= length packet)%nat ->
  sr_get_interface (in_if_list s) interface = Some i -> if_ok i ->
  routed s (fval ip_src 14 packet) rt o ->
  sr_arpcache_lookup (in_cache s) (rt_gw rt) = Some e -> entry_ok e ->
  exists quoted q s', error_reason s packet type code quoted /\
    sr_handlepacket fuel packet (length packet) interface s = Ok (tt, s') /\
    emitted [vns_message (if_name o) q] s s' /\ in_cache s' = in_cache s /\
    icmp_error quoted q (if_ip i) type code /\ fbytes ether_shost 0 q = if_addr o /\
    fbytes ether_dhost 0 q = ae_mac e.
Proof.
  intros Hr Hl Hi Hok Hrt He Hm.
  assert (Hgo : forall p type code, error_reason s packet type code p ->
    length p = length packet -> bytes_ok p -> fval ip_src 14 p = fval ip_src 14 packet ->
    0 <= type < 256 -> 0 <= code < 256 ->
    sr_handlepacket fuel packet (length packet) interface s =
      sr_send_error (handle_arpreq fuel) p interface type code s ->
    exists quoted q s', error_reason s packet type code quoted /\
    sr_handlepacket fuel packet (length packet) interface s = Ok (tt, s') /\
    emitted [vns_message (if_name o) q] s s' /\ in_cache s' = in_cache s /\
    icmp_error quoted q (if_ip i) type code /\ fbytes ether_shost 0 q = if_addr o /\
    fbytes ether_dhost 0 q = ae_mac e).
  { clear Hr type code quoted. intros p type code Hr Hlp Hb Hsrc Hty Hco ->.
    destruct (sr_send_error_hit (handle_arpreq fuel) s p interface i type code rt o e)
      as (q & s' & H'); try done; [lia|by rewrite Hsrc|]. exists p, q, s'. tauto. }
  pose proof Hr as Hr'.
  destruct Hr as [Ht Httl|quoted Ht Httl Hq Hno|Hf Hp].
  - pose proof Ht as [H1 [H2 _] _ _ _]. apply (Hgo _ _ _ Hr'); try lia.
    + apply length_fset; in_bounds.
    + by apply fset_bytes_ok.
    + by rewrite fval_fset_ne by in_bounds.
    + rewrite handlepacket_transit by done. by apply forward_expired.
  - pose proof Ht as [H1 [H2 _] _ _ _].
    destruct (sr_forward_packet_eq fuel s packet interface H1 H2 ltac:(lia))
      as (q & Hfq & Hqb & E).
    rewrite Hno in E. apply (Hgo q 3 0); try done.
    + by apply NetUnreachable.
    + apply Hfq.
    + by apply forwarded_src.
    + by rewrite handlepacket_transit.
  - pose proof Hf as [H1 [H2 _] _ _ _]. apply (Hgo _ _ _ Hr'); try done.
    rewrite handlepacket_for_router by done. by case_test.
Qed.

(** A packet that arrives with a time to live of zero is not dropped:
    the decrement wraps in eight bits, and the packet is forwarded with a time
    to live of 255. *)
Theorem ttl_zero_wraps fuel s packet interface rt o e :
  in_transit s packet -> fval ip_ttl 14 packet = 0 ->
  routed s (fval ip_dst 14 packet) rt o ->
  sr_arpcache_lookup (in_cache s) (rt_gw rt) = Some e -> entry_ok e ->
  exists q s', sr_handlepacket fuel packet (length packet) interface s = Ok (tt, s') /\
    emitted [vns_message (if_name o) q] s s' /\ forwarded packet q /\
    fval ip_ttl 14 q = 255.
Proof.
  intros Ht Httl (Hrt & Ho & Hok) He Hme. rewrite handlepacket_transit by done.
  destruct Ht as [H1 [H2 H2'] H3 H4 H5].
  destruct (sr_forward_packet_eq fuel s packet interface H1 H2 ltac:(lia))
    as (q & Hq & Hqb & ->).
  rewrite Hrt, Ho. pose proof (fw_length _ _ Hq) as Hlq. rewrite <-Hlq.
  destruct (send_or_queue_hit fuel s q rt o e) as (r & s' & Hs & Hem & Hc & Hr & _);
    try done; [lia|split; [done|lia]|by eapply sr_get_interface_name|].
  assert (Hf : forwarded packet r) by (by eapply forwarded_readdressed).
  exists r, s'. split; [done|]. split; [done|]. split; [done|].
  by rewrite (fw_ttl _ _ Hf), Httl.
Qed.

(** The checksum test accepts exactly the headers that are valid in the
    sense of RFC 1071 and whose checksum field is not zero; any other packet
    is dropped without a trace. A valid header whose field is 0x0000, which
    the ones'-complement of a sum can be, is among those dropped. *)
Theorem header_check_exact fuel s packet interface :
  (34 <= length packet)%nat -> bytes_ok packet ->
  ntohs (fval ether_type 0 packet) = ethertype_ip ->
  ~ (rfc1071_valid (ip_header packet) /\ fval ip_sum 14 packet <> 0) ->
  sr_handlepacket fuel packet (length packet) interface s = Ok (tt, s).
Proof.
  intros Hl Hb Ht Hn. rewrite handlepacket_ip by (done || lia).
  by apply sr_handle_ip_packet_eq.
Qed.
End packets.
