(* ===== verification/RouterSafety.v ===== *)
(** The router's memory safety: a well-formed state stays well formed, and no frame
    that arrives makes the code fault, whatever its bytes, under the conditions
    whose violations RouterHazards is about. *)
From S2P Require Import Prelude Mem Cksum Protocol Interfaces RoutingTable ArpCache Instance Router RouterFrames RouterProps.

(** * The invariant *)

(** Interfaces and entries hold addresses of the right size; every request has
    packets, long enough to be quoted in an ICMP error, that came by interfaces
    that exist. *)
Record instance_ok (s : sr_instance) : Prop := {
  io_ifs : Forall if_ok (in_if_list s);
  io_entries : Forall entry_ok (ac_entries (in_cache s));
  io_cache : cache_wf (in_cache s);
  io_reqs : Forall (fun r => rq_packets r <> [] /\
    Forall (pkt_ok (in_if_list s)) (rq_packets r)) (ac_requests (in_cache s)) }.

(** No request has used up its five attempts and waited since. *)
Definition no_timeouts (s : sr_instance) : Prop :=
  Forall (fun r => in_clock s - rq_sent r <= 1 \/ rq_times_sent r < 5)
    (ac_requests (in_cache s)).

Definition good (s0 s : sr_instance) : Prop :=
  instance_ok s /\ no_timeouts s /\ same_config s0 s.

Lemma good_same s0 s s' :
  good s0 s -> same_config s s' -> in_cache s' = in_cache s -> good s0 s'.
Proof.
  intros (Hi & Hn & Hs) Hc He. pose proof Hc as (H1 & H2 & H3 & H4).
  split; [|split; [|by eapply same_config_trans]].
  - destruct Hi as [I1 I2 I3 I4]. split; rewrite ?H2, ?He; done.
  - unfold no_timeouts. by rewrite H4, He.
Qed.

#[export] Instance no_timeouts_dec s : Decision (no_timeouts s).
Proof. unfold no_timeouts. apply _. Defined.

(** ** Runs of events in which no state has a request that has used up its attempts *)

Section in_time.
Context {E : Type} (run : E -> RM unit).

Fixpoint in_time (evs : list E) (s : sr_instance) : bool :=
  bool_decide (no_timeouts s) &&
  match evs with
  | [] => true
  | ev :: evs => match run ev s with Ok (_, s') => in_time evs s' | Fault _ => true end
  end.

Lemma in_time_start evs s : in_time evs s = true -> no_timeouts s.
Proof. destruct evs; cbn [in_time]; by intros [?%bool_decide_eq_true _]%andb_true_iff. Qed.

Lemma in_time_cons ev evs s s' :
  in_time (ev :: evs) s = true -> run ev s = Ok (tt, s') -> in_time evs s' = true.
Proof. cbn [in_time]. intros [_ Ht]%andb_true_iff E1. by rewrite E1 in Ht. Qed.

(** What each event keeps, while no request has used up its attempts, such a run
    keeps; and it does not fault. *)
Lemma for_each_in_time (P : sr_instance -> Prop) (ok : E -> Prop) l2 :
  (forall ev s, P s -> no_timeouts s -> ok ev -> ok_with (run ev s) (fun x => P x.2)) ->
  forall l1 s, P s -> Forall ok l1 -> in_time (l1 ++ l2) s = true ->
  exists s', for_each run l1 s = Ok (tt, s') /\ P s' /\ in_time l2 s' = true.
Proof.
  intros Hstep. induction l1 as [|ev l1 IH]; intros s Hs Ho Ht; [by exists s|].
  apply Forall_cons in Ho as [Ho Hos].
  destruct (ok_with_inv _ _ (Hstep ev s Hs (in_time_start _ _ Ht) Ho)) as ([[] s1] & E1 & Hs1).
  destruct (IH s1 Hs1 Hos (in_time_cons _ _ _ _ Ht E1)) as (s' & E2 & H2).
  exists s'. split; [|done]. cbn [for_each]. by rewrite (bind_ok _ _ _ _ _ E1).
Qed.
End in_time.

(** A run that returns, in a good state. *)
Definition keeps {A} (s0 : sr_instance) (r : res (A * sr_instance)) : Prop :=
  ok_with r (fun x => good s0 x.2).

Lemma keeps_bind {A B} s0 (m : RM A) (f : A -> RM B) s :
  keeps s0 (m s) -> (forall a s', m s = Ok (a, s') -> good s0 s' -> keeps s0 (f a s')) ->
  keeps s0 ((m ≫= f) s).
Proof.
  intros Hm Hf. unfold keeps in *. destruct (m s) as [[a s']|] eqn:E; [|done].
  rewrite (bind_ok _ _ _ _ _ E). by apply Hf.
Qed.

Lemma keeps_ret {A} s0 (a : A) s : good s0 s -> keeps s0 (Ok (a, s)).
Proof. done. Qed.

Lemma lookup_entry_ok s ip e :
  instance_ok s -> sr_arpcache_lookup (in_cache s) ip = Some e -> entry_ok e.
Proof.
  intros Hs He. rewrite sr_arpcache_lookup_in in He.
  apply lookup_in_some in He as (l1 & l2 & Hl & _).
  pose proof (io_entries _ Hs) as H. rewrite Hl in H.
  apply Forall_app in H as [_ H]. by apply Forall_cons in H as [H _].
Qed.

Lemma iface_ok s name i :
  instance_ok s -> sr_get_interface (in_if_list s) name = Some i -> if_ok i.
Proof.
  intros Hs Hi%sr_get_interface_elem. pose proof (io_ifs _ Hs) as H.
  rewrite Forall_forall in H. auto.
Qed.

#[export] Instance rfc1071_valid_dec l : Decision (rfc1071_valid l).
Proof. unfold rfc1071_valid. apply _. Defined.

Section safety.
Context `{Env}.

Lemma keeps_send s0 s p n name :
  good s0 s -> length p = n -> Z.of_nat n <= frame_max ->
  keeps s0 (sr_send_packet p n name s).
Proof.
  intros Hg <- Hl. unfold frame_max in Hl.
  pose proof (sr_send_packet_total s p name ltac:(lia)) as Hw.
  unfold wp, keeps, ok_with in *.
  destruct (sr_send_packet p (length p) name s) as [[a s']|]; [|done].
  destruct Hw. by eapply good_same.
Qed.

Lemma keeps_alloc s0 s n : good s0 s -> good s0 (set_allocs s n).
Proof. intros Hg. by eapply good_same. Qed.

Lemma keeps_arp_request s0 s tip i :
  good s0 s -> if_ok i -> keeps s0 (sr_send_arp_request tip (Some i) s).
Proof.
  intros Hg (Hi & _). unfold sr_send_arp_request, sizeof_ether, sizeof_arp.
  rewrite bind_malloc. exec. rewrite fill_arp_request_ok
    by (done || by rewrite uninit_length). exec.
  apply keeps_bind; [|by intros; apply keeps_ret].
  apply keeps_send; [by apply keeps_alloc|by apply length_arp_frame|done].
Qed.

(** Changing one request and keeping its key. *)
Lemma good_update s0 s p f :
  good s0 s -> keeps_key f ->
  (forall r, req_at (in_cache s) p = Some r -> rq_packets r <> [] ->
    Forall (pkt_ok (in_if_list s)) (rq_packets r) ->
    rq_packets (f r) <> [] /\ Forall (pkt_ok (in_if_list s)) (rq_packets (f r))) ->
  (forall r, in_clock s - rq_sent r <= 1 \/ rq_times_sent r < 5 ->
    in_clock s - rq_sent (f r) <= 1 \/ rq_times_sent (f r) < 5) ->
  good s0 (set_cache s (req_update (in_cache s) p f)).
Proof.
  intros (Hi & Hn & Hs) Hk Hp Ht. pose proof Hi as [I1 I2 I3 I4].
  split; [|split; [|done]].
  - split; try done; [by apply req_update_wf|].
    cbn [in_cache set_cache req_update set_requests ac_requests in_if_list].
    apply Forall_map, Forall_forall. intros r Hr. rewrite Forall_forall in I4.
    destruct (I4 r Hr) as [J1 J2]. case_test; [|done]. subst p.
    apply Hp; [|done|done]. unfold req_at.
    pose proof (wf_addr _ I3) as Hd. clear -Hr Hd.
    induction (ac_requests (in_cache s)) as [|x l IH]; [by apply not_elem_of_nil in Hr|].
    simpl in *. apply NoDup_cons in Hd as [Hnx Hd].
    apply elem_of_cons in Hr as [<-|Hr]; [by rewrite Nat.eqb_refl|].
    case_test; [|auto]. exfalso. apply Hnx. rewrite e. by apply list_elem_of_fmap_2.
  - unfold no_timeouts in *.
    cbn [in_cache set_cache req_update set_requests ac_requests in_clock].
    apply Forall_map, Forall_forall. intros r Hr. rewrite Forall_forall in Hn.
    case_test; [apply Ht|]; auto.
Qed.

(** A request that still has attempts left, or has nothing due, is handled
    without a fault. *)
Lemma keeps_handle s0 s fuel p r :
  good s0 s -> req_at (in_cache s) p = Some r -> keeps s0 (handle_arpreq (S fuel) p s).
Proof.
  intros Hg Hr. cbn [handle_arpreq].
  rewrite (bind_ok (req_deref p) _ s r s) by (unfold req_deref; exec; by rewrite Hr).
  exec. apply find_some in Hr as Hin. destruct Hin as [Hin Hp]. apply Nat.eqb_eq in Hp.
  pose proof Hg as (Hi & Hn & Hsc). unfold no_timeouts in Hn. rewrite Forall_forall in Hn.
  specialize (Hn r Hin). pose proof (io_reqs _ Hi) as Hq. rewrite Forall_forall in Hq.
  destruct (Hq r Hin) as [Hne Hpk].
  destruct (Z.gtb_spec (in_clock s - rq_sent r) 1); [|by apply keeps_ret].
  destruct (Z.geb_spec (rq_times_sent r) 5); [lia|].
  destruct (rq_packets r) as [|pkt pkts] eqn:Epk; [done|]. cbn [head]. exec.
  apply Forall_cons in Hpk as [(_ & _ & _ & i & Hgi & Hok) _].
  unfold get_iface. exec. rewrite Hgi.
  apply keeps_bind; [by apply keeps_arp_request|]. intros [] s' Hs' Hg'.
  assert (Hc : in_clock s = in_clock s') by (destruct Hg' as (_ & _ & _ & _ & _ & ->); by
    destruct Hsc as (_ & _ & _ & ->)).
  unfold modify. apply keeps_ret. cbn [snd].
  apply good_update; [done|apply mark_sent_keeps|done|].
  intros r' _. left. cbn [mark_sent rq_sent]. lia.
Qed.

Lemma keeps_queue s0 s ip p n i :
  good s0 s -> length p = n -> (42 <= n)%nat -> frame_ok p ->
  sr_get_interface (in_if_list s) (if_name i) = Some i -> if_ok i ->
  keeps s0 (queuereq ip p n (if_name i) s) /\
  forall req s', queuereq ip p n (if_name i) s = Ok (req, s') ->
    is_Some (req_at (in_cache s') req).
Proof.
  intros Hg Hl Hn Hf Hgi Hok. unfold queuereq. exec.
  set (pkt := SrPacket p n (strncpy sr_IFACE_NAMELEN (if_name i))).
  assert (Hpkt : pkt_ok (in_if_list s) pkt).
  { split; [done|]. split; [simpl; lia|]. split; [done|]. exists i.
    cbn [pk_iface pkt]. by rewrite sr_get_interface_strncpy. }
  unfold sr_arpcache_queuereq.
  set (c1p := match find_req ip _ with Some _ => _ | None => _ end).
  assert (Hc1 : good s0 (set_cache s (req_update c1p.1 c1p.2 (push_packet pkt))) /\
    is_Some (req_at (req_update c1p.1 c1p.2 (push_packet pkt)) c1p.2)).
  { pose proof Hg as (Hi & Hnt & Hs). pose proof Hi as [I1 I2 I3 I4].
    unfold c1p. destruct (find_req ip _) as [r|] eqn:E; cbn [fst snd].
    - split.
      + apply good_update; [done|done| |done]. intros r' _ _ Hp. split; [done|by constructor].
      + pose proof (find_req_addr _ _ _ (wf_addr _ I3) E) as Hat.
        unfold req_at, req_update. cbn [set_requests ac_requests].
        clear -Hat. induction (ac_requests (in_cache s)) as [|x l IH]; [done|].
        simpl in *. destruct (Nat.eqb_spec (rq_addr x) (rq_addr r)).
        * simpl. by rewrite e, Nat.eqb_refl.
        * by destruct (Nat.eqb_spec (rq_addr x) (rq_addr r)); [lia|auto].
    - unfold req_at, req_update. cbn [set_requests ac_requests map rq_addr].
      rewrite Nat.eqb_refl, map_addr_ne by apply I3.
      split; [|simpl; rewrite Nat.eqb_refl; by eexists].
      pose proof (queuereq_wf (in_cache s) ip p n (if_name i)) as Hwf.
      split; [|split; [|done]].
      + split; [done|done| |].
        * eapply Hwf; [done|]. unfold sr_arpcache_queuereq. rewrite E.
          destruct (Nat.eqb_spec n 0); [lia|]. rewrite rd_all by done.
          cbn [mbind res_bind mret res_ret]. unfold req_update.
          cbn [set_requests ac_requests map rq_addr].
          by rewrite Nat.eqb_refl, map_addr_ne by apply I3.
        * cbn. constructor; [|done]. split; [done|]. by constructor.
      + unfold no_timeouts. cbn. constructor; [right; simpl; lia|done]. }
  destruct c1p as [c1 q]. cbn [fst snd] in Hc1.
  destruct (Nat.eqb_spec n 0); [lia|]. rewrite rd_all by done. exec.
  split; [apply Hc1|]. intros req s' [= <- <-]. apply Hc1.
Qed.
Lemma good_ok s0 s : good s0 s -> instance_ok s.
Proof. by intros []. Qed.

Lemma keeps_then_ret {A B} s0 (m : RM A) (b : B) s :
  keeps s0 (m s) -> keeps s0 ((m ≫= (fun _ => mret b)) s).
Proof. intros Hm. by apply keeps_bind; [|intros; apply keeps_ret]. Qed.

(** Queueing and asking for the next hop. *)
Lemma keeps_queue_handle s0 s fuel ip p n i :
  good s0 s -> length p = n -> (42 <= n)%nat -> frame_ok p ->
  sr_get_interface (in_if_list s) (if_name i) = Some i -> if_ok i ->
  keeps s0 ((req ← queuereq ip p n (if_name i); handle_arpreq (S fuel) req) s).
Proof.
  intros Hg Hl Hn Hf Hgi Hok.
  destruct (keeps_queue s0 s ip p n i Hg Hl Hn Hf Hgi Hok) as [H1 H2].
  apply keeps_bind; [done|]. intros req s' E Hg'. destruct (H2 req s' E) as [r Hr].
  by eapply keeps_handle.
Qed.

Lemma keeps_send_or_queue s0 s fuel p n rt o :
  good s0 s -> length p = n -> (42 <= n)%nat -> frame_ok p ->
  sr_get_interface (in_if_list s) (rt_iface rt) = Some o ->
  keeps s0 (send_or_queue (S fuel) p n rt o s).
Proof.
  intros Hg Hl Hn Hf Ho. pose proof (good_ok _ _ Hg) as Hi.
  pose proof (iface_ok _ _ _ Hi Ho) as Hok.
  unfold send_or_queue, get_mac. exec.
  destruct (sr_arpcache_lookup _ _) as [e|] eqn:He.
  - destruct (lookup_entry_ok _ _ _ Hi He) as [Hm _].
    destruct (set_ether_ok (if_addr o) (ae_mac e) p) as (r & E1 & E2 & Lr & _);
      [lia|apply Hok|done|].
    rewrite E1. exec. rewrite E2. exec. destruct Hf as [_ Hf].
    apply keeps_then_ret, keeps_send; [done|lia|lia].
  - apply keeps_queue_handle; try done. by eapply sr_get_interface_name.
Qed.

Lemma keeps_send_error s0 s fuel packet interface type code i :
  good s0 s -> (42 <= length packet)%nat -> bytes_ok packet ->
  sr_get_interface (in_if_list s) interface = Some i ->
  0 <= type < 256 -> 0 <= code < 256 ->
  keeps s0 (sr_send_error (handle_arpreq (S fuel)) packet interface type code s).
Proof.
  intros Hg Hl Hb Hi Ht Hc. pose proof (good_ok _ _ Hg) as Hio.
  pose proof (iface_ok _ _ _ Hio Hi) as Hok.
  unfold sr_send_error, sizeof_ether, sizeof_ip, sizeof_icmp_t3.
  rewrite bind_malloc. set (s1 := set_allocs s _).
  assert (Hg1 : good s0 s1) by (by apply keeps_alloc).
  unfold get_iface, get_route, get_mac. exec. mload.
  destruct (sr_get_longest_prefix_match _ _) as [rt|]; [|by apply keeps_ret]. exec.
  destruct (sr_get_interface _ (rt_iface rt)) as [o|] eqn:Ho; [|by apply keeps_ret].
  change (in_if_list s1) with (in_if_list s). rewrite Hi.
  pose proof (iface_ok s1 _ _ (good_ok _ _ Hg1) Ho) as Hook.
  destruct (ok_with_inv _ _ (fill_icmp_error_ok packet i type code
    (uninit (in_allocs s) (14 + 20 + 36)) Hl Hb (uninit_length _ _) (uninit_bytes _ _)
    ltac:(apply Hok) Ht Hc)) as (q & -> & Hq & Hqb). exec.
  pose proof (ie_length _ _ _ _ _ Hq) as Lq.
  destruct (sr_arpcache_lookup _ _) as [e|] eqn:He.
  - destruct (lookup_entry_ok s1 _ _ (good_ok _ _ Hg1) He) as [Hm _].
    destruct (set_ether_ok' (if_addr o) (ae_mac e) q) as (q1 & r & E1 & E2 & Hr & _);
      [lia|apply Hook|done|].
    rewrite E1. exec. rewrite E2. exec. pose proof (ra_length _ _ _ _ Hr) as Lr.
    rewrite st_ok by in_bounds. exec.
    apply keeps_then_ret, keeps_send; [done| |unfold frame_max; lia].
    rewrite length_fset by in_bounds. lia.
  - rewrite st_ok by in_bounds. exec.
    set (q1 := fset ether_type 0 _ q).
    assert (L1 : length q1 = length q) by (apply length_fset; in_bounds).
    assert (B1 : bytes_ok q1) by (by apply fset_bytes_ok).
    rewrite st_arr_ok by (apply Hook || in_bounds). exec.
    apply keeps_queue_handle; try done.
    + rewrite length_fset_arr by (apply Hook || in_bounds). lia.
    + lia.
    + split; [by apply fset_arr_bytes_ok; [apply Hook|]|].
      rewrite length_fset_arr by (apply Hook || in_bounds). unfold frame_max. lia.
    + by eapply sr_get_interface_name.
Qed.

Lemma keeps_forward s0 s fuel packet interface i :
  good s0 s -> (42 <= length packet)%nat -> frame_ok packet ->
  sr_get_interface (in_if_list s) interface = Some i ->
  keeps s0 (sr_forward_packet (S fuel) packet (length packet) interface s).
Proof.
  intros Hg Hl [Hb Hm] Hi.
  destruct (Z.eq_dec (fval ip_ttl 14 packet) 1) as [Ht|Ht].
  - rewrite forward_expired by (done || lia).
    apply (keeps_send_error _ _ _ _ _ _ _ i); [done| | |done|lia|lia].
    + rewrite length_fset by in_bounds. done.
    + by apply fset_bytes_ok.
  - destruct (sr_forward_packet_eq (S fuel) s packet interface ltac:(lia) Hb Ht)
      as (q & Hq & Hqb & ->).
    pose proof (fw_length _ _ Hq) as Lq.
    destruct (sr_get_longest_prefix_match _ _) as [rt|].
    + destruct (sr_get_interface _ (rt_iface rt)) as [o|] eqn:Ho; [|by apply keeps_ret].
      apply keeps_send_or_queue; try done. split; [done|lia].
    + apply (keeps_send_error _ _ _ _ _ _ _ i); [done|lia|done|done|lia|lia].
Qed.

Lemma keeps_icmp s0 s fuel packet interface :
  good s0 s -> (42 <= length packet)%nat -> frame_ok packet ->
  keeps s0 (sr_handle_icmp_packet (S fuel) packet (length packet) interface s).
Proof.
  intros Hg Hl [Hb Hm].
  destruct (Z.eq_dec (fval icmp_type 34 packet) 8) as [Ht|Ht].
  - destruct (sr_handle_icmp_packet_eq (S fuel) s packet interface ltac:(lia)
      (conj Hb Hm) Ht) as (q & Hq & Hqb & E). cbv zeta in E. rewrite E. clear E.
    pose proof (er_length _ _ Hq) as Lq.
    assert (Hg1 : good s0 (set_allocs s (S (in_allocs s)))) by (by apply keeps_alloc).
    destruct (sr_get_longest_prefix_match _ _) as [rt|]; [|by apply keeps_ret].
    destruct (sr_get_interface _ (rt_iface rt)) as [o|] eqn:Ho; [|by apply keeps_ret].
    apply keeps_send_or_queue; try done. split; [done|lia].
  - unfold sr_handle_icmp_packet. rewrite bind_malloc, rd_all by done. exec. mload.
    destruct (Z.eqb_spec (fval icmp_type 34 packet) 8); [done|].
    apply keeps_ret. by apply keeps_alloc.
Qed.
Lemma keeps_flush s0 s mac pkt :
  good s0 s -> length mac = 6%nat -> pkt_ok (in_if_list s) pkt ->
  keeps s0 (flush_packet mac pkt s).
Proof.
  intros Hg Hm (Hl & H42 & [Hb Hmax] & i & Hi & Hok).
  destruct (set_ether_ok' (if_addr i) mac (pk_buf pkt)) as (q1 & r & E1 & E2 & Hr & _);
    [lia|apply Hok|done|].
  pose proof (ra_length _ _ _ _ Hr) as Lr.
  unfold flush_packet, get_iface. exec. rewrite E1. exec. rewrite Hi. exec. rewrite E2. exec.
  apply keeps_then_ret, keeps_send; [done|lia|lia].
Qed.

Lemma keeps_for_each {A} s0 (f : A -> RM unit) l s :
  good s0 s -> (forall x s, x ∈ l -> good s0 s -> keeps s0 (f x s)) ->
  keeps s0 (for_each f l s).
Proof.
  revert s. induction l as [|x l IH]; intros s Hg Hf; [by apply keeps_ret|].
  apply keeps_bind; [apply Hf; [by left|done]|]. intros [] s' _ Hg'.
  apply IH; [done|]. intros y t Hy. apply Hf. by right.
Qed.

(** Learning a mapping, and dropping requests, keep a state good. *)
Lemma good_insert s0 s now mac ip c r :
  good s0 s -> length mac = 6%nat -> bytes_ok mac ->
  sr_arpcache_insert now (in_cache s) mac ip = Ok (c, r) -> good s0 (set_cache s c).
Proof.
  intros (Hi & Hn & Hs) Hm Hb Hc. pose proof Hi as [I1 I2 I3 I4].
  pose proof (insert_wf _ _ _ _ _ _ I3 Hc) as Hwf.
  unfold sr_arpcache_insert in Hc. rewrite rd_all in Hc by done. injection Hc as <- _.
  split; [|split; [|done]].
  - split; cbn; try done; [|by apply unlink_Forall].
    clear -I2 Hm Hb. induction I2 as [|e l He Hl IH]; simpl; [constructor|].
    destruct (ae_valid e); by constructor.
  - unfold no_timeouts. cbn. by apply unlink_Forall.
Qed.

Lemma good_unlink s0 s p : good s0 s -> good s0 (set_cache s (sr_arpreq_destroy (in_cache s) p)).
Proof.
  intros (Hi & Hn & Hs). pose proof Hi as [I1 I2 I3 I4]. split; [|split; [|done]].
  - split; cbn; try done; [by apply destroy_wf|by apply unlink_Forall].
  - unfold no_timeouts. cbn. by apply unlink_Forall.
Qed.

Lemma keeps_arp s0 s packet interface :
  good s0 s -> (14 <= length packet)%nat -> frame_ok packet ->
  keeps s0 (sr_handle_arp_packet packet (length packet) interface s).
Proof.
  intros Hg Hl [Hb Hm]. unfold sr_handle_arp_packet, sizeof_ether, sizeof_arp.
  destruct (Nat.ltb_spec (length packet) (14 + 28)); [by apply keeps_ret|].
  unfold get_iface. exec.
  destruct (sr_get_interface _ interface) as [i|] eqn:Hi; [|by apply keeps_ret].
  pose proof (iface_ok _ _ _ (good_ok _ _ Hg) Hi) as Hok. mload. mload.
  destruct (ntohs (fval ar_op 14 packet) =? arp_op_request).
  - destruct (_ =? if_ip i); [|by apply keeps_ret].
    unfold sr_send_arp_reply, get_iface. exec. rewrite Hi, bind_malloc. exec.
    rewrite fill_arp_reply_ok by (rewrite ?uninit_length; apply Hok || lia). exec.
    apply keeps_then_ret, keeps_send; [by apply keeps_alloc| |lia].
    rewrite length_app, length_drop, uninit_length. unfold arp_reply_frame.
    rewrite length_arp_frame; [lia|..]; try apply Hok; apply length_fbytes; in_bounds.
  - destruct (ntohs (fval ar_op 14 packet) =? arp_op_reply); [|by apply keeps_ret].
    destruct (_ =? if_ip i); [|by apply keeps_ret]. mload. mload.
    set (mac := fbytes ar_sha 14 packet).
    assert (Lm : length mac = 6%nat) by (apply length_fbytes; in_bounds).
    assert (Bm : bytes_ok mac) by (by apply fbytes_ok).
    destruct (sr_arpcache_insert (in_clock s) (in_cache s) mac _) as [[c r]|] eqn:Ei.
    2: { unfold sr_arpcache_insert in Ei. by rewrite rd_all in Ei. }
    exec. pose proof (good_insert s0 s _ _ _ _ _ Hg Lm Bm Ei) as Hg1.
    destruct r as [req|]; [|by apply keeps_ret].
    assert (Hreq : Forall (pkt_ok (in_if_list s)) (rq_packets req)).
    { unfold sr_arpcache_insert in Ei. rewrite rd_all in Ei by done.
      injection Ei as _ Ef. apply find_some in Ef as [Ef _].
      pose proof (io_reqs _ (good_ok _ _ Hg)) as Hq. rewrite Forall_forall in Hq.
      by apply Hq. }
    apply keeps_bind.
    + apply keeps_for_each; [done|]. intros pkt s' Hpkt Hg'.
      apply keeps_flush; [done|done|]. rewrite Forall_forall in Hreq.
      destruct Hg' as (_ & _ & _ & -> & _). destruct Hg as (_ & _ & _ & <- & _). auto.
    + intros [] s' _ Hg'. apply keeps_ret. by apply good_unlink.
Qed.

Lemma keeps_handlepacket s0 s fuel packet interface i :
  good s0 s -> frame_ok packet -> (14 <= length packet)%nat ->
  (length packet < 34 \/ 42 <= length packet)%nat ->
  sr_get_interface (in_if_list s) interface = Some i ->
  keeps s0 (sr_handlepacket (S fuel) packet (length packet) interface s).
Proof.
  intros Hg Hf Hl Hl' Hi. unfold sr_handlepacket. mload.
  destruct (_ =? ethertype_arp); [by apply keeps_arp|].
  destruct (_ =? ethertype_ip); [|by apply keeps_ret].
  destruct Hl' as [Hlt|H42].
  { unfold sr_handle_ip_packet, sizeof_ether, sizeof_ip.
    destruct (Nat.ltb_spec (length packet) (14 + 20)); [by apply keeps_ret|lia]. }
  destruct (sr_handle_ip_packet_eq (S fuel) s packet interface ltac:(lia) (proj1 Hf))
    as [E1 E2].
  destruct (decide (rfc1071_valid (ip_header packet) /\ fval ip_sum 14 packet <> 0)) as [Ha|Ha].
  - rewrite E1 by done. destruct (is_for_us _ _); [|by eapply keeps_forward].
    destruct (_ =? ip_protocol_icmp); [by apply keeps_icmp|].
    apply (keeps_send_error _ _ _ _ _ _ _ i); [done|lia|apply Hf|done|lia|lia].
  - rewrite E2 by done. by apply keeps_ret.
Qed.

(** C3: While no outstanding request has used up its five attempts, handling
    a frame of at least 14 bytes, and not of 34 to 41, never runs into undefined
    behaviour: with sane interfaces, ARP entries and queued packets, and a frame that
    came by an interface of the router and is either too short to be IP or long
    enough to be quoted in an ICMP error (42 bytes), every access is in bounds, no
    freed or null pointer is followed, no recursion is left open, and the state stays
    sane. Frames of the lengths left out can make the code read beyond them
    ([short_icmp_overread]). *)
Theorem handlepacket_safe fuel s packet interface i :
  instance_ok s -> no_timeouts s -> frame_ok packet ->
  (14 <= length packet)%nat -> (length packet < 34 \/ 42 <= length packet)%nat ->
  sr_get_interface (in_if_list s) interface = Some i ->
  exists s', sr_handlepacket (S fuel) packet (length packet) interface s = Ok (tt, s') /\
    instance_ok s' /\ no_timeouts s' /\ same_config s s'.
Proof.
  intros Hi Hn Hf Hl Hl' Hif.
  assert (Hg : good s s) by (split; [done|split; [done|apply same_config_refl]]).
  destruct (ok_with_inv _ _ (keeps_handlepacket s s fuel packet interface i Hg Hf Hl Hl' Hif))
    as ([[] s'] & E & H1 & H2 & H3). by exists s'.
Qed.
End safety.
