(* ===== verification/RouterTimeouts.v ===== *)
(** ARP requests over time: retries, what a waiting packet's sender hears when
    the attempts are used up, and packets that leave when the answer comes. *)
From S2P Require Import Prelude Mem Cksum Protocol Interfaces RoutingTable ArpCache Instance Router RouterFrames RouterProps RouterSafety.

Section timeouts.
Context `{ReliableEnv}.

Lemma req_deref_some s p r :
  req_at (in_cache s) p = Some r -> req_deref p s = Ok (r, s).
Proof. intros Hr. unfold req_deref. exec. by rewrite Hr. Qed.

(** A request that has been due for more than a second. *)
Definition due (s : sr_instance) (r : sr_arpreq) : Prop := 1 < in_clock s - rq_sent r.

(** When a request with attempts left is due, one more ARP request for
    its address is broadcast by the interface of its latest packet, and the
    request counts it and its time. *)
Theorem arp_retry fuel s p r pkt rest i :
  req_at (in_cache s) p = Some r -> due s r -> rq_times_sent r < 5 ->
  rq_packets r = pkt :: rest -> sr_get_interface (in_if_list s) (pk_iface pkt) = Some i ->
  if_ok i ->
  exists s', handle_arpreq (S fuel) p s = Ok (tt, s') /\
    emitted [vns_message (if_name i) (arp_request_frame (rq_ip r) i)] s s' /\
    in_cache s' = req_update (in_cache s) p (mark_sent (in_clock s)).
Proof.
  intros Hr Hd Ht Hp Hi Hok. cbn [handle_arpreq].
  rewrite (bind_ok _ _ _ _ _ (req_deref_some _ _ _ Hr)). exec. unfold due in Hd.
  destruct (Z.gtb_spec (in_clock s - rq_sent r) 1); [|lia].
  destruct (Z.geb_spec (rq_times_sent r) 5); [lia|].
  rewrite Hp. cbn [head]. unfold get_iface. exec. rewrite Hi.
  destruct (sr_send_arp_request_emits s (rq_ip r) i Hok
    (sr_get_interface_name _ _ _ Hi)) as (s1 & Hs1 & Hem & Hc).
  rewrite (bind_ok _ _ _ _ _ Hs1). eexists. split; [done|]. split; [by destruct Hem|].
  cbn [in_cache set_cache]. by rewrite Hc.
Qed.

(** The host-unreachable error a waiting packet's sender is due. *)
Definition unreachable_sent (s : sr_instance) (pkt : sr_packet) (msg : buffer) : Prop :=
  exists i rt o e q, sr_get_interface (in_if_list s) (pk_iface pkt) = Some i /\
    routed s (fval ip_src 14 (pk_buf pkt)) rt o /\
    sr_arpcache_lookup (in_cache s) (rt_gw rt) = Some e /\
    msg = vns_message (if_name o) q /\ icmp_error (pk_buf pkt) q (if_ip i) 3 1 /\
    fbytes ether_dhost 0 q = ae_mac e.

(** A waiting packet whose sender's next hop is known. *)
Definition sender_known (s : sr_instance) (pkt : sr_packet) : Prop :=
  pkt_ok (in_if_list s) pkt /\
  exists rt o e, routed s (fval ip_src 14 (pk_buf pkt)) rt o /\
    sr_arpcache_lookup (in_cache s) (rt_gw rt) = Some e /\ entry_ok e.

Lemma unreachable_turns_ok handle p r pkts s :
  req_at (in_cache s) p = Some r -> Forall (sender_known s) pkts ->
  exists msgs s', for_each (unreachable_turn handle p) pkts s = Ok (tt, s') /\
    Forall2 (unreachable_sent s) pkts msgs /\ emitted msgs s s' /\ in_cache s' = in_cache s.
Proof.
  revert s. induction pkts as [|pkt pkts IH]; intros s Hr Hk.
  { exists [], s. split; [done|]. split; [done|]. split; [apply emitted_nil|done]. }
  apply Forall_cons in Hk as [[(Hl & H42 & Hf & i & Hi & Hok) (rt & o & e & Hrt & He & Hm)] Hk].
  destruct (sr_send_error_hit handle s (pk_buf pkt) (pk_iface pkt) i 3 1 rt o e)
    as (q & s1 & E1 & Hem & Hc & Hq & _ & Hd); try done; [apply Hf|].
  assert (Ht : unreachable_turn handle p pkt s = Ok (tt, s1)).
  { unfold unreachable_turn. rewrite (bind_ok _ _ _ _ _ E1).
    rewrite (bind_ok _ _ _ r s1); [done|]. apply req_deref_some. by rewrite Hc. }
  pose proof Hem as [(_ & Hifs & Hrtb & Hcl) _].
  assert (Hsame : forall pkt msg, unreachable_sent s1 pkt msg -> unreachable_sent s pkt msg).
  { intros pk msg (i' & rt' & o' & e' & q' & A & B & C & D).
    exists i', rt', o', e', q'. unfold routed in *. by rewrite <-Hifs, <-Hrtb, <-Hc. }
  destruct (IH s1) as (msgs & s' & Hs' & Hfl & Hem' & Hc'); [by rewrite Hc| |].
  { eapply Forall_impl; [done|]. unfold sender_known, routed. intros pk.
    by rewrite Hifs, Hrtb, Hc. }
  exists (vns_message (if_name o) q :: msgs), s'. cbn [for_each].
  rewrite (bind_ok _ _ _ _ _ Ht). split; [done|]. split; [|split; [|congruence]].
  - constructor; [|by eapply Forall2_impl]. by exists i, rt, o, e, q.
  - apply (emitted_trans [_] msgs s s1 s'); done.
Qed.

(** Destroying a request takes it out of the list, and nothing else. *)
Lemma req_at_destroy c p q :
  cache_wf c -> req_at (sr_arpreq_destroy c p) q = if decide (q = p) then None else req_at c q.
Proof.
  intros Hwf. pose proof (wf_addr _ Hwf) as Hd. unfold req_at, sr_arpreq_destroy.
  cbn [ac_requests set_requests]. induction (ac_requests c) as [|r l IH]; [by case_match|].
  cbn [map] in Hd. apply NoDup_cons in Hd as [Hr Hd]. cbn [unlink find].
  destruct (Nat.eqb_spec (rq_addr r) p) as [<-|Hp].
  - case_decide as Hq.
    + subst q. destruct (find _ l) as [x|] eqn:E; [|done]. exfalso. apply Hr.
      apply find_some in E as [Hin Hx%Nat.eqb_eq]. rewrite <-Hx.
      by apply list_elem_of_fmap_2.
    + by rewrite (proj2 (Nat.eqb_neq _ _)) by congruence.
  - cbn [find]. destruct (Nat.eqb_spec (rq_addr r) q) as [<-|_]; [by rewrite decide_False|].
    by apply IH.
Qed.

(** C32: When a request that has been sent five times is due again, every
    packet that waits on it is answered, in the order of the list, with an
    ICMP host-unreachable error to its sender, and the request is in the list no
    longer, while the other requests and the mappings stay. For this the next hops of
    the senders have to be in the ARP cache: otherwise the error joins a request
    itself, which can be this one ([timeout_recursion]). *)
Theorem timeout_reports fuel s p r :
  cache_wf (in_cache s) ->
  req_at (in_cache s) p = Some r -> due s r -> 5 <= rq_times_sent r ->
  Forall (sender_known s) (rq_packets r) ->
  exists msgs s', handle_arpreq (S fuel) p s = Ok (tt, s') /\
    Forall2 (unreachable_sent s) (rq_packets r) msgs /\ emitted msgs s s' /\
    req_at (in_cache s') p = None /\
    (forall q, q <> p -> req_at (in_cache s') q = req_at (in_cache s) q) /\
    ac_entries (in_cache s') = ac_entries (in_cache s).
Proof.
  intros Hwf Hr Hd Ht Hk. cbn [handle_arpreq].
  rewrite (bind_ok _ _ _ _ _ (req_deref_some _ _ _ Hr)). exec. unfold due in Hd.
  destruct (Z.gtb_spec (in_clock s - rq_sent r) 1); [|lia].
  destruct (Z.geb_spec (rq_times_sent r) 5); [|lia].
  destruct (unreachable_turns_ok (handle_arpreq fuel) p r (rq_packets r) s Hr Hk)
    as (msgs & s1 & Hs1 & Hf & Hem & Hc).
  rewrite (bind_ok _ _ _ _ _ Hs1). exists msgs. eexists. split; [done|]. split; [done|].
  split; [by destruct Hem|]. cbn [in_cache set_cache]. rewrite Hc.
  split; [by rewrite req_at_destroy, decide_True|].
  split; [intros q Hq; by rewrite req_at_destroy, decide_False|done].
Qed.

(** C23: A packet whose next hop was unknown is not lost: when the next hop
    answers, it leaves by the route's interface for the address learnt, with
    its time to live and checksum updated. *)
Theorem miss_then_reply fuel s packet interface rt o reply :
  in_transit s packet -> (42 <= length packet)%nat -> 2 <= fval ip_ttl 14 packet ->
  routed s (fval ip_dst 14 packet) rt o -> cache_wf (in_cache s) -> 1 < in_clock s ->
  sr_arpcache_lookup (in_cache s) (rt_gw rt) = None ->
  find_req (rt_gw rt) (ac_requests (in_cache s)) = None ->
  arp_for s reply (if_name o) o arp_op_reply -> fval ar_sip 14 reply = rt_gw rt ->
  exists s1 s2 q,
    sr_handlepacket (S fuel) packet (length packet) interface s = Ok (tt, s1) /\
    sr_handlepacket (S fuel) reply (length reply) (if_name o) s1 = Ok (tt, s2) /\
    emitted [vns_message (if_name o) (arp_request_frame (rt_gw rt) o);
             vns_message (strncpy sr_IFACE_NAMELEN (if_name o)) q] s s2 /\
    forwarded packet q /\ fbytes ether_shost 0 q = if_addr o /\
    fbytes ether_dhost 0 q = fbytes ar_sha 14 reply.
Proof.
  intros Ht H42 Httl (Hrt & Ho & Hok) Hwf Hclk Hm Hf Ha Hsip.
  pose proof (sr_get_interface_name _ _ _ Ho) as Hoo.
  (* the packet is queued *)
  rewrite handlepacket_transit by done. pose proof Ht as [H1 [H2 H2'] _ _ _].
  destruct (sr_forward_packet_eq (S fuel) s packet interface H1 H2 ltac:(lia))
    as (q & Hq & Hqb & E1).
  rewrite E1, Hrt, Ho. pose proof (fw_length _ _ Hq) as Hlq. rewrite <-Hlq.
  destruct (send_or_queue_miss fuel s q rt o) as (s1 & -> & Hem1 & Hc1);
    try done; [lia|]. exists s1.
  pose proof Hem1 as [(_ & Hifs & _) _].
  (* the answer flushes it *)
  set (req := new_req s (rt_gw rt) q o) in *.
  destruct Ha as [A1 [A2 A2'] A3 A4 A5 A6 A7].
  assert (Ha1 : arp_for s1 reply (if_name o) o arp_op_reply)
    by (split; rewrite ?Hifs; done).
  rewrite handlepacket_arp by (done || lia). rewrite (handle_arp_eq _ _ _ _ _ Ha1).
  cbn [Z.eqb arp_op_request arp_op_reply Pos.eqb]. mload. mload. rewrite Hsip.
  set (mac := fbytes ar_sha 14 reply).
  assert (Lm : length mac = 6%nat) by (apply length_fbytes; in_bounds).
  unfold sr_arpcache_insert. rewrite rd_all by done. cbn [mbind res_bind mret res_ret].
  assert (Hfr : find_req (rt_gw rt) (ac_requests (in_cache s1)) = Some req).
  { rewrite Hc1. unfold find_req. cbn [find ac_requests]. by rewrite Z.eqb_refl. }
  rewrite Hfr. exec. set (s1' := set_cache s1 _).
  assert (Hpk : Forall (pkt_ok (in_if_list s1')) (rq_packets req)).
  { constructor; [|done]. split; [done|]. split; [simpl; lia|].
    split; [split; [done|cbn [pk_buf]; lia]|]. exists o. cbn [pk_iface].
    rewrite sr_get_interface_strncpy. change (in_if_list s1') with (in_if_list s1).
    by rewrite Hifs. }
  destruct (flush_packets_ok mac (rq_packets req) s1' Lm Hpk)
    as (msgs & s2 & Hs2 & Hfl & Hem2 & Hc2).
  rewrite (bind_ok _ _ _ _ _ Hs2).
  change (rq_packets req)
    with [SrPacket q (length q) (strncpy sr_IFACE_NAMELEN (if_name o))] in Hfl.
  apply Forall2_cons_inv_l in Hfl as (msg & msgs' & Hm1 & Hm2 & ->).
  apply Forall2_nil_inv_l in Hm2 as ->.
  destruct Hm1 as (o' & r & Ho' & -> & Hr). cbn [pk_iface pk_buf] in *.
  rewrite sr_get_interface_strncpy in Ho'. change (in_if_list s1') with (in_if_list s1) in Ho'.
  rewrite Hifs, Hoo in Ho'. injection Ho' as <-.
  eexists _, r. split; [done|]. split; [done|]. split; [|split; [|split; apply Hr]].
  - eapply (emitted_trans [_] [_]); [done|]. by destruct Hem2.
  - by eapply forwarded_readdressed.
Qed.
End timeouts.
