(* ===== verification/RouterHazards.v ===== *)
(** Inputs and states of the router on which its code runs into undefined
    behaviour: too short ICMP packets, requests whose errors wait on
    themselves, and the sweep's saved pointer. *)
From S2P Require Import Prelude Mem Cksum Protocol Interfaces RoutingTable ArpCache Instance Router RouterFrames RouterProps RouterSafety RouterTimeouts.

Section hazards.
Context `{ReliableEnv}.

(** An ICMP packet for the router that ends with its IP header makes the
    router read the ICMP type behind the end of the packet. *)
Theorem short_icmp_overread fuel s packet interface :
  for_router s packet -> fval ip_p 14 packet = ip_protocol_icmp ->
  length packet = 34%nat ->
  sr_handlepacket fuel packet (length packet) interface s = Fault OutOfBounds.
Proof.
  intros Hf Hp Hl. rewrite handlepacket_for_router, Hp, Z.eqb_refl by done.
  unfold sr_handle_icmp_packet. rewrite bind_malloc, rd_all by done. exec.
  rewrite (ld_oob icmp_type) by (rewrite Hl; simpl; lia). done.
Qed.

(** ** Errors that wait on their own request *)

Lemma sr_send_error_miss handle s packet interface i type code rt o :
  (42 <= length packet)%nat -> bytes_ok packet ->
  sr_get_interface (in_if_list s) interface = Some i -> if_ok i ->
  0 <= type < 256 -> 0 <= code < 256 ->
  routed s (fval ip_src 14 packet) rt o ->
  sr_arpcache_lookup (in_cache s) (rt_gw rt) = None ->
  exists q, sr_send_error handle packet interface type code s =
    (req ← queuereq (rt_gw rt) q 70 (if_name o); handle req)
      (set_allocs s (S (in_allocs s))) /\
    icmp_error packet q (if_ip i) type code /\ bytes_ok q.
Proof.
  intros Hl Hb Hi Hiok Ht Hc (Hrt & Ho & Hok) He.
  unfold sr_send_error, sizeof_ether, sizeof_ip, sizeof_icmp_t3.
  rewrite bind_malloc. set (s1 := set_allocs s _). unfold get_iface, get_route, get_mac.
  exec. mload. change (in_routing_table s1) with (in_routing_table s). rewrite Hrt. exec.
  change (in_if_list s1) with (in_if_list s). rewrite Ho, Hi.
  destruct (ok_with_inv _ _ (fill_icmp_error_ok packet i type code
    (uninit (in_allocs s) (14 + 20 + 36)) Hl Hb (uninit_length _ _) (uninit_bytes _ _)
    ltac:(apply Hiok) Ht Hc)) as (q & -> & Hq & Hqb). exec.
  change (in_cache s1) with (in_cache s). rewrite He.
  pose proof (ie_length _ _ _ _ _ Hq) as Lq.
  rewrite st_ok by in_bounds. exec.
  set (q1 := fset ether_type 0 _ q).
  assert (L1 : length q1 = length q) by (apply length_fset; in_bounds).
  assert (B1 : bytes_ok q1) by (by apply fset_bytes_ok).
  rewrite st_arr_ok by (apply Hok || in_bounds). exec. eexists. split; [done|].
  split; [|by apply fset_arr_bytes_ok; [apply Hok|]].
  eapply icmp_error_ether; [done| |].
  - rewrite length_fset_arr by (apply Hok || in_bounds). done.
  - rewrite slice_fset_arr_ne by (apply Hok || in_bounds).
    apply slice_fset_ne; in_bounds.
Qed.

Lemma queuereq_old s ip p n o r :
  find_req ip (ac_requests (in_cache s)) = Some r -> length p = n -> (0 < n)%nat ->
  queuereq ip p n o s = Ok (rq_addr r, set_cache s (req_update (in_cache s) (rq_addr r)
    (push_packet (SrPacket p n (strncpy sr_IFACE_NAMELEN o))))).
Proof.
  intros Hf Hl Hn. unfold queuereq, sr_arpcache_queuereq. exec. rewrite Hf.
  destruct (Nat.eqb_spec n 0); [lia|]. rewrite rd_all by done. exec. done.
Qed.

(** A request at [p], used up and due, the first of whose packets came from
    where only the request's own next hop leads. *)
Record stuck (s : sr_instance) (p : nat) (rt : sr_rt) (o : sr_if) : Prop := {
  sk_wf : cache_wf (in_cache s);
  sk_mac : sr_arpcache_lookup (in_cache s) (rt_gw rt) = None;
  sk_ifs : forall i, i ∈ in_if_list s -> if_ok i /\ routed s (if_ip i) rt o;
  sk_req : exists r pkt rest, find_req (rt_gw rt) (ac_requests (in_cache s)) = Some r /\
    rq_addr r = p /\ due s r /\ 5 <= rq_times_sent r /\ rq_packets r = pkt :: rest /\
    pkt_ok (in_if_list s) pkt /\ routed s (fval ip_src 14 (pk_buf pkt)) rt o }.

(** Such a request sends the code into a recursion that never ends: the
    error for the waiting packet is itself queued on the request, which is
    still due, and [handle_arpreq] is called again, at any depth -- when the
    sender and the router's own addresses are reached by the next hop that
    does not answer, as with a default route only. *)
Theorem timeout_recursion s p rt o :
  stuck s p rt o -> forall fuel, handle_arpreq fuel p s = Fault OutOfFuel.
Proof.
  intros Hs fuel. revert s Hs. induction fuel as [|fuel IH]; intros s Hs; [done|].
  destruct Hs as [Hwf Hm Hifs (r & pkt & rest & Hf & <- & Hd & Ht & Hp & Hk & Hr)].
  pose proof (find_req_addr _ _ _ (wf_addr _ Hwf) Hf) as Hat.
  cbn [handle_arpreq]. rewrite (bind_ok _ _ _ _ _ (req_deref_some _ _ _ Hat)). exec.
  unfold due in Hd. destruct (Z.gtb_spec (in_clock s - rq_sent r) 1); [|lia].
  destruct (Z.geb_spec (rq_times_sent r) 5); [|lia]. rewrite Hp. cbn [for_each].
  destruct Hk as (Hl & H42 & Hfr & i & Hi & Hiok).
  destruct (sr_send_error_miss (handle_arpreq fuel) s (pk_buf pkt) (pk_iface pkt) i 3 1 rt o)
    as (q & E & Hq & Hqb); try done; [apply Hfr|].
  set (s1 := set_allocs s _) in E. pose proof (ie_length _ _ _ _ _ Hq) as Lq.
  pose proof (queuereq_old s1 _ q 70 (if_name o) r Hf Lq ltac:(lia)) as Hqu.
  rewrite (bind_ok _ _ _ _ _ Hqu) in E.
  set (f := push_packet _) in *. set (s2 := set_cache s1 _) in *.
  assert (Hs2 : stuck s2 (rq_addr r) rt o).
  { split; [by apply req_update_wf|done|done|].
    exists (f r), (SrPacket q 70 (strncpy sr_IFACE_NAMELEN (if_name o))), (rq_packets r).
    split; [|split; [done|split; [done|split; [done|split; [done|split]]]]].
    - unfold s2, req_update. cbn [in_cache set_cache set_requests ac_requests].
      rewrite find_map_update by done. change (in_cache s1) with (in_cache s).
      rewrite Hf. cbn. by rewrite Nat.eqb_refl.
    - destruct Hr as (_ & Ho & Hok).
      split; [cbn [pk_len pk_buf]; lia|]. split; [cbn [pk_buf]; lia|].
      split; [split; [done|cbn [pk_buf]; unfold frame_max; lia]|].
      exists o. cbn [pk_iface]. rewrite sr_get_interface_strncpy. split; [|done].
      by apply (sr_get_interface_name _ (rt_iface rt)).
    - cbn [pk_buf]. destruct (ie_ip _ _ _ _ _ Hq) as [sum Hv].
      apply (f_equal iv_src) in Hv. cbn [iv_src view_ip] in Hv. unfold sizeof_ether in Hv.
      rewrite Hv. apply (Hifs i). by eapply sr_get_interface_elem. }
  pose proof (IH s2 Hs2) as Hinf. rewrite Hinf in E.
  unfold unreachable_turn at 1.
  set (k := for_each _ rest).
  apply (bind_fault _ (fun _ => _)). apply bind_fault. by apply bind_fault.
Qed.
End hazards.
