(* ===== verification/RouterExamples.v ===== *)
(** A small network for the router, and the router's theorems applied to it. *)
From S2P Require Import Prelude Mem Cksum Protocol Interfaces RoutingTable ArpCache Instance Router RouterFrames RouterProps RouterSafety RouterTimeouts RouterHazards.

(** * The network *)

Definition ip4 (a b c d : Z) : Z := le_val [a; b; c; d].
Definition eth1 : sr_if := SrIf (str "eth1") [1; 1; 1; 1; 1; 1] (ip4 192 168 2 1) 0.
Definition eth3 : sr_if := SrIf (str "eth3") [3; 3; 3; 3; 3; 3] (ip4 10 0 1 1) 0.
Definition host : Z := ip4 192 168 2 2.
Definition client : Z := ip4 10 0 1 100.
Definition route1 : sr_rt := SrRt host host (ip4 255 255 255 255) (str "eth1").
Definition route3 : sr_rt := SrRt 0 client 0 (str "eth3").
Definition host_entry : sr_arpentry := SrArpEntry [7; 7; 7; 7; 7; 7] host 90 true.
Definition client_entry : sr_arpentry := SrArpEntry [8; 8; 8; 8; 8; 8] client 90 true.

(** A router that knows both its neighbours, and one that knows neither. *)
Definition known : sr_instance :=
  SrInstance (str "user") [eth1; eth3] [route3; route1]
    (SrArpCache (host_entry :: client_entry :: replicate 98 zero_entry) [] 0) None 100 [] 0.
Definition fresh : sr_instance := set_cache known sr_arpcache_init.

(** An IP frame with a valid header: [id] is the identification field, [sum] the
    checksum to store, computed when it is [None]. *)
Definition ip_frame (src dst proto ttl id : Z) (sum : option Z) (payload : buffer) : buffer :=
  let h s := [0x45; 0] ++ be_bytes 2 (20 + Z.of_nat (length payload)) ++ be_bytes 2 id ++
    [0; 0; ttl; proto] ++ s ++ le_bytes 4 src ++ le_bytes 4 dst in
  let s := match sum with
           | Some s => le_bytes 2 s
           | None => match cksum (h [0; 0]) with Ok c => le_bytes 2 c | Fault _ => [] end
           end in
  replicate 6 9 ++ replicate 6 8 ++ be_bytes 2 ethertype_ip ++ h s ++ payload.

Definition transit_frame (ttl : Z) : buffer :=
  ip_frame client host 17 ttl 7 None (replicate 20 5).
Definition unrouted_id : Z :=
  match cksum_at 14 20 (ip_frame client host 17 9 0 (Some 0) (replicate 20 5)) with
  | Ok c => ntohs c | Fault _ => 0 end.
(** A valid header whose checksum field is zero. *)
Definition zero_sum_frame : buffer :=
  ip_frame client host 17 9 unrouted_id (Some 0) (replicate 20 5).
Definition echo_frame : buffer :=
  ip_frame host (if_ip eth3) 1 9 7 None ([8; 0; 0; 0; 1; 2; 3; 4] ++ replicate 11 6).
Definition short_icmp_frame : buffer := ip_frame host (if_ip eth3) 1 9 7 None [].

Definition arp_msg (op : Z) (sha : buffer) (sip tip : Z) : buffer :=
  arp_frame (EtherView (replicate 6 0xff) sha ethertype_arp)
    (ArpView 1 ethertype_ip 6 4 op sha sip (replicate 6 0) tip).

(** Hypotheses about literals. *)
Ltac by_compute := apply (bool_decide_unpack _); vm_compute; exact I.
Ltac by_eval := vm_compute; reflexivity.

#[export] Instance accepts_header_dec fr : Decision (accepts_header fr).
Proof. unfold accepts_header. apply _. Defined.

Lemma in_transit_demo s ttl :
  in_if_list s = [eth1; eth3] -> ttl ∈ [0; 1; 9] -> in_transit s (transit_frame ttl).
Proof.
  intros Hi Ht. split; rewrite ?Hi; repeat (apply elem_of_cons in Ht as [->|Ht]);
    try (by apply not_elem_of_nil in Ht); try by_compute; by_eval.
Qed.

Lemma routed_demo s dst rt o :
  in_if_list s = [eth1; eth3] -> in_routing_table s = [route3; route1] ->
  (dst, rt, o) ∈ [(host, route1, eth1); (client, route3, eth3)] -> routed s dst rt o.
Proof.
  unfold routed. intros -> -> Ht. repeat (apply elem_of_cons in Ht as [[= -> -> ->]|Ht]);
    try (by apply not_elem_of_nil in Ht); (split; [by_eval|split; [by_eval|by_compute]]).
Qed.

(** * Witnesses *)

Lemma forward_hit_witness :
  exists q s', sr_handlepacket 1 (transit_frame 9) (length (transit_frame 9)) (str "eth3") known
      = Ok (tt, s') /\
    emitted [vns_message (str "eth1") q] known s' /\ forwarded (transit_frame 9) q.
Proof.
  destruct (forward_hit 1 known (transit_frame 9) (str "eth3") route1 eth1 host_entry)
    as (q & s' & H1 & H2 & _ & H3 & _).
  - by apply in_transit_demo; [|set_solver].
  - by_compute.
  - apply routed_demo; [done|done|left].
  - by_eval.
  - by_compute.
  - exists q, s'. auto.
Defined.

Lemma forward_miss_witness :
  exists q s', sr_handlepacket 1 (transit_frame 9) (length (transit_frame 9)) (str "eth3") fresh
      = Ok (tt, s') /\
    emitted [vns_message (str "eth1") (arp_request_frame host eth1)] fresh s' /\
    forwarded (transit_frame 9) q.
Proof.
  destruct (forward_miss 0 fresh (transit_frame 9) (str "eth3") route1 eth1)
    as (q & s' & H1 & H2 & H3 & _).
  - by apply in_transit_demo; [|set_solver].
  - by_compute.
  - apply routed_demo; [done|done|left].
  - apply init_wf.
  - by_compute.
  - by_eval.
  - by_eval.
  - exists q, s'. auto.
Defined.

Lemma arp_for_demo s op :
  in_if_list s = [eth1; eth3] -> op ∈ [arp_op_request; arp_op_reply] ->
  arp_for s (arp_msg op (ae_mac host_entry) host (if_ip eth1)) (str "eth1") eth1 op.
Proof.
  intros Hi Ht. split; rewrite ?Hi; repeat (apply elem_of_cons in Ht as [->|Ht]);
    try (by apply not_elem_of_nil in Ht); try by_compute; by_eval.
Qed.

Lemma arp_request_answered_witness :
  exists s', sr_handlepacket 1 (arp_msg 1 (ae_mac host_entry) host (if_ip eth1))
      42 (str "eth1") known = Ok (tt, s') /\ length (in_wire s') = 1%nat.
Proof.
  destruct (arp_request_answered 1 known (arp_msg 1 (ae_mac host_entry) host (if_ip eth1))
    (str "eth1") eth1) as (s' & H1 & [_ H2] & _).
  - by apply arp_for_demo; [|set_solver].
  - exists s'. split; [exact H1|]. by rewrite H2.
Defined.

(** The state after a packet waits for [host]. *)
Definition waiting_host : sr_instance := Eval vm_compute in
  match sr_handlepacket 1 (transit_frame 9) (length (transit_frame 9)) (str "eth3") fresh with
  | Ok (_, s) => s | Fault _ => fresh end.

Definition waiting_req : sr_arpreq := Eval vm_compute in
  match ac_requests (in_cache waiting_host) with r :: _ => r | [] => SrArpReq 0 0 0 0 [] end.

Lemma find_req_demo_wf s r :
  ac_entries (in_cache s) = ac_entries sr_arpcache_init ->
  ac_requests (in_cache s) = [r] -> rq_addr r = 0%nat -> ac_next (in_cache s) = 1%nat ->
  cache_wf (in_cache s).
Proof.
  intros H1 H2 H3 H4. split; rewrite ?H1, ?H2, ?H4; simpl; [done|..].
  - apply NoDup_singleton.
  - constructor; [lia|done].
  - apply NoDup_singleton.
Qed.

Lemma pkt_ok_demo :
  Forall (pkt_ok (in_if_list waiting_host)) (rq_packets waiting_req).
Proof.
  apply Forall_cons. split; [|by apply Forall_nil].
  split; [by_eval|]. split; [vm_compute; lia|]. split; [by_compute|].
  exists eth1. split; [by_eval|by_compute].
Qed.

Lemma arp_reply_flushes_witness :
  exists msgs s', sr_handlepacket 1 (arp_msg 2 (ae_mac host_entry) host (if_ip eth1))
      42 (str "eth1") waiting_host = Ok (tt, s') /\
    Forall2 (flushed (in_if_list waiting_host) (ae_mac host_entry))
      (rq_packets waiting_req) msgs.
Proof.
  destruct (arp_reply_flushes 1 waiting_host
    (arp_msg 2 (ae_mac host_entry) host (if_ip eth1)) (str "eth1") eth1 waiting_req)
    as (msgs & s' & c & H1 & H2 & _).
  - apply arp_for_demo; [by_eval|set_solver].
  - by apply (find_req_demo_wf _ waiting_req); by_eval.
  - by_eval.
  - apply pkt_ok_demo.
  - exists msgs, s'. split; [exact H1|exact H2].
Defined.

Lemma for_router_demo s fr :
  in_if_list s = [eth1; eth3] -> fr ∈ [echo_frame; short_icmp_frame] -> for_router s fr.
Proof.
  intros Hi Ht. split; rewrite ?Hi; repeat (apply elem_of_cons in Ht as [->|Ht]);
    try (by apply not_elem_of_nil in Ht); try by_compute; by_eval.
Qed.

Lemma echo_answered_witness :
  exists q s', sr_handlepacket 1 echo_frame (length echo_frame) (str "eth1") known
      = Ok (tt, s') /\ emitted [vns_message (str "eth1") q] known s' /\ echo_reply echo_frame q.
Proof.
  destruct (echo_answered 1 known echo_frame (str "eth1") route1 eth1 host_entry)
    as (q & s' & H1 & H2 & _ & H3 & _).
  - by apply for_router_demo; [|set_solver].
  - by_eval.
  - by_compute.
  - by_eval.
  - apply routed_demo; [done|done|left].
  - by_eval.
  - by_compute.
  - exists q, s'. auto.
Defined.

Lemma icmp_errors_sent_witness :
  exists quoted q s', sr_handlepacket 1 (transit_frame 1) (length (transit_frame 1))
      (str "eth3") known = Ok (tt, s') /\
    icmp_error quoted q (if_ip eth3) 11 0 /\ emitted [vns_message (str "eth3") q] known s'.
Proof.
  destruct (icmp_errors_sent 1 known (transit_frame 1) (str "eth3") eth3 route3 eth3
    client_entry 11 0 (fset ip_ttl 14 0 (transit_frame 1)))
    as (quoted & q & s' & _ & H1 & H2 & _ & H3 & _).
  - apply TimeExceeded; [by apply in_transit_demo; [|set_solver]|by_eval].
  - by_compute.
  - by_eval.
  - by_compute.
  - apply routed_demo; [done|done|right; left].
  - by_eval.
  - by_compute.
  - exists quoted, q, s'. auto.
Defined.

Lemma ttl_zero_wraps_witness :
  exists q s', sr_handlepacket 1 (transit_frame 0) (length (transit_frame 0)) (str "eth3") known
      = Ok (tt, s') /\
    emitted [vns_message (str "eth1") q] known s' /\ fval ip_ttl 14 q = 255.
Proof.
  destruct (ttl_zero_wraps 1 known (transit_frame 0) (str "eth3") route1 eth1 host_entry)
    as (q & s' & H1 & H2 & _ & H3).
  - by apply in_transit_demo; [|set_solver].
  - by_eval.
  - apply routed_demo; [done|done|left].
  - by_eval.
  - by_compute.
  - exists q, s'. auto.
Defined.

(** The packet dropped is valid. *)
Lemma header_check_exact_witness :
  rfc1071_valid (ip_header zero_sum_frame) /\
  sr_handlepacket 1 zero_sum_frame (length zero_sum_frame) (str "eth3") known
    = Ok (tt, known).
Proof.
  split; [by_compute|]. apply header_check_exact.
  - by_compute.
  - by_compute.
  - by_eval.
  - intros [_ H]. apply H. by_eval.
Defined.

Lemma handlepacket_safe_witness :
  exists s', sr_handlepacket 1 (transit_frame 9) (length (transit_frame 9)) (str "eth3") fresh
      = Ok (tt, s') /\ instance_ok s' /\ no_timeouts s' /\ same_config fresh s'.
Proof.
  apply (handlepacket_safe 0 fresh (transit_frame 9) (str "eth3") eth3).
  - split; [by_compute|by_compute|apply init_wf|apply Forall_nil; exact I].
  - apply Forall_nil. exact I.
  - by_compute.
  - by_compute.
  - right. by_compute.
  - by_eval.
Defined.

(** The state two seconds on, and a request that has been sent five times. *)
Definition waiting_later : sr_instance := set_clock waiting_host 102.
Definition used_up_req : sr_arpreq :=
  SrArpReq 0 host 100 5 (rq_packets waiting_req).
Definition used_up : sr_instance :=
  set_cache waiting_later (SrArpCache (client_entry :: replicate 99 zero_entry) [used_up_req] 1).
(** The same, with only a default route, and no neighbour known. *)
Definition default_route : sr_rt := SrRt 0 host 0 (str "eth1").
Definition cut_off : sr_instance :=
  set_table (set_cache waiting_later (SrArpCache (replicate 100 zero_entry) [used_up_req] 1))
    [default_route].

Lemma arp_retry_witness :
  exists s', handle_arpreq 1 0 waiting_later = Ok (tt, s') /\
    emitted [vns_message (str "eth1") (arp_request_frame host eth1)] waiting_later s'.
Proof.
  destruct (arp_retry 0 waiting_later 0 waiting_req
    (match rq_packets waiting_req with p :: _ => p | [] => SrPacket [] 0 [] end) [] eth1)
    as (s' & H1 & H2 & _).
  - by_eval.
  - unfold due. by_compute.
  - by_compute.
  - by_eval.
  - by_eval.
  - by_compute.
  - exists s'. auto.
Defined.

Lemma timeout_reports_witness :
  exists msgs s', handle_arpreq 1 0 used_up = Ok (tt, s') /\
    Forall2 (unreachable_sent used_up) (rq_packets used_up_req) msgs /\
    emitted msgs used_up s' /\ req_at (in_cache s') 0 = None.
Proof.
  destruct (timeout_reports 0 used_up 0 used_up_req) as (msgs & s' & H1 & H2 & H3 & H4 & _).
  - split; [by_eval| | |]; repeat constructor; try by_compute; set_solver.
  - by_eval.
  - unfold due. by_compute.
  - by_compute.
  - apply Forall_cons. split; [|by apply Forall_nil].
    split; [by apply (proj1 (Forall_singleton _ _) pkt_ok_demo)|].
    exists route3, eth3, client_entry.
    split; [apply routed_demo; [by_eval|by_eval|right; left]|]. split; [by_eval|by_compute].
  - exists msgs, s'. auto.
Defined.

Lemma miss_then_reply_witness :
  exists s1 s2 q,
    sr_handlepacket 1 (transit_frame 9) (length (transit_frame 9)) (str "eth3") fresh
      = Ok (tt, s1) /\
    sr_handlepacket 1 (arp_msg 2 (ae_mac host_entry) host (if_ip eth1)) 42 (str "eth1") s1
      = Ok (tt, s2) /\ forwarded (transit_frame 9) q /\
    fbytes ether_dhost 0 q = ae_mac host_entry.
Proof.
  destruct (miss_then_reply 0 fresh (transit_frame 9) (str "eth3") route1 eth1
    (arp_msg 2 (ae_mac host_entry) host (if_ip eth1)))
    as (s1 & s2 & q & H1 & H2 & _ & H3 & _ & H4).
  - by apply in_transit_demo; [|set_solver].
  - by_compute.
  - by_compute.
  - apply routed_demo; [done|done|left].
  - apply init_wf.
  - by_compute.
  - by_eval.
  - by_eval.
  - by apply arp_for_demo; [|set_solver].
  - by_eval.
  - exists s1, s2, q. split; [exact H1|]. split; [exact H2|]. split; [exact H3|exact H4].
Defined.

Lemma short_icmp_overread_witness :
  sr_handlepacket 1 short_icmp_frame (length short_icmp_frame) (str "eth1") known
    = Fault OutOfBounds.
Proof.
  apply short_icmp_overread; [by apply for_router_demo; [|set_solver]|by_eval|by_eval].
Defined.

Lemma timeout_recursion_witness : handle_arpreq 7 0 cut_off = Fault OutOfFuel.
Proof.
  apply (timeout_recursion cut_off 0 default_route eth1).
  assert (Hr : forall dst, routed cut_off dst default_route eth1).
  { intros dst. split; [|split; [by_eval|by_compute]].
    unfold sr_get_longest_prefix_match. cbn [cut_off set_table in_routing_table lpm_walk
      default_route rt_mask rt_dest]. by rewrite Z.land_0_r. }
  split.
  - split; cbn; [done|apply NoDup_singleton| |apply NoDup_singleton].
    constructor; [simpl; lia|done].
  - by_eval.
  - intros i Hi. split; [|apply Hr]. cbn in Hi.
    repeat (apply elem_of_cons in Hi as [->|Hi]); [by_compute|by_compute|].
    by apply not_elem_of_nil in Hi.
  - exists used_up_req,
      (match rq_packets waiting_req with p :: _ => p | [] => SrPacket [] 0 [] end), [].
    split; [by_eval|]. split; [done|]. split; [unfold due; by_compute|].
    split; [by_compute|]. split; [by_eval|].
    split; [by apply (proj1 (Forall_singleton _ _) pkt_ok_demo)|apply Hr].
Defined.

(** Two requests that have timed out: the errors for the packet that waits on
    the first go to the next hop the second asks for. *)
Definition two_used_up : sr_instance :=
  SrInstance (str "user") [eth1; eth3] [SrRt client client (ip4 255 255 255 255) (str "eth3")]
    (SrArpCache (replicate 100 zero_entry)
      [SrArpReq 1 host 50 5 [SrPacket (transit_frame 9) 54 (str "eth1")];
       SrArpReq 0 client 50 5
         [SrPacket (ip_frame host client 17 9 7 None (replicate 20 5)) 54 (str "eth3")]] 2)
    None 100 [] 0.

(** In the sweep, a request destroyed while an earlier one is handled is
    the one the saved pointer leads to: the walk then reads freed memory. *)
Theorem sweep_use_after_free : sr_arpcache_sweepreqs 3 two_used_up = Fault UseAfterFree.
Proof. vm_compute. reflexivity. Qed.
