(* ===== verification/RouterThreads.v ===== *)
(** The two threads of the router: the one that handles frames and the one that
    sweeps the ARP cache every second. While requests are answered in time, any
    order of well-sized frames, sweeps and waits is safe; and so are sweeps between the calls
    of one frame's thread, unless its request has used up its attempts. *)
From S2P Require Import Prelude Mem Protocol Interfaces RoutingTable ArpCache Instance Router RouterFrames RouterProps RouterSafety RouterTimeouts RouterHazards RouterExamples.

(** * The sweep *)

Definition addrs (s : sr_instance) : list nat := map rq_addr (ac_requests (in_cache s)).

Lemma req_update_addrs c p f :
  keeps_key f -> map rq_addr (ac_requests (req_update c p f)) = map rq_addr (ac_requests c).
Proof.
  intros Hf. unfold req_update. cbn [set_requests ac_requests]. rewrite map_map.
  apply map_ext. intros r. case_match; [apply Hf|done].
Qed.

Lemma req_at_addrs s p : p ∈ addrs s -> is_Some (req_at (in_cache s) p).
Proof.
  unfold addrs, req_at. induction (ac_requests (in_cache s)) as [|r l IH]; [set_solver|].
  cbn [map find]. intros [->|Hp]%elem_of_cons; [by rewrite Nat.eqb_refl|].
  case_match; [by eexists|auto].
Qed.

Lemma next_of_addrs (reqs : list sr_arpreq) pre p post :
  map rq_addr reqs = pre ++ p :: post -> NoDup (map rq_addr reqs) ->
  next_of p reqs = head post.
Proof.
  revert pre. induction reqs as [|r reqs IH]; intros pre; [by destruct pre|].
  cbn [map next_of]. destruct pre as [|q pre]; cbn [app].
  - intros [= -> <-] _. rewrite Nat.eqb_refl. by destruct reqs.
  - intros [= -> E] [Hq Hn]%NoDup_cons.
    destruct (Nat.eqb_spec q p) as [->|_]; [|by apply (IH pre)].
    destruct Hq. rewrite E. set_solver.
Qed.

Section threads.
Context `{Env}.

Lemma arp_request_cache s tip i :
  if_ok i ->
  wp (sr_send_arp_request tip (Some i)) (fun _ s' => in_cache s' = in_cache s) s.
Proof.
  intros (Hi & _). unfold sr_send_arp_request, sizeof_ether, sizeof_arp, wp.
  rewrite bind_malloc. exec. rewrite fill_arp_request_ok
    by (done || by rewrite uninit_length). exec.
  assert (Lp : length (arp_request_frame tip i) = 42%nat) by (by apply length_arp_frame).
  pose proof (sr_send_packet_total (set_allocs s (S (in_allocs s)))
    (arp_request_frame tip i) (if_name i) ltac:(lia)) as Hw. unfold wp in Hw. rewrite Lp in Hw.
  change (14 + 28)%nat with 42%nat. unfold mbind, M_bind.
  destruct (sr_send_packet _ _ _ _) as [[a s']|]; [|done]. destruct Hw as [_ Hw]. exact Hw.
Qed.

(** A request handled by the sweep leaves all requests where they are. *)
Lemma handle_swept s0 s fuel p :
  good s0 s -> p ∈ addrs s ->
  ok_with (handle_arpreq (S fuel) p s) (fun x => good s0 x.2 /\ addrs x.2 = addrs s).
Proof.
  intros Hg Hp. destruct (req_at_addrs s p Hp) as [r Hr].
  pose proof (keeps_handle s0 s fuel p r Hg Hr) as Hk.
  assert (Ha : forall x, handle_arpreq (S fuel) p s = Ok x -> addrs x.2 = addrs s).
  { intros x. cbn [handle_arpreq].
    rewrite (bind_ok _ _ _ _ _ (req_deref_some _ _ _ Hr)). exec.
    apply find_some in Hr as [Hin _].
    pose proof Hg as (Hi & Hn & _). unfold no_timeouts in Hn. rewrite Forall_forall in Hn.
    specialize (Hn r Hin). pose proof (io_reqs _ Hi) as Hq. rewrite Forall_forall in Hq.
    destruct (Hq r Hin) as [Hne Hpk].
    destruct (Z.gtb_spec (in_clock s - rq_sent r) 1); [|by intros [= <-]].
    destruct (Z.geb_spec (rq_times_sent r) 5); [lia|].
    destruct (rq_packets r) as [|pkt pkts]; [done|]. cbn [head]. exec.
    apply Forall_cons in Hpk as [(_ & _ & _ & i & Hgi & Hok) _].
    unfold get_iface. exec. rewrite Hgi.
    destruct (wp_ok _ _ _ (arp_request_cache s (rq_ip r) i Hok)) as ([] & s' & E & Hc).
    rewrite (bind_ok _ _ _ _ _ E). intros [= <-]. unfold addrs. cbn [snd in_cache set_cache].
    rewrite req_update_addrs by apply mark_sent_keeps. by rewrite Hc. }
  unfold keeps, ok_with in *. destruct (handle_arpreq (S fuel) p s) as [x|]; [|done]. auto.
Qed.

(** What a sweep keeps. *)
Definition swept (s0 s : sr_instance) {A} (r : res (A * sr_instance)) : Prop :=
  ok_with r (fun x => good s0 x.2 /\ addrs x.2 = addrs s).

Lemma swept_keeps s0 s {A} (r : res (A * sr_instance)) : swept s0 s r -> keeps s0 r.
Proof. unfold swept, keeps, ok_with. destruct r as [[]|]; [by intros []|done]. Qed.

Lemma sweep_swept s0 fuel post : forall pre s,
  good s0 s -> addrs s = pre ++ post ->
  swept s0 s (sweep_loop (S fuel) (length post) (head post) s).
Proof.
  induction post as [|p post IH]; intros pre s Hg Ha; [done|].
  cbn [length head sweep_loop].
  assert (Hp : p ∈ addrs s) by (rewrite Ha; set_solver).
  destruct (req_at_addrs s p Hp) as [r Hr].
  rewrite (bind_ok _ _ _ _ _ (req_deref_some _ _ _ Hr)). exec.
  pose proof (wf_addr _ (io_cache _ (good_ok _ _ Hg))) as Hd.
  rewrite (next_of_addrs _ pre p post Ha Hd).
  destruct (ok_with_inv _ _ (handle_swept s0 s fuel p Hg Hp)) as ([[] s1] & E & Hg1 & Ha1).
  rewrite (bind_ok _ _ _ _ _ E). cbn [snd] in Ha1. unfold swept. rewrite <-Ha1.
  apply (IH (pre ++ [p])); [done|]. by rewrite Ha1, Ha, <-app_assoc.
Qed.

Lemma good_expire s0 s :
  good s0 s -> good s0 (set_cache s (expire_entries (in_clock s) (in_cache s))).
Proof.
  intros ([I1 I2 I3 I4] & Hn & Hs). split; [|split; [exact Hn|exact Hs]].
  split; [done| |by apply expire_wf|done].
  cbn [in_cache set_cache expire_entries set_entries ac_entries]. apply Forall_map.
  eapply Forall_impl; [exact I2|]. intros e He. by case_match.
Qed.

Lemma timeout_turn_swept s0 s fuel :
  good s0 s -> swept s0 s (sr_arpcache_timeout_turn (S fuel) s).
Proof.
  intros Hg. unfold sr_arpcache_timeout_turn. exec. unfold sr_arpcache_sweepreqs. exec.
  set (s1 := set_cache s _). assert (Hg1 : good s0 s1) by (by apply good_expire).
  pose proof (sweep_swept s0 fuel (addrs s1) [] s1 Hg1 eq_refl) as Hk.
  unfold addrs in Hk. rewrite length_map in Hk.
  by destruct (ac_requests (in_cache s1)).
Qed.
Lemma keeps_timeout_turn s0 s fuel :
  good s0 s -> keeps s0 (sr_arpcache_timeout_turn (S fuel) s).
Proof. intros Hg. by eapply swept_keeps, timeout_turn_swept. Qed.

(** Any number of turns of the sweeping thread. *)
Definition sweeps (fuel n : nat) : RM unit :=
  for_each (fun _ : unit => sr_arpcache_timeout_turn fuel) (replicate n tt).

Lemma sweeps_swept s0 fuel n : forall s, good s0 s -> swept s0 s (sweeps (S fuel) n s).
Proof.
  induction n as [|n IH]; intros s Hg; [done|]. unfold sweeps. cbn [replicate for_each].
  destruct (ok_with_inv _ _ (timeout_turn_swept s0 s fuel Hg)) as ([[] s1] & E & Hg1 & Ha1).
  rewrite (bind_ok _ _ _ _ _ E). cbn [snd] in Ha1. unfold swept. rewrite <-Ha1. by apply IH.
Qed.

(** [send_or_queue], whose calls each take the cache's lock for themselves, with
    sweeps in between. *)
Definition send_or_queue_swept (fuel n m : nat) (p : buffer) (len : nat) (rt : sr_rt)
    (out_iface : sr_if) : RM unit :=
  arp_entry ← get_mac (rt_gw rt);
  sweeps fuel n;;
  match arp_entry with
  | Some arp_entry =>
      p ← lift (st_arr ether_shost 0 (if_addr out_iface) p);
      p ← lift (st_arr ether_dhost 0 (ae_mac arp_entry) p);
      sr_send_packet p len (if_name out_iface);;
      mret tt
  | None =>
      req ← queuereq (rt_gw rt) p len (if_name out_iface);
      sweeps fuel m;;
      handle_arpreq fuel req
  end.

Lemma send_or_queue_unswept fuel p len rt o s :
  send_or_queue_swept fuel 0 0 p len rt o s = send_or_queue fuel p len rt o s.
Proof.
  unfold send_or_queue_swept, send_or_queue, get_mac. exec.
  destruct (sr_arpcache_lookup _ _); [done|]. unfold mbind, M_bind.
  by destruct (queuereq _ _ _ _ _) as [[]|].
Qed.

Lemma keeps_send_or_queue_swept s0 s fuel n m p len rt o :
  good s0 s -> length p = len -> (42 <= len)%nat -> frame_ok p ->
  sr_get_interface (in_if_list s) (rt_iface rt) = Some o ->
  keeps s0 (send_or_queue_swept (S fuel) n m p len rt o s).
Proof.
  intros Hg Hl Hn Hf Ho. pose proof (good_ok _ _ Hg) as Hi.
  pose proof (iface_ok _ _ _ Hi Ho) as Hok. unfold send_or_queue_swept, get_mac. exec.
  destruct (ok_with_inv _ _ (sweeps_swept s0 fuel n s Hg)) as ([[] s1] & E & Hg1 & _).
  cbn [snd] in Hg1. rewrite (bind_ok _ _ _ _ _ E).
  assert (Hif : in_if_list s1 = in_if_list s).
  { destruct Hg as (_ & _ & _ & H1 & _), Hg1 as (_ & _ & _ & H2 & _). congruence. }
  destruct (sr_arpcache_lookup _ _) as [e|] eqn:He.
  - destruct (lookup_entry_ok _ _ _ Hi He) as [Hm _].
    destruct (set_ether_ok (if_addr o) (ae_mac e) p) as (r & E1 & E2 & Lr & _);
      [lia|apply Hok|done|].
    rewrite E1. exec. rewrite E2. exec. destruct Hf as [_ Hf].
    apply keeps_then_ret, keeps_send; [done|lia|lia].
  - destruct (keeps_queue s0 s1 (rt_gw rt) p len o Hg1 Hl Hn Hf) as [H1 H2];
      [rewrite Hif; by eapply sr_get_interface_name|done|].
    apply keeps_bind; [done|]. intros req s2 Eq Hg2. destruct (H2 req s2 Eq) as [r Hr].
    destruct (ok_with_inv _ _ (sweeps_swept s0 fuel m s2 Hg2)) as ([[] s3] & E3 & Hg3 & Ha3).
    cbn [snd] in Hg3, Ha3. rewrite (bind_ok _ _ _ _ _ E3).
    destruct (req_at_addrs s3 req) as [r' Hr']; [|by eapply keeps_handle].
    rewrite Ha3. apply find_some in Hr as [Hin Hp%Nat.eqb_eq]. rewrite <-Hp.
    apply list_elem_of_In, in_map, list_elem_of_In. exact Hin.
Qed.
End threads.

(** * Runs of both threads *)

(** What happens to the router: a frame is handled, the sweeping thread runs
    once, or time passes. A sweep holds the cache's lock from beginning to end; a
    frame is handled as a whole. *)
Inductive router_event :=
  | Frame (frame : buffer) (iface : cstr)
  | Meantime (ev : meantime).

(** Time does not run backwards. *)
Definition meantime_ok (ev : meantime) : Prop :=
  match ev with Sweep => True | Wait seconds => 0 <= seconds end.

Definition event_ok (ifs : list sr_if) (ev : router_event) : Prop :=
  match ev with
  | Frame frame iface =>
      frame_ok frame /\ (14 <= length frame)%nat /\
      (length frame < 34 \/ 42 <= length frame)%nat /\ is_Some (sr_get_interface ifs iface)
  | Meantime ev => meantime_ok ev
  end.

(** The parts of the state that only the start of the program sets. *)
Definition same_setup (s s' : sr_instance) : Prop :=
  in_user s' = in_user s /\ in_if_list s' = in_if_list s /\ in_routing_table s' = in_routing_table s.

(** A sane state of the router that began in [s0]. *)
Definition sane (s0 s : sr_instance) : Prop := instance_ok s /\ same_setup s0 s.

Lemma sane_refl s : instance_ok s -> sane s s.
Proof. by intros Hi. Qed.

Lemma sane_good s : instance_ok s -> no_timeouts s -> good s s.
Proof. intros Hi Hn. split; [done|split; [done|apply same_config_refl]]. Qed.

Lemma good_sane s0 s1 s2 : same_setup s0 s1 -> good s1 s2 -> sane s0 s2.
Proof.
  intros (E1 & E2 & E3) (Hi & _ & F1 & F2 & F3 & _). split; [done|].
  split; [congruence|split; congruence].
Qed.

Lemma keeps_sane s0 s r : same_setup s0 s -> keeps s r -> ok_with r (fun x : unit * _ => sane s0 x.2).
Proof.
  intros Hs. unfold keeps, ok_with. destruct r as [[[] s']|]; [|done]. by apply good_sane.
Qed.

Section runs.
Context `{Env} (fuel : nat).

Definition run_event (ev : router_event) : RM unit :=
  match ev with
  | Frame frame iface => sr_handlepacket (S fuel) frame (length frame) iface
  | Meantime ev => run_meantime (S fuel) ev
  end.

Lemma run_meantime_ok s0 ev s :
  sane s0 s -> no_timeouts s -> meantime_ok ev ->
  ok_with (run_meantime (S fuel) ev s) (fun x => sane s0 x.2).
Proof.
  intros [Hi Hs] Hn He. destruct ev as [|n].
  - apply (keeps_sane s0 s); [done|]. by apply keeps_timeout_turn, sane_good.
  - split; [by destruct Hi|done].
Qed.

Lemma run_event_ok s0 ev s :
  sane s0 s -> no_timeouts s -> event_ok (in_if_list s0) ev ->
  ok_with (run_event ev s) (fun x => sane s0 x.2).
Proof.
  intros Hs Hn He. destruct ev as [frame iface|ev]; [|by apply run_meantime_ok].
  destruct He as (H1 & H2 & H3 & [i H4]), Hs as [Hi Hs]. apply (keeps_sane s0 s); [done|].
  eapply keeps_handlepacket; [by apply sane_good|done..|]. destruct Hs as (_ & -> & _). exact H4.
Qed.

(** C10: Both threads of the router are safe together while neighbours answer in
    time: in any order of frames (of at least 14 bytes and not of 34 to 41, which is too short
    for IP or long enough to be quoted), that each come by an interface there is,
    sweeps of the ARP cache and waits of any length, as long as no request is
    seen to have used up its five attempts, nothing faults: no access is out of
    bounds, no freed request is followed, the sweep's saved pointer stays good,
    the recursion of [handle_arpreq] ends. The state stays sane and keeps its
    interfaces and routes. A frame is handled as a whole here; see
    [sweeps_between_calls] for sweeps in between. *)
Theorem threads_safe evs s :
  instance_ok s -> Forall (event_ok (in_if_list s)) evs -> in_time run_event evs s = true ->
  exists s', for_each run_event evs s = Ok (tt, s') /\ instance_ok s' /\
    in_if_list s' = in_if_list s /\ in_routing_table s' = in_routing_table s.
Proof.
  intros Hi He Ht. rewrite <-(app_nil_r evs) in Ht.
  destruct (for_each_in_time run_event (sane s) _ [] (run_event_ok s) evs s (sane_refl s Hi) He Ht)
    as (s' & E & (H1 & _ & H2 & H3) & _).
  by exists s'.
Qed.
End runs.

(** * A sweep between two calls *)

(** The packet that [queuereq] keeps. *)
Definition kept (p : buffer) (n : nat) (name : cstr) : sr_packet :=
  SrPacket p n (strncpy sr_IFACE_NAMELEN name).
(** The state as the sweep's first loop leaves it. *)
Definition expired (s : sr_instance) : sr_instance :=
  set_cache s (expire_entries (in_clock s) (in_cache s)).

Section race.
Context `{ReliableEnv}.

(** A sweep over one used-up request reports to all senders and frees it. *)
Lemma sweep_destroys fuel s r :
  ac_requests (in_cache s) = [r] -> due s r -> 5 <= rq_times_sent r ->
  Forall (sender_known (expired s)) (rq_packets r) ->
  exists s', sr_arpcache_timeout_turn (S fuel) s = Ok (tt, s') /\ ac_requests (in_cache s') = [].
Proof.
  intros Hr Hd Ht Hk. unfold sr_arpcache_timeout_turn. exec. fold (expired s).
  unfold sr_arpcache_sweepreqs. exec.
  assert (Hr1 : ac_requests (in_cache (expired s)) = [r]) by done. rewrite Hr1.
  cbn [length head fmap option_fmap option_map sweep_loop].
  assert (Hat : req_at (in_cache (expired s)) (rq_addr r) = Some r).
  { unfold req_at. rewrite Hr1. cbn [find]. by rewrite Nat.eqb_refl. }
  rewrite (bind_ok _ _ _ _ _ (req_deref_some _ _ _ Hat)). exec. rewrite Hr1. cbn [next_of].
  rewrite Nat.eqb_refl. cbn [head fmap option_fmap option_map].
  destruct (unreachable_turns_ok (handle_arpreq fuel) (rq_addr r) r (rq_packets r) (expired s) Hat Hk)
    as (msgs & s1 & E & _ & _ & Hc).
  assert (E' : handle_arpreq (S fuel) (rq_addr r) (expired s) =
    Ok (tt, set_cache s1 (sr_arpreq_destroy (in_cache s1) (rq_addr r)))).
  { cbn [handle_arpreq]. rewrite (bind_ok _ _ _ _ _ (req_deref_some _ _ _ Hat)). exec.
    unfold due in Hd. change (in_clock (expired s)) with (in_clock s).
    destruct (Z.gtb_spec (in_clock s - rq_sent r) 1); [|lia].
    destruct (Z.geb_spec (rq_times_sent r) 5); [|lia]. by rewrite (bind_ok _ _ _ _ _ E). }
  rewrite (bind_ok _ _ _ _ _ E'). eexists. split; [reflexivity|].
  cbn [in_cache set_cache sr_arpreq_destroy set_requests ac_requests]. rewrite Hc, Hr1.
  cbn [unlink]. by rewrite Nat.eqb_refl.
Qed.

(** A sweep between queueing a packet on a used-up request and handling the
    request frees it. *)
Lemma sweep_frees_request fuel s ip p n name r :
  ac_requests (in_cache s) = [r] -> rq_ip r = ip -> due s r -> 5 <= rq_times_sent r ->
  length p = n -> (0 < n)%nat ->
  let s1 := set_cache s (req_update (in_cache s) (rq_addr r) (push_packet (kept p n name))) in
  Forall (sender_known (expired s1)) (kept p n name :: rq_packets r) ->
  exists s2, queuereq ip p n name s = Ok (rq_addr r, s1) /\
    sr_arpcache_timeout_turn (S fuel) s1 = Ok (tt, s2) /\
    forall depth, handle_arpreq (S depth) (rq_addr r) s2 = Fault UseAfterFree.
Proof.
  intros Hr <- Hd Ht Hl Hn s1 Hk.
  assert (Hf : find_req (rq_ip r) (ac_requests (in_cache s)) = Some r).
  { rewrite Hr. unfold find_req. cbn [find]. by rewrite Z.eqb_refl. }
  destruct (sweep_destroys fuel s1 (push_packet (kept p n name) r)) as (s2 & E & Hc).
  - unfold s1, req_update. cbn [in_cache set_cache set_requests ac_requests]. rewrite Hr.
    cbn [map]. by rewrite Nat.eqb_refl.
  - exact Hd.
  - exact Ht.
  - exact Hk.
  - exists s2. split; [by apply queuereq_old|]. split; [exact E|]. intros depth.
    cbn [handle_arpreq]. apply bind_fault. unfold req_deref. exec.
    unfold req_at. by rewrite Hc.
Qed.

(** C38: What the sweeping thread can do between two calls of the thread that
    handles a frame, which hold the cache's lock each for itself. While no request
    has used up its attempts, a packet is sent or queued and its request handled
    without a fault and into a sane state, however often the other thread runs,
    within the second, between the look-up and the queueing, and between the queueing and the call of
    [handle_arpreq]; without such turns this is the code's sequence of calls. But
    when the packet joined a request that has used up its attempts, one turn in
    between answers all that wait, the new packet too, and frees the request;
    [handle_arpreq] then follows a freed pointer, whatever it does next. *)
Theorem sweeps_between_calls fuel s :
  (forall n m p len rt o s0,
     good s0 s -> length p = len -> (42 <= len)%nat -> frame_ok p ->
     sr_get_interface (in_if_list s) (rt_iface rt) = Some o ->
     send_or_queue_swept (S fuel) 0 0 p len rt o s = send_or_queue (S fuel) p len rt o s /\
     exists s', send_or_queue_swept (S fuel) n m p len rt o s = Ok (tt, s') /\ good s0 s') /\
  (forall ip p n name r,
     ac_requests (in_cache s) = [r] -> rq_ip r = ip -> due s r -> 5 <= rq_times_sent r ->
     length p = n -> (0 < n)%nat ->
     let s1 := set_cache s (req_update (in_cache s) (rq_addr r) (push_packet (kept p n name))) in
     Forall (sender_known (expired s1)) (kept p n name :: rq_packets r) ->
     exists s2, queuereq ip p n name s = Ok (rq_addr r, s1) /\ sweeps (S fuel) 1 s1 = Ok (tt, s2) /\
       forall depth, handle_arpreq (S depth) (rq_addr r) s2 = Fault UseAfterFree).
Proof.
  split.
  - intros n m p len rt o s0 Hg Hl Hn Hf Ho. split; [apply send_or_queue_unswept|].
    destruct (ok_with_inv _ _ (keeps_send_or_queue_swept s0 s fuel n m p len rt o Hg Hl Hn Hf Ho))
      as ([[] s'] & E & Hg'). by exists s'.
  - intros ip p n name r H1 H2 H3 H4 H5 H6 s1 H7.
    destruct (sweep_frees_request fuel s ip p n name r H1 H2 H3 H4 H5 H6 H7) as (s2 & E1 & E2 & E3).
    exists s2. split; [done|]. split; [|done]. unfold sweeps. cbn [replicate for_each].
    by rewrite (bind_ok _ _ _ _ _ E2).
Qed.
End race.

(** * At concrete inputs *)

(** A packet is queued, its request repeated by a sweep two seconds later, the
    neighbour answers and the packet leaves; another sweep finds nothing. *)
Definition demo_events : list router_event :=
  [Frame (transit_frame 9) (str "eth3"); Meantime (Wait 2); Meantime Sweep;
   Frame (arp_msg 2 (ae_mac host_entry) host (if_ip eth1)) (str "eth1");
   Meantime (Wait 100); Meantime Sweep].

Lemma threads_safe_witness :
  exists s', for_each (run_event 0) demo_events fresh = Ok (tt, s') /\ instance_ok s' /\
    length (in_wire s') = 3%nat.
Proof.
  destruct (threads_safe 0 demo_events fresh) as (s' & E & Hi & _).
  - split; [by_compute|by_compute|apply init_wf|apply Forall_nil; exact I].
  - repeat (apply Forall_cons; split); [..|apply Forall_nil; exact I]; cbn [event_ok meantime_ok].
    all: try exact I; try lia.
    all: split; [by_compute|split; [by_compute|split; [right; by_compute|by eexists]]].
  - by_eval.
  - exists s'. split; [exact E|]. split; [exact Hi|].
    assert (Hw : match for_each (run_event 0) demo_events fresh with
                 | Ok (_, s') => length (in_wire s') = 3%nat | Fault _ => False end) by by_eval.
    rewrite E in Hw. exact Hw.
Defined.

(** A packet for a host that does not answer, first with turns in between, then
    when five attempts have been made. *)
Lemma sweeps_between_calls_witness :
  (exists s', send_or_queue_swept 1 2 3 (transit_frame 9) 54 route3 eth3 fresh = Ok (tt, s')) /\
  exists s1 s2, queuereq host (transit_frame 8) 54 (str "eth1") used_up = Ok (0%nat, s1) /\
    sweeps 1 1 s1 = Ok (tt, s2) /\ handle_arpreq 1 0 s2 = Fault UseAfterFree.
Proof.
  split.
  - destruct (sweeps_between_calls 0 fresh) as [H _].
    destruct (H 2%nat 3%nat (transit_frame 9) 54%nat route3 eth3 fresh) as (_ & s' & E & _);
      [| | | | |by exists s'].
    + split; [split; [by_compute|by_compute|apply init_wf|apply Forall_nil; exact I]|].
      split; [apply Forall_nil; exact I|repeat split].
    + reflexivity.
    + apply Nat.leb_le. reflexivity.
    + by_compute.
    + by_eval.
  - destruct (sweeps_between_calls 0 used_up) as [_ H].
    destruct (H host (transit_frame 8) 54%nat (str "eth1") used_up_req) as (s2 & E1 & E2 & E3).
    + reflexivity.
    + reflexivity.
    + unfold due. by_compute.
    + by_compute.
    + by_eval.
    + apply Nat.ltb_lt. reflexivity.
    + apply Forall_cons. split; [|apply Forall_cons; split; [|by apply Forall_nil]].
      * split; [|exists route3, eth3, client_entry; split;
          [apply routed_demo; [by_eval|by_eval|right; left]|split; [by_eval|by_compute]]].
        split; [by_eval|]. split; [vm_compute; lia|]. split; [by_compute|].
        exists eth1. split; [by_eval|by_compute].
      * split; [by apply (proj1 (Forall_singleton _ _) pkt_ok_demo)|].
        exists route3, eth3, client_entry.
        split; [apply routed_demo; [by_eval|by_eval|right; left]|split; [by_eval|by_compute]].
    + eexists _, s2. split; [exact E1|]. split; [exact E2|apply E3].
Defined.
