(* ===== verification/Sha1.v ===== *)
(** SHA-1 (router/src/router/sha1.c and sha1.h), with which the router
    authenticates to its server: the code, and the standard's definition of the
    digest of a whole message as its specification. *)
From S2P Require Import Prelude.

(** * The context *)

(** The five words of [Message_Digest]. *)
Definition words : Type := (Z * Z * Z * Z * Z).

Record SHA1Context := {
  Message_Digest : words;
  Length_Low : Z;
  Length_High : Z;
  Message_Block : buffer;
  Message_Block_Index : nat;
  Computed : bool;
  Corrupted : bool }.

Definition with_digest (d : words) (c : SHA1Context) : SHA1Context :=
  {| Message_Digest := d; Length_Low := Length_Low c; Length_High := Length_High c;
     Message_Block := Message_Block c; Message_Block_Index := Message_Block_Index c;
     Computed := Computed c; Corrupted := Corrupted c |}.
Definition with_length (low high : Z) (c : SHA1Context) : SHA1Context :=
  {| Message_Digest := Message_Digest c; Length_Low := low; Length_High := high;
     Message_Block := Message_Block c; Message_Block_Index := Message_Block_Index c;
     Computed := Computed c; Corrupted := Corrupted c |}.
Definition with_block (b : buffer) (i : nat) (c : SHA1Context) : SHA1Context :=
  {| Message_Digest := Message_Digest c; Length_Low := Length_Low c;
     Length_High := Length_High c; Message_Block := b; Message_Block_Index := i;
     Computed := Computed c; Corrupted := Corrupted c |}.
Definition with_flags (computed corrupted : bool) (c : SHA1Context) : SHA1Context :=
  {| Message_Digest := Message_Digest c; Length_Low := Length_Low c;
     Length_High := Length_High c; Message_Block := Message_Block c;
     Message_Block_Index := Message_Block_Index c; Computed := computed;
     Corrupted := corrupted |}.

(** [Message_Block[Message_Block_Index++] = b] *)
Definition put_byte (b : Z) (c : SHA1Context) : res SHA1Context :=
  block ← wr (Message_Block_Index c) [b] (Message_Block c);
  mret (with_block block (S (Message_Block_Index c)) c).

(** [SHA1Reset], of a context whose block holds [block]. *)
Definition SHA1Reset (block : buffer) : SHA1Context :=
  {| Message_Digest := (0x67452301, 0xEFCDAB89, 0x98BADCFE, 0x10325476, 0xC3D2E1F0);
     Length_Low := 0; Length_High := 0; Message_Block := block; Message_Block_Index := 0;
     Computed := false; Corrupted := false |}.

(** * Processing a block *)

(** The macro, on [unsigned] words. *)
Definition SHA1CircularShift (bits word : Z) : Z :=
  Z.lor (Z.land (u32 (Z.shiftl word bits)) 0xFFFFFFFF) (Z.shiftr word (32 - bits)).

(** The array [W]: an element not yet written is not read. *)
Definition W_at (W : list Z) (t : nat) : res Z :=
  match W !! t with Some w => Ok w | None => Fault Uninit end.

(** A turn of the loop over the first 16 words, and of the one over the rest. *)
Definition load_word (block : buffer) (t : nat) : res Z :=
  b ← rd (t * 4) 4 block;
  match b with
  | [b0; b1; b2; b3] =>
      mret (Z.lor (Z.lor (Z.lor (u32 (Z.shiftl b0 24)) (Z.shiftl b1 16)) (Z.shiftl b2 8)) b3)
  | _ => Fault OutOfBounds
  end.
Definition next_word (W : list Z) (t : nat) : res Z :=
  a ← W_at W (t - 3); b ← W_at W (t - 8); c ← W_at W (t - 14); d ← W_at W (t - 16);
  mret (SHA1CircularShift 1 (Z.lxor (Z.lxor (Z.lxor a b) c) d)).

(** [for (t = from; t < from + n; t++) W[t] = word(t)] *)
Fixpoint fill_W (word : list Z -> nat -> res Z) (n t : nat) (W : list Z) : res (list Z) :=
  match n with
  | O => Ok W
  | S n => w ← word W t; fill_W word n (S t) (W ++ [w])
  end.

(** The bodies of the four loops; [~B] is taken on 32 bits. *)
Definition choose (B C D : Z) : Z := Z.lor (Z.land B C) (Z.land (u32 (Z.lnot B)) D).
Definition parity (B C D : Z) : Z := Z.lxor (Z.lxor B C) D.
Definition majority (B C D : Z) : Z := Z.lor (Z.lor (Z.land B C) (Z.land B D)) (Z.land C D).

Definition sha1_turn (f : Z -> Z -> Z -> Z) (K w : Z) (s : words) : words :=
  let '(A, B, C, D, E) := s in
  let temp := Z.land (u32 (SHA1CircularShift 5 A + f B C D + E + w + K)) 0xFFFFFFFF in
  (temp, A, SHA1CircularShift 30 B, C, D).

Fixpoint sha1_loop (f : Z -> Z -> Z -> Z) (K : Z) (W : list Z) (n t : nat) (s : words)
  : res words :=
  match n with
  | O => Ok s
  | S n => w ← W_at W t; sha1_loop f K W n (S t) (sha1_turn f K w s)
  end.

Definition add_words (s t : words) : words :=
  let '(a, b, c, d, e) := s in
  let '(a', b', c', d', e') := t in
  (u32 (a + a'), u32 (b + b'), u32 (c + c'), u32 (d + d'), u32 (e + e')).

(** The four loops. *)
Definition sha1_loops (W : list Z) (s : words) : res words :=
  s ← sha1_loop choose 0x5A827999 W 20 0 s;
  s ← sha1_loop parity 0x6ED9EBA1 W 20 20 s;
  s ← sha1_loop majority 0x8F1BBCDC W 20 40 s;
  sha1_loop parity 0xCA62C1D6 W 20 60 s.

Definition SHA1ProcessMessageBlock (c : SHA1Context) : res SHA1Context :=
  W ← fill_W (fun _ => load_word (Message_Block c)) 16 0 [];
  W ← fill_W next_word 64 16 W;
  s ← sha1_loops W (Message_Digest c);
  mret (with_block (Message_Block c) 0 (with_digest (add_words (Message_Digest c) s) c)).

(** * Input *)

(** The new length, and whether the message is too long. *)
Definition count_byte (c : SHA1Context) : SHA1Context :=
  let low := Z.land (u32 (Length_Low c + 8)) 0xFFFFFFFF in
  if low =? 0 then
    let high := Z.land (u32 (Length_High c + 1)) 0xFFFFFFFF in
    let c := with_length low high c in
    if high =? 0 then with_flags (Computed c) true c else c
  else with_length low (Length_High c) c.

(** The loop of [SHA1Input]. *)
Fixpoint input_loop (message_array : buffer) (c : SHA1Context) : res SHA1Context :=
  match message_array with
  | [] => Ok c
  | b :: message_array =>
      if Corrupted c then Ok c
      else
        c ← put_byte (Z.land b 0xFF) c;
        let c := count_byte c in
        c ← (if (Message_Block_Index c =? 64)%nat then SHA1ProcessMessageBlock c else Ok c);
        input_loop message_array c
  end.

Definition SHA1Input (c : SHA1Context) (message_array : buffer) : res SHA1Context :=
  if (length message_array =? 0)%nat then Ok c
  else if Computed c || Corrupted c then Ok (with_flags (Computed c) true c)
  else input_loop message_array c.

(** * Padding *)

(** [while (Message_Block_Index < limit) Message_Block[Message_Block_Index++] = 0]:
    [fuel] turns. *)
Fixpoint fill_zeros (fuel limit : nat) (c : SHA1Context) : res SHA1Context :=
  match fuel with
  | O => Fault OutOfFuel
  | S fuel =>
      if (Message_Block_Index c <? limit)%nat
      then c ← put_byte 0 c; fill_zeros fuel limit c
      else Ok c
  end.

(** The length as the last eight bytes. *)
Definition length_bytes (c : SHA1Context) : buffer :=
  map (fun '(w, n) => Z.land (Z.shiftr w n) 0xFF)
    [(Length_High c, 24); (Length_High c, 16); (Length_High c, 8); (Length_High c, 0);
     (Length_Low c, 24); (Length_Low c, 16); (Length_Low c, 8); (Length_Low c, 0)].

Definition SHA1PadMessage (c : SHA1Context) : res SHA1Context :=
  c ← (if (55 <? Message_Block_Index c)%nat
       then
         c ← put_byte 0x80 c;
         c ← fill_zeros 65 64 c;
         c ← SHA1ProcessMessageBlock c;
         fill_zeros 65 56 c
       else
         c ← put_byte 0x80 c;
         fill_zeros 65 56 c);
  block ← wr 56 (length_bytes c) (Message_Block c);
  SHA1ProcessMessageBlock (with_block block (Message_Block_Index c) c).

(** 1 when the digest is there. *)
Definition SHA1Result (c : SHA1Context) : res (Z * SHA1Context) :=
  if Corrupted c then Ok (0, c)
  else if Computed c then Ok (1, c)
  else c ← SHA1PadMessage c; mret (1, with_flags true (Corrupted c) c).

(** * The standard's definition (FIPS PUB 180-1) *)

Definition rotl (n x : Z) : Z := Z.lor (u32 (Z.shiftl x n)) (Z.shiftr x (32 - n)).

Definition fips_f (t : nat) : Z -> Z -> Z -> Z :=
  if (t <? 20)%nat then choose else if (t <? 40)%nat then parity
  else if (t <? 60)%nat then majority else parity.
Definition fips_K (t : nat) : Z :=
  if (t <? 20)%nat then 0x5A827999 else if (t <? 40)%nat then 0x6ED9EBA1
  else if (t <? 60)%nat then 0x8F1BBCDC else 0xCA62C1D6.

(** The words of a block, and one more of the sequence. *)
Definition block_words (block : buffer) : list Z :=
  map (fun t => be_val (slice (t * 4) 4 block)) (seq 0 16).
Definition extend (W : list Z) : list Z :=
  let t := length W in
  W ++ [rotl 1 (Z.lxor (Z.lxor (Z.lxor (W !!! (t - 3)%nat) (W !!! (t - 8)%nat))
                          (W !!! (t - 14)%nat)) (W !!! (t - 16)%nat))].
Definition schedule (block : buffer) : list Z := Nat.iter 64 extend (block_words block).

Definition fips_turn (W : list Z) (s : words) (t : nat) : words :=
  let '(A, B, C, D, E) := s in
  (u32 (rotl 5 A + fips_f t B C D + E + (W !!! t) + fips_K t), A, rotl 30 B, C, D).
Definition compress (H : words) (block : buffer) : words :=
  add_words H (foldl (fips_turn (schedule block)) H (seq 0 80)).

(** The message in blocks of 64 bytes; a one bit, zeros and the length in bits
    complete the last. *)
Definition blocks (m : buffer) : list buffer := reshape (replicate (length m / 64) 64%nat) m.
Definition pad (m : buffer) : buffer :=
  m ++ 0x80 :: replicate ((119 - length m mod 64) mod 64) 0 ++
  be_bytes 8 (8 * Z.of_nat (length m)).
Definition initial : words := (0x67452301, 0xEFCDAB89, 0x98BADCFE, 0x10325476, 0xC3D2E1F0).
Definition sha1 (m : buffer) : words := foldl compress initial (blocks (pad m)).

(** * One block *)

Lemma land_u32 z : Z.land (u32 z) 0xFFFFFFFF = u32 z.
Proof.
  change 0xFFFFFFFF with (Z.ones 32). rewrite land_mask by lia. apply (u32_idem z).
Qed.

Lemma circular_rotl n x : SHA1CircularShift n x = rotl n x.
Proof. unfold SHA1CircularShift, rotl. by rewrite land_u32. Qed.

(** Moving a pair of fields up. *)
Lemma lor_shift_pair n m a b :
  0 <= n -> 0 <= m -> 0 <= b < 2 ^ n ->
  Z.lor (Z.shiftl a (n + m)) (Z.shiftl b m) = Z.shiftl (a * 2 ^ n + b) m.
Proof.
  intros Hn Hm Hb. rewrite <-Z.shiftl_shiftl, <-Z.shiftl_lor by done. by rewrite lor_shiftl.
Qed.

Lemma load_word_ok block t :
  (t < 16)%nat -> length block = 64%nat -> bytes_ok block ->
  load_word block t = Ok (be_val (slice (t * 4) 4 block)).
Proof.
  intros Ht Hl Hb. unfold load_word. rewrite rd_ok by lia. cbn [mbind res_bind].
  pose proof (bytes_ok_slice (t * 4) 4 block Hb) as Hs.
  assert (Hn : length (slice (t * 4) 4 block) = 4%nat) by (apply length_slice; lia).
  destruct (slice (t * 4) 4 block) as [|b0 [|b1 [|b2 [|b3 [|]]]]]; try done.
  repeat (apply Forall_cons in Hs as [? Hs]). unfold is_byte in *.
  unfold be_val. cbn [rev app le_val]. rewrite u32_small by (rewrite Z.shiftl_mul_pow2; lia).
  rewrite (lor_shift_pair 8 16), (lor_shift_pair 8 8), lor_shiftl by lia.
  cbn [mret res_ret]. f_equal. lia.
Qed.

Lemma fill_const g n t W word :
  (forall W t', (t <= t' < t + n)%nat -> word W t' = Ok (g t')) ->
  fill_W word n t W = Ok (W ++ map g (seq t n)).
Proof.
  revert t W. induction n as [|n IH]; intros t W H; cbn [fill_W seq map].
  - by rewrite app_nil_r.
  - rewrite H by lia. cbn [mbind res_bind]. rewrite IH by (intros; apply H; lia).
    by rewrite <-app_assoc.
Qed.

Lemma W_at_ok W t : (t < length W)%nat -> W_at W t = Ok (W !!! t).
Proof. intros H. unfold W_at. by rewrite (list_lookup_lookup_total_lt W t H). Qed.

Lemma length_extend W : length (extend W) = S (length W).
Proof. unfold extend. rewrite length_app. simpl. lia. Qed.

Lemma fill_next n t W :
  t = length W -> (16 <= t)%nat -> fill_W next_word n t W = Ok (Nat.iter n extend W).
Proof.
  revert t W. induction n as [|n IH]; intros t W Hlen Ht; cbn [fill_W]; [done|].
  assert (E : exists w, next_word W t = Ok w /\ extend W = W ++ [w]).
  { unfold next_word, extend. rewrite !W_at_ok by lia. cbn [mbind res_bind].
    rewrite circular_rotl, <-Hlen. by eexists. }
  destruct E as (w & E & Ew). rewrite E. cbn [mbind res_bind].
  rewrite Nat.iter_succ_r, Ew. apply IH; [|lia]. rewrite length_app. simpl. lia.
Qed.

Lemma length_schedule block : length (schedule block) = 80%nat.
Proof.
  unfold schedule.
  assert (H : forall n W, length (Nat.iter n extend W) = (n + length W)%nat).
  { induction n as [|n IH]; intros W; [done|]. by rewrite Nat.iter_succ, length_extend, IH. }
  by rewrite H.
Qed.

Lemma words_ok block :
  length block = 64%nat -> bytes_ok block ->
  fill_W (fun _ => load_word block) 16 0 [] = Ok (block_words block).
Proof.
  intros Hl Hb. apply (fill_const (fun t => be_val (slice (t * 4) 4 block)) 16 0).
  intros W t Ht. apply load_word_ok; [lia|done|done].
Qed.

Lemma schedule_ok block : fill_W next_word 64 16 (block_words block) = Ok (schedule block).
Proof. unfold schedule. apply fill_next; [done|lia]. Qed.

(** Each loop is a run of the standard's turns. *)
Lemma loop_ok f K W n t s :
  (t + n <= length W)%nat ->
  (forall i, (t <= i < t + n)%nat -> fips_f i = f /\ fips_K i = K) ->
  sha1_loop f K W n t s = Ok (foldl (fips_turn W) s (seq t n)).
Proof.
  revert t s. induction n as [|n IH]; intros t s Hl H; cbn [sha1_loop seq foldl]; [done|].
  rewrite W_at_ok by lia. cbn [mbind res_bind].
  rewrite IH by (first [lia | intros; apply H; lia]).
  destruct (H t) as [Hf HK]; [lia|]. destruct s as [[[[A B] C] D] E].
  unfold sha1_turn, fips_turn. by rewrite land_u32, !circular_rotl, Hf, HK.
Qed.

Ltac phase := intros i Hi; unfold fips_f, fips_K; repeat case_test; (done || lia).

Lemma loops_ok W s :
  length W = 80%nat -> sha1_loops W s = Ok (foldl (fips_turn W) s (seq 0 80)).
Proof.
  intros Hs. unfold sha1_loops.
  rewrite (loop_ok choose) by (rewrite ?Hs; first [lia | phase]). cbn [mbind res_bind].
  rewrite (loop_ok parity) by (rewrite ?Hs; first [lia | phase]). cbn [mbind res_bind].
  rewrite (loop_ok majority) by (rewrite ?Hs; first [lia | phase]). cbn [mbind res_bind].
  rewrite (loop_ok parity) by (rewrite ?Hs; first [lia | phase]).
  assert (E : seq 0 80 = seq 0 20 ++ seq 20 20 ++ seq 40 20 ++ seq 60 20) by reflexivity.
  by rewrite E, !foldl_app.
Qed.

Lemma process_ok c :
  length (Message_Block c) = 64%nat -> bytes_ok (Message_Block c) ->
  SHA1ProcessMessageBlock c =
    Ok (with_block (Message_Block c) 0
      (with_digest (compress (Message_Digest c) (Message_Block c)) c)).
Proof.
  intros Hl Hb. unfold SHA1ProcessMessageBlock. rewrite words_ok by done.
  rewrite res_bind_ok, schedule_ok, res_bind_ok, loops_ok by apply length_schedule.
  rewrite res_bind_ok. unfold compress. reflexivity.
Qed.

(** * Blocks of a message *)

Definition chunks (q : nat) (m : buffer) : list buffer := reshape (replicate q 64%nat) m.

Lemma chunks_app q m t : (64 * q <= length m)%nat -> chunks q (m ++ t) = chunks q m.
Proof.
  unfold chunks. revert m. induction q as [|q IH]; intros m H; [done|]. cbn [replicate reshape].
  rewrite take_app_le, drop_app_le by lia. f_equal. apply IH. rewrite length_drop. lia.
Qed.

Lemma chunks_succ q m : chunks (S q) m = chunks q m ++ [slice (64 * q) 64 m].
Proof.
  unfold chunks. revert m. induction q as [|q IH]; intros m; [done|].
  change (reshape (replicate (S (S q)) 64%nat) m)
    with (take 64 m :: reshape (replicate (S q) 64%nat) (drop 64 m)).
  rewrite IH. cbn [replicate reshape app]. do 2 f_equal. unfold slice. rewrite drop_drop.
  do 3 f_equal. lia.
Qed.

Lemma blocks_more m t :
  (length m `mod` 64 + length t < 64)%nat -> blocks (m ++ t) = blocks m.
Proof.
  intros H. unfold blocks. rewrite length_app.
  assert (E : ((length m + length t) / 64 = length m / 64)%nat).
  { pose proof (Nat.div_mod (length m) 64). symmetry.
    apply (Nat.div_unique _ _ _ (length m mod 64 + length t)); lia. }
  rewrite E. apply chunks_app. pose proof (Nat.div_mod (length m) 64). lia.
Qed.

Lemma blocks_full m t b :
  (length m `mod` 64 + length t = 64)%nat -> drop (length m - length m `mod` 64) m ++ t = b ->
  blocks (m ++ t) = blocks m ++ [b].
Proof.
  intros H Hb. unfold blocks. rewrite length_app.
  pose proof (Nat.div_mod (length m) 64) as Hd.
  assert (E : ((length m + length t) / 64 = S (length m / 64))%nat)
    by (symmetry; apply (Nat.div_unique _ _ _ 0); lia).
  rewrite E. change (reshape (replicate ?q 64%nat) ?l) with (chunks q l).
  rewrite chunks_succ, chunks_app by lia. do 2 f_equal. unfold slice.
  rewrite drop_app_le by lia. replace (64 * (length m / 64))%nat with (length m - length m mod 64)%nat by lia.
  rewrite Hb. apply take_ge. rewrite <-Hb, length_app, length_drop. lia.
Qed.

(** * Input *)

(** The context after a message. *)
Record absorbed (m : buffer) (c : SHA1Context) : Prop := {
  ab_size : length (Message_Block c) = 64%nat;
  ab_bytes : bytes_ok (Message_Block c);
  ab_index : Message_Block_Index c = (length m mod 64)%nat;
  ab_digest : Message_Digest c = foldl compress initial (blocks m);
  ab_tail : take (length m mod 64) (Message_Block c) = drop (length m - length m mod 64) m;
  ab_low : Length_Low c = u32 (8 * Z.of_nat (length m));
  ab_high : Length_High c = 8 * Z.of_nat (length m) / 4294967296;
  ab_computed : Computed c = false;
  ab_corrupted : Corrupted c = false }.

(** The longest message: its length in bits fits 64 bits. *)
Definition fits (m : buffer) : Prop := 8 * Z.of_nat (length m) < 18446744073709551616.

Lemma put_byte_ok b c :
  (Message_Block_Index c < length (Message_Block c))%nat ->
  put_byte b c = Ok (with_block (splice (Message_Block_Index c) [b] (Message_Block c))
    (S (Message_Block_Index c)) c).
Proof. intros H. unfold put_byte. by rewrite wr_ok by (simpl; lia). Qed.

Lemma count_byte_ok n c :
  Length_Low c = u32 (8 * n) -> Length_High c = 8 * n / 4294967296 -> 0 <= n ->
  8 * (n + 1) < 18446744073709551616 ->
  count_byte c = with_length (u32 (8 * (n + 1))) (8 * (n + 1) / 4294967296) c.
Proof.
  intros Hl Hh Hn Hf. unfold count_byte. rewrite !land_u32, Hl, Hh, u32_add_l.
  replace (8 * n + 8) with (8 * (n + 1)) by lia. destruct (Z.eqb_spec (u32 (8 * (n + 1))) 0) as [E|E].
  - assert (Eh : u32 (8 * n / 4294967296 + 1) = 8 * (n + 1) / 4294967296).
    { unfold u32 in *. Z.div_mod_to_equations. lia. }
    rewrite Eh, E. rewrite (proj2 (Z.eqb_neq _ _)); [done|].
    unfold u32 in *. Z.div_mod_to_equations. lia.
  - f_equal. unfold u32 in *. Z.div_mod_to_equations. lia.
Qed.

Lemma mod_succ n : (S n `mod` 64 = if (n `mod` 64 =? 63) then 0 else S (n `mod` 64))%nat.
Proof.
  pose proof (Nat.div_mod n 64). pose proof (Nat.mod_upper_bound n 64).
  destruct (Nat.eqb_spec (n mod 64) 63).
  - symmetry. apply (Nat.mod_unique _ _ (S (n / 64))); lia.
  - symmetry. apply (Nat.mod_unique _ _ (n / 64)); lia.
Qed.

(** The fields of an updated context. *)
Ltac ctx_simpl := cbn [Message_Digest Length_Low Length_High Message_Block Message_Block_Index
  Computed Corrupted with_length with_block with_digest with_flags].

Lemma absorb_byte m x c :
  absorbed m c -> is_byte x -> fits (m ++ [x]) ->
  exists c', (c ← put_byte (Z.land x 0xFF) c;
              let c := count_byte c in
              if (Message_Block_Index c =? 64)%nat then SHA1ProcessMessageBlock c else Ok c)
             = Ok c' /\ absorbed (m ++ [x]) c'.
Proof.
  intros [Hs Hb Hi Hd Ht Hlo Hhi Hc Hx] Hbyte Hf. unfold fits in Hf.
  rewrite length_app in Hf. cbn [length] in Hf.
  set (r := (length m mod 64)%nat) in *.
  assert (Hr : (r < 64)%nat) by (apply Nat.mod_upper_bound; lia).
  assert (Hle : (r <= length m)%nat) by (apply Nat.Div0.mod_le).
  change 0xFF with (Z.ones 8). rewrite land_mask, (Z.mod_small x) by (unfold is_byte in *; lia).
  rewrite put_byte_ok, res_bind_ok by lia. rewrite Hi. cbn zeta.
  set (b := splice r [x] (Message_Block c)).
  assert (Hbl : length b = 64%nat) by (unfold b; rewrite length_splice; [done|simpl; lia]).
  assert (Hbb : bytes_ok b)
    by (unfold b; apply bytes_ok_splice; [repeat constructor; apply Hbyte|exact Hb]).
  assert (Hbt : take (S r) b = drop (length m - r) m ++ [x]).
  { unfold b, splice. rewrite <-Ht. rewrite app_assoc. apply take_app_length'.
    rewrite length_app, length_take. simpl. lia. }
  erewrite count_byte_ok by (first [exact Hlo | exact Hhi | lia]).
  cbn [Message_Block_Index with_length with_block].
  assert (Hlen : Z.of_nat (length (m ++ [x])) = Z.of_nat (length m) + 1)
    by (rewrite length_app; simpl; lia).
  assert (Hmod : (length (m ++ [x]) mod 64 = if r =? 63 then 0 else S r)%nat)
    by (rewrite length_app, Nat.add_1_r; apply mod_succ).
  change (S r =? 64)%nat with (r =? 63)%nat. destruct (Nat.eqb_spec r 63) as [E|E].
  - rewrite process_ok by done. eexists. split; [reflexivity|].
    assert (Hblk : blocks (m ++ [x]) = blocks m ++ [b]).
    { apply blocks_full; [fold r; cbn [length]; lia|]. fold r. rewrite <-Hbt. apply take_ge. lia. }
    constructor; ctx_simpl; rewrite ?Hlen, ?Hmod; try done.
    + rewrite Hblk, foldl_app. cbn [foldl]. by rewrite <-Hd.
    + rewrite Nat.sub_0_r, drop_ge by lia. done.
  - eexists. split; [reflexivity|]. constructor; ctx_simpl; rewrite ?Hlen, ?Hmod; try done.
    + rewrite blocks_more by (fold r; cbn [length]; lia). exact Hd.
    + rewrite Hbt, drop_app_le by (rewrite length_app; simpl; lia).
      do 2 f_equal. rewrite length_app. simpl. lia.
Qed.

Lemma input_loop_ok l m c :
  absorbed m c -> bytes_ok l -> fits (m ++ l) ->
  exists c', input_loop l c = Ok c' /\ absorbed (m ++ l) c'.
Proof.
  revert m c. induction l as [|x l IH]; intros m c Ha Hl Hf; cbn [input_loop].
  - exists c. by rewrite app_nil_r.
  - apply Forall_cons in Hl as [Hx Hl]. rewrite (ab_corrupted _ _ Ha).
    destruct (absorb_byte m x c Ha Hx) as (c1 & E & Ha1).
    { unfold fits in *. rewrite length_app in *. simpl in *. lia. }
    destruct (IH (m ++ [x]) c1 Ha1 Hl) as (c2 & E2 & Ha2); [by rewrite <-app_assoc|].
    exists c2. rewrite <-app_assoc in Ha2. split; [|exact Ha2].
    destruct (put_byte (Z.land x 255) c) as [c0|]; [|discriminate E].
    cbn [mbind res_bind] in *. by rewrite E.
Qed.

Lemma input_ok l m c :
  absorbed m c -> bytes_ok l -> fits (m ++ l) ->
  exists c', SHA1Input c l = Ok c' /\ absorbed (m ++ l) c'.
Proof.
  intros Ha Hl Hf. unfold SHA1Input. destruct (Nat.eqb_spec (length l) 0) as [E|E].
  - exists c. apply nil_length_inv in E. by rewrite E, app_nil_r.
  - rewrite (ab_computed _ _ Ha), (ab_corrupted _ _ Ha). by apply input_loop_ok.
Qed.

(** * Padding *)

Lemma fill_zeros_ok fuel limit p q c :
  Message_Block c = p ++ q -> Message_Block_Index c = length p ->
  (length p <= limit <= length (p ++ q))%nat -> (limit - length p < fuel)%nat ->
  fill_zeros fuel limit c =
    Ok (with_block ((p ++ replicate (limit - length p) 0) ++ drop (limit - length p) q) limit c).
Proof.
  revert p q c. induction fuel as [|fuel IH]; intros p q c Hb Hi Hl Hf; [lia|].
  rewrite length_app in Hl. cbn [fill_zeros]. rewrite Hi. case_test.
  - destruct q as [|y q]; [simpl in Hl; lia|]. cbn [length] in Hl.
    rewrite put_byte_ok by (rewrite Hb, Hi, length_app; simpl; lia).
    rewrite res_bind_ok, Hb, Hi, (splice_app _ p [0] (y :: q)) by (simpl; lia).
    change (drop (length [0]) (y :: q)) with q.
    assert (Hp : length (p ++ [0]) = S (length p)) by (rewrite length_app; simpl; lia).
    rewrite (IH (p ++ [0]) q) by (ctx_simpl; rewrite ?length_app, ?Hp; simpl; try done; lia).
    rewrite Hp. replace (limit - length p)%nat with (S (limit - S (length p)))%nat by lia.
    cbn [replicate drop]. by rewrite <-(app_assoc p [0]).
  - replace (limit - length p)%nat with O by lia. cbn [replicate].
    rewrite app_nil_r, drop_0, <-Hb. destruct c. cbn in *. f_equal. unfold with_block. cbn. f_equal. lia.
Qed.

Lemma length_bytes_ok n c :
  0 <= n < 18446744073709551616 -> Length_Low c = u32 n -> Length_High c = n / 4294967296 ->
  length_bytes c = be_bytes 8 n.
Proof.
  intros Hn Hl Hh. unfold length_bytes. rewrite Hl, Hh. unfold be_bytes.
  cbn [map le_bytes rev app]. change 0xFF with (Z.ones 8).
  rewrite !land_mask, !Z.shiftr_div_pow2, !Z.div_div by lia. unfold u32.
  repeat (apply (f_equal2 cons); [Z.div_mod_to_equations; lia|]). reflexivity.
Qed.

(** What the padding ends with: eight bytes of length in the last block, which
    is then processed. *)
Lemma finish_ok p d n c :
  length p = 56%nat -> bytes_ok p -> Message_Digest c = d -> (exists q, Message_Block c = p ++ q) ->
  length (Message_Block c) = 64%nat -> 0 <= n < 18446744073709551616 ->
  Length_Low c = u32 n -> Length_High c = n / 4294967296 ->
  exists c', (block ← wr 56 (length_bytes c) (Message_Block c);
      SHA1ProcessMessageBlock (with_block block (Message_Block_Index c) c)) = Ok c' /\
    Message_Digest c' = compress d (p ++ be_bytes 8 n) /\ Corrupted c' = Corrupted c.
Proof.
  intros Hp Hpb Hd [q Hq] Hl Hn Hlo Hhi.
  rewrite (length_bytes_ok n) by done. set (L := be_bytes 8 n).
  assert (HL : length L = 8%nat) by (unfold L, be_bytes; rewrite length_rev; apply length_le_bytes).
  assert (HLb : bytes_ok L) by (apply bytes_ok_rev, le_bytes_ok).
  assert (Hql : length q = 8%nat) by (rewrite Hq, length_app in Hl; lia).
  rewrite wr_ok, res_bind_ok by lia.
  assert (E : splice 56 L (Message_Block c) = p ++ L)
    by (rewrite Hq, splice_app, drop_ge, app_nil_r by lia; done).
  rewrite E, process_ok.
  - eexists. split; [reflexivity|]. ctx_simpl. by rewrite Hd.
  - ctx_simpl. rewrite length_app. lia.
  - ctx_simpl. by apply bytes_ok_app.
Qed.

Lemma bytes_ok_zeros n : bytes_ok (replicate n 0).
Proof. apply Forall_replicate. unfold is_byte. lia. Qed.

Lemma bytes_ok_drop n (l : buffer) : bytes_ok l -> bytes_ok (drop n l).
Proof. apply Forall_drop. Qed.

Lemma pad_blocks_short m :
  (length m mod 64 <= 55)%nat ->
  blocks (pad m) = blocks m ++ [drop (length m - length m mod 64) m ++
    0x80 :: replicate (55 - length m mod 64) 0 ++ be_bytes 8 (8 * Z.of_nat (length m))].
Proof.
  intros Hr. unfold pad.
  assert (E : ((119 - length m mod 64) mod 64 = 55 - length m mod 64)%nat)
    by (symmetry; apply (Nat.mod_unique _ _ 1); lia).
  rewrite E. apply blocks_full; [|done]. cbn [length]. rewrite length_app, length_replicate.
  unfold be_bytes. rewrite length_rev, length_le_bytes. lia.
Qed.

Lemma pad_blocks_long m :
  (55 < length m mod 64)%nat ->
  blocks (pad m) = blocks m ++
    [drop (length m - length m mod 64) m ++ 0x80 :: replicate (63 - length m mod 64) 0;
     replicate 56 0 ++ be_bytes 8 (8 * Z.of_nat (length m))].
Proof.
  intros Hr. pose proof (Nat.mod_upper_bound (length m) 64) as Hlt. unfold pad.
  set (r := (length m mod 64)%nat) in *. set (L := be_bytes 8 (8 * Z.of_nat (length m))).
  assert (E : ((119 - r) mod 64 = 119 - r)%nat) by (apply Nat.mod_small; lia).
  rewrite E. replace (119 - r)%nat with ((63 - r) + 56)%nat by lia.
  rewrite replicate_add. set (m1 := m ++ 0x80 :: replicate (63 - r) 0).
  replace (m ++ 0x80 :: (replicate (63 - r) 0 ++ replicate 56 0) ++ L)
    with (m1 ++ replicate 56 0 ++ L) by (unfold m1; by rewrite <-!app_assoc).
  assert (H1 : length m1 = (length m + (64 - r))%nat)
    by (unfold m1; rewrite length_app; cbn [length]; rewrite length_replicate; lia).
  assert (Hm1 : (length m1 mod 64 = 0)%nat).
  { rewrite H1. symmetry. apply (Nat.mod_unique _ _ (S (length m / 64))); [lia|].
    pose proof (Nat.div_mod (length m) 64). lia. }
  rewrite (blocks_full m1 _ (replicate 56 0 ++ L)).
  - unfold m1. erewrite blocks_full; [by rewrite <-app_assoc | | reflexivity].
    cbn [length]. rewrite length_replicate. fold r. lia.
  - rewrite Hm1, length_app, length_replicate. unfold L, be_bytes.
    rewrite length_rev, length_le_bytes. done.
  - rewrite Hm1, Nat.sub_0_r, drop_ge by lia. done.
Qed.

(** The one bit, and zeros up to [limit]. *)
Lemma mark_and_fill limit t c :
  Message_Block_Index c = length t -> take (length t) (Message_Block c) = t ->
  length (Message_Block c) = 64%nat -> (length t < limit <= 64)%nat ->
  (c ← put_byte 0x80 c; fill_zeros 65 limit c) =
    Ok (with_block ((t ++ 0x80 :: replicate (limit - S (length t)) 0) ++
      drop limit (Message_Block c)) limit c).
Proof.
  intros Hi Ht Hl Hlim. rewrite put_byte_ok, res_bind_ok by lia.
  assert (Hb : Message_Block c = t ++ drop (length t) (Message_Block c))
    by (rewrite <-Ht at 1; by rewrite take_drop).
  set (q := drop (length t) (Message_Block c)) in *.
  assert (Hq : (length t + length q = 64)%nat) by (rewrite <-length_app, <-Hb; done).
  rewrite Hi, Hb, (splice_app _ t [0x80] q) by (simpl; lia).
  assert (Hp : length (t ++ [0x80]) = S (length t)) by (rewrite length_app; simpl; lia).
  rewrite (fill_zeros_ok 65 limit (t ++ [0x80]) (drop 1 q))
    by (ctx_simpl; rewrite ?length_app, ?Hp, ?length_drop; simpl; try done; lia).
  rewrite Hp, drop_drop. ctx_simpl. f_equal. unfold with_block. ctx_simpl. f_equal.
  rewrite <-!app_assoc. cbn [app]. do 3 f_equal.
  rewrite (drop_app_ge t) by lia. do 2 f_equal. lia.
Qed.

Lemma marked_ok t n : bytes_ok t -> bytes_ok (t ++ 0x80 :: replicate n 0).
Proof.
  intros H. apply bytes_ok_app. split; [done|].
  constructor; [unfold is_byte; lia|apply bytes_ok_zeros].
Qed.

Lemma pad_short m c :
  absorbed m c -> fits m -> (length m mod 64 <= 55)%nat ->
  exists c', SHA1PadMessage c = Ok c' /\ Message_Digest c' = sha1 m /\ Corrupted c' = false.
Proof.
  intros [Hs Hb Hi Hd Ht Hlo Hhi Hc Hx] Hf Hr. unfold fits in Hf. unfold SHA1PadMessage, sha1.
  rewrite pad_blocks_short, foldl_app by done. rewrite Hi, (proj2 (Nat.ltb_ge _ _)) by done.
  set (r := (length m mod 64)%nat) in *. set (t := drop (length m - r) m) in *.
  assert (Htl : length t = r) by (rewrite <-Ht, length_take; lia).
  rewrite <-Htl in Hi, Ht |- *. rewrite (mark_and_fill 56 t) by (done || lia).
  rewrite res_bind_ok. change (56 - S (length t))%nat with (55 - length t)%nat.
  set (p := t ++ 0x80 :: replicate (55 - length t) 0). set (c1 := with_block _ _ c).
  assert (Hp : length p = 56%nat)
    by (unfold p; rewrite length_app; cbn [length]; rewrite length_replicate; lia).
  destruct (finish_ok p (Message_Digest c) (8 * Z.of_nat (length m)) c1)
    as (c' & E & Hd' & Hx'); try done; [| | |lia|].
  - apply marked_ok. rewrite <-Ht. by apply Forall_take.
  - by eexists.
  - unfold c1. ctx_simpl. rewrite length_app, length_drop. lia.
  - exists c'. split; [exact E|]. rewrite Hd', Hx', Hd. split; [|done]. cbn [foldl].
    unfold p. by rewrite <-app_assoc.
Qed.

Lemma pad_long m c :
  absorbed m c -> fits m -> (55 < length m mod 64)%nat ->
  exists c', SHA1PadMessage c = Ok c' /\ Message_Digest c' = sha1 m /\ Corrupted c' = false.
Proof.
  intros [Hs Hb Hi Hd Ht Hlo Hhi Hc Hx] Hf Hr. unfold fits in Hf. unfold SHA1PadMessage, sha1.
  rewrite pad_blocks_long, foldl_app by done. rewrite Hi, (proj2 (Nat.ltb_lt _ _)) by done.
  pose proof (Nat.mod_upper_bound (length m) 64) as Hlt.
  set (r := (length m mod 64)%nat) in *. set (t := drop (length m - r) m) in *.
  assert (Htl : length t = r) by (rewrite <-Ht, length_take; lia).
  rewrite <-Htl in Hi, Ht |- *. set (N := 8 * Z.of_nat (length m)) in *.
  assert (E1 : (c ← put_byte 0x80 c; c ← fill_zeros 65 64 c;
      c ← SHA1ProcessMessageBlock c; fill_zeros 65 56 c) =
    ((c ← put_byte 0x80 c; fill_zeros 65 64 c) ≫= fun c =>
      SHA1ProcessMessageBlock c ≫= fun c => fill_zeros 65 56 c))
    by (by destruct (put_byte 0x80 c)).
  rewrite E1, (mark_and_fill 64 t) by (done || lia). rewrite res_bind_ok.
  rewrite drop_ge, app_nil_r by lia. change (64 - S (length t))%nat with (63 - length t)%nat.
  set (B := t ++ 0x80 :: replicate (63 - length t) 0).
  assert (HB : length B = 64%nat)
    by (unfold B; rewrite length_app; cbn [length]; rewrite length_replicate; lia).
  rewrite process_ok, res_bind_ok
    by (ctx_simpl; first [done | apply marked_ok; rewrite <-Ht; by apply Forall_take]).
  ctx_simpl. rewrite (fill_zeros_ok 65 56 [] B) by (ctx_simpl; simpl; try done; lia).
  rewrite res_bind_ok. cbn [length app Nat.sub]. set (c1 := with_block _ _ _).
  destruct (finish_ok (replicate 56 0) (compress (Message_Digest c) B) N c1)
    as (c' & E & Hd' & Hx'); try done; [apply bytes_ok_zeros|by eexists| |lia|].
  - unfold c1. ctx_simpl. rewrite length_app, length_replicate, length_drop. lia.
  - exists c'. split; [exact E|]. rewrite Hd', Hx', Hd. split; done.
Qed.

(** * The property *)

(** Feeding a message in pieces. *)
Fixpoint feed (c : SHA1Context) (pieces : list buffer) : res SHA1Context :=
  match pieces with
  | [] => Ok c
  | l :: pieces => c ← SHA1Input c l; feed c pieces
  end.

Lemma feed_ok pieces m c :
  absorbed m c -> Forall bytes_ok pieces -> fits (m ++ concat pieces) ->
  exists c', feed c pieces = Ok c' /\ absorbed (m ++ concat pieces) c'.
Proof.
  revert m c. induction pieces as [|l pieces IH]; intros m c Ha Hp Hf; cbn [feed concat].
  - exists c. by rewrite app_nil_r.
  - apply Forall_cons in Hp as [Hl Hp]. cbn [concat] in Hf. rewrite app_assoc in Hf |- *.
    destruct (input_ok l m c Ha Hl) as (c1 & E & Ha1).
    { unfold fits in *. rewrite !length_app in *. lia. }
    rewrite E, res_bind_ok. by apply IH.
Qed.

Lemma reset_absorbed block :
  length block = 64%nat -> bytes_ok block -> absorbed [] (SHA1Reset block).
Proof. intros Hl Hb. by constructor. Qed.

Lemma result_ok m c :
  absorbed m c -> fits m ->
  exists c', SHA1Result c = Ok (1, c') /\ Message_Digest c' = sha1 m /\
    Computed c' = true /\ Corrupted c' = false.
Proof.
  intros Hc Hf.
  assert (Hpad : exists c', SHA1PadMessage c = Ok c' /\ Message_Digest c' = sha1 m /\
    Corrupted c' = false)
    by (destruct (Nat.le_gt_cases (length m mod 64) 55); [by apply pad_short|by apply pad_long]).
  destruct Hpad as (c' & Ep & Hd & Hx). exists (with_flags true (Corrupted c') c').
  unfold SHA1Result. by rewrite (ab_corrupted _ _ Hc), (ab_computed _ _ Hc), Ep, res_bind_ok.
Qed.

(** C20: However a message is cut into pieces, [SHA1Reset], [SHA1Input] of each piece and
    [SHA1Result] succeed, stay inside the block, and leave the digest that the
    standard defines for the whole message, as long as its length in bits fits 64
    bits; input after the result is refused and spoils the context. *)
Theorem sha1_correct block pieces :
  length block = 64%nat -> bytes_ok block -> Forall bytes_ok pieces -> fits (concat pieces) ->
  exists c c', feed (SHA1Reset block) pieces = Ok c /\ SHA1Result c = Ok (1, c') /\
    Message_Digest c' = sha1 (concat pieces) /\
    forall l, l <> [] -> exists c'', SHA1Input c' l = Ok c'' /\ SHA1Result c'' = Ok (0, c'').
Proof.
  intros Hl Hb Hp Hf.
  destruct (feed_ok pieces [] _ (reset_absorbed block Hl Hb) Hp Hf) as (c & E & Hc).
  destruct (result_ok _ _ Hc Hf) as (c' & Er & Hd & Hcomp & Hx). exists c, c'.
  split; [exact E|]. split; [exact Er|]. split; [exact Hd|]. intros l Hl0. unfold SHA1Input.
  rewrite (proj2 (Nat.eqb_neq _ _)), Hcomp by (by destruct l). cbn [orb].
  eexists. split; [reflexivity|]. reflexivity.
Qed.

Lemma sha1_correct_witness :
  exists c c', feed (SHA1Reset (replicate 64 0)) [str "a"; str "bc"] = Ok c /\
    SHA1Result c = Ok (1, c') /\
    Message_Digest c' = (0xA9993E36, 0x4706816A, 0xBA3E2571, 0x7850C26C, 0x9CD0D89D).
Proof.
  destruct (sha1_correct (replicate 64 0) [str "a"; str "bc"]) as (c & c' & E & R & D & _).
  - apply length_replicate.
  - apply bytes_ok_zeros.
  - apply (bool_decide_unpack _). vm_compute. exact I.
  - vm_compute. reflexivity.
  - exists c, c'. split; [exact E|]. split; [exact R|]. rewrite D. vm_compute. reflexivity.
Defined.
