(* ===== verification/Sockets.v ===== *)
(** Connected sockets, as the programs see them: the operating system answers
    each call by the next of a list of outcomes. *)
From S2P Require Import Prelude.

Definition EINTR : Z := 4.

(** What becomes of a [recv]: data waiting, the end of the stream, an error. A
    call that asks for less than what waits leaves the rest. *)
Inductive recv_event :=
| RData (b : buffer)
| REof
| RErr (err : Z).

(** What becomes of a [send]: at most that many bytes are taken, or an error. *)
Inductive send_event :=
| SSent (n : nat)
| SErr (err : Z).

(** A connected socket: what its calls will meet, what has been sent, and
    whether it has been closed. *)
Record sock := Sock {
  s_in : list recv_event; s_sends : list send_event; s_out : buffer; s_closed : bool }.

(** What a call of [recv] or [send] returns. *)
Inductive io_result :=
| IoOk (data : buffer)
| IoErr (err : Z).

Definition recv (s : sock) (len : nat) : res (io_result * sock) :=
  match s_in s with
  | [] => Fault Blocked
  | REof :: _ => Ok (IoOk [], s)
  | RErr err :: l => Ok (IoErr err, Sock l (s_sends s) (s_out s) (s_closed s))
  | RData b :: l =>
      Ok (IoOk (take len b),
          Sock (if (len <? length b)%nat then RData (drop len b) :: l else l)
            (s_sends s) (s_out s) (s_closed s))
  end.

Definition send (s : sock) (data : buffer) : res (io_result * sock) :=
  match s_sends s with
  | [] => Fault Blocked
  | SErr err :: l => Ok (IoErr err, Sock (s_in s) l (s_out s) (s_closed s))
  | SSent n :: l =>
      Ok (IoOk (take n data), Sock (s_in s) l (s_out s ++ take n data) (s_closed s))
  end.

Definition close (s : sock) : sock := Sock (s_in s) (s_sends s) (s_out s) true.

(** The bytes that a list of outcomes delivers. *)
Definition stream (events : list recv_event) : buffer :=
  concat (map (fun e => match e with RData b => b | _ => [] end) events).

Lemma stream_app l k : stream (l ++ k) = stream l ++ stream k.
Proof. unfold stream. by rewrite map_app, concat_app. Qed.

(** A stream that arrives in pieces, without an error. *)
Definition pieces_ok (events : list recv_event) : Prop :=
  Forall (fun e => match e with RData b => b <> [] | _ => False end) events.

(** Each call on such a stream takes something of it, and leaves such a stream. *)
Lemma recv_piece s n pieces post :
  s_in s = pieces ++ post -> pieces_ok pieces -> pieces <> [] -> (0 < n)%nat ->
  exists data pieces', recv s n =
      Ok (IoOk data, Sock (pieces' ++ post) (s_sends s) (s_out s) (s_closed s)) /\
    data <> [] /\ (length data <= n)%nat /\ pieces_ok pieces' /\
    stream pieces = data ++ stream pieces' /\
    (length (stream pieces') + length pieces' < length (stream pieces) + length pieces)%nat.
Proof.
  intros Hs Hp Hne Hn. destruct pieces as [|e pieces]; [done|].
  apply Forall_cons in Hp as [He Hp]. destruct e as [b| |err]; [|done|done].
  assert (Hb : (0 < length b)%nat) by (destruct b; [done|simpl; lia]).
  unfold recv. rewrite Hs. cbn [app].
  change (stream (RData b :: pieces)) with (b ++ stream pieces).
  destruct (Nat.ltb_spec n (length b)) as [Hlt|Hge].
  - exists (take n b), (RData (drop n b) :: pieces). split; [done|].
    change (stream (RData (drop n b) :: pieces)) with (drop n b ++ stream pieces).
    assert (Hl : length (take n b) = n) by (rewrite length_take; lia).
    split; [intros E; rewrite E in Hl; simpl in Hl; lia|]. split; [lia|]. split.
    { constructor; [|done]. intros E%(f_equal length). rewrite length_drop in E. simpl in E. lia. }
    split; [by rewrite app_assoc, take_drop|].
    rewrite !length_app, length_drop. cbn [length]. lia.
  - exists (take n b), pieces. rewrite take_ge by lia. split; [done|].
    split; [done|]. split; [done|]. split; [done|]. split; [done|].
    rewrite length_app. cbn [length]. lia.
Qed.
