(* ===== verification/Chat.v ===== *)
(** The client and the server of sockets/src (client.c, server.c): what comes in
    on the client's standard input is sent over a stream and written to the
    server's standard output. Standard input and output are streams like sockets.
    [errno] is state: a call that succeeds leaves it alone. *)
From S2P Require Import Prelude Sockets.

Definition SEND_BUFFER_SIZE : nat := 2048.
Definition RECV_BUFFER_SIZE : nat := 2048.

(** What the calls on one address answer: the descriptor of [socket], and whether
    [setsockopt], [bind] and [connect] succeed. *)
Record address := Address {
  ad_socket : option sock; ad_setsockopt : bool; ad_bind : bool; ad_connect : bool }.

(** * The client *)

(** The inner loop of [chat_with_server]: whether it went well, [errno] and the
    socket. A call that fails counts as -1 bytes before its [errno] is looked at. *)
Fixpoint chat_send (fuel : nat) (errno : Z) (s : sock) (total : Z) (data : buffer)
  : res (bool * Z * sock) :=
  match fuel with
  | O => Fault OutOfFuel
  | S fuel =>
      if total <? Z.of_nat (length data) then
        rest ← (if total <? 0 then Fault OutOfBounds else Ok (drop (Z.to_nat total) data));
        '(r, s) ← send s rest;
        match r with
        | IoOk sent => chat_send fuel errno s (total + Z.of_nat (length sent)) data
        | IoErr err =>
            if negb (err =? EINTR) then Ok (false, err, close s)
            else chat_send fuel err s (total - 1) data
        end
      else Ok (true, errno, s)
  end.
Definition send_fuel (s : sock) : nat := S (S (length (s_sends s))).

(** [chat_with_server]: [false] where the program exits with an error. *)
Fixpoint chat_with_server (fuel : nat) (errno : Z) (stdin s : sock) : res (bool * sock) :=
  match fuel with
  | O => Fault OutOfFuel
  | S fuel =>
      '(r, stdin) ← recv stdin SEND_BUFFER_SIZE;
      match r with
      | IoErr err => Ok (false, close s)
      | IoOk [] => Ok (true, s)
      | IoOk data =>
          if errno =? EINTR then Ok (true, s)
          else
            '(ok, errno, s) ← chat_send (send_fuel s) errno s 0 data;
            if (ok : bool) then chat_with_server fuel errno stdin s else Ok (false, s)
      end
  end.
Definition input_work (s : sock) : nat := S (length (stream (s_in s)) + length (s_in s)).

(** The walk over the addresses of [getaddrinfo]: the first that can be
    connected to; the others' sockets are closed. *)
Fixpoint connect_first (servinfo : list address) : option sock :=
  match servinfo with
  | [] => None
  | p :: servinfo =>
      match ad_socket p with
      | None => connect_first servinfo
      | Some s => if ad_connect p then Some s else connect_first servinfo
      end
  end.

(** [client]: whether it returns 0, and the socket it leaves. *)
Definition client (servinfo : option (list address)) (errno : Z) (stdin : sock)
  : res (bool * option sock) :=
  match servinfo with
  | None => Ok (false, None)
  | Some l =>
      match connect_first l with
      | None => Ok (false, None)
      | Some s =>
          '(ok, s) ← chat_with_server (input_work stdin) errno stdin s;
          mret (ok, Some (close s))
      end
  end.

(** * The server *)

(** [chat_with_client]: [errno], and standard output. *)
Fixpoint chat_with_client (fuel : nat) (errno : Z) (s stdout : sock) : res (Z * sock) :=
  match fuel with
  | O => Fault OutOfFuel
  | S fuel =>
      '(r, s) ← recv s RECV_BUFFER_SIZE;
      match r with
      | IoErr err => Ok (err, stdout)
      | IoOk [] => Ok (errno, stdout)
      | IoOk data =>
          if errno =? EINTR then Ok (errno, stdout)
          else
            '(w, stdout) ← send stdout data;
            match w with
            | IoOk _ => chat_with_client fuel errno s stdout
            | IoErr err =>
                if negb (err =? EINTR) then Ok (err, stdout)
                else chat_with_client fuel err s stdout
            end
      end
  end.

Fixpoint bind_first (servinfo : list address) : option sock :=
  match servinfo with
  | [] => None
  | p :: servinfo =>
      match ad_socket p with
      | None => bind_first servinfo
      | Some s => if ad_setsockopt p && ad_bind p then Some s else bind_first servinfo
      end
  end.

(** The stream [stdout] of the C library over descriptor 1: what has been printed and
    not yet written, whether a newline is written out at once, as on a terminal, or
    the stream is fully buffered, as in a file or a pipe, and the size of its
    buffer. *)
Record stdio := Stdio {
  io_fd : sock; io_buffer : buffer; io_line : bool; io_size : nat }.
Definition set_fd (f : stdio) (s : sock) : stdio := Stdio s (io_buffer f) (io_line f) (io_size f).

(** [printf] of one character: the buffer is written out (in full, the library
    resuming short writes) when it is filled, and on a terminal by a newline. *)
Definition printf_char (c : Z) (f : stdio) : stdio :=
  let b := io_buffer f ++ [c] in
  if (io_line f && (c =? 10)) || (io_size f <=? length b)%nat then
    let s := io_fd f in
    Stdio (Sock (s_in s) (s_sends s) (s_out s ++ b) (s_closed s)) [] (io_line f) (io_size f)
  else Stdio (io_fd f) b (io_line f) (io_size f).

(** What [accept] answers. *)
Inductive accept_event := AcceptOk (s : sock) | AcceptErr (err : Z).

(** The endless loop of [server], over the calls of [accept] that are answered. The
    messages go to descriptor 1 itself, past the buffer of [stdout], to which a
    newline is printed after each. *)
Fixpoint serve (accepts : list accept_event) (errno : Z) (stdout : stdio) : res (Z * stdio) :=
  match accepts with
  | [] => Ok (errno, stdout)
  | AcceptErr err :: accepts => serve accepts err stdout
  | AcceptOk s :: accepts =>
      '(errno, fd) ← chat_with_client (input_work s) errno s (io_fd stdout);
      serve accepts errno (printf_char 10 (set_fd stdout fd))
  end.

(** [server]; [None] where it exits with an error. *)
Definition server (servinfo : option (list address)) (listens : bool)
  (accepts : list accept_event) (errno : Z) (stdout : stdio) : res (option (Z * stdio)) :=
  match servinfo with
  | None => Ok None
  | Some l =>
      match bind_first l with
      | None => Ok None
      | Some _ => if listens then r ← serve accepts errno stdout; mret (Some r) else Ok None
      end
  end.
