(* ===== verification/ChatProps.v ===== *)
(** What the client and the server of sockets/src do for their users, and what a
    left-over [EINTR] makes of it. *)
From S2P Require Import Prelude Sockets Chat.

(** With calls that each take something, everything goes out. *)
Lemma chat_send_ok ns errno s k data fuel :
  s_sends s = map SSent ns -> Forall (fun n => 0 < n)%nat ns -> (k <= length data)%nat ->
  (length data <= k + length ns)%nat -> (length ns < fuel)%nat ->
  exists s' ns', chat_send fuel errno s (Z.of_nat k) data = Ok (true, errno, s') /\
    s_out s' = s_out s ++ drop k data /\ s_sends s' = map SSent ns' /\
    Forall (fun n => 0 < n)%nat ns' /\ (length ns <= length ns' + (length data - k))%nat.
Proof.
  revert s k fuel. induction ns as [|n ns IH]; intros s k fuel Hs Hns Hk Hm Hf;
    (destruct fuel as [|fuel]; [lia|]); cbn [chat_send].
  - simpl in Hm. rewrite (proj2 (Z.ltb_ge _ _)) by lia. exists s, []. split; [done|].
    rewrite drop_ge, app_nil_r by lia. split; [done|]. split; [done|]. split; [done|simpl; lia].
  - destruct (Z.ltb_spec (Z.of_nat k) (Z.of_nat (length data))) as [Hlt|Hge].
    2:{ exists s, (n :: ns). split; [done|]. rewrite drop_ge, app_nil_r by lia.
        split; [done|]. split; [done|]. split; [done|lia]. }
    apply Forall_cons in Hns as [Hn Hns].
    rewrite (proj2 (Z.ltb_ge _ _)) by lia. rewrite Nat2Z.id. cbn [mbind res_bind].
    unfold send. rewrite Hs. cbn [map mbind res_bind].
    set (sent := take n (drop k data)). set (s1 := Sock _ _ _ _).
    assert (Hsent : (0 < length sent)%nat /\ (k + length sent <= length data)%nat)
      by (unfold sent; rewrite length_take, length_drop; lia).
    rewrite <-Nat2Z.inj_add. simpl in Hm, Hf.
    destruct (IH s1 (k + length sent)%nat fuel) as (s' & ns' & E & Ho & Hs' & Hp & Hl);
      [done|done|lia|lia|lia|].
    exists s', ns'. split; [exact E|]. split; [|split; [done|split; [done|simpl; lia]]].
    rewrite Ho. cbn [s_out s1]. rewrite <-app_assoc. f_equal. unfold sent.
    rewrite length_take, <-drop_drop, length_drop.
    destruct (Nat.le_gt_cases n (length data - k)) as [Hle|Hgt].
    + rewrite Nat.min_l by done. apply take_drop.
    + rewrite Nat.min_r, take_ge, (drop_ge (drop k data)), app_nil_r
        by (rewrite ?length_drop; lia). done.
Qed.

(** The client sends its whole input. *)
Lemma chat_with_server_ok fuel errno stdin s pieces ns :
  s_in stdin = pieces ++ [REof] -> pieces_ok pieces ->
  (length (stream pieces) + length pieces < fuel)%nat -> errno <> EINTR ->
  s_sends s = map SSent ns -> Forall (fun n => 0 < n)%nat ns ->
  (length (stream pieces) <= length ns)%nat ->
  exists s', chat_with_server fuel errno stdin s = Ok (true, s') /\
    s_out s' = s_out s ++ stream pieces.
Proof.
  revert stdin s pieces ns. induction fuel as [|fuel IH];
    intros stdin s pieces ns Hin Hp Hf He Hs Hns Hl; [lia|]. cbn [chat_with_server].
  destruct (decide (pieces = [])) as [->|Hne].
  { unfold recv. rewrite Hin. exists s. cbn. by rewrite app_nil_r. }
  destruct (recv_piece stdin SEND_BUFFER_SIZE pieces [REof] Hin Hp Hne)
    as (data & pieces' & E & Hd & _ & Hp' & Hst & Hlt); [apply Nat.ltb_lt; reflexivity|].
  rewrite E, res_bind_ok. destruct data as [|x data]; [done|].
  rewrite (proj2 (Z.eqb_neq _ _) He), Hst. rewrite Hst, length_app in Hl.
  destruct (chat_send_ok ns errno s 0 (x :: data) (send_fuel s)) as (s1 & ns1 & E1 & O1 & S1 & P1 & L1);
    [done|done|lia|lia|unfold send_fuel; rewrite Hs, length_map; lia|].
  change (Z.of_nat 0) with 0 in E1. rewrite E1, res_bind_ok.
  destruct (IH (Sock (pieces' ++ [REof]) (s_sends stdin) (s_out stdin) (s_closed stdin)) s1 pieces' ns1)
    as (s' & E2 & O2); [done|done|lia|done|done|done|lia|].
  exists s'. rewrite E2, O2, O1, drop_0. split; [done|]. by rewrite app_assoc.
Qed.

(** The server writes the whole message, when its output takes what it is given. *)
Lemma chat_with_client_ok fuel errno s stdout pieces ns :
  s_in s = pieces ++ [REof] -> pieces_ok pieces ->
  (length (stream pieces) + length pieces < fuel)%nat -> errno <> EINTR ->
  s_sends stdout = map SSent ns -> Forall (fun n => RECV_BUFFER_SIZE <= n)%nat ns ->
  (length (stream pieces) <= length ns)%nat ->
  exists stdout' ns', chat_with_client fuel errno s stdout = Ok (errno, stdout') /\
    s_out stdout' = s_out stdout ++ stream pieces /\ s_sends stdout' = map SSent ns' /\
    Forall (fun n => RECV_BUFFER_SIZE <= n)%nat ns' /\
    (length ns <= length ns' + length (stream pieces))%nat.
Proof.
  revert s stdout pieces ns. induction fuel as [|fuel IH];
    intros s stdout pieces ns Hin Hp Hf He Hs Hns Hl; [lia|]. cbn [chat_with_client].
  destruct (decide (pieces = [])) as [->|Hne].
  { unfold recv. rewrite Hin. exists stdout, ns. cbn. rewrite app_nil_r.
    do 4 (split; [done|]). lia. }
  destruct (recv_piece s RECV_BUFFER_SIZE pieces [REof] Hin Hp Hne)
    as (data & pieces' & E & Hd & Hlen & Hp' & Hst & Hlt); [apply Nat.ltb_lt; reflexivity|].
  rewrite E, res_bind_ok. destruct data as [|x data]; [done|].
  rewrite (proj2 (Z.eqb_neq _ _) He), Hst. rewrite Hst, length_app in Hl.
  destruct ns as [|n ns]; [simpl in Hl; lia|]. apply Forall_cons in Hns as [Hn Hns].
  unfold send. rewrite Hs. cbn [map]. rewrite res_bind_ok, take_ge by lia.
  edestruct (IH (Sock (pieces' ++ [REof]) (s_sends s) (s_out s) (s_closed s))
    (Sock (s_in stdout) (map SSent ns) (s_out stdout ++ x :: data) (s_closed stdout)) pieces' ns)
    as (s' & ns' & E2 & O2 & S2 & P2 & L2); [done|done|lia|done|done|done|simpl in Hl; lia|].
  exists s', ns'. rewrite E2, O2. split; [done|]. cbn [s_out]. rewrite <-app_assoc.
  do 3 (split; [done|]). rewrite length_app. simpl. lia.
Qed.

(** A message arrives whole at the server, in whatever pieces. *)
Definition arrives (m : buffer) (peer : sock) : Prop :=
  exists pieces, s_in peer = pieces ++ [REof] /\ pieces_ok pieces /\ stream pieces = m.

(** What a sequence of messages makes of the output: on a terminal, and in a file as
    long as the newlines fit the buffer of [stdout]. *)
Lemma serve_ok errno : forall ms peers stdout ns,
  Forall2 arrives ms peers -> errno <> EINTR ->
  s_sends (io_fd stdout) = map SSent ns -> Forall (fun n => RECV_BUFFER_SIZE <= n)%nat ns ->
  (length (concat ms) <= length ns)%nat ->
  (io_line stdout = true -> io_buffer stdout = []) ->
  (io_line stdout = false -> (length (io_buffer stdout) + length ms < io_size stdout)%nat) ->
  exists stdout', serve (map AcceptOk peers) errno stdout = Ok (errno, stdout') /\
    s_out (io_fd stdout') = s_out (io_fd stdout) ++
      concat (map (fun m => if io_line stdout then m ++ [10] else m) ms) /\
    io_buffer stdout' = io_buffer stdout ++
      (if io_line stdout then [] else replicate (length ms) 10).
Proof.
  intros ms peers stdout ns H. revert stdout ns.
  induction H as [|m peer ms peers (pieces & Hin & Hp & <-) _ IH]; intros stdout ns He Hs Hns Hl Ht Hb.
  { exists stdout. cbn. rewrite !app_nil_r. split; [done|]. split; [done|].
    destruct (io_line stdout); by rewrite app_nil_r. }
  cbn [concat] in Hl. rewrite length_app in Hl. cbn [map serve].
  destruct (chat_with_client_ok (input_work peer) errno peer (io_fd stdout) pieces ns)
    as (fd & ns' & E & O & S & P & L); [done|done| |done|done|done|lia|].
  { unfold input_work. rewrite Hin, stream_app, !length_app. simpl. lia. }
  rewrite E, res_bind_ok. unfold printf_char. cbn [set_fd io_line io_buffer io_size io_fd].
  destruct (io_line stdout) eqn:Eline; cbn [andb orb Z.eqb Pos.eqb].
  - rewrite (Ht eq_refl). cbn [app].
    destruct (IH (Stdio (Sock (s_in fd) (s_sends fd) (s_out fd ++ [10]) (s_closed fd)) []
      (io_line stdout) (io_size stdout)) ns') as (stdout' & E' & O' & B');
      [done|done|done|lia|done|cbn; congruence|].
    cbn [io_line io_fd io_buffer s_out] in *. rewrite Eline in *. exists stdout'. split; [exact E'|].
    cbn [map concat]. rewrite O', O, B', <-!app_assoc. done.
  - rewrite (proj2 (Nat.leb_gt _ _)) by (rewrite length_app; specialize (Hb eq_refl); simpl in *; lia).
    destruct (IH (Stdio fd (io_buffer stdout ++ [10]) (io_line stdout) (io_size stdout)) ns')
      as (stdout' & E' & O' & B'); [done|done|done|lia|cbn; congruence| |].
    { intros _. cbn. specialize (Hb eq_refl). rewrite length_app. simpl in *. lia. }
    cbn [io_line io_fd io_buffer] in *. rewrite Eline in *. exists stdout'. split; [exact E'|].
    cbn [map concat]. rewrite O', O, B', <-!app_assoc. done.
Qed.

(** C35: What is typed at the client comes out at the server. However the client's
    input, its single sends and the server's receives are cut, and when no call is
    interrupted, the client sends its whole input and returns 0. A server that
    receives any sequence of messages, when its [write]s take what they are given
    (the code does not resume a short one), puts out exactly their bytes, in order:
    on a terminal with a newline after each; but redirected into a file, as the
    README runs it, without any newline between them, because these wait in the
    buffer of [stdout], which is never flushed, until they fill it. *)
Theorem chat_delivers stdin s typed ns errno :
  s_in stdin = typed ++ [REof] -> pieces_ok typed -> errno <> EINTR ->
  s_sends s = map SSent ns -> Forall (fun n => 0 < n)%nat ns ->
  (length (stream typed) <= length ns)%nat -> s_out s = [] ->
  (exists s', client (Some [Address (Some s) true true true]) errno stdin = Ok (true, Some s') /\
     s_closed s' = true /\ s_out s' = stream typed) /\
  forall messages peers listener fd size sizes,
    Forall2 arrives messages peers ->
    s_sends fd = map SSent sizes -> Forall (fun n => RECV_BUFFER_SIZE <= n)%nat sizes ->
    (length (concat messages) <= length sizes)%nat ->
    let run line := server (Some [Address (Some listener) true true true]) true
      (map AcceptOk peers) errno (Stdio fd [] line size) in
    (exists stdout, run true = Ok (Some (errno, stdout)) /\
       s_out (io_fd stdout) = s_out fd ++ concat (map (fun m => m ++ [10]) messages)) /\
    ((length messages < size)%nat ->
     exists stdout, run false = Ok (Some (errno, stdout)) /\
       s_out (io_fd stdout) = s_out fd ++ concat messages /\
       io_buffer stdout = replicate (length messages) 10).
Proof.
  intros Hin Hp He Hs Hns Hl Ho. split.
  - destruct (chat_with_server_ok (input_work stdin) errno stdin s typed ns) as (s1 & E & O1);
      [done|done| |done|done|done|done|].
    { unfold input_work. rewrite Hin, stream_app, !length_app. simpl. lia. }
    exists (close s1). unfold client. cbn [connect_first ad_socket ad_connect].
    rewrite E, res_bind_ok. split; [done|]. split; [done|].
    cbn [close s_out]. by rewrite O1, Ho, app_nil_l.
  - intros messages peers listener fd size sizes Har Hsz Hpos Hlen run.
    assert (Hrun : forall line, run line =
      (r ← serve (map AcceptOk peers) errno (Stdio fd [] line size); mret (Some r))) by done.
    split.
    + destruct (serve_ok errno messages peers (Stdio fd [] true size) sizes)
        as (stdout & E & O & _); [done..|].
      exists stdout. rewrite Hrun, E. by rewrite O.
    + intros Hfit. destruct (serve_ok errno messages peers (Stdio fd [] false size) sizes)
        as (stdout & E & O & B); [done..|].
      exists stdout. rewrite Hrun, E, O. cbn. rewrite map_id. done.
Qed.

(** Two clients' messages, on a terminal and in a file. *)
Definition demo_input : sock := Sock [RData (str "hel"); RData (str "lo"); REof] [] [] false.
Definition demo_socket : sock := Sock [] (map SSent [2; 1; 1; 5; 9]%nat) [] false.
Definition demo_peers : list sock :=
  [Sock [RData (str "h"); RData (str "ello"); REof] [] [] false;
   Sock [RData (str "you"); REof] [] [] false].
Definition demo_out : sock := Sock [] (map SSent (replicate 8 RECV_BUFFER_SIZE)) [] false.

Lemma chat_delivers_witness :
  (exists s', client (Some [Address (Some demo_socket) true true true]) 0 demo_input =
     Ok (true, Some s') /\ s_out s' = str "hello") /\
  (exists stdout, server (Some [Address (Some demo_out) true true true]) true
       (map AcceptOk demo_peers) 0 (Stdio demo_out [] true 4096) = Ok (Some (0, stdout)) /\
     s_out (io_fd stdout) = str "hello" ++ [10] ++ str "you" ++ [10]) /\
  exists stdout, server (Some [Address (Some demo_out) true true true]) true
       (map AcceptOk demo_peers) 0 (Stdio demo_out [] false 4096) = Ok (Some (0, stdout)) /\
     s_out (io_fd stdout) = str "helloyou".
Proof.
  destruct (chat_delivers demo_input demo_socket [RData (str "hel"); RData (str "lo")]
    [2; 1; 1; 5; 9]%nat 0) as [(s' & E & _ & O) H];
    [reflexivity|by repeat constructor|discriminate|reflexivity|repeat constructor; lia|
     apply Nat.leb_le; reflexivity|reflexivity|].
  destruct (H [str "hello"; str "you"] demo_peers demo_out demo_out 4096%nat
    (replicate 8 RECV_BUFFER_SIZE)) as [(out1 & E1 & O1) H2].
  - constructor; [|constructor; [|constructor]].
    + exists [RData (str "h"); RData (str "ello")]. split; [reflexivity|]. split; [by repeat constructor|reflexivity].
    + exists [RData (str "you")]. split; [reflexivity|]. split; [by repeat constructor|reflexivity].
  - reflexivity.
  - apply Forall_replicate. apply Nat.leb_le. reflexivity.
  - apply Nat.leb_le. reflexivity.
  - destruct H2 as (out2 & E2 & O2 & _); [apply Nat.ltb_lt; vm_compute; reflexivity|].
    split; [exists s'; exact (conj E O)|].
    split; [exists out1; exact (conj E1 O1)|exists out2; exact (conj E2 O2)].
Defined.

(** An [errno] left at [EINTR], as by an interrupted [accept], loses the next
    client's whole message, and stays. *)
Theorem stale_errno_loses_message accepts s pieces stdout :
  s_in s = pieces ++ [REof] -> pieces_ok pieces -> stream pieces <> [] ->
  serve (AcceptErr EINTR :: AcceptOk s :: accepts) 0 stdout =
    serve accepts EINTR (printf_char 10 stdout).
Proof.
  intros Hin Hp Hne. cbn [serve]. unfold input_work. cbn [Nat.add chat_with_client].
  destruct (recv_piece s RECV_BUFFER_SIZE pieces [REof] Hin Hp)
    as (data & pieces' & E & Hd & _); [by intros ->|apply Nat.ltb_lt; reflexivity|].
  rewrite E, res_bind_ok. destruct data; [done|]. by destruct stdout.
Qed.
