(* ===== verification/CString.v ===== *)
(** The C string functions the HTTP proxy uses, on the contents of strings: a
    pointer into a string is the suffix that starts there. *)
From S2P Require Import Prelude.

(** The string that starts a region of memory: up to the first NUL; reading
    past the region is out of bounds. *)
Fixpoint c_str (mem : buffer) : res buffer :=
  match mem with
  | [] => Fault OutOfBounds
  | b :: mem => if b =? 0 then Ok [] else s ← c_str mem; mret (b :: s)
  end.

Definition c_string (s : buffer) : Prop := Forall (fun b => b <> 0) s.

(** [strncmp(s, pat, strlen(pat)) == 0] *)
Fixpoint is_prefix (pat s : buffer) : bool :=
  match pat, s with
  | [], _ => true
  | p :: pat, c :: s => (p =? c) && is_prefix pat s
  | _ :: _, [] => false
  end.

(** [strcmp(a, b) == 0] *)
Definition strcmp_eq (a b : buffer) : bool := bool_decide (a = b).

(** [strstr(s, pat)] and [index(s, c)]: what precedes the match, and the match
    with what follows. *)
Fixpoint strstr (s pat : buffer) : option (buffer * buffer) :=
  if is_prefix pat s then Some ([], s)
  else match s with
  | [] => None
  | c :: s => '(a, b) ← strstr s pat; Some (c :: a, b)
  end.
Definition index (s : buffer) (c : Z) : option (buffer * buffer) := strstr s [c].

(** [strspn] and [strcspn] *)
Fixpoint strspn (accept s : buffer) : nat :=
  match s with
  | c :: s => if bool_decide (c ∈ accept) then S (strspn accept s) else O
  | [] => O
  end.
Fixpoint strcspn (reject s : buffer) : nat :=
  match s with
  | c :: s => if bool_decide (c ∈ reject) then O else S (strcspn reject s)
  | [] => O
  end.

(** [strtok_r]: [None] when there is no token; otherwise the number of delimiters
    skipped, the token, and what follows the delimiter that ended it ([None]
    when the string did). *)
Definition strtok (s delim : buffer) : option (nat * buffer * option buffer) :=
  let k := strspn delim s in
  let s := drop k s in
  match s with
  | [] => None
  | _ =>
      let n := strcspn delim s in
      Some (k, take n s, if (n <? length s)%nat then Some (drop (S n) s) else None)
  end.
(** The string that the next call with a null pointer continues. *)
Definition saved (rest : option buffer) : buffer :=
  match rest with Some s => s | None => [] end.

(** [strtol(s, NULL, 10)] on a 64-bit [long]: the value, and whether it is out of
    range. *)
Definition is_space (c : Z) : bool := (c =? 32) || ((9 <=? c) && (c <=? 13)).
Definition is_digit (c : Z) : bool := (48 <=? c) && (c <=? 57).
Fixpoint digits (acc : Z) (s : buffer) : Z :=
  match s with
  | c :: s => if is_digit c then digits (10 * acc + (c - 48)) s else acc
  | [] => acc
  end.
Fixpoint skip_space (s : buffer) : buffer :=
  match s with
  | c :: s' => if is_space c then skip_space s' else s
  | [] => []
  end.
Definition strtol (s : buffer) : Z * bool :=
  let s := skip_space s in
  let v := match s with
    | c :: s' => if c =? 45 then - digits 0 s' else if c =? 43 then digits 0 s' else digits 0 s
    | [] => 0
    end in
  if v >? 2 ^ 63 - 1 then (2 ^ 63 - 1, true)
  else if v <? - 2 ^ 63 then (- 2 ^ 63, true)
  else (v, false).

(** * Laws *)

Lemma c_str_app s rest : c_string s -> c_str (s ++ 0 :: rest) = Ok s.
Proof.
  induction 1 as [|b s Hb Hs IH]; [done|]. cbn [app c_str].
  destruct (Z.eqb_spec b 0); [done|]. by rewrite IH.
Qed.

(** What [c_str] returns is the part before the first NUL. *)
Lemma c_str_inv mem s : c_str mem = Ok s -> c_string s /\ exists rest, mem = s ++ 0 :: rest.
Proof.
  revert s. induction mem as [|b mem IH]; intros s; [done|]. cbn [c_str].
  destruct (Z.eqb_spec b 0) as [->|Hb].
  - intros [= <-]. split; [constructor|]. by exists mem.
  - destruct (c_str mem) as [s'|] eqn:E; [|done]. intros [= <-].
    destruct (IH s' eq_refl) as [Hs [rest ->]]. split; [by constructor|]. by exists rest.
Qed.

Lemma is_prefix_spec pat s : is_prefix pat s = true <-> exists r, s = pat ++ r.
Proof.
  revert s. induction pat as [|p pat IH]; intros s; cbn [is_prefix].
  - split; [intros _; by exists s|done].
  - destruct s as [|c s]; [split; [done|intros [r ?]; done]|].
    rewrite andb_true_iff, Z.eqb_eq, IH. split.
    + intros [-> [r ->]]. by exists r.
    + intros [r [= -> ->]]. eauto.
Qed.

Lemma is_prefix_app pat r : is_prefix pat (pat ++ r) = true.
Proof. apply is_prefix_spec. by exists r. Qed.

(** A match splits the string, and there is none earlier. *)
Lemma strstr_inv s pat a b :
  strstr s pat = Some (a, b) -> s = a ++ b /\ is_prefix pat b = true.
Proof.
  revert a b. induction s as [|c s IH]; intros a b; cbn [strstr].
  - destruct (is_prefix pat []) eqn:E; [|done]. by intros [= <- <-].
  - destruct (is_prefix pat (c :: s)) eqn:E; [by intros [= <- <-]|].
    destruct (strstr s pat) as [[a' b']|] eqn:Es; [|done]. intros [= <- <-].
    destruct (IH a' b' eq_refl) as [-> H]. done.
Qed.

(** The first element of the pattern does not occur before the match. *)
Lemma strstr_skip a p pat r :
  p ∉ a -> strstr (a ++ (p :: pat) ++ r) (p :: pat) = Some (a, (p :: pat) ++ r).
Proof.
  induction a as [|c a IH]; intros Hn.
  - cbn [app]. unfold strstr. change (p :: pat ++ r) with ((p :: pat) ++ r).
    by rewrite is_prefix_app.
  - apply not_elem_of_cons in Hn as [Hc Hn].
    change ((c :: a) ++ (p :: pat) ++ r) with (c :: (a ++ (p :: pat) ++ r)).
    cbn [strstr]. cbn [is_prefix]. destruct (Z.eqb_spec p c); [done|]. cbn [andb].
    by rewrite IH.
Qed.

Lemma index_skip a c r : c ∉ a -> index (a ++ c :: r) c = Some (a, c :: r).
Proof. apply (strstr_skip a c []). Qed.

Lemma index_none s c : c ∉ s -> index s c = None.
Proof.
  unfold index. induction s as [|d s IH]; intros Hn; [done|].
  apply not_elem_of_cons in Hn as [Hd Hn]. cbn [strstr is_prefix].
  destruct (Z.eqb_spec c d); [done|]. cbn [andb]. by rewrite IH.
Qed.

(** [k] does not occur in [s], as a string of others. *)
Definition free_of (ks s : buffer) : Prop := Forall (fun c => c ∉ ks) s.

#[export] Instance free_of_dec ks s : Decision (free_of ks s).
Proof. unfold free_of. apply _. Defined.

Lemma free_of_not ks s k : free_of ks s -> k ∈ ks -> k ∉ s.
Proof. unfold free_of. rewrite Forall_forall. intros H Hk Hs. by apply (H k Hs). Qed.

Lemma free_of_app ks a b : free_of ks (a ++ b) <-> free_of ks a /\ free_of ks b.
Proof. apply Forall_app. Qed.

Lemma free_of_sub ks js s : free_of ks s -> js ⊆ ks -> free_of js s.
Proof. intros H Hs. eapply Forall_impl; [exact H|]. cbn. set_solver. Qed.

Lemma strcspn_free ks s r :
  free_of ks s -> (match r with [] => True | c :: _ => c ∈ ks end) ->
  strcspn ks (s ++ r) = length s.
Proof.
  induction 1 as [|c s Hc Hs IH]; intros Hr; cbn [app strcspn length].
  - destruct r as [|c r]; [done|]. cbn. by rewrite bool_decide_true.
  - rewrite bool_decide_false by done. by rewrite IH.
Qed.

Lemma strspn_free ks s : (match s with [] => True | c :: _ => c ∉ ks end) -> strspn ks s = O.
Proof. destruct s; [done|]. intros H. cbn. by rewrite bool_decide_false. Qed.

(** A token followed by a delimiter, and one at the end of the string. *)
Lemma strtok_delim s d ks r :
  free_of ks s -> s <> [] -> d ∈ ks -> strtok (s ++ d :: r) ks = Some (0%nat, s, Some r).
Proof.
  intros Hs Hn Hd. unfold strtok. destruct s as [|c s]; [done|].
  rewrite strspn_free by (by apply Forall_cons in Hs as [? _]). rewrite drop_0.
  cbn [app]. change (c :: s ++ d :: r) with ((c :: s) ++ d :: r).
  rewrite strcspn_free by done. rewrite take_app_length.
  rewrite (proj2 (Nat.ltb_lt _ _)) by (rewrite length_app; simpl; lia).
  rewrite <-Nat.add_1_r, <-drop_drop, drop_app_length. done.
Qed.

Lemma strtok_end s ks :
  free_of ks s -> s <> [] -> strtok s ks = Some (0%nat, s, None).
Proof.
  intros Hs Hn. unfold strtok. destruct s as [|c s]; [done|].
  rewrite strspn_free by (by apply Forall_cons in Hs as [? _]). rewrite drop_0.
  rewrite <-(app_nil_r (c :: s)), strcspn_free by done. rewrite app_nil_r, firstn_all.
  by rewrite (proj2 (Nat.ltb_ge _ _)).
Qed.

(** Delimiters in front are skipped. *)
Lemma strtok_skip d s ks :
  d ∈ ks -> strtok (d :: s) ks =
    match strtok s ks with Some (k, t, r) => Some (S k, t, r) | None => None end.
Proof.
  intros Hd. unfold strtok. cbn [strspn]. rewrite bool_decide_true by done.
  cbn [drop]. by destruct (drop (strspn ks s) s).
Qed.
