(* ===== verification/CStdio.v ===== *)
(** More of the C library, for the programs that print and scan: numbers in
    decimal and hexadecimal, [sscanf] of a number, [fgets], [strrchr] and
    [strncpy]. *)
From S2P Require Import Prelude CString.

(** * Printing numbers *)

(** The digits of [n] in base [b], in front of [acc]. *)
Fixpoint print_digits (fuel : nat) (b n : Z) (digit : Z -> Z) (acc : buffer) : buffer :=
  match fuel with
  | O => acc
  | S fuel =>
      let acc := digit (n mod b) :: acc in
      if n / b =? 0 then acc else print_digits fuel b (n / b) digit acc
  end.
Definition print_fuel (n : Z) : nat := S (Z.to_nat (Z.log2 n)).

(** [%u], [%lu] and [%d] of a number that is not negative. *)
Definition dec (n : Z) : buffer := print_digits (print_fuel n) 10 n (fun d => 48 + d) [].
(** [%d] *)
Definition dec_signed (n : Z) : buffer := if n <? 0 then 45 :: dec (- n) else dec n.
(** [%02X] of a byte *)
Definition hex_digit (d : Z) : Z := if d <? 10 then 48 + d else 55 + d.
Definition hex2 (b : Z) : buffer := [hex_digit (b / 16); hex_digit (b mod 16)].

(** * Scanning numbers *)

(** [sscanf(s, "%d", &n)] and [sscanf(s, "%u", &n)]: what is stored, if the
    conversion takes place. The number is read as a [long], at whose ends it
    stays, and cut to its type. *)
Definition starts_number (s : buffer) : bool :=
  match skip_space s with
  | c :: s' =>
      if (c =? 45) || (c =? 43) then match s' with d :: _ => is_digit d | [] => false end
      else is_digit c
  | [] => false
  end.
Definition scan_d (s : buffer) : option Z :=
  if starts_number s then Some (i32 (fst (strtol s))) else None.
Definition scan_u (s : buffer) : option Z :=
  if starts_number s then Some (u32 (fst (strtol s))) else None.
(** [atoi] *)
Definition atoi (s : buffer) : Z := i32 (fst (strtol s)).

(** * Strings and lines *)

(** [strrchr(s, c)]: what precedes the last [c], and what follows it. *)
Fixpoint strrchr (s : buffer) (c : Z) : option (buffer * buffer) :=
  match s with
  | [] => None
  | x :: s' =>
      match strrchr s' c with
      | Some (a, b) => Some (x :: a, b)
      | None => if x =? c then Some ([], s') else None
      end
  end.

(** The length of the first line of a text, its newline included. *)
Fixpoint line_length (s : buffer) : nat :=
  match s with
  | [] => O
  | c :: s => if c =? 10 then 1%nat else S (line_length s)
  end.

(** [fgets] into an array of [n] bytes: the string stored and what is left;
    [None] at the end of the input. *)
Definition fgets (n : nat) (input : buffer) : option (buffer * buffer) :=
  match input with
  | [] => None
  | _ => let k := Nat.min (n - 1) (line_length input) in Some (take k input, drop k input)
  end.

(** A string without the white space at its end. *)
Fixpoint strip_end (s : buffer) : buffer :=
  match s with
  | [] => []
  | c :: s =>
      match strip_end s with
      | [] => if is_space c then [] else [c]
      | t => c :: t
      end
  end.

(** What [strncpy] of [s] leaves in the first [n] bytes of its destination. *)
Definition strncpy (n : nat) (s : buffer) : buffer :=
  take n s ++ replicate (n - length s) 0.

(** * Laws *)

Lemma print_digits_app fuel b n f acc :
  print_digits fuel b n f acc = print_digits fuel b n f [] ++ acc.
Proof.
  revert n acc. induction fuel as [|fuel IH]; intros n acc; [done|]. cbn [print_digits].
  destruct (n / b =? 0); [done|]. by rewrite IH, (IH _ [_]), <-app_assoc.
Qed.

Lemma print_fuel_enough n : 0 <= n -> n < 10 ^ Z.of_nat (print_fuel n).
Proof.
  intros Hn. unfold print_fuel. destruct (Z.eq_dec n 0) as [->|Hp]; [reflexivity|].
  pose proof (Z.log2_spec n ltac:(lia)) as [_ H]. pose proof (Z.log2_nonneg n).
  rewrite Nat2Z.inj_succ, Z2Nat.id by done.
  eapply Z.lt_le_trans; [exact H|]. apply Z.pow_le_mono_l. lia.
Qed.

(** The digits of a number, as they are printed. *)
Lemma print_digits_ok fuel n :
  0 <= n < 10 ^ Z.of_nat fuel -> (0 < fuel)%nat ->
  let s := print_digits fuel 10 n (fun d => 48 + d) [] in
  Forall (fun c => is_digit c = true) s /\ s <> [] /\
  (forall acc rest, (match rest with c :: _ => is_digit c = false | [] => True end) ->
    digits acc (s ++ rest) = acc * 10 ^ Z.of_nat (length s) + n).
Proof.
  revert n. induction fuel as [|fuel IH]; intros n Hn Hf; [lia|].
  cbn [print_digits]. pose proof (Z.mod_pos_bound n 10 ltac:(lia)) as Hm.
  assert (Hd : is_digit (48 + n mod 10) = true)
    by (unfold is_digit; apply andb_true_iff; split; apply Z.leb_le; lia).
  assert (Hone : forall acc rest, (match rest with c :: _ => is_digit c = false | [] => True end) ->
    digits acc ((48 + n mod 10) :: rest) = acc * 10 + n mod 10).
  { intros acc rest Hr. cbn [digits]. rewrite Hd. replace (48 + n mod 10 - 48) with (n mod 10) by lia.
    destruct rest as [|c rest]; cbn [digits]; [lia|]. rewrite Hr. lia. }
  destruct (Z.eqb_spec (n / 10) 0) as [Hz|Hz].
  - split; [by constructor|]. split; [done|]. intros acc rest Hr. cbn [app length].
    rewrite Hone by done. pose proof (Z_div_mod_eq_full n 10). lia.
  - assert (Hq : 0 <= n / 10 < 10 ^ Z.of_nat fuel).
    { rewrite Nat2Z.inj_succ, Z.pow_succ_r in Hn by lia. split; [apply Z.div_pos; lia|].
      apply Z.div_lt_upper_bound; lia. }
    assert (Hf' : (0 < fuel)%nat).
    { destruct fuel; [|lia]. change (10 ^ Z.of_nat 0) with 1 in Hq. lia. }
    rewrite print_digits_app. destruct (IH (n / 10) Hq Hf') as (H1 & H2 & H3).
    set (s := print_digits fuel 10 (n / 10) _ []) in *.
    split; [apply Forall_app; split; [done|by constructor]|]. split; [by destruct s|].
    intros acc rest Hr. rewrite <-app_assoc. cbn [app].
    assert (Hs : forall t a, Forall (fun c => is_digit c = true) t ->
      digits a (t ++ (48 + n mod 10) :: rest) = digits (digits a t) ((48 + n mod 10) :: rest)).
    { intros t. induction t as [|c t IHt]; intros a Ht; [done|].
      apply Forall_cons in Ht as [Hc Ht]. cbn [app digits]. rewrite Hc. by apply IHt. }
    rewrite Hs, Hone by done. pose proof (H3 acc [] I) as H4. rewrite app_nil_r in H4.
    rewrite H4, length_app. cbn [length]. rewrite Nat2Z.inj_add, Z.pow_add_r by lia.
    change (10 ^ Z.of_nat 1) with 10. pose proof (Z_div_mod_eq_full n 10). lia.
Qed.

Lemma dec_digits n : 0 <= n -> Forall (fun c => is_digit c = true) (dec n) /\ dec n <> [].
Proof.
  intros Hn. destruct (print_digits_ok (print_fuel n) n) as (H1 & H2 & _).
  - split; [done|]. by apply print_fuel_enough.
  - unfold print_fuel. lia.
  - done.
Qed.

Lemma length_dec n k :
  0 <= n < 10 ^ Z.of_nat k -> (0 < k)%nat -> (length (dec n) <= k)%nat.
Proof.
  unfold dec. generalize (print_fuel n). intros fuel. revert n k.
  induction fuel as [|fuel IH]; intros n k Hn Hk; [simpl; lia|]. cbn [print_digits].
  destruct (Z.eqb_spec (n / 10) 0) as [_|Hz]; [simpl; lia|].
  rewrite print_digits_app, length_app. cbn [length]. destruct k as [|k]; [lia|].
  rewrite Nat2Z.inj_succ, Z.pow_succ_r in Hn by lia.
  assert (Hq : 0 <= n / 10 < 10 ^ Z.of_nat k)
    by (split; [apply Z.div_pos; lia|apply Z.div_lt_upper_bound; lia]).
  assert (Hk' : (0 < k)%nat) by (destruct k; [change (10 ^ Z.of_nat 0) with 1 in Hq; lia|lia]).
  specialize (IH (n / 10) k Hq Hk'). lia.
Qed.

Lemma digits_dec n rest :
  0 <= n -> (match rest with c :: _ => is_digit c = false | [] => True end) ->
  digits 0 (dec n ++ rest) = n.
Proof.
  intros Hn Hr. destruct (print_digits_ok (print_fuel n) n) as (_ & _ & H3).
  - split; [done|]. by apply print_fuel_enough.
  - unfold print_fuel. lia.
  - unfold dec. rewrite H3 by done. lia.
Qed.

(** A number that fits is scanned as it was printed, whatever follows it. *)
Lemma strtol_dec n rest :
  0 <= n < 2 ^ 63 -> (match rest with c :: _ => is_digit c = false | [] => True end) ->
  strtol (dec n ++ rest) = (n, false) /\ starts_number (dec n ++ rest) = true.
Proof.
  intros Hn Hr. pose proof (digits_dec n rest ltac:(lia) Hr) as Hd.
  destruct (dec_digits n ltac:(lia)) as [Ha Hne].
  unfold strtol, starts_number. destruct (dec n) as [|c s]; [done|].
  apply Forall_cons in Ha as [Hc _]. cbn [app] in *.
  assert (Hr1 : 48 <= c <= 57)
    by (unfold is_digit in Hc; apply andb_true_iff in Hc as [H1 H2]; lia).
  assert (Hsp : is_space c = false).
  { unfold is_space. apply orb_false_iff. split; [apply Z.eqb_neq; lia|].
    apply andb_false_iff. right. apply Z.leb_gt. lia. }
  cbn [skip_space]. rewrite Hsp. rewrite (proj2 (Z.eqb_neq c 45)), (proj2 (Z.eqb_neq c 43)) by lia.
  cbn [orb]. rewrite Hc, Hd. split; [|done].
  rewrite Z.gtb_ltb, (proj2 (Z.ltb_ge _ _)) by lia. by rewrite (proj2 (Z.ltb_ge _ _)) by lia.
Qed.

Lemma scan_d_dec n rest :
  0 <= n < 2 ^ 31 -> (match rest with c :: _ => is_digit c = false | [] => True end) ->
  scan_d (dec n ++ rest) = Some n.
Proof.
  intros Hn Hr. destruct (strtol_dec n rest) as [H1 H2]; [lia|done|].
  unfold scan_d. rewrite H2, H1. unfold i32. cbn [fst].
  change (2 ^ 31) with 2147483648 in *. rewrite u32_small by lia.
  by destruct (Z.ltb_spec n 2147483648); [|lia].
Qed.

Lemma strrchr_last a c b : c ∉ b -> strrchr (a ++ c :: b) c = Some (a, b).
Proof.
  intros Hb. assert (Hn : strrchr b c = None).
  { induction b as [|x b IH]; [done|]. apply not_elem_of_cons in Hb as [Hx Hb]. cbn [strrchr].
    rewrite IH by done. by destruct (Z.eqb_spec x c). }
  induction a as [|x a IH]; cbn [app strrchr]; [by rewrite Hn, Z.eqb_refl|]. by rewrite IH.
Qed.

Lemma strrchr_none s c : strrchr s c = None <-> c ∉ s.
Proof.
  induction s as [|x s IH]; cbn [strrchr]; [split; [intros _; apply not_elem_of_nil|done]|].
  rewrite not_elem_of_cons, <-IH. destruct (strrchr s c) as [[a b]|].
  - split; [done|]. intros [_ H]. done.
  - destruct (Z.eqb_spec x c) as [->|Hne].
    + split; [done|]. by intros [? _].
    + split; [|done]. intros _. split; [congruence|done].
Qed.

Lemma line_length_bound s : s <> [] -> (1 <= line_length s <= length s)%nat.
Proof.
  induction s as [|c s IH]; intros Hs; [done|]. cbn [line_length length].
  destruct (c =? 10); [lia|]. destruct s as [|d s]; [cbn; lia|]. specialize (IH ltac:(done)). lia.
Qed.

(** [fgets] consumes what it returns, and something whenever there is input. *)
Lemma fgets_ok n input line rest :
  (2 <= n)%nat -> fgets n input = Some (line, rest) ->
  input = line ++ rest /\ line <> [] /\ (length line < n)%nat.
Proof.
  intros Hn. unfold fgets. destruct input as [|c input]; [done|].
  pose proof (line_length_bound (c :: input) ltac:(done)) as Hl.
  set (k := Nat.min _ _). assert (Hk : (1 <= k < n)%nat) by lia. clearbody k. clear Hl.
  intros [= <- <-]. split; [by rewrite take_drop|].
  split; [destruct k; [lia|done]|]. rewrite length_take. lia.
Qed.

Lemma line_length_line l rest : 10 ∉ l -> line_length (l ++ 10 :: rest) = S (length l).
Proof.
  induction l as [|c l IH]; intros Hl; [done|]. apply not_elem_of_cons in Hl as [Hc Hl].
  cbn [app line_length length]. rewrite IH by done. by destruct (Z.eqb_spec c 10); [congruence|].
Qed.

(** A line that fits is read whole. *)
Lemma fgets_line n l rest :
  10 ∉ l -> (length l + 2 <= n)%nat -> fgets n (l ++ 10 :: rest) = Some (l ++ [10], rest).
Proof.
  intros Hl Hn. assert (E : l ++ 10 :: rest = (l ++ [10]) ++ rest) by (by rewrite <-app_assoc).
  assert (Hk : Nat.min (n - 1) (line_length (l ++ 10 :: rest)) = length (l ++ [10]))
    by (rewrite line_length_line, length_app by done; simpl; lia).
  transitivity (Some (take (Nat.min (n - 1) (line_length (l ++ 10 :: rest))) (l ++ 10 :: rest),
    drop (Nat.min (n - 1) (line_length (l ++ 10 :: rest))) (l ++ 10 :: rest))); [by destruct l|].
  rewrite Hk, E. by rewrite take_app_length, drop_app_length.
Qed.

Lemma strip_end_app s t :
  Forall (fun c => is_space c = true) t ->
  (match last s with Some c => is_space c = false | None => False end) ->
  strip_end (s ++ t) = s.
Proof.
  intros Ht. assert (Hnil : strip_end t = []).
  { induction Ht as [|c t Hc Ht IH]; [done|]. cbn. by rewrite IH, Hc. }
  induction s as [|c s IH]; intros Hl; [done|]. cbn [app strip_end].
  destruct s as [|d s].
  - cbn [app] in *. rewrite Hnil. cbn in Hl. by rewrite Hl.
  - by rewrite IH by exact Hl.
Qed.

Lemma length_strncpy n s : length (strncpy n s) = n.
Proof. unfold strncpy. rewrite length_app, length_take, length_replicate. lia. Qed.

(** A string shorter than the field is copied with its NUL; one that fills the
    field has none. *)
Lemma strncpy_string n s rest :
  c_string s -> (length s < n)%nat -> c_str (strncpy n s ++ rest) = Ok s.
Proof.
  intros Hs Hn. unfold strncpy. rewrite take_ge by lia.
  destruct (n - length s)%nat eqn:E; [lia|]. cbn [replicate]. rewrite <-app_assoc.
  cbn [app]. by apply c_str_app.
Qed.

Lemma strncpy_unterminated n s :
  c_string s -> (n <= length s)%nat -> c_str (strncpy n s) = Fault OutOfBounds.
Proof.
  intros Hs Hn. unfold strncpy. replace (n - length s)%nat with O by lia.
  cbn [replicate]. rewrite app_nil_r. assert (Ht : c_string (take n s)) by (by apply Forall_take).
  induction Ht as [|b t Hb Ht IH]; [done|]. cbn [c_str]. destruct (Z.eqb_spec b 0); [done|].
  by rewrite IH.
Qed.
