(* ===== verification/Vns.v ===== *)
(** The router's side of the conversation with its server
    (router/src/router/sr_vns_comm.c, vnscommand.h): reading commands, the
    hardware description, the routing table file, authentication, the packets
    that arrive, and the opening of the session. *)
From S2P Require Import Prelude Mem Protocol Interfaces RoutingTable ArpCache Instance Router Sockets CString Sha1.

(** * Messages (vnscommand.h) *)

Definition VNSOPEN : Z := 1.
Definition VNSCLOSE : Z := 2.
Definition VNSBANNER : Z := 8.
Definition VNSHWINFO : Z := 16.
Definition VNS_RTABLE : Z := 32.
Definition VNS_OPEN_TEMPLATE : Z := 64.
Definition VNS_AUTH_REQUEST : Z := 128.
Definition VNS_AUTH_REPLY : Z := 256.
Definition VNS_AUTH_STATUS : Z := 512.
Definition HWINTERFACE : Z := 1.
Definition HWETHER : Z := 32.
Definition HWETHIP : Z := 64.
Definition IDSIZE : nat := 32.
Definition sizeof_c_base : nat := 8.
Definition sizeof_c_hw_entry : nat := 36.
Definition sizeof_c_packet_ethernet_header : nat := 38.

(** The fields common to all messages, the entries of [c_hwinfo], and the
    status. *)
Definition mLen : field := Field 0 4.
Definition mType : field := Field 4 4.
Definition mKey : field := Field 0 4.
Definition hw_value : field := Field 4 32.
Definition hw_value_ip : field := Field 4 4.
Definition auth_ok : field := Field 8 1.

Definition base (len type : Z) : buffer := le_bytes 4 (htonl len) ++ le_bytes 4 (htonl type).

(** [c_open] and [c_open_template]. *)
Definition open_message (topo_id : Z) (host user : cstr) : buffer :=
  base 108 VNSOPEN ++ le_bytes 2 (htons topo_id) ++ [0; 0] ++ strncpy_pad IDSIZE host ++
  strncpy_pad IDSIZE user ++ replicate IDSIZE 0.
Definition open_template_message (template host : cstr) : buffer :=
  base 70 VNS_OPEN_TEMPLATE ++ strncpy_pad 30 template ++ strncpy_pad IDSIZE host.

(** [c_auth_reply], with the name and the digest behind it. *)
Definition auth_reply_message (user : cstr) (digest : buffer) : buffer :=
  base (Z.of_nat (12 + length user + 20)) VNS_AUTH_REPLY ++
  le_bytes 4 (htonl (Z.of_nat (length user))) ++ user ++ digest.

(** The string in an array of [n] characters, as a read bounded by [n] sees it;
    the memory must hold its end or all [n]. *)
Fixpoint c_str_n (n : nat) (mem : buffer) : res cstr :=
  match n, mem with
  | O, _ => Ok []
  | S _, [] => Fault OutOfBounds
  | S n, b :: mem => if b =? 0 then Ok [] else s ← c_str_n n mem; mret (b :: s)
  end.

(** * State *)

(** The router, the socket to its server, and the files written. *)
Record session := Session {
  cl_sr : sr_instance; cl_sock : sock; cl_files : list (cstr * buffer) }.
Abbreviation CM := (M session).

(** A computation of the router, and the socket's calls. *)
Definition in_router {A} (m : RM A) : CM A := fun c =>
  match m (cl_sr c) with
  | Ok (a, s) => Ok (a, Session s (cl_sock c) (cl_files c))
  | Fault e => Fault e
  end.
Definition set_sock (sk : sock) (c : session) : session := Session (cl_sr c) sk (cl_files c).
Definition in_sock {A} (f : sock -> res (A * sock)) : CM A := fun c =>
  match f (cl_sock c) with
  | Ok (a, sk) => Ok (a, set_sock sk c)
  | Fault e => Fault e
  end.

(** What the files and the stack hold: the contents of [auth_key] ([None] when it
    cannot be opened), whether the routing table file can be written, and what
    the arrays on the stack held before. *)
Record surroundings := Surroundings {
  auth_key_file : option cstr; can_write : bool;
  key_array : buffer; sha1_block : buffer }.

(** * Reading *)

(** The loops that read [want] bytes: interrupted calls and calls that return
    nothing are made again; [None] on another error. *)
Fixpoint read_bytes (fuel want : nat) (acc : buffer) (s : sock) : res (option buffer * sock) :=
  match fuel with
  | O => Fault OutOfFuel
  | S fuel =>
      if (length acc <? want)%nat then
        '(r, s) ← recv s (want - length acc);
        match r with
        | IoOk data => read_bytes fuel want (acc ++ data) s
        | IoErr err => if err =? EINTR then read_bytes fuel want acc s else Ok (None, s)
        end
      else Ok (Some acc, s)
  end.

Section vns.
(** [depth] bounds the recursion of [handle_arpreq] (Router). *)
Context `{Env} (env : surroundings) (depth : nat).

(** * Handlers *)

(** [sr_arp_req_not_for_us]; [len] is an [unsigned int]. *)
Definition sr_arp_req_not_for_us (packet : buffer) (len : nat) (interface : cstr) : RM bool :=
  s ← get;
  let iface := sr_get_interface (in_if_list s) interface in
  if (len <? sizeof_ether + sizeof_arp)%nat then mret false
  else
    match iface with
    | None => fail AssertFail
    | Some iface =>
        ty ← lift (ld ether_type 0 packet);
        op ← lift (ld ar_op 14 packet);
        tip ← lift (ld ar_tip 14 packet);
        mret ((ty =? htons ethertype_arp) && (op =? htons arp_op_request) &&
              negb (tip =? if_ip iface))
    end.

(** An entry of the hardware description. *)
Definition handle_hw_entry (buf : buffer) (i : nat) : RM unit :=
  let at_ := (8 + i * sizeof_c_hw_entry)%nat in
  key ← lift (ld mKey at_ buf);
  if ntohl key =? HWINTERFACE then
    value ← lift (ld_arr hw_value at_ buf);
    name ← lift (c_str_n 32 value);
    u ← malloc 56;
    s ← get;
    put (set_if_list s (sr_add_interface
      (SrIf [] (slice 32 6 u) (le_val (slice 40 4 u)) (le_val (slice 44 4 u)))
      (in_if_list s) name))
  else if ntohl key =? HWETHIP then
    ip ← lift (ld hw_value_ip at_ buf);
    s ← get;
    l ← lift (sr_set_ether_ip (in_if_list s) ip);
    put (set_if_list s l)
  else if ntohl key =? HWETHER then
    value ← lift (ld_arr hw_value at_ buf);
    s ← get;
    l ← lift (sr_set_ether_addr (in_if_list s) value);
    put (set_if_list s l)
  else mret tt.

(** [sr_handle_hwinfo] *)
Definition sr_handle_hwinfo (buf : buffer) : RM Z :=
  len ← lift (ld mLen 0 buf);
  let num_entries := i32 (u64 (ntohl len - 8) / Z.of_nat sizeof_c_hw_entry) in
  for_each (handle_hw_entry buf) (seq 0 (Z.to_nat num_entries));;
  mret num_entries.

(** [sr_handle_rtable]: [fn] has 40 bytes, for "rtable." and the name. *)
Definition sr_handle_rtable (buf : buffer) : CM Z :=
  name ← lift (c_str (drop 8 buf));
  (if (7 + length name <? 40)%nat then mret tt else fail OutOfBounds);;
  if can_write env then
    len ← lift (ld mLen 0 buf);
    let n := u32 (ntohl len - 8 - 32) in
    data ← lift (if n <=? Z.of_nat (length buf) then rd 40 (Z.to_nat n) buf
                 else Fault OutOfBounds);
    modify (fun c => Session (cl_sr c) (cl_sock c) (cl_files c ++ [(str "rtable." ++ name, data)]));;
    mret 1
  else mret 0.

(** The words of the digest in network order, as the bytes [memcpy] takes. *)
Definition digest_bytes (d : words) : buffer :=
  let '(a, b, c, d, e) := d in concat (map (fun w => le_bytes 4 (htonl w)) [a; b; c; d; e]).

(** [sr_handle_auth_request]; the key array is used whole, whatever the length of
    the line read into it. *)
Definition sr_handle_auth_request (buf : buffer) : CM Z :=
  match auth_key_file env with
  | None => mret 0
  | Some file =>
      match fgets 65 file with
      | None => mret 0
      | Some (line, _) =>
          auth_key ← lift (wr 0 (line ++ [0]) (key_array env));
          len ← lift (ld mLen 0 buf);
          let salt_len := u32 (ntohl len - 8) in
          salt ← lift (if salt_len <=? Z.of_nat (length buf) then rd 8 (Z.to_nat salt_len) buf
                       else Fault OutOfBounds);
          sha ← lift (SHA1Input (SHA1Reset (sha1_block env)) salt);
          key ← lift (rd 0 64 auth_key);
          sha ← lift (SHA1Input sha key);
          '(ok, sha) ← lift (SHA1Result sha);
          if ok =? 0 then mret 0
          else
            c ← get;
            let user := in_user (cl_sr c) in
            (if (length user <? 32)%nat then mret tt else fail OutOfBounds);;
            let len := (12 + length user + 20)%nat in
            in_router (malloc len);;
            let msg := auth_reply_message user (digest_bytes (Message_Digest sha)) in
            r ← in_sock (fun s => send s msg);
            mret (match r with
                  | IoOk sent => if (length sent =? len)%nat then 1 else 0
                  | IoErr _ => 0
                  end)
      end
  end.

(** [sr_handle_auth_status] *)
Definition sr_handle_auth_status (buf : buffer) : CM Z :=
  ok ← lift (ld auth_ok 0 buf);
  (if ok =? 0 then _ ← lift (c_str (drop 9 buf)); mret tt else mret tt);;
  mret ok.

(** * Commands *)

(** A packet: its interface, and the frame behind the header. *)
Definition handle_packet_command (buf : buffer) (len : Z) : RM unit :=
  name ← lift (c_str_n 32 (drop 8 buf));
  let frame := drop 24 buf in
  let frame_len := Z.to_nat (u32 (len - 38 + 14)) in
  skip ← sr_arp_req_not_for_us frame frame_len name;
  if (skip : bool) then mret tt
  else
    mlen ← lift (ld mLen 0 buf);
    sr_log_packet frame (i32 (ntohl mlen - 24));;
    sr_handlepacket depth frame frame_len name.

(** The switch of [sr_read_from_server_expect]; [buf] holds the whole message. *)
Definition handle_command (buf : buffer) (len command : Z) : CM Z :=
  if command =? VNSPACKET then in_router (handle_packet_command buf len);; mret 1
  else if command =? VNSCLOSE then _ ← lift (c_str (drop 8 buf)); mret 0
  else if command =? VNSBANNER then _ ← lift (c_str (drop 8 buf)); mret 1
  else if command =? VNSHWINFO then
    in_router (sr_handle_hwinfo buf);;
    c ← get;
    mret (if sr_verify_routing_table (in_if_list (cl_sr c)) (in_routing_table (cl_sr c)) =? 0
          then 1 else -1)
  else if command =? VNS_RTABLE then
    r ← sr_handle_rtable buf; mret (if r =? 0 then -1 else 1)
  else if command =? VNS_AUTH_REQUEST then
    r ← sr_handle_auth_request buf; mret (if r =? 0 then -1 else 1)
  else if command =? VNS_AUTH_STATUS then
    r ← sr_handle_auth_status buf; mret (if r =? 0 then -1 else 1)
  else mret 1.

(** [sr_read_from_server_expect]; [fuel] bounds the calls of [recv] and [read] of
    each loop. *)
Definition sr_read_from_server_expect (fuel : nat) (expected_cmd : Z) : CM Z :=
  l ← in_sock (read_bytes fuel 4 []);
  match l with
  | None => mret (-1)
  | Some l =>
      let len := i32 (ntohl (le_val l)) in
      if (len >? 10000) || (len <? 0) then in_sock (fun s => Ok (tt, close s));; mret (-1)
      else
        (* [*((int * )buf) = htonl(len)] *)
        (if len <? 4 then fail OutOfBounds else mret tt);;
        body ← in_sock (read_bytes fuel (Z.to_nat (len - 4)) []);
        match body with
        | None => in_sock (fun s => Ok (tt, close s));; mret (-1)
        | Some body =>
            let buf := le_bytes 4 (htonl len) ++ body in
            type ← lift (ld mType 0 buf);
            let command := i32 (ntohl type) in
            buf ← lift (st mType 0 (ntohl type) buf);
            if negb (expected_cmd =? 0) && negb (command =? expected_cmd) &&
               negb (command =? VNSCLOSE)
            then mret (-1)
            else handle_command buf len command
        end
  end.
Definition sr_read_from_server (fuel : nat) : CM Z := sr_read_from_server_expect fuel 0.

(** [sr_connect_to_server], given whether the server's address is known and the
    connection is made; [template], [host] and [topo_id] are fields of the
    instance, where a template without its NUL is 30 characters long. *)
Definition sr_connect_to_server (fuel : nat) (template host : cstr) (topo_id : Z)
  (resolved connected : bool) : CM Z :=
  if negb resolved then mret (-1)
  else if negb connected then in_sock (fun s => Ok (tt, close s));; mret (-1)
  else
    r ← sr_read_from_server_expect fuel VNS_AUTH_REQUEST;
    if negb (r =? 1) then mret (-1)
    else
      r ← sr_read_from_server_expect fuel VNS_AUTH_STATUS;
      if negb (r =? 1) then mret (-1)
      else
        (* [strlen(sr->template)] *)
        (if (length template <? 30)%nat then mret tt else fail OutOfBounds);;
        c ← get;
        let msg := match template with
                   | [] => open_message topo_id host (in_user (cl_sr c))
                   | _ => open_template_message template host
                   end in
        r ← in_sock (fun s => send s msg);
        match r with
        | IoErr _ => mret (-1)
        | IoOk sent =>
            if negb (length sent =? length msg)%nat then mret (-1)
            else
              match template with
              | [] => mret 0
              | _ =>
                  r ← sr_read_from_server_expect fuel VNS_RTABLE;
                  mret (if r =? 1 then 0 else -1)
              end
        end.
End vns.
