(* ===== verification/VnsProps.v ===== *)
(** The router and its server: commands are read whole however the stream is
    cut, packets and hardware descriptions arrive as they were sent, the
    authentication is the salted digest; and streams that make the reading go
    wrong. *)
From S2P Require Import Prelude Mem Protocol Interfaces RoutingTable ArpCache Instance Router RouterFrames RouterProps RouterExamples Sockets CString Sha1 Vns.

(** * The stream *)

(** No call fails but by interruption. *)
Definition steady (events : list recv_event) : Prop :=
  Forall (fun e => match e with
                   | RData _ => True | REof => False | RErr err => err = EINTR end) events.

(** A socket from which [data] has been read. *)
Record has_read (s : sock) (data : buffer) (s' : sock) : Prop := {
  hr_stream : stream (s_in s) = data ++ stream (s_in s');
  hr_steady : steady (s_in s');
  hr_calls : (length (s_in s') <= length (s_in s))%nat;
  hr_sends : s_sends s' = s_sends s;
  hr_out : s_out s' = s_out s;
  hr_closed : s_closed s' = s_closed s }.

Lemma has_read_trans s a s1 b s2 :
  has_read s a s1 -> has_read s1 b s2 -> has_read s (a ++ b) s2.
Proof.
  intros [? ? ? ? ? ?] [? ? ? ? ? ?].
  constructor; try congruence; [by rewrite <-app_assoc; congruence|lia].
Qed.

Lemma read_bytes_ok events s acc want fuel :
  s_in s = events -> steady events -> (length acc <= want)%nat ->
  (want - length acc <= length (stream events))%nat -> (length events < fuel)%nat ->
  exists s', read_bytes fuel want acc s =
      Ok (Some (acc ++ take (want - length acc) (stream events)), s') /\
    has_read s (take (want - length acc) (stream events)) s'.
Proof.
  revert s acc fuel. induction events as [|e events IH]; intros s acc fuel Hs He Ha Hw Hf;
    (destruct fuel as [|fuel]; [lia|]); cbn [read_bytes].
  { change (stream []) with (@nil Z) in *. cbn [length] in *. case_test; [lia|]. exists s.
    rewrite take_nil, app_nil_r. split; [done|]. constructor; rewrite ?Hs; done. }
  destruct (Nat.ltb_spec (length acc) want) as [Hlt|Hge].
  2:{ exists s. replace (want - length acc)%nat with O by lia. rewrite take_0, app_nil_r.
      split; [done|]. constructor; rewrite ?Hs; done. }
  apply Forall_cons in He as [He Hes]. unfold recv. rewrite Hs. cbn [length] in Hf.
  destruct e as [b| |err]; [|done|]; cbn [mbind res_bind].
  - change (stream (RData b :: events)) with (b ++ stream events) in *.
    set (n := (want - length acc)%nat) in *. rewrite length_app in Hw.
    destruct (Nat.ltb_spec n (length b)) as [Hb|Hb].
    + destruct fuel as [|fuel]; [lia|]. cbn [read_bytes].
      rewrite length_app, length_take, (proj2 (Nat.ltb_ge _ _)) by lia.
      eexists. split; [by rewrite take_app_le by lia|]. rewrite take_app_le by lia.
      constructor; cbn [s_in s_sends s_out s_closed]; rewrite ?Hs; try done.
      * change (stream (RData ?x :: events)) with (x ++ stream events).
        by rewrite app_assoc, take_drop.
      * by constructor.
    + rewrite take_ge by lia. set (s1 := Sock _ _ _ _).
      destruct (IH s1 (acc ++ b) fuel) as (s' & E & Hr);
        [done|done|rewrite length_app; lia|rewrite length_app; lia|lia|].
      rewrite length_app in E, Hr. rewrite take_app_ge by lia.
      replace (want - (length acc + length b))%nat with (n - length b)%nat in * by lia.
      exists s'. rewrite app_assoc. split; [exact E|].
      apply (has_read_trans s b s1); [|exact Hr].
      constructor; cbn [s_in s_sends s_out s_closed s1]; rewrite ?Hs; simpl; try done. lia.
  - subst err. rewrite Z.eqb_refl. set (s1 := Sock _ _ _ _).
    change (stream (RErr EINTR :: events)) with (stream events) in *.
    destruct (IH s1 acc fuel) as (s' & E & Hr); [done..|lia|].
    exists s'. split; [exact E|]. apply (has_read_trans s [] s1); [|exact Hr].
    constructor; cbn [s_in s_sends s_out s_closed s1]; rewrite ?Hs; simpl; try done. lia.
Qed.

Section props.
Context `{Env} (env : surroundings) (depth : nat).

(** ** Commands *)

Lemma bswap_i32 z : 0 <= z < 2147483648 -> i32 (ntohl (le_val (le_bytes 4 (htonl z)))) = z.
Proof.
  intros Hz. rewrite le_val_le_bytes. pose proof (bswap_range 4 z).
  rewrite Z.mod_small by done. rewrite bswap_bswap by (change (256 ^ Z.of_nat 4) with 4294967296; lia).
  unfold i32. rewrite u32_small by lia. by rewrite (proj2 (Z.ltb_lt _ _)) by lia.
Qed.

(** A whole command in the stream is taken from it and dispatched, with its type
    in the host's order. *)
Lemma expect_ok fuel expected c type payload rest :
  let len := 8 + Z.of_nat (length payload) in
  steady (s_in (cl_sock c)) -> (length (s_in (cl_sock c)) < fuel)%nat ->
  stream (s_in (cl_sock c)) = base len type ++ payload ++ rest ->
  len <= 10000 -> 0 <= type < 2147483648 ->
  exists sk, has_read (cl_sock c) (base len type ++ payload) sk /\
    stream (s_in sk) = rest /\
    sr_read_from_server_expect env depth fuel expected c =
      if negb (expected =? 0) && negb (type =? expected) && negb (type =? VNSCLOSE)
      then Ok (-1, set_sock sk c)
      else handle_command env depth (le_bytes 4 (htonl len) ++ le_bytes 4 type ++ payload)
             len type (set_sock sk c).
Proof.
  intros len Hst Hf Hstr Hlen Ht. unfold sr_read_from_server_expect, base in *.
  set (l4 := le_bytes 4 (htonl len)) in *. set (t4 := le_bytes 4 (htonl type)) in *.
  assert (Hl4 : length l4 = 4%nat) by (apply length_le_bytes).
  assert (Ht4 : length t4 = 4%nat) by (apply length_le_bytes).
  rewrite <-!app_assoc in Hstr.
  destruct (read_bytes_ok _ (cl_sock c) [] 4 fuel eq_refl Hst) as (s1 & E1 & R1);
    [simpl; lia|rewrite Hstr, length_app; simpl; lia|done|].
  cbn [length app Nat.sub] in E1, R1. rewrite Hstr in E1, R1.
  rewrite take_app_le, take_ge in E1, R1 by lia.
  pose proof (hr_stream _ _ _ R1) as S1. rewrite Hstr in S1. apply app_inv_head in S1.
  assert (Hwant : (Z.to_nat (len - 4) = 4 + length payload)%nat) by (unfold len; lia).
  destruct (read_bytes_ok _ s1 [] (Z.to_nat (len - 4)) fuel eq_refl (hr_steady _ _ _ R1))
    as (s2 & E2 & R2);
    [simpl; lia|rewrite <-S1, !length_app; simpl; lia|pose proof (hr_calls _ _ _ R1); lia|].
  cbn [length app] in E2, R2. rewrite Nat.sub_0_r, <-S1 in E2, R2.
  rewrite app_assoc, take_app_le, take_ge in E2, R2 by (rewrite length_app; lia).
  exists s2. pose proof (has_read_trans _ _ _ _ _ R1 R2) as R. rewrite app_assoc in R.
  pose proof (hr_stream _ _ _ R) as S2. rewrite Hstr, !app_assoc in S2.
  apply app_inv_head in S2. split; [exact R|]. split; [done|].
  erewrite bind_ok by (unfold in_sock; rewrite E1; reflexivity). cbv iota beta.
  assert (Hv : i32 (ntohl (le_val l4)) = len) by (apply bswap_i32; unfold len in *; lia).
  rewrite !Hv. rewrite Z.gtb_ltb, !(proj2 (Z.ltb_ge _ _)) by (unfold len; lia). cbn [orb].
  rewrite bind_ret_l. erewrite bind_ok by (unfold in_sock, set_sock; cbn [cl_sock]; rewrite E2; reflexivity).
  cbv iota beta. cbn [cl_sr cl_files cl_sock]. fold l4. rewrite app_assoc.
  assert (Hty : in_field mType 0 (l4 ++ t4 ++ payload))
    by (unfold in_field; cbn [f_off f_size mType]; rewrite !length_app; lia).
  rewrite <-app_assoc, ld_ok, bind_lift, st_ok, bind_lift by done.
  assert (Hb : fbytes mType 0 (l4 ++ t4 ++ payload) = t4).
  { unfold fbytes. cbn [f_off f_size mType Nat.add]. rewrite slice_app_r by lia.
    rewrite Hl4, slice_app_l by lia. unfold slice. rewrite drop_0. apply take_ge. lia. }
  unfold fval. rewrite Hb.
  assert (Ht' : i32 (ntohl (le_val t4)) = type) by (by apply bswap_i32). rewrite !Ht'.
  assert (Hs : fset mType 0 (ntohl (le_val t4)) (l4 ++ t4 ++ payload) =
    l4 ++ le_bytes 4 type ++ payload).
  { unfold fset. cbn [f_off f_size mType Nat.add]. 
    rewrite splice_app, length_le_bytes, <-app_assoc by done. f_equal.
    rewrite drop_app_ge by lia. rewrite Ht4. unfold t4. f_equal.
    rewrite le_val_le_bytes, Z.mod_small by apply (bswap_range 4).
    by rewrite bswap_bswap by (change (256 ^ Z.of_nat 4) with 4294967296; lia). }
  rewrite Hs. by destruct (_ && _).
Qed.
(** ** Packets *)

Lemma c_str_n_ok n name r :
  c_string name -> (length name < n)%nat -> c_str_n n (name ++ 0 :: r) = Ok name.
Proof.
  revert n. induction name as [|b name IH]; intros [|n] Hn Hl; simpl in Hl; try lia; [done|].
  apply Forall_cons in Hn as [Hb Hn]. cbn [app c_str_n]. rewrite (proj2 (Z.eqb_neq _ _)) by done.
  rewrite IH by (done || lia). done.
Qed.

(** An ARP request for an address that is not the interface's. *)
Definition arp_for_other (i : sr_if) (frame : buffer) : bool :=
  (42 <=? length frame)%nat && (fval ether_type 0 frame =? htons ethertype_arp) &&
  (fval ar_op 14 frame =? htons arp_op_request) && negb (fval ar_tip 14 frame =? if_ip i).

Lemma arp_req_not_for_us_ok s frame name i :
  sr_get_interface (in_if_list s) name = Some i ->
  sr_arp_req_not_for_us frame (length frame) name s = Ok (arp_for_other i frame, s).
Proof.
  intros Hi. unfold sr_arp_req_not_for_us, arp_for_other. exec.
  change (sizeof_ether + sizeof_arp)%nat with 42%nat.
  destruct (Nat.ltb_spec (length frame) 42) as [Hl|Hl].
  - by rewrite (proj2 (Nat.leb_gt _ _)) by lia.
  - rewrite (proj2 (Nat.leb_le _ _)), Hi by lia.
    rewrite !ld_ok by (unfold in_field; simpl; lia). exec. done.
Qed.

Lemma packet_command_ok s iface frame i :
  Z.of_nat (length frame) <= 9976 -> c_string iface -> (length iface < 16)%nat ->
  sr_get_interface (in_if_list s) iface = Some i ->
  let len := 8 + Z.of_nat (length (strncpy_pad 16 iface ++ frame)) in
  handle_packet_command depth
    (le_bytes 4 (htonl len) ++ le_bytes 4 VNSPACKET ++ strncpy_pad 16 iface ++ frame) len s =
  if arp_for_other i frame then Ok (tt, s)
  else sr_handlepacket depth frame (length frame) iface
         (set_logfile s (log_packet (in_logfile s) (in_clock s) frame)).
Proof.
  intros Hf Hc Hl Hi len. unfold handle_packet_command.
  assert (Hpad : length (strncpy_pad 16 iface) = 16%nat)
    by (unfold strncpy_pad; rewrite length_app, length_take, length_replicate; lia).
  assert (Elen : len = 24 + Z.of_nat (length frame)) by (unfold len; rewrite length_app; lia).
  set (l4 := le_bytes 4 (htonl len)). set (t4 := le_bytes 4 VNSPACKET).
  assert (H8 : drop 8 (l4 ++ t4 ++ strncpy_pad 16 iface ++ frame) =
    strncpy_pad 16 iface ++ frame) by reflexivity.
  assert (H24 : drop 24 (l4 ++ t4 ++ strncpy_pad 16 iface ++ frame) = frame).
  { change 24%nat with (8 + 16)%nat. rewrite <-drop_drop, H8, drop_app_ge by lia.
    rewrite Hpad. apply drop_0. }
  rewrite H8, H24.
  assert (Hn : c_str_n 32 (strncpy_pad 16 iface ++ frame) = Ok iface).
  { unfold strncpy_pad. rewrite take_ge by lia. rewrite <-app_assoc.
    replace (16 - length iface)%nat with (S (15 - length iface)) by lia.
    apply c_str_n_ok; [done|lia]. }
  rewrite Hn, bind_lift.
  assert (Hfl : Z.to_nat (u32 (len - 38 + 14)) = length frame) by (rewrite u32_small by lia; lia).
  rewrite Hfl, (bind_ok _ _ _ _ _ (arp_req_not_for_us_ok s frame iface i Hi)).
  destruct (arp_for_other i frame); [done|].
  rewrite ld_ok, bind_lift by (unfold in_field; rewrite !length_app; simpl; lia).
  assert (Hv : fval mLen 0 (l4 ++ t4 ++ strncpy_pad 16 iface ++ frame) = le_val l4) by reflexivity.
  assert (Hm : ntohl (le_val l4) = len).
  { unfold l4. rewrite le_val_le_bytes, Z.mod_small by apply (bswap_range 4).
    apply bswap_bswap. change (256 ^ Z.of_nat 4) with 4294967296. lia. }
  rewrite Hv, Hm. replace (len - 24) with (Z.of_nat (length frame)) by lia.
  by erewrite bind_ok by (apply sr_log_packet_eq; lia).
Qed.

(** What a frame from the server makes the router do. *)
Definition frame_step (iface frame : buffer) (i : sr_if) : RM unit := fun s =>
  if arp_for_other i frame then Ok (tt, s)
  else sr_handlepacket depth frame (length frame) iface
         (set_logfile s (log_packet (in_logfile s) (in_clock s) frame)).

Lemma packet_expected fuel c iface frame rest i :
  steady (s_in (cl_sock c)) -> (length (s_in (cl_sock c)) < fuel)%nat ->
  stream (s_in (cl_sock c)) = vns_message iface frame ++ rest ->
  Z.of_nat (length frame) <= 9976 -> c_string iface -> (length iface < 16)%nat ->
  sr_get_interface (in_if_list (cl_sr c)) iface = Some i ->
  exists sk, has_read (cl_sock c) (vns_message iface frame) sk /\ stream (s_in sk) = rest /\
    sr_read_from_server env depth fuel c =
      (in_router (frame_step iface frame i);; mret 1) (set_sock sk c).
Proof.
  intros Hst Hf Hstr Hl Hc Hn Hi.
  set (payload := strncpy_pad 16 iface ++ frame).
  assert (Hpl : Z.of_nat (length payload) = 16 + Z.of_nat (length frame)).
  { unfold payload, strncpy_pad. rewrite !length_app, length_take, length_replicate. lia. }
  assert (E : vns_message iface frame = base (8 + Z.of_nat (length payload)) VNSPACKET ++ payload).
  { unfold vns_message, packet_header, base, payload. rewrite u32_small, <-!app_assoc by lia.
    fold payload. replace (Z.of_nat (length frame) + 24) with (8 + Z.of_nat (length payload)) by lia.
    done. }
  rewrite E in *. rewrite <-app_assoc in Hstr.
  destruct (expect_ok fuel 0 c VNSPACKET payload rest Hst Hf Hstr) as (sk & R & S & Ex);
    [lia|unfold VNSPACKET; lia|].
  exists sk. split; [exact R|]. split; [exact S|]. unfold sr_read_from_server.
  rewrite Ex. cbn [negb andb Z.eqb].
  change (handle_command env depth ?b ?n VNSPACKET)
    with (in_router (handle_packet_command depth b n);; mret 1 : M session Z).
  unfold mbind, M_bind, in_router, frame_step. cbn [cl_sr set_sock cl_sock cl_files].
  unfold payload. by rewrite (packet_command_ok (cl_sr c) iface frame i Hl Hc Hn Hi).
Qed.

(** A frame sent in a message of [sr_send_packet]'s format arrives: however the
    stream is cut and interrupted, [sr_read_from_server] takes exactly the
    message from it, and hands the frame, with its length and the name of its
    interface, to [sr_handlepacket] after logging it; ARP requests for
    another address than the interface's are dropped. *)
Theorem vns_packet_delivered fuel c iface frame rest i :
  steady (s_in (cl_sock c)) -> (length (s_in (cl_sock c)) < fuel)%nat ->
  stream (s_in (cl_sock c)) = vns_message iface frame ++ rest ->
  Z.of_nat (length frame) <= 9976 -> c_string iface -> (length iface < 16)%nat ->
  sr_get_interface (in_if_list (cl_sr c)) iface = Some i ->
  exists sk, has_read (cl_sock c) (vns_message iface frame) sk /\ stream (s_in sk) = rest /\
    sr_read_from_server env depth fuel c =
      if arp_for_other i frame then Ok (1, set_sock sk c)
      else
        let s := cl_sr c in
        match sr_handlepacket depth frame (length frame) iface
                (set_logfile s (log_packet (in_logfile s) (in_clock s) frame)) with
        | Ok (_, s') => Ok (1, Session s' sk (cl_files c))
        | Fault e => Fault e
        end.
Proof.
  intros Hst Hf Hstr Hl Hc Hn Hi.
  destruct (packet_expected fuel c iface frame rest i Hst Hf Hstr Hl Hc Hn Hi)
    as (sk & R & S & E).
  exists sk. split; [exact R|]. split; [exact S|]. rewrite E.
  unfold mbind, M_bind, in_router, frame_step. cbn [cl_sr set_sock cl_sock cl_files].
  destruct (arp_for_other i frame); [done|]. cbv zeta.
  by destruct (sr_handlepacket depth frame (length frame) iface _) as [[[] s']|].
Qed.

(** ** The hardware description *)

Definition hw_entry (key : Z) (value : buffer) : buffer :=
  le_bytes 4 (htonl key) ++ value ++ replicate (32 - length value) 0.
Definition hw_interface (i : sr_if) : buffer :=
  hw_entry HWINTERFACE (if_name i) ++ hw_entry HWETHER (if_addr i) ++
  hw_entry HWETHIP (le_bytes 4 (if_ip i)).
Definition hw_message (ifs : list sr_if) : buffer :=
  base (8 + 108 * Z.of_nat (length ifs)) VNSHWINFO ++ concat (map hw_interface ifs).

(** An interface as a description can give it. *)
Definition describable (i : sr_if) : Prop :=
  c_string (if_name i) /\ (length (if_name i) < 32)%nat /\ length (if_addr i) = 6%nat /\
  0 <= if_ip i < 4294967296.

Lemma length_hw_entry key value :
  (length value <= 32)%nat -> length (hw_entry key value) = 36%nat.
Proof. intros Hv. unfold hw_entry. len. Qed.

Lemma length_hw_interface i : describable i -> length (hw_interface i) = 108%nat.
Proof.
  intros (_ & H1 & H2 & _). unfold hw_interface.
  rewrite !length_app, !length_hw_entry by (rewrite ?length_le_bytes; lia). done.
Qed.

(** Loads from the entry that starts at [length pre]. *)
Lemma ld_entry_key pre key value post :
  (length value <= 32)%nat -> 0 <= key < 4294967296 ->
  exists k, ld mKey (length pre) (pre ++ hw_entry key value ++ post) = Ok k /\ ntohl k = key.
Proof.
  intros Hv Hk. eexists. split.
  - apply ld_ok. unfold in_field. rewrite !length_app, length_hw_entry by done. simpl. lia.
  - unfold fval, fbytes, hw_entry. cbn [f_off f_size mKey]. rewrite Nat.add_0_r.
    rewrite slice_app_r, Nat.sub_diag, <-app_assoc, slice_app_l by (rewrite ?length_le_bytes; lia).
    unfold slice. rewrite drop_0, take_ge by (by rewrite length_le_bytes).
    rewrite le_val_le_bytes, Z.mod_small by apply (bswap_range 4).
    by apply bswap_bswap.
Qed.

Lemma slice_entry n pre key value post :
  (length value <= 32)%nat -> (n <= 32)%nat ->
  slice (length pre + 4) n (pre ++ hw_entry key value ++ post) =
    take n (value ++ replicate (32 - length value) 0).
Proof.
  intros Hv Hn. rewrite slice_app_r by lia.
  replace (length pre + 4 - length pre)%nat with 4%nat by lia. unfold hw_entry.
  rewrite <-app_assoc, slice_app_r, length_le_bytes, Nat.sub_diag by (rewrite length_le_bytes; lia).
  rewrite slice_app_l by len. unfold slice. by rewrite drop_0.
Qed.

Lemma entry_in_field n pre key value post :
  (length value <= 32)%nat -> (n <= 32)%nat ->
  in_field (Field 4 n) (length pre) (pre ++ hw_entry key value ++ post).
Proof.
  intros Hv Hn. unfold in_field. rewrite !length_app, length_hw_entry by done. simpl. lia.
Qed.

(** What the entries of one interface do. *)
(** The speed of an interface, which is never set: what was in the block of memory. *)
Definition junk_speed (k : nat) : Z := le_val (slice 44 4 (uninit k 56)).

Lemma entry_name k pre name post s :
  length pre = (8 + k * 36)%nat -> c_string name -> (length name < 32)%nat ->
  exists i, handle_hw_entry (pre ++ hw_entry HWINTERFACE name ++ post) k s =
    Ok (tt, set_if_list (set_allocs s (S (in_allocs s))) (in_if_list s ++ [i])) /\
    if_name i = name /\ if_speed i = junk_speed (in_allocs s).
Proof.
  intros Hp Hn Hl. unfold handle_hw_entry, sizeof_c_hw_entry. rewrite <-Hp.
  destruct (ld_entry_key pre HWINTERFACE name post) as (key & E & Ek); [lia|done|].
  rewrite E, bind_lift, Ek. change (HWINTERFACE =? HWINTERFACE) with true. cbn iota.
  rewrite ld_arr_ok, bind_lift by (apply (entry_in_field 32); lia).
  unfold fbytes. cbn [f_off f_size hw_value]. rewrite slice_entry, take_ge by (try lia; len).
  replace (32 - length name)%nat with (S (31 - length name)) by lia.
  cbn [replicate]. rewrite c_str_n_ok, bind_lift, bind_malloc by (done || lia).
  exec. eexists. split; [reflexivity|]. cbn [if_name if_speed]. unfold strncpy, sr_IFACE_NAMELEN.
  split; [apply take_ge; lia|done].
Qed.

Lemma entry_addr k pre addr post s l i :
  length pre = (8 + k * 36)%nat -> length addr = 6%nat -> in_if_list s = l ++ [i] ->
  handle_hw_entry (pre ++ hw_entry HWETHER addr ++ post) k s =
    Ok (tt, set_if_list s (l ++ [SrIf (if_name i) addr (if_ip i) (if_speed i)])).
Proof.
  intros Hp Ha Hi. unfold handle_hw_entry, sizeof_c_hw_entry. rewrite <-Hp.
  destruct (ld_entry_key pre HWETHER addr post) as (key & E & Ek); [lia|done|].
  rewrite E, bind_lift, Ek. change (HWETHER =? HWINTERFACE) with false.
  change (HWETHER =? HWETHIP) with false. change (HWETHER =? HWETHER) with true. cbn iota.
  rewrite ld_arr_ok, bind_lift by (apply (entry_in_field 32); lia). exec.
  unfold fbytes. cbn [f_off f_size hw_value]. rewrite slice_entry, take_ge by (try lia; len).
  unfold sr_set_ether_addr. rewrite rd_ok, res_bind_ok, Hi, on_last_app by len. exec.
  unfold slice. by rewrite drop_0, take_app_le, take_ge by lia.
Qed.

Lemma entry_ip k pre ip post s l i :
  length pre = (8 + k * 36)%nat -> 0 <= ip < 4294967296 -> in_if_list s = l ++ [i] ->
  handle_hw_entry (pre ++ hw_entry HWETHIP (le_bytes 4 ip) ++ post) k s =
    Ok (tt, set_if_list s (l ++ [SrIf (if_name i) (if_addr i) ip (if_speed i)])).
Proof.
  intros Hp Hip Hi. unfold handle_hw_entry, sizeof_c_hw_entry. rewrite <-Hp.
  destruct (ld_entry_key pre HWETHIP (le_bytes 4 ip) post) as (key & E & Ek);
    [rewrite length_le_bytes; lia|done|].
  rewrite E, bind_lift, Ek. change (HWETHIP =? HWINTERFACE) with false.
  change (HWETHIP =? HWETHIP) with true. cbn iota.
  rewrite ld_ok, bind_lift by (apply (entry_in_field 4); rewrite ?length_le_bytes; lia). exec.
  unfold fval, fbytes. cbn [f_off f_size hw_value_ip].
  rewrite slice_entry by (rewrite ?length_le_bytes; lia).
  rewrite take_app_le, take_ge by (rewrite length_le_bytes; lia).
  rewrite le_val_le_bytes. change (256 ^ Z.of_nat 4) with 4294967296. rewrite Z.mod_small by done.
  unfold sr_set_ether_ip. rewrite Hi, on_last_app. exec. by rewrite u32_small.
Qed.

(** The fields a description gives. *)
Definition described (i : sr_if) : cstr * buffer * Z := (if_name i, if_addr i, if_ip i).

(** The interfaces of a description as they are loaded, from the [k]th call of
    [malloc] on. *)
Fixpoint loaded (k : nat) (ifs : list sr_if) : list sr_if :=
  match ifs with
  | [] => []
  | i :: ifs => SrIf (if_name i) (if_addr i) (if_ip i) (junk_speed k) :: loaded (S k) ifs
  end.
Lemma described_loaded ifs : forall k, map described (loaded k ifs) = map described ifs.
Proof. induction ifs as [|i ifs IH]; intros k; [done|]. cbn. by rewrite IH. Qed.

Lemma interface_ok k pre i post s :
  length pre = (8 + k * 36)%nat -> describable i ->
  for_each (handle_hw_entry (pre ++ hw_interface i ++ post)) [k; S k; S (S k)] s =
    Ok (tt, set_if_list (set_allocs s (S (in_allocs s)))
      (in_if_list s ++ loaded (in_allocs s) [i])).
Proof.
  intros Hp (Hn & Hl & Ha & Hip). unfold hw_interface. set (l := in_if_list s).
  set (e1 := hw_entry HWINTERFACE (if_name i)). set (e2 := hw_entry HWETHER (if_addr i)).
  set (e3 := hw_entry HWETHIP (le_bytes 4 (if_ip i))).
  assert (He1 : length e1 = 36%nat) by (apply length_hw_entry; lia).
  assert (He2 : length e2 = 36%nat) by (apply length_hw_entry; lia).
  rewrite <-!(app_assoc _ _ post). cbn [for_each].
  destruct (entry_name k pre (if_name i) (e2 ++ e3 ++ post) s Hp Hn Hl) as (i1 & E1 & Hi1 & Hv1).
  fold e1 l in E1. rewrite (bind_ok _ _ _ _ _ E1).
  set (s1 := set_if_list _ _).
  assert (H2 : length (pre ++ e1) = (8 + S k * 36)%nat) by (rewrite length_app; lia).
  pose proof (entry_addr (S k) (pre ++ e1) (if_addr i) (e3 ++ post) s1 l i1 H2 Ha eq_refl) as E2.
  fold e2 in E2. rewrite <-(app_assoc pre) in E2. rewrite (bind_ok _ _ _ _ _ E2).
  set (i2 := SrIf _ _ _ _). set (s2 := set_if_list _ _).
  assert (H3 : length (pre ++ e1 ++ e2) = (8 + S (S k) * 36)%nat) by (rewrite !length_app; lia).
  pose proof (entry_ip (S (S k)) (pre ++ e1 ++ e2) (if_ip i) post s2 l i2 H3 Hip eq_refl) as E3.
  fold e3 in E3. rewrite <-!(app_assoc pre), <-!(app_assoc e1) in E3.
  rewrite (bind_ok _ _ _ _ _ E3). cbn [loaded]. rewrite <-Hi1, <-Hv1. reflexivity.
Qed.
Lemma for_each_app {S A} (f : A -> M S unit) (l k : list A) s :
  for_each f (l ++ k) s = (for_each f l;; for_each f k) s.
Proof.
  revert s. induction l as [|x l IH]; intros s; [done|]. cbn [app for_each].
  rewrite bind_assoc. unfold mbind at 1 2, M_bind at 1 2.
  destruct (f x s) as [[[] s1]|]; [|done]. apply IH.
Qed.

Lemma interfaces_ok ifs k pre s :
  length pre = (8 + k * 36)%nat -> Forall describable ifs ->
  for_each (handle_hw_entry (pre ++ concat (map hw_interface ifs))) (seq k (3 * length ifs)) s =
    Ok (tt, set_if_list (set_allocs s (in_allocs s + length ifs))
      (in_if_list s ++ loaded (in_allocs s) ifs)).
Proof.
  revert k pre s. induction ifs as [|i ifs IH]; intros k pre s Hp Hi.
  - cbn. rewrite app_nil_r, Nat.add_0_r. by destruct s.
  - apply Forall_cons in Hi as [Hd Hi]. cbn [map concat length].
    replace (3 * S (length ifs))%nat with (3 + 3 * length ifs)%nat by lia. rewrite seq_app.
    change (seq k 3) with [k; S k; S (S k)]. rewrite for_each_app.
    pose proof (interface_ok k pre i (concat (map hw_interface ifs)) s Hp Hd) as E.
    rewrite (bind_ok _ _ _ _ _ E), app_assoc. set (s1 := set_if_list _ _).
    rewrite (IH (k + 3)%nat (pre ++ hw_interface i) s1); [| |done].
    + cbn. rewrite <-app_assoc. cbn [app]. by rewrite Nat.add_succ_r.
    + rewrite length_app, length_hw_interface by done. lia.
Qed.

Lemma hwinfo_ok ifs type s :
  Forall describable ifs -> (length ifs <= 92)%nat ->
  let n := 8 + 108 * Z.of_nat (length ifs) in
  sr_handle_hwinfo (le_bytes 4 (htonl n) ++ le_bytes 4 type ++ concat (map hw_interface ifs)) s =
    Ok (3 * Z.of_nat (length ifs),
      set_if_list (set_allocs s (in_allocs s + length ifs))
        (in_if_list s ++ loaded (in_allocs s) ifs)).
Proof.
  intros Hd Hl n. unfold sr_handle_hwinfo. set (l4 := le_bytes 4 (htonl n)).
  rewrite ld_ok, bind_lift by (unfold in_field; rewrite !length_app; simpl; lia).
  assert (Hv : ntohl (fval mLen 0 (l4 ++ le_bytes 4 type ++ concat (map hw_interface ifs))) = n).
  { change (fval mLen 0 _) with (le_val l4). unfold l4.
    rewrite le_val_le_bytes, Z.mod_small by apply (bswap_range 4).
    apply bswap_bswap. change (256 ^ Z.of_nat 4) with 4294967296. unfold n. lia. }
  rewrite Hv. rewrite u64_small by (unfold n; lia).
  change (Z.of_nat sizeof_c_hw_entry) with 36.
  replace ((n - 8) / 36) with (3 * Z.of_nat (length ifs))
    by (unfold n; Z.div_mod_to_equations; lia).
  assert (Hi : i32 (3 * Z.of_nat (length ifs)) = 3 * Z.of_nat (length ifs))
    by (unfold i32; rewrite u32_small, (proj2 (Z.ltb_lt _ _)) by lia; done).
  rewrite Hi. replace (Z.to_nat (3 * Z.of_nat (length ifs))) with (3 * length ifs)%nat by lia.
  pose proof (interfaces_ok ifs 0 (l4 ++ le_bytes 4 type) s) as E.
  rewrite <-app_assoc in E. by rewrite (bind_ok _ _ _ _ _ (E ltac:(by rewrite length_app) Hd)).
Qed.

(** The hardware description loads. Reading the description of up to 92 interfaces,
    however the stream is cut, appends exactly these interfaces to the list,
    in order, with their names, Ethernet and IP addresses (and a speed that is never
    set), and changes nothing else of the router but the count of allocations; the result is 1 when every route's
    interface is then in the list, and -1 otherwise. *)
Theorem hwinfo_loads fuel c ifs rest :
  steady (s_in (cl_sock c)) -> (length (s_in (cl_sock c)) < fuel)%nat ->
  stream (s_in (cl_sock c)) = hw_message ifs ++ rest ->
  Forall describable ifs -> (length ifs <= 92)%nat ->
  exists sk, has_read (cl_sock c) (hw_message ifs) sk /\ stream (s_in sk) = rest /\
    let s := cl_sr c in
    let l := loaded (in_allocs s) ifs in
    let s' := set_if_list (set_allocs s (in_allocs s + length ifs)) (in_if_list s ++ l) in
    sr_read_from_server env depth fuel c =
      Ok (if sr_verify_routing_table (in_if_list s ++ l) (in_routing_table s) =? 0 then 1 else -1,
        Session s' sk (cl_files c)).
Proof.
  intros Hst Hf Hstr Hd Hl. set (payload := concat (map hw_interface ifs)).
  assert (Hpl : length payload = (108 * length ifs)%nat).
  { unfold payload. clear -Hd. induction Hd as [|i l Hi Hd IH]; [done|]. cbn [map concat length].
    rewrite length_app, length_hw_interface, IH by done. lia. }
  assert (Hn : 8 + 108 * Z.of_nat (length ifs) = 8 + Z.of_nat (length payload)) by lia.
  unfold hw_message in *. fold payload in Hstr |- *. rewrite Hn in Hstr |- *.
  rewrite <-app_assoc in Hstr.
  destruct (expect_ok fuel 0 c VNSHWINFO payload rest Hst Hf Hstr) as (sk & R & S & Ex);
    [cbv zeta; lia|unfold VNSHWINFO; lia|].
  pose proof (hwinfo_ok ifs VNSHWINFO (cl_sr c) Hd Hl) as E. cbv zeta in E. fold payload in E.
  rewrite Hn in E. exists sk. split; [exact R|]. split; [exact S|].
  cbv zeta. unfold sr_read_from_server. rewrite Ex. cbn [negb andb Z.eqb].
  change (handle_command env depth ?b ?n VNSHWINFO) with
    (in_router (sr_handle_hwinfo b);; c ← get;
     mret (if sr_verify_routing_table (in_if_list (cl_sr c)) (in_routing_table (cl_sr c)) =? 0
           then 1 else -1) : M session Z).
  unfold mbind at 1, M_bind at 1, in_router. cbn [cl_sr set_sock cl_sock cl_files].
  rewrite E. reflexivity.
Qed.
(** ** Authentication *)

Lemma fgets_full n key tail :
  10 ∉ key -> length key = n -> (0 < n)%nat -> fgets (S n) (key ++ tail) = Some (key, tail).
Proof.
  intros Hk Hl Hn. unfold fgets. destruct (key ++ tail) eqn:E.
  { destruct key; [simpl in Hl; lia|discriminate E]. }
  rewrite <-E. clear E Hn. cbn [Nat.sub]. rewrite Nat.sub_0_r. f_equal. subst n.
  induction key as [|x key IH]; [by destruct tail|]. cbn [length app fgets_take].
  apply not_elem_of_cons in Hk as [Hx Hk]. rewrite (proj2 (Z.eqb_neq _ _)) by done.
  by rewrite (IH Hk).
Qed.

(** The words of a digest in network order. *)
Definition digest_be (d : words) : buffer :=
  let '(a, b, c, d, e) := d in concat (map (be_bytes 4) [a; b; c; d; e]).

Definition auth_reply (user salt key : buffer) : buffer :=
  be_bytes 4 (Z.of_nat (length user) + 32) ++ be_bytes 4 VNS_AUTH_REPLY ++
  be_bytes 4 (Z.of_nat (length user)) ++ user ++ digest_be (sha1 (salt ++ key)).

Lemma length_digest d : length (digest_be d) = 20%nat.
Proof. by destruct d as [[[[? ?] ?] ?] ?]. Qed.

(** The file holds a key of 64 characters, and the arrays have their sizes. *)
Record keyed (key : buffer) : Prop := {
  ky_file : exists tail, auth_key_file env = Some (key ++ tail);
  ky_line : 10 ∉ key;
  ky_length : length key = 64%nat;
  ky_bytes : bytes_ok key;
  ky_array : length (key_array env) = 65%nat;
  ky_block : length (sha1_block env) = 64%nat;
  ky_block_bytes : bytes_ok (sha1_block env) }.

Lemma auth_request_ok key salt type c n sends :
  keyed key -> bytes_ok salt -> Z.of_nat (length salt) <= 9992 ->
  (length (in_user (cl_sr c)) < 32)%nat -> s_sends (cl_sock c) = SSent n :: sends ->
  (length (in_user (cl_sr c)) + 32 <= n)%nat ->
  let s := cl_sr c in
  let k := cl_sock c in
  sr_handle_auth_request env
    (le_bytes 4 (htonl (8 + Z.of_nat (length salt))) ++ le_bytes 4 type ++ salt) c =
  Ok (1, Session (set_allocs s (S (in_allocs s)))
    (Sock (s_in k) sends (s_out k ++ auth_reply (in_user s) salt key) (s_closed k)) (cl_files c)).
Proof.
  intros [[tail Hfile] Hk Hkl Hkb Hka Hb Hbb] Hs Hsl Hu Hsend Hn s k.
  unfold sr_handle_auth_request. rewrite Hfile, fgets_full by (done || lia).
  rewrite wr_ok, bind_lift by (rewrite length_app; simpl; lia).
  set (l4 := le_bytes 4 (htonl (8 + Z.of_nat (length salt)))).
  assert (Hl4 : length l4 = 4%nat) by (apply length_le_bytes).
  rewrite ld_ok, bind_lift by (unfold in_field; rewrite !length_app; simpl; lia).
  assert (Hv : ntohl (fval mLen 0 (l4 ++ le_bytes 4 type ++ salt)) = 8 + Z.of_nat (length salt)).
  { change (fval mLen 0 _) with (le_val l4). unfold l4.
    rewrite le_val_le_bytes, Z.mod_small by apply (bswap_range 4).
    apply bswap_bswap. change (256 ^ Z.of_nat 4) with 4294967296. lia. }
  rewrite Hv, u32_small by lia. replace (8 + Z.of_nat (length salt) - 8) with (Z.of_nat (length salt)) by lia.
  rewrite (proj2 (Z.leb_le _ _)), Nat2Z.id by (rewrite !length_app; lia).
  rewrite (rd_ok 8), bind_lift by (rewrite !length_app, Hl4, length_le_bytes; lia).
  assert (Hsalt : slice 8 (length salt) (l4 ++ le_bytes 4 type ++ salt) = salt).
  { change (slice 8 (length salt) (l4 ++ le_bytes 4 type ++ salt)) with (slice 0 (length salt) salt).
    apply slice_all. }
  assert (Hkey : slice 0 64 (splice 0 (key ++ [0]) (key_array env)) = key).
  { unfold slice, splice. rewrite drop_0, take_0. cbn [app]. rewrite <-app_assoc.
    by apply take_app_length'. }
  rewrite Hsalt. destruct (input_ok salt [] _ (reset_absorbed _ Hb Hbb) Hs) as (c1 & E1 & A1);
    [unfold fits; simpl; lia|].
  assert (Hkn : length (splice 0 (key ++ [0]) (key_array env)) = 65%nat)
    by (rewrite length_splice; rewrite ?length_app; simpl; lia).
  rewrite E1, bind_lift, rd_ok, Hkey, bind_lift by lia.
  cbn [app] in A1. destruct (input_ok key salt c1 A1 Hkb) as (c2 & E2 & A2);
    [unfold fits; rewrite length_app; lia|].
  destruct (result_ok _ _ A2) as (c3 & E3 & Hd & _); [unfold fits; rewrite length_app; lia|].
  rewrite E2, bind_lift, E3, bind_lift. change (1 =? 0) with false. cbn iota. rewrite bind_get.
  fold s. rewrite (proj2 (Nat.ltb_lt _ _)) by done. rewrite bind_ret_l.
  unfold in_router at 1. unfold mbind at 1, M_bind at 1, malloc at 1. cbn beta iota.
  unfold mbind, M_bind, in_sock, send, set_sock. cbn [cl_sock cl_sr cl_files]. fold k.
  fold k in Hsend. rewrite Hsend. set (msg := auth_reply_message _ _).
  assert (Hmsg : msg = auth_reply (in_user s) salt key).
  { unfold msg, auth_reply_message, auth_reply, base, digest_bytes, digest_be. rewrite Hd, !le_bytes_bswap.
    destruct (sha1 (salt ++ key)) as [[[[? ?] ?] ?] ?]. cbn [map].
    rewrite !le_bytes_bswap, <-!app_assoc. do 2 f_equal. lia. }
  assert (Hml : length msg = (12 + length (in_user s) + 20)%nat).
  { rewrite Hmsg. unfold auth_reply, be_bytes.
    rewrite !length_app, length_digest, !length_rev, !length_le_bytes. lia. }
  rewrite take_ge by (rewrite Hml; unfold s; lia). rewrite Hml, Nat.eqb_refl, Hmsg. done.
Qed.

(** Authentication. An authentication request, however the stream is cut, is answered
    with exactly one reply: the user's name and the SHA-1 digest of the salt
    followed by the 64 characters of the key, in network order; the result is 1. *)
Theorem auth_answered fuel c key salt rest n sends :
  steady (s_in (cl_sock c)) -> (length (s_in (cl_sock c)) < fuel)%nat ->
  stream (s_in (cl_sock c)) =
    base (8 + Z.of_nat (length salt)) VNS_AUTH_REQUEST ++ salt ++ rest ->
  bytes_ok salt -> Z.of_nat (length salt) <= 9992 -> keyed key ->
  (length (in_user (cl_sr c)) < 32)%nat -> s_sends (cl_sock c) = SSent n :: sends ->
  (length (in_user (cl_sr c)) + 32 <= n)%nat ->
  exists sk s', sr_read_from_server_expect env depth fuel VNS_AUTH_REQUEST c =
      Ok (1, Session s' sk (cl_files c)) /\
    s' = set_allocs (cl_sr c) (S (in_allocs (cl_sr c))) /\ stream (s_in sk) = rest /\
    s_out sk = s_out (cl_sock c) ++ auth_reply (in_user (cl_sr c)) salt key /\
    steady (s_in sk) /\ (length (s_in sk) <= length (s_in (cl_sock c)))%nat /\ s_sends sk = sends.
Proof.
  intros Hst Hf Hstr Hs Hsl Hk Hu Hsend Hn.
  destruct (expect_ok fuel VNS_AUTH_REQUEST c VNS_AUTH_REQUEST salt rest Hst Hf Hstr)
    as (sk & R & S & Ex); [cbv zeta; lia|unfold VNS_AUTH_REQUEST; lia|].
  rewrite Ex.
  change (negb (VNS_AUTH_REQUEST =? 0) && negb (VNS_AUTH_REQUEST =? VNS_AUTH_REQUEST) &&
    negb (VNS_AUTH_REQUEST =? VNSCLOSE)) with false. cbn iota. change (handle_command env depth ?b ?n VNS_AUTH_REQUEST) with
    (r ← sr_handle_auth_request env b; mret (if r =? 0 then -1 else 1) : M session Z).
  erewrite (bind_ok (sr_handle_auth_request env _)) by
    (apply (auth_request_ok key salt VNS_AUTH_REQUEST (set_sock sk c) n sends);
     [done..|cbn; by rewrite (hr_sends _ _ _ R)|done]).
  do 2 eexists. split; [reflexivity|]. cbn [cl_sr set_sock cl_sock s_in s_out].
  split; [done|]. split; [done|]. split; [by rewrite (hr_out _ _ _ R)|].
  split; [apply (hr_steady _ _ _ R)|]. split; [apply (hr_calls _ _ _ R)|done].
Qed.

(** A status of success. *)
Lemma auth_status_ok fuel c ok msg rest :
  steady (s_in (cl_sock c)) -> (length (s_in (cl_sock c)) < fuel)%nat ->
  stream (s_in (cl_sock c)) =
    base (9 + Z.of_nat (length msg)) VNS_AUTH_STATUS ++ (ok :: msg) ++ rest ->
  0 < ok < 256 -> Z.of_nat (length msg) <= 9991 ->
  exists sk, has_read (cl_sock c) (base (9 + Z.of_nat (length msg)) VNS_AUTH_STATUS ++ ok :: msg) sk /\
    stream (s_in sk) = rest /\
    sr_read_from_server_expect env depth fuel VNS_AUTH_STATUS c = Ok (1, set_sock sk c).
Proof.
  intros Hst Hf Hstr Hok Hl. replace (9 + Z.of_nat (length msg)) with (8 + Z.of_nat (length (ok :: msg))) in *
    by (cbn [length]; lia).
  destruct (expect_ok fuel VNS_AUTH_STATUS c VNS_AUTH_STATUS (ok :: msg) rest Hst Hf Hstr) as (sk & R & S & Ex);
    [cbn [length]; lia|unfold VNS_AUTH_STATUS; lia|].
  exists sk. split; [exact R|]. split; [exact S|]. rewrite Ex.
  change (negb (VNS_AUTH_STATUS =? 0) && negb (VNS_AUTH_STATUS =? VNS_AUTH_STATUS) &&
    negb (VNS_AUTH_STATUS =? VNSCLOSE)) with false. cbn iota.
  change (handle_command env depth ?b ?n VNS_AUTH_STATUS) with
    (r ← sr_handle_auth_status b; mret (if r =? 0 then -1 else 1) : M session Z).
  unfold sr_handle_auth_status. set (l4 := le_bytes 4 (htonl _)). set (t4 := le_bytes 4 VNS_AUTH_STATUS).
  assert (Hld : ld auth_ok 0 (l4 ++ t4 ++ ok :: msg) = Ok ok).
  { rewrite ld_ok by (unfold in_field; rewrite !length_app; unfold l4, t4; rewrite !length_le_bytes; simpl; lia).
    f_equal. change (le_val [ok] = ok). cbn. lia. }
  rewrite Hld, bind_assoc, bind_lift. rewrite (proj2 (Z.eqb_neq ok 0)) by lia. rewrite bind_assoc, !bind_ret_l.
  by rewrite (proj2 (Z.eqb_neq ok 0)) by lia.
Qed.
(** ** Streams that go wrong *)

Lemma read_bytes_eof pre post want fuel acc s :
  s_in s = pre ++ REof :: post -> steady pre -> (length acc + length (stream pre) < want)%nat ->
  read_bytes fuel want acc s = Fault OutOfFuel.
Proof.
  revert pre acc s. induction fuel as [|fuel IH]; intros pre acc s Hs Hst Hl; [done|].
  cbn [read_bytes]. rewrite (proj2 (Nat.ltb_lt _ _)) by lia. unfold recv. rewrite Hs.
  destruct pre as [|e pre]; cbn [app mbind res_bind].
  - rewrite app_nil_r. by apply (IH []).
  - apply Forall_cons in Hst as [He Hst]. destruct e as [b| |err]; [|done|].
    + change (stream (RData b :: pre)) with (b ++ stream pre) in Hl. rewrite length_app in Hl.
      rewrite (proj2 (Nat.ltb_ge _ _)), take_ge by lia. apply (IH pre); [done|done|].
      rewrite length_app. lia.
    + subst err. by apply (IH pre).
Qed.

(** Two ways reading goes wrong. When the server closes the connection between
    commands, or within the first four bytes of one, the router never returns
    from [sr_read_from_server]: it calls [recv] for ever. And a command whose length is given as less than
    eight makes it access the message outside its allocation. *)
Theorem vns_read_hazards c :
  (forall pre post, s_in (cl_sock c) = pre ++ REof :: post -> steady pre ->
    (length (stream pre) < 4)%nat ->
    forall fuel, sr_read_from_server env depth fuel c = Fault OutOfFuel) /\
  (forall fuel n body, steady (s_in (cl_sock c)) -> (length (s_in (cl_sock c)) < fuel)%nat ->
    stream (s_in (cl_sock c)) = le_bytes 4 (htonl n) ++ body -> 0 <= n < 8 ->
    n - 4 <= Z.of_nat (length body) ->
    sr_read_from_server env depth fuel c = Fault OutOfBounds).
Proof.
  unfold sr_read_from_server, sr_read_from_server_expect. split.
  - intros pre post Hs Hst Hl fuel. apply bind_fault. unfold in_sock.
    by rewrite (read_bytes_eof pre post) by done.
  - intros fuel n body Hst Hf Hstr Hn Hb. set (l4 := le_bytes 4 (htonl n)) in *.
    assert (Hl4 : length l4 = 4%nat) by (apply length_le_bytes).
    destruct (read_bytes_ok _ (cl_sock c) [] 4 fuel eq_refl Hst) as (s1 & E1 & R1);
      [simpl; lia|rewrite Hstr, length_app; simpl; lia|done|].
    cbn [length app Nat.sub] in E1, R1. rewrite Hstr in E1, R1.
    rewrite take_app_le, take_ge in E1, R1 by lia.
    pose proof (hr_stream _ _ _ R1) as S1. rewrite Hstr in S1. apply app_inv_head in S1.
    erewrite bind_ok by (unfold in_sock; rewrite E1; reflexivity). cbv iota beta.
    assert (Hv : i32 (ntohl (le_val l4)) = n) by (apply bswap_i32; lia).
    rewrite !Hv, Z.gtb_ltb, !(proj2 (Z.ltb_ge _ _)) by lia. cbn [orb].
    destruct (Z.ltb_spec n 4) as [H4|H4]; [reflexivity|]. rewrite bind_ret_l.
    destruct (read_bytes_ok _ s1 [] (Z.to_nat (n - 4)) fuel eq_refl (hr_steady _ _ _ R1))
      as (s2 & E2 & R2);
      [simpl; lia|rewrite <-S1; simpl; lia|pose proof (hr_calls _ _ _ R1); lia|].
    erewrite bind_ok by (unfold in_sock, set_sock; cbn [cl_sock]; rewrite E2; reflexivity).
    cbv iota beta. rewrite ld_oob; [reflexivity|].
    rewrite length_app, length_le_bytes, app_nil_l, length_take. simpl. lia.
Qed.
End props.

(** * At concrete inputs *)

Definition example_env : surroundings :=
  Surroundings (Some (replicate 64 107 ++ str "rest")) true (replicate 65 1) (replicate 64 0).

(** A session whose stream holds the bytes, cut in two and interrupted. *)
Definition example_session (s : sr_instance) (m : buffer) : session :=
  Session s (Sock [RData (take 7 m); RErr EINTR; RData (drop 7 m)] [SSent 100] [] false) [].

Lemma vns_packet_delivered_witness :
  let m := vns_message (str "eth3") (transit_frame 9) in
  exists sk, stream (s_in sk) = [] /\
    sr_read_from_server example_env 1 4 (example_session known m) =
      match sr_handlepacket 1 (transit_frame 9) (length (transit_frame 9)) (str "eth3") known with
      | Ok (_, s') => Ok (1, Session s' sk [])
      | Fault e => Fault e
      end.
Proof.
  destruct (vns_packet_delivered example_env 1 4
    (example_session known (vns_message (str "eth3") (transit_frame 9)))
    (str "eth3") (transit_frame 9) [] eth3) as (sk & _ & S & E).
  - repeat constructor.
  - apply Nat.ltb_lt. reflexivity.
  - by_eval.
  - apply Z.leb_le. by_eval.
  - repeat constructor; discriminate.
  - apply Nat.ltb_lt. reflexivity.
  - reflexivity.
  - exists sk. split; [exact S|]. rewrite E.
    assert (Ea : arp_for_other eth3 (transit_frame 9) = false) by by_eval. rewrite Ea. reflexivity.
Defined.

Lemma hwinfo_loads_witness :
  exists r s' sk l, map described l = map described [eth1; eth3] /\ in_if_list s' = l /\
    sr_read_from_server example_env 1 4
      (example_session (set_if_list known []) (hw_message [eth1; eth3])) = Ok (r, Session s' sk []).
Proof.
  destruct (hwinfo_loads example_env 1 4
    (example_session (set_if_list known []) (hw_message [eth1; eth3])) [eth1; eth3] [])
    as (sk & _ & _ & E).
  - repeat constructor.
  - apply Nat.ltb_lt. reflexivity.
  - by_eval.
  - repeat constructor; try discriminate; try (apply Nat.ltb_lt; reflexivity); by_eval.
  - apply Nat.leb_le. reflexivity.
  - cbv zeta in E. do 4 eexists. split; [|split; [reflexivity|exact E]]. reflexivity.
Defined.

Lemma auth_answered_witness :
  exists s' sk, sr_read_from_server_expect example_env 1 4 VNS_AUTH_REQUEST
      (example_session known (base 11 VNS_AUTH_REQUEST ++ [1; 2; 3])) = Ok (1, Session s' sk []) /\
    s_out sk = [] ++ auth_reply (in_user known) [1; 2; 3] (replicate 64 107).
Proof.
  destruct (auth_answered example_env 1 4
    (example_session known (base 11 VNS_AUTH_REQUEST ++ [1; 2; 3])) (replicate 64 107)
    [1; 2; 3] [] 100 []) as (sk & s' & E & _ & _ & O & _).
  - repeat constructor.
  - apply Nat.ltb_lt. reflexivity.
  - by_eval.
  - by_compute.
  - apply Z.leb_le. reflexivity.
  - constructor; [by eexists | | apply length_replicate | apply Forall_replicate; split; done |
      apply length_replicate | apply length_replicate | apply bytes_ok_zeros].
    intros Hx%elem_of_replicate_inv. discriminate Hx.
  - apply Nat.ltb_lt. reflexivity.
  - reflexivity.
  - apply Nat.leb_le. reflexivity.
  - exists s', sk. split; [exact E|exact O].
Defined.

Lemma vns_read_hazards_witness :
  sr_read_from_server example_env 1 7
      (Session known (Sock [REof] [] [] false) []) = Fault OutOfFuel /\
  sr_read_from_server example_env 1 4 (example_session known (le_bytes 4 (htonl 6) ++ [1; 2])) =
    Fault OutOfBounds.
Proof.
  split.
  - apply (proj1 (vns_read_hazards example_env 1 (Session known (Sock [REof] [] [] false) []))
      [] []); [reflexivity|constructor|apply Nat.ltb_lt; reflexivity].
  - apply (proj2 (vns_read_hazards example_env 1
      (example_session known (le_bytes 4 (htonl 6) ++ [1; 2]))) 4%nat 6 [1; 2]).
    + repeat constructor.
    + apply Nat.ltb_lt. reflexivity.
    + by_eval.
    + lia.
    + apply Z.leb_le. reflexivity.
Defined.
