(* ===== verification/VnsLayout.v ===== *)
(** The messages of router/src/router/vnscommand.h by the fields of their structs,
    as the server reads them: the ones the router builds give back what went into
    them. *)
From S2P Require Import Prelude Mem Protocol Interfaces CString Instance Vns.

(** * The structs *)

(** [c_open] *)
Definition topoID : field := Field 8 2.
Definition pad : field := Field 10 2.
Definition mVirtualHostID : field := Field 12 IDSIZE.
Definition mUID : field := Field (12 + IDSIZE) IDSIZE.
Definition mPass : field := Field (12 + 2 * IDSIZE) IDSIZE.
Definition sizeof_c_open : nat := 12 + 3 * IDSIZE.

(** [c_open_template], without filters. *)
Definition templateName : field := Field 8 30.
Definition template_host : field := Field 38 IDSIZE.
Definition sizeof_c_open_template : nat := 38 + IDSIZE.

(** [c_packet_header] in front of its frame, and the fields of
    [c_packet_ethernet_header] that the frame starts with. *)
Definition mInterfaceName : field := Field 8 16.
Definition packet_dhost : field := Field 24 6.
Definition packet_shost : field := Field 30 6.
Definition packet_type : field := Field 36 2.

(** [c_auth_reply] in front of the name and the digest. *)
Definition usernameLen : field := Field 8 4.
Definition sizeof_c_auth_reply : nat := 12.

(** An array of characters as a string. *)
Definition chars (f : field) (m : buffer) : res cstr := c_str_n (f_size f) (fbytes f 0 m).

(** * Reading *)

Lemma fbytes_here f m a b c :
  m = a ++ b ++ c -> f_off f = length a -> f_size f = length b -> fbytes f 0 m = b.
Proof.
  intros -> Ho Hs. unfold fbytes, slice. cbn [Nat.add]. rewrite Ho, Hs.
  by rewrite drop_app_length, take_app_length.
Qed.

(** A number that was stored in network order. *)
Lemma ntohl_here f m a v c :
  m = a ++ le_bytes 4 (htonl v) ++ c -> f_off f = length a -> f_size f = 4%nat ->
  0 <= v < 2 ^ 32 -> ntohl (fval f 0 m) = v.
Proof.
  intros Hm Ho Hs Hv. unfold fval.
  rewrite (fbytes_here f m a (le_bytes 4 (htonl v)) c) by (done || by rewrite length_le_bytes).
  rewrite le_val_le_bytes, Z.mod_small by apply (bswap_range 4). by apply bswap_bswap.
Qed.
Lemma ntohs_here f m a v c :
  m = a ++ le_bytes 2 (htons v) ++ c -> f_off f = length a -> f_size f = 2%nat ->
  0 <= v < 2 ^ 16 -> ntohs (fval f 0 m) = v.
Proof.
  intros Hm Ho Hs Hv. unfold fval.
  rewrite (fbytes_here f m a (le_bytes 2 (htons v)) c) by (done || by rewrite length_le_bytes).
  rewrite le_val_le_bytes, Z.mod_small by apply (bswap_range 2). by apply bswap_bswap.
Qed.

Lemma length_strncpy_pad n s : length (strncpy_pad n s) = n.
Proof. unfold strncpy_pad. rewrite length_app, length_take, length_replicate. lia. Qed.

(** A string that [strncpy] stored, cut to its array. *)
Lemma c_str_n_pad n s : c_string s -> c_str_n n (strncpy_pad n s) = Ok (take n s).
Proof.
  revert n. induction s as [|b s IH]; intros [|n] Hs; [done|done|done|].
  apply Forall_cons in Hs as [Hb Hs]. unfold strncpy_pad. cbn [take app c_str_n length Nat.sub].
  rewrite (proj2 (Z.eqb_neq _ _)) by done. fold (strncpy_pad n s). by rewrite IH.
Qed.
Lemma chars_here f m a s c :
  m = a ++ strncpy_pad (f_size f) s ++ c -> f_off f = length a -> c_string s ->
  chars f m = Ok (take (f_size f) s).
Proof.
  intros Hm Ho Hs. unfold chars.
  rewrite (fbytes_here f m a (strncpy_pad (f_size f) s) c) by (done || by rewrite length_strncpy_pad).
  by apply c_str_n_pad.
Qed.

(** * The messages *)

Lemma open_reads topo host user :
  0 <= topo < 2 ^ 16 -> c_string host -> c_string user ->
  let m := open_message topo host user in
  length m = sizeof_c_open /\ ntohl (fval mLen 0 m) = Z.of_nat sizeof_c_open /\
  ntohl (fval mType 0 m) = VNSOPEN /\ ntohs (fval topoID 0 m) = topo /\ fval pad 0 m = 0 /\
  chars mVirtualHostID m = Ok (take IDSIZE host) /\ chars mUID m = Ok (take IDSIZE user) /\
  chars mPass m = Ok [].
Proof.
  intros Ht Hhost Hu m.
  assert (Hm : m = base 108 VNSOPEN ++ le_bytes 2 (htons topo) ++ [0; 0] ++
    strncpy_pad IDSIZE host ++ strncpy_pad IDSIZE user ++ strncpy_pad IDSIZE [] ++ []).
  { unfold m, open_message. by rewrite app_nil_r. }
  assert (Hb : length (base 108 VNSOPEN) = 8%nat) by done.
  split.
  { rewrite Hm, !length_app, !length_strncpy_pad, length_le_bytes, Hb. done. }
  split; [by apply (ntohl_here mLen m [] 108 (drop 4 m)); [rewrite Hm|..]|].
  split; [by apply (ntohl_here mType m (take 4 m) VNSOPEN (drop 8 m)); [rewrite Hm|..]|].
  split.
  { eapply (ntohs_here topoID m (base 108 VNSOPEN) topo); [|done..]. exact Hm. }
  split; [unfold fval; by rewrite (fbytes_here pad m (base 108 VNSOPEN ++ le_bytes 2 (htons topo)) [0; 0]
    _ Hm)|].
  split.
  { eapply (chars_here mVirtualHostID m (base 108 VNSOPEN ++ le_bytes 2 (htons topo) ++ [0; 0]));
      [rewrite Hm, <-!app_assoc; reflexivity|done..]. }
  split.
  { eapply (chars_here mUID m (base 108 VNSOPEN ++ le_bytes 2 (htons topo) ++ [0; 0] ++
      strncpy_pad IDSIZE host)); [rewrite Hm, <-!app_assoc; reflexivity| |done].
    by rewrite !length_app, !length_strncpy_pad, length_le_bytes, Hb. }
  eapply (chars_here mPass m (base 108 VNSOPEN ++ le_bytes 2 (htons topo) ++ [0; 0] ++
    strncpy_pad IDSIZE host ++ strncpy_pad IDSIZE user) []); [rewrite Hm, <-!app_assoc; reflexivity| |constructor].
  by rewrite !length_app, !length_strncpy_pad, length_le_bytes, Hb.
Qed.

Lemma template_reads template host :
  c_string template -> c_string host ->
  let t := open_template_message template host in
  length t = sizeof_c_open_template /\
  ntohl (fval mLen 0 t) = Z.of_nat sizeof_c_open_template /\
  ntohl (fval mType 0 t) = VNS_OPEN_TEMPLATE /\
  chars templateName t = Ok (take 30 template) /\ chars template_host t = Ok (take IDSIZE host).
Proof.
  intros Hte Hhost t.
  assert (Hm : t = base 70 VNS_OPEN_TEMPLATE ++ strncpy_pad 30 template ++
    strncpy_pad IDSIZE host ++ []) by (unfold t, open_template_message; by rewrite app_nil_r).
  assert (Hb : length (base 70 VNS_OPEN_TEMPLATE) = 8%nat) by done.
  split; [by rewrite Hm, !length_app, !length_strncpy_pad, Hb|].
  split; [by apply (ntohl_here mLen t [] 70 (drop 4 t)); [rewrite Hm|..]|].
  split; [by apply (ntohl_here mType t (take 4 t) VNS_OPEN_TEMPLATE (drop 8 t)); [rewrite Hm|..]|].
  split; [by apply (chars_here templateName t (base 70 VNS_OPEN_TEMPLATE) template
    (strncpy_pad IDSIZE host ++ []))|].
  eapply (chars_here template_host t (base 70 VNS_OPEN_TEMPLATE ++ strncpy_pad 30 template));
    [rewrite Hm, <-!app_assoc; reflexivity| |done].
  by rewrite length_app, length_strncpy_pad, Hb.
Qed.

Lemma packet_reads iface frame :
  c_string iface -> (14 <= length frame)%nat -> 24 + Z.of_nat (length frame) < 2 ^ 32 ->
  let p := vns_message iface frame in
  length p = (24 + length frame)%nat /\ ntohl (fval mLen 0 p) = 24 + Z.of_nat (length frame) /\
  ntohl (fval mType 0 p) = VNSPACKET /\ chars mInterfaceName p = Ok (take 16 iface) /\
  fbytes packet_dhost 0 p = fbytes ether_dhost 0 frame /\
  fbytes packet_shost 0 p = fbytes ether_shost 0 frame /\
  fbytes packet_type 0 p = fbytes ether_type 0 frame.
Proof.
  intros Hi Hf Hl p.
  set (len := 24 + Z.of_nat (length frame)) in *.
  assert (Hm : p = le_bytes 4 (htonl len) ++ le_bytes 4 (htonl VNSPACKET) ++
    strncpy_pad 16 iface ++ frame).
  { unfold p, vns_message, packet_header, u32. rewrite Z.mod_small by lia.
    rewrite <-!app_assoc. unfold len. by rewrite Z.add_comm. }
  split; [by rewrite Hm, !length_app, length_strncpy_pad, !length_le_bytes|].
  split; [by apply (ntohl_here mLen p [] len (drop 4 p)); [rewrite Hm|..|unfold len; lia]|].
  split; [by apply (ntohl_here mType p (take 4 p) VNSPACKET (drop 8 p)); [rewrite Hm|..]|].
  split; [eapply (chars_here mInterfaceName p (le_bytes 4 (htonl len) ++ le_bytes 4 (htonl VNSPACKET)));
    [rewrite Hm, <-!app_assoc; reflexivity|done|done]|].
  assert (Hd : forall o n, slice (24 + o) n p = slice o n frame).
  { intros o n. unfold slice. rewrite Hm, <-drop_drop. do 3 f_equal.
    rewrite !app_assoc. apply drop_app_length'.
    by rewrite !length_app, length_strncpy_pad, !length_le_bytes. }
  unfold fbytes. cbn [Nat.add f_off f_size packet_dhost packet_shost packet_type ether_dhost
    ether_shost ether_type].
  by rewrite (Hd 0%nat), (Hd 6%nat), (Hd 12%nat).
Qed.

Lemma auth_reply_reads user digest :
  length digest = 20%nat -> Z.of_nat (length user) < 2 ^ 31 ->
  let a := auth_reply_message user digest in
  length a = (sizeof_c_auth_reply + length user + 20)%nat /\
  ntohl (fval mLen 0 a) = Z.of_nat (length a) /\ ntohl (fval mType 0 a) = VNS_AUTH_REPLY /\
  ntohl (fval usernameLen 0 a) = Z.of_nat (length user) /\
  drop sizeof_c_auth_reply a = user ++ digest.
Proof.
  intros Hd Hu a. set (len := Z.of_nat (12 + length user + 20)).
  assert (Hb : length (base len VNS_AUTH_REPLY) = 8%nat) by done.
  assert (Hlen : length a = (12 + length user + 20)%nat).
  { unfold a, auth_reply_message. fold len. rewrite !length_app, length_le_bytes, Hb. lia. }
  split; [done|]. rewrite Hlen. fold len. split; [|split; [|split]].
  - by apply (ntohl_here mLen a [] len (drop 4 a)); [..|unfold len; lia].
  - by apply (ntohl_here mType a (take 4 a) VNS_AUTH_REPLY (drop 8 a)).
  - by apply (ntohl_here usernameLen a (base len VNS_AUTH_REPLY) _ (user ++ digest)); [..|lia].
  - unfold a, auth_reply_message. fold len. by rewrite app_assoc, drop_app_length'.
Qed.

(** C30: What the router sends reads back by the structs of vnscommand.h. The
    message that opens a session, with a topology or with a template, is as long
    as its struct and says so, and has the kind, the topology and the names it
    was built from, each cut to its array; no password is sent. A packet's message
    has its length, its kind, the interface and, as its Ethernet header, the first
    bytes of the frame. The answer to an authentication request gives the name's
    length, and the name and the digest follow it to the end. *)
Theorem messages_read_back topo host user template iface frame digest :
  0 <= topo < 2 ^ 16 -> c_string host -> c_string user -> c_string template -> c_string iface ->
  (14 <= length frame)%nat -> 24 + Z.of_nat (length frame) < 2 ^ 32 ->
  length digest = 20%nat -> Z.of_nat (length user) < 2 ^ 31 ->
  let m := open_message topo host user in
  let t := open_template_message template host in
  let p := vns_message iface frame in
  let a := auth_reply_message user digest in
  (length m = sizeof_c_open /\ ntohl (fval mLen 0 m) = Z.of_nat sizeof_c_open /\
   ntohl (fval mType 0 m) = VNSOPEN /\ ntohs (fval topoID 0 m) = topo /\ fval pad 0 m = 0 /\
   chars mVirtualHostID m = Ok (take IDSIZE host) /\ chars mUID m = Ok (take IDSIZE user) /\
   chars mPass m = Ok []) /\
  (length t = sizeof_c_open_template /\
   ntohl (fval mLen 0 t) = Z.of_nat sizeof_c_open_template /\
   ntohl (fval mType 0 t) = VNS_OPEN_TEMPLATE /\
   chars templateName t = Ok (take 30 template) /\ chars template_host t = Ok (take IDSIZE host)) /\
  (length p = (24 + length frame)%nat /\ ntohl (fval mLen 0 p) = 24 + Z.of_nat (length frame) /\
   ntohl (fval mType 0 p) = VNSPACKET /\ chars mInterfaceName p = Ok (take 16 iface) /\
   fbytes packet_dhost 0 p = fbytes ether_dhost 0 frame /\
   fbytes packet_shost 0 p = fbytes ether_shost 0 frame /\
   fbytes packet_type 0 p = fbytes ether_type 0 frame) /\
  (length a = (sizeof_c_auth_reply + length user + 20)%nat /\
   ntohl (fval mLen 0 a) = Z.of_nat (length a) /\ ntohl (fval mType 0 a) = VNS_AUTH_REPLY /\
   ntohl (fval usernameLen 0 a) = Z.of_nat (length user) /\
   drop sizeof_c_auth_reply a = user ++ digest).
Proof.
  intros. split; [by apply open_reads|]. split; [by apply template_reads|].
  split; [by apply packet_reads|by apply auth_reply_reads].
Qed.

Lemma messages_read_back_witness :
  ntohs (fval topoID 0 (open_message 3 (str "vrhost") (str "user"))) = 3 /\
  chars mInterfaceName (vns_message (str "eth1") (replicate 14 7)) = Ok (str "eth1").
Proof.
  destruct (messages_read_back 3 (str "vrhost") (str "user") (str "t") (str "eth1") (replicate 14 7)
    (replicate 20 9)) as ((_ & _ & _ & H1 & _) & _ & (_ & _ & _ & H2 & _) & _).
  - lia.
  - repeat constructor; discriminate.
  - repeat constructor; discriminate.
  - repeat constructor; discriminate.
  - repeat constructor; discriminate.
  - apply Nat.leb_le. reflexivity.
  - reflexivity.
  - reflexivity.
  - reflexivity.
  - split; [exact H1|exact H2].
Defined.
