(* ===== verification/PacketQueue.v ===== *)
(** The buffer queues of a mysocket (transport-layer/src/mysock.c and
    mysock_impl.h): [_mysock_enqueue_buffer], [_mysock_dequeue_buffer] and
    [_mysock_free_queue], and what [myread] and [mywrite]
    (transport-layer/src/mysock_api.c) make of them. *)
From S2P Require Import Prelude.

(** [memcpy] between regions that overlap is undefined in C; a library may still
    move the bytes as [memmove] does. [memcpy_overlaps] says whether the one in use
    does; where it does not, such a copy is a fault. *)
Class Memcpy := { memcpy_overlaps : bool }.
Definition moving_memcpy : Memcpy := {| memcpy_overlaps := true |}.
Definition strict_memcpy : Memcpy := {| memcpy_overlaps := false |}.

Section queues.
Context {memcpy : Memcpy}.

(** The longest packet (network_io.h). *)
Definition MAX_IP_PAYLOAD_LEN : nat := 1500.

(** [packet_queue_t]: the nodes from [head] to [tail], each with its data
    ([data_len] is the data's length). *)
Definition packet_queue : Type := list buffer.

(** [_mysock_enqueue_buffer] *)
Definition mysock_enqueue_buffer (pq : packet_queue) (packet : buffer) : packet_queue :=
  pq ++ [packet].

(** [_mysock_dequeue_buffer]: blocks on an empty queue; a node that does not fit
    gives its first [max_len] bytes and keeps the rest when [remove_partial] is
    set, which [memcpy] moves to its front, over itself when it is longer than what
    is taken; otherwise the node goes, at most [max_len] bytes of it are copied to
    [dst], and its whole length is returned. Returns the bytes copied and the
    number returned. *)
Definition mysock_dequeue_buffer (pq : packet_queue) (max_len : nat) (remove_partial : bool)
  : res (buffer * nat * packet_queue) :=
  match pq with
  | [] => Fault Blocked
  | node :: next =>
      if (max_len <? length node)%nat && remove_partial then
        if (max_len <? length node - max_len)%nat && negb memcpy_overlaps then Fault Overlap
        else Ok (take max_len node, max_len, drop max_len node :: next)
      else Ok (take (Nat.min max_len (length node)) node, length node, next)
  end.

(** [_mysock_free_queue]: reports whether there was anything. *)
Definition mysock_free_queue (pq : packet_queue) : bool * packet_queue :=
  (match pq with [] => false | _ => true end, []).

(** The side of a mysocket the application sees. *)
Record app_side := AppSide {
  as_recv_queue : packet_queue;   (* app_recv_queue: from the application *)
  as_send_queue : packet_queue;   (* app_send_queue: to the application *)
  as_close_requested : bool;
  as_eof : bool }.

(** [mywrite], on a socket that is not listening. *)
Definition mywrite (a : app_side) (buf : buffer) : res (nat * app_side) :=
  if as_close_requested a then Fault AssertFail
  else Ok (length buf, AppSide (mysock_enqueue_buffer (as_recv_queue a) buf)
    (as_send_queue a) (as_close_requested a) (as_eof a)).

(** [myread], on a socket that is not listening: the bytes read, the result,
    and the new state. *)
Definition myread (a : app_side) (buf_len : nat) : res (buffer * nat * app_side) :=
  if as_close_requested a then Fault AssertFail
  else if as_eof a then Ok ([], 0%nat, a)
  else
    '(d, len, q) ← mysock_dequeue_buffer (as_send_queue a) buf_len true;
    mret (d, len, AppSide (as_recv_queue a) q (as_close_requested a)
      (if (len =? 0)%nat then true else as_eof a)).

(** A sequence of reads with buffers of the given sizes. *)
Fixpoint myreads (a : app_side) (sizes : list nat) : res (buffer * app_side) :=
  match sizes with
  | [] => Ok ([], a)
  | n :: sizes =>
      '(d, _, a) ← myread a n;
      '(ds, a) ← myreads a sizes;
      mret (d ++ ds, a)
  end.

(** * Queues carry a stream of bytes *)

Lemma enqueue_stream pq packet :
  concat (mysock_enqueue_buffer pq packet) = concat pq ++ packet.
Proof. unfold mysock_enqueue_buffer. by rewrite concat_app, concat_cons, app_nil_r. Qed.

Lemma dequeue_partial pq max_len d n q :
  mysock_dequeue_buffer pq max_len true = Ok (d, n, q) ->
  n = length d /\ (n <= max_len)%nat /\ concat pq = d ++ concat q.
Proof.
  destruct pq as [|node next]; [done|]. simpl. rewrite andb_true_r.
  destruct (Nat.ltb_spec max_len (length node));
    [destruct (_ && _); [done|]|]; intros [= <- <- <-].
  - rewrite length_take. split; [lia|]. split; [lia|]. simpl.
    by rewrite app_assoc, take_drop.
  - rewrite length_take. split; [lia|]. split; [lia|]. rewrite take_ge by lia. done.
Qed.

(** A node never gives bytes of the next one. *)
Lemma dequeue_node pq max_len d n q :
  mysock_dequeue_buffer pq max_len true = Ok (d, n, q) ->
  exists node next, pq = node :: next /\
    ((length node <= max_len)%nat /\ d = node /\ q = next \/
     (max_len < length node)%nat /\ d = take max_len node /\ q = drop max_len node :: next).
Proof.
  destruct pq as [|node next]; [done|]. simpl. rewrite andb_true_r.
  intros H. exists node, next. split; [done|].
  destruct (Nat.ltb_spec max_len (length node));
    [destruct (_ && _); [done|]|]; injection H as <- <- <-.
  - by right.
  - left. rewrite take_ge by lia. done.
Qed.

(** Whatever sizes of buffer the application reads with, and while nothing
    has marked the end of the stream, the bytes it reads are the bytes that were
    queued for it, in order: what was read and what is left make up what was
    there. *)
Theorem reads_stream a sizes ds a' :
  myreads a sizes = Ok (ds, a') -> as_eof a' = false ->
  concat (as_send_queue a) = ds ++ concat (as_send_queue a') /\
  as_recv_queue a' = as_recv_queue a.
Proof.
  revert a ds. induction sizes as [|n sizes IH]; intros a ds.
  { by intros [= <- <-] _. }
  cbn [myreads]. destruct (myread a n) as [[[d k] a1]|] eqn:Er; [|done].
  cbn [mbind res_bind]. destruct (myreads a1 sizes) as [[ds1 a2]|] eqn:Es; [|done].
  intros [= <- <-] Heof. destruct (IH a1 ds1 Es Heof) as [H1 H2].
  unfold myread in Er. destruct (as_close_requested a); [done|].
  destruct (as_eof a) eqn:Ea.
  - injection Er as <- _ <-. done.
  - destruct (mysock_dequeue_buffer (as_send_queue a) n true) as [[[d' l] q]|] eqn:Ed; [|done].
    injection Er as <- <- <-. apply dequeue_partial in Ed as (_ & _ & Hc).
    simpl in *. split; [|done]. by rewrite Hc, H1, app_assoc.
Qed.

(** A read with a buffer of no bytes is taken for the end of the stream: later
    reads return nothing, however much is queued. *)
Lemma myread_zero a buf rest :
  memcpy_overlaps = true ->
  as_close_requested a = false -> as_eof a = false -> as_send_queue a = buf :: rest ->
  buf <> [] ->
  exists a', myread a 0 = Ok ([], 0%nat, a') /\ as_send_queue a' = buf :: rest /\
    forall n, myread a' n = Ok ([], 0%nat, a').
Proof.
  intros Hm Hc He Hq Hb. unfold myread. rewrite Hc, He, Hq. destruct buf as [|b buf]; [done|].
  unfold mysock_dequeue_buffer. rewrite Hm, andb_false_r.
  eexists. split; [done|]. split; [done|]. intros n. done.
Qed.

(** When a dequeue that takes a part does not overlap: where the library moves the
    bytes, and when at least half of the node is taken. *)
Lemma dequeue_moves node next max_len :
  memcpy_overlaps = true \/ (length node <= 2 * max_len)%nat ->
  mysock_dequeue_buffer (node :: next) max_len true =
    Ok (take max_len node, Nat.min max_len (length node),
        if (max_len <? length node)%nat then drop max_len node :: next else next).
Proof.
  intros Hm. unfold mysock_dequeue_buffer. rewrite andb_true_r.
  destruct (Nat.ltb_spec max_len (length node)) as [Hl|Hl].
  - rewrite Nat.min_l by lia. replace ((_ <? _)%nat && _) with false; [done|]. symmetry.
    apply andb_false_iff. destruct Hm as [->|Hm]; [by right|left]. apply Nat.ltb_ge. lia.
  - rewrite Nat.min_r by done. by rewrite !take_ge by lia.
Qed.
Lemma dequeue_overlap node next max_len :
  memcpy_overlaps = false -> (2 * max_len < length node)%nat ->
  mysock_dequeue_buffer (node :: next) max_len true = Fault Overlap.
Proof.
  intros Hm Hl. unfold mysock_dequeue_buffer. rewrite andb_true_r, Hm.
  destruct (Nat.ltb_spec max_len (length node)); [|lia].
  by destruct (Nat.ltb_spec max_len (length node - max_len)); [|lia].
Qed.
End queues.

#[local] Existing Instance moving_memcpy.

Lemma reads_stream_witness :
  concat [[1; 2; 3]; [4]; [5; 6]] = [1; 2; 3; 4] ++ concat [[5; 6]] /\ ([] : packet_queue) = [].
Proof.
  apply (reads_stream (AppSide [] [[1; 2; 3]; [4]; [5; 6]] false false) [2%nat; 5%nat; 1%nat]
    [1; 2; 3; 4] (AppSide [] [[5; 6]] false false)); reflexivity.
Defined.
