(* ===== verification/NetTcp.v ===== *)
(** The network layer of STCP over a TCP connection
    (transport-layer/src/network_io_tcp.c, and the receive thread of
    network_io_socket.c): every packet behind its length in two bytes. *)
From S2P Require Import Prelude Sockets PacketQueue.

(** [network_context_socket_tcp_t]: the socket, the result of [accept] not yet
    passed on, whether [connect] has been made, and whether the peer's address
    is known. *)
Record tcp_context := TcpContext {
  tc_socket : sock; tc_new_socket : option sock; tc_connected : bool; tc_peer_valid : bool }.

Definition set_socket (c : tcp_context) (s : sock) : tcp_context :=
  TcpContext s (tc_new_socket c) (tc_connected c) (tc_peer_valid c).

(** [_network_init] *)
Definition network_init (s : sock) : tcp_context := TcpContext s None false false.

(** [_tcp_io] with [read], into an array of [count] bytes: the result, and the
    bytes read. A call that fails or gives nothing ends it. *)
Fixpoint tcp_read (fuel : nat) (s : sock) (count : nat) (acc : buffer) : res (Z * buffer * sock) :=
  match fuel with
  | O => Fault OutOfFuel
  | S fuel =>
      if (length acc <? count)%nat then
        '(r, s) ← recv s (count - length acc);
        match r with
        | IoErr _ => Ok (-1, acc, s)
        | IoOk [] => Ok (0, acc, s)
        | IoOk data => tcp_read fuel s count (acc ++ data)
        end
      else Ok (Z.of_nat count, acc, s)
  end.
Definition tcp_io_read (s : sock) (count : nat) : res (Z * buffer * sock) :=
  tcp_read (S count) s count [].

(** [_tcp_io] with [write]. *)
Fixpoint tcp_write (fuel : nat) (s : sock) (buf : buffer) (written : nat) : res (Z * sock) :=
  match fuel with
  | O => Fault OutOfFuel
  | S fuel =>
      if (written <? length buf)%nat then
        '(r, s) ← send s (drop written buf);
        match r with
        | IoErr _ => Ok (-1, s)
        | IoOk [] => Ok (0, s)
        | IoOk data => tcp_write fuel s buf (written + length data)
        end
      else Ok (Z.of_nat (length buf), s)
  end.
Definition tcp_io_write (s : sock) (buf : buffer) : res (Z * sock) :=
  tcp_write (S (length buf)) s buf 0.

(** [_tcp_connect]; [connects] is whether [connect] succeeds. *)
Definition tcp_connect (connects : bool) (c : tcp_context) : res (Z * tcp_context) :=
  if tc_connected c then Ok (0, c)
  else if negb (tc_peer_valid c) then Fault AssertFail
  else if negb connects then Ok (-1, c)
  else Ok (0, TcpContext (tc_socket c) (tc_new_socket c) true (tc_peer_valid c)).

(** [_network_send_packet]; [htons] takes the length modulo 2^16. *)
Definition network_send_packet (connects : bool) (c : tcp_context) (src : buffer)
  : res (Z * tcp_context) :=
  if negb (tc_peer_valid c) then Fault AssertFail
  else
    '(r, c) ← tcp_connect connects c;
    if r <? 0 then Ok (-1, c)
    else
      '(r, s) ← tcp_io_write (tc_socket c) (le_bytes 2 (htons (u16 (Z.of_nat (length src)))));
      if r <? 0 then Ok (-1, set_socket c s)
      else
        '(r, s) ← tcp_io_write s src;
        if r <? 0 then Ok (-1, set_socket c s) else Ok (Z.of_nat (length src), set_socket c s).

(** Reading a packet from [s] into an array of [max_len] bytes: the result, the
    bytes stored, and the socket. What does not fit is read and dropped; the
    result is the length of the whole packet. *)
Definition recv_packet (s : sock) (max_len : nat) : res (Z * buffer * sock) :=
  '(r, l, s) ← tcp_io_read s 2;
  if r <=? 0 then Ok (r, [], s)
  else
    let packet_len := Z.to_nat (ntohs (le_val l)) in
    '(r, data, s) ← tcp_io_read s (Nat.min packet_len max_len);
    if r <=? 0 then Ok (r, data, s)
    else
      s ← (if (max_len <? packet_len)%nat
           then '(_, _, s) ← tcp_io_read s (packet_len - max_len); mret s else mret s);
      mret (Z.of_nat packet_len, data, s).

(** [_network_recv_packet]; [accepts] is what [accept] gives. *)
Definition network_recv_packet (is_active listening connects : bool) (accepts : option sock)
  (c : tcp_context) (max_len : nat) : res (Z * buffer * tcp_context) :=
  '(r, c) ← (if is_active then tcp_connect connects c else Ok (0, c));
  if r <? 0 then Ok (-1, [], c)
  else if listening then
    match accepts with
    | None => Ok (-1, [], c)
    | Some s =>
        match tc_new_socket c with
        | Some _ => Fault AssertFail
        | None =>
            '(r, data, s) ← recv_packet s max_len;
            mret (r, data, TcpContext (tc_socket c) (Some s) (tc_connected c) (tc_peer_valid c))
        end
    end
  else
    '(r, data, s) ← recv_packet (tc_socket c) max_len;
    mret (r, data, set_socket c s).

(** [_network_update_passive_state]: the new context, its own socket closed, takes
    over the accepted one; a context that has none takes the invalid descriptor,
    here a fault. *)
Definition network_update_passive_state (new_listening new_active : bool)
  (new_ctx accept_ctx : tcp_context) : res (tcp_context * tcp_context) :=
  if new_listening || new_active then Fault AssertFail
  else
    match tc_new_socket accept_ctx with
    | None => Fault AssertFail
    | Some s =>
        Ok (TcpContext s (tc_new_socket new_ctx) true (tc_peer_valid new_ctx),
            TcpContext (tc_socket accept_ctx) None (tc_connected accept_ctx)
              (tc_peer_valid accept_ctx))
    end.

(** [_network_close]: the sockets closed. *)
Definition network_close (c : tcp_context) : list sock :=
  (match tc_new_socket c with Some s => [close s] | None => [] end) ++ [close (tc_socket c)].

(** * The receive thread *)

(** What [poll] answers: an interruption, or which of the exit pipe and the
    socket are ready. *)
Inductive poll_event := PollIntr | PollReady (exit socket : bool).

(** [network_recv_thread_func] of a socket that is not listening: the context and
    the queue of received packets when the thread ends. *)
Fixpoint network_recv_thread (polls : list poll_event) (is_active connects : bool)
  (c : tcp_context) (q : packet_queue) : res (tcp_context * packet_queue) :=
  match polls with
  | [] => Fault Blocked
  | PollIntr :: polls => network_recv_thread polls is_active connects c q
  | PollReady true _ :: _ => Ok (c, q)
  | PollReady false false :: polls => network_recv_thread polls is_active connects c q
  | PollReady false true :: polls =>
      '(r, data, c) ← network_recv_packet is_active false connects None c MAX_IP_PAYLOAD_LEN;
      if r <=? 0 then Ok (c, mysock_enqueue_buffer q [])
      else if Z.of_nat MAX_IP_PAYLOAD_LEN <? r then Fault AssertFail
      else network_recv_thread polls is_active connects c (mysock_enqueue_buffer q data)
  end.

(** * Packets arrive as they were sent *)

Definition frame (p : buffer) : buffer := be_bytes 2 (Z.of_nat (length p)) ++ p.

(** The packets the layer carries: not empty, and no longer than its arrays. *)
Definition carried (p : buffer) : Prop := (1 <= length p <= MAX_IP_PAYLOAD_LEN)%nat.

(** A socket from which [n] bytes of the pieces in front of [post] have been read. *)
Definition took (n : nat) (pieces post : list recv_event) (s s' : sock) : Prop :=
  exists pieces', s_in s' = pieces' ++ post /\ pieces_ok pieces' /\
    stream pieces' = drop n (stream pieces) /\
    s_sends s' = s_sends s /\ s_out s' = s_out s.

Lemma tcp_read_ok pieces post fuel s count acc :
  s_in s = pieces ++ post -> pieces_ok pieces -> (length acc <= count)%nat ->
  (count - length acc <= length (stream pieces))%nat -> (count - length acc < fuel)%nat ->
  exists s', tcp_read fuel s count acc =
      Ok (Z.of_nat count, acc ++ take (count - length acc) (stream pieces), s') /\
    took (count - length acc) pieces post s s'.
Proof.
  revert pieces s acc. induction fuel as [|fuel IH]; intros pieces s acc Hs Hp Ha Hn Hf; [lia|].
  cbn [tcp_read]. destruct (Nat.ltb_spec (length acc) count) as [Hlt|Hge].
  2:{ replace (count - length acc)%nat with O by lia. rewrite take_0, app_nil_r. exists s.
      split; [done|]. by exists pieces. }
  set (n := (count - length acc)%nat) in *. unfold recv. rewrite Hs.
  destruct pieces as [|e pieces]; [simpl in Hn; lia|].
  apply Forall_cons in Hp as [He Hp]. destruct e as [b| |err]; [|done|done].
  cbn [app mbind res_bind]. change (stream (RData b :: pieces)) with (b ++ stream pieces) in *.
  rewrite length_app in Hn. set (s1 := Sock _ _ _ _).
  destruct (take n b) as [|x t] eqn:Et.
  { apply (f_equal length) in Et. rewrite length_take in Et. destruct b; simpl in Et; [done|lia]. }
  rewrite <-Et. destruct (Nat.ltb_spec n (length b)) as [Hb|Hb].
  - assert (Hl : length (take n b) = n) by (rewrite length_take; lia).
    destruct (IH (RData (drop n b) :: pieces) s1 (acc ++ take n b)) as (s' & E & p' & P);
      [done| |rewrite length_app; lia|rewrite length_app; lia|rewrite length_app; lia|].
    { constructor; [|done]. intros Hnil%(f_equal length). rewrite length_drop in Hnil. simpl in Hnil. lia. }
    rewrite length_app, Hl in E, P. replace (count - (length acc + n))%nat with O in E, P by lia.
    rewrite take_0, app_nil_r in E. exists s'. rewrite take_app_le by lia.
    split; [exact E|]. destruct P as (P1 & P2 & P3 & P4 & P5). exists p'.
    split; [done|]. split; [done|]. split; [|done].
    change (stream (RData b :: pieces)) with (b ++ stream pieces).
    rewrite P3, drop_0, drop_app_le by lia. done.
  - rewrite take_ge in Et |- * by lia.
    assert (Hbl : (0 < length b)%nat) by (rewrite Et; simpl; lia).
    destruct (IH pieces s1 (acc ++ b)) as (s' & E & p' & P);
      [done|done|rewrite length_app; lia|rewrite length_app; lia|rewrite length_app; lia|].
    rewrite length_app in E, P. replace (count - (length acc + length b))%nat with (n - length b)%nat in E, P by lia.
    exists s'. rewrite take_app_ge, app_assoc by lia. split; [exact E|]. exists p'.
    change (stream (RData b :: pieces)) with (b ++ stream pieces).
    rewrite drop_app_ge by lia. done.
Qed.

Lemma tcp_io_read_ok pieces post s count :
  s_in s = pieces ++ post -> pieces_ok pieces -> (count <= length (stream pieces))%nat ->
  exists s', tcp_io_read s count = Ok (Z.of_nat count, take count (stream pieces), s') /\
    took count pieces post s s'.
Proof.
  intros Hs Hp Hn. destruct (tcp_read_ok pieces post (S count) s count []) as (s' & E & T);
    [done|done|simpl; lia|simpl; lia|simpl; lia|].
  cbn [length app] in E, T. rewrite Nat.sub_0_r in E, T. by exists s'.
Qed.

(** Reading the next packet of a stream of frames. *)
Lemma recv_packet_ok p rest pieces post s :
  s_in s = pieces ++ post -> pieces_ok pieces -> carried p ->
  stream pieces = frame p ++ rest ->
  exists s', recv_packet s MAX_IP_PAYLOAD_LEN = Ok (Z.of_nat (length p), p, s') /\
    exists pieces', s_in s' = pieces' ++ post /\ pieces_ok pieces' /\ stream pieces' = rest.
Proof.
  intros Hs Hp Hc Hst. unfold carried, MAX_IP_PAYLOAD_LEN in *. unfold recv_packet.
  set (l2 := be_bytes 2 (Z.of_nat (length p))).
  assert (Hl2 : length l2 = 2%nat) by (unfold l2, be_bytes; by rewrite length_rev, length_le_bytes).
  unfold frame in Hst. fold l2 in Hst. rewrite <-app_assoc in Hst.
  destruct (tcp_io_read_ok pieces post s 2 Hs Hp) as (s1 & E1 & p1 & H1 & O1 & T1 & _);
    [rewrite Hst, length_app; lia|].
  rewrite Hst, take_app_le, take_ge in E1 by lia.
  rewrite Hst, drop_app_ge, Hl2, drop_0 in T1 by lia.
  rewrite E1, res_bind_ok. change (Z.of_nat 2 <=? 0) with false. cbn iota.
  assert (Hv : ntohs (le_val l2) = Z.of_nat (length p)).
  { unfold l2. rewrite <-le_bytes_bswap, le_val_le_bytes, Z.mod_small by apply (bswap_range 2).
    apply bswap_bswap. change (256 ^ Z.of_nat 2) with 65536. lia. }
  rewrite Hv, Nat2Z.id, Nat.min_l by lia.
  destruct (tcp_io_read_ok p1 post s1 (length p) H1 O1) as (s2 & E2 & p2 & H2 & O2 & T2 & _);
    [rewrite T1, length_app; lia|].
  rewrite T1, take_app_le, take_ge in E2 by lia. rewrite T1, drop_app_ge, Nat.sub_diag, drop_0 in T2 by lia.
  rewrite E2, res_bind_ok, (proj2 (Z.leb_gt _ _)) by lia.
  rewrite (proj2 (Nat.ltb_ge _ _)) by lia. cbn [mbind res_bind mret res_ret].
  exists s2. split; [done|]. by exists p2.
Qed.

Lemma tcp_write_ok fuel ns s buf k :
  s_sends s = map SSent ns -> Forall (fun n => 0 < n)%nat ns -> (k <= length buf)%nat ->
  (length buf - k <= length ns)%nat -> (length buf - k < fuel)%nat ->
  exists ns' s', tcp_write fuel s buf k = Ok (Z.of_nat (length buf), s') /\
    s_sends s' = map SSent ns' /\ Forall (fun n => 0 < n)%nat ns' /\
    (length ns <= length ns' + (length buf - k))%nat /\ s_out s' = s_out s ++ drop k buf.
Proof.
  revert ns s k. induction fuel as [|fuel IH]; intros ns s k Hs Hp Hk Hn Hf; [lia|].
  cbn [tcp_write]. case_test.
  2:{ exists ns, s. rewrite drop_ge, app_nil_r by lia. repeat split; (done || lia). }
  destruct ns as [|n ns]; [simpl in Hn; lia|]. apply Forall_cons in Hp as [Hn0 Hp].
  unfold send. rewrite Hs. cbn [map mbind res_bind].
  set (sent := take n (drop k buf)). set (s1 := Sock _ _ _ _).
  assert (Hl : (0 < length sent)%nat /\ (k + length sent <= length buf)%nat)
    by (unfold sent; rewrite length_take, length_drop; lia).
  destruct sent as [|x t] eqn:Et; [simpl in Hl; lia|]. rewrite <-Et in *.
  destruct (IH ns s1 (k + length sent)%nat) as (ns' & s' & E & S & P & L & O);
    [done|done|lia|simpl in Hn; lia|lia|].
  exists ns', s'. split; [exact E|]. split; [done|]. split; [done|]. split; [simpl; lia|].
  rewrite O. cbn [s_out s1]. rewrite <-app_assoc. f_equal. rewrite Et in *.
  rewrite <-drop_drop. rewrite <-Et. unfold sent at 2. fold sent.
  assert (Es : sent = take (length sent) (drop k buf)).
  { unfold sent. rewrite length_take. destruct (Nat.le_gt_cases n (length (drop k buf))).
    - by rewrite Nat.min_l by lia.
    - by rewrite Nat.min_r, !take_ge by lia. }
  rewrite Es at 1. apply take_drop.
Qed.

Lemma tcp_io_write_ok ns s buf :
  s_sends s = map SSent ns -> Forall (fun n => 0 < n)%nat ns -> (length buf <= length ns)%nat ->
  exists ns' s', tcp_io_write s buf = Ok (Z.of_nat (length buf), s') /\
    s_sends s' = map SSent ns' /\ Forall (fun n => 0 < n)%nat ns' /\
    (length ns <= length ns' + length buf)%nat /\ s_out s' = s_out s ++ buf.
Proof.
  intros Hs Hp Hn. destruct (tcp_write_ok (S (length buf)) ns s buf 0) as (ns' & s' & W);
    [done|done|lia|lia|lia|]. rewrite drop_0, Nat.sub_0_r in W. by exists ns', s'.
Qed.

Lemma length_frame p : length (frame p) = (2 + length p)%nat.
Proof. unfold frame, be_bytes. by rewrite length_app, length_rev, length_le_bytes. Qed.

(** A context that can send. *)
Record can_send (connects : bool) (room : nat) (c : tcp_context) : Prop := {
  cs_peer : tc_peer_valid c = true;
  cs_connects : tc_connected c || connects = true;
  cs_sends : exists ns, s_sends (tc_socket c) = map SSent ns /\
    Forall (fun n => 0 < n)%nat ns /\ (room <= length ns)%nat }.

Lemma tcp_connect_ok connects c :
  tc_peer_valid c = true -> tc_connected c || connects = true ->
  tcp_connect connects c =
    Ok (0, TcpContext (tc_socket c) (tc_new_socket c) true (tc_peer_valid c)).
Proof.
  intros Hp Hc. unfold tcp_connect. destruct c as [k n [] v]; cbn in *; by subst.
Qed.

Lemma net_send_packet_ok connects room c p :
  can_send connects (length (frame p) + room) c -> carried p ->
  exists c', network_send_packet connects c p = Ok (Z.of_nat (length p), c') /\
    can_send connects room c' /\ s_out (tc_socket c') = s_out (tc_socket c) ++ frame p.
Proof.
  intros [Hp Hc (ns & Hs & Hn & Hr)] Hcar. unfold carried, MAX_IP_PAYLOAD_LEN in Hcar.
  rewrite length_frame in Hr. unfold network_send_packet. rewrite Hp, tcp_connect_ok by done.
  cbn [negb]. rewrite res_bind_ok. change (0 <? 0) with false. cbn iota. cbn [tc_socket].
  rewrite u16_small, le_bytes_bswap by lia. set (l2 := be_bytes 2 (Z.of_nat (length p))).
  assert (Hl2 : length l2 = 2%nat) by (unfold l2, be_bytes; by rewrite length_rev, length_le_bytes).
  destruct (tcp_io_write_ok ns (tc_socket c) l2) as (n1 & s1 & E1 & S1 & P1 & L1 & O1);
    [done|done|lia|].
  destruct (tcp_io_write_ok n1 s1 p) as (n2 & s2 & E2 & S2 & P2 & L2 & O2); [done|done|lia|].
  rewrite E1, res_bind_ok, Hl2. change (Z.of_nat 2 <? 0) with false. cbn iota.
  rewrite E2, res_bind_ok, (proj2 (Z.ltb_ge _ _)) by lia.
  eexists. split; [reflexivity|]. split.
  - constructor; [done|done|]. exists n2. split; [done|]. split; [done|]. lia.
  - cbn [set_socket tc_socket]. rewrite O2, O1. unfold frame. by rewrite <-app_assoc.
Qed.

Fixpoint send_packets (connects : bool) (c : tcp_context) (ps : list buffer) : res tcp_context :=
  match ps with
  | [] => Ok c
  | p :: ps => '(_, c) ← network_send_packet connects c p; send_packets connects c ps
  end.

Lemma send_packets_ok connects ps c :
  can_send connects (length (concat (map frame ps))) c -> Forall carried ps ->
  exists c', send_packets connects c ps = Ok c' /\
    s_out (tc_socket c') = s_out (tc_socket c) ++ concat (map frame ps).
Proof.
  revert c. induction ps as [|p ps IH]; intros c Hc Hps; cbn [send_packets map concat].
  - exists c. by rewrite app_nil_r.
  - apply Forall_cons in Hps as [Hp Hps]. cbn [map concat] in Hc. rewrite length_app in Hc.
    destruct (net_send_packet_ok _ _ c p Hc Hp) as (c1 & E & Hc1 & O1). rewrite E, res_bind_ok.
    destruct (IH c1 Hc1 Hps) as (c2 & E2 & O2). exists c2. split; [exact E2|].
    by rewrite O2, O1, <-app_assoc.
Qed.

(** How often [poll] says that the socket, and not the exit pipe, is ready. *)
Definition ready (e : poll_event) : nat := match e with PollReady false true => 1 | _ => 0 end.
Definition no_exit (e : poll_event) : Prop := match e with PollReady true _ => False | _ => True end.

Lemma recv_thread_ok ps : forall polls is_active connects pieces c q,
  Forall carried ps -> s_in (tc_socket c) = pieces ++ [REof] -> pieces_ok pieces ->
  stream pieces = concat (map frame ps) -> tc_peer_valid c = true ->
  tc_connected c || connects = true -> Forall no_exit polls ->
  (length ps < sum_list_with ready polls)%nat ->
  exists c', network_recv_thread polls is_active connects c q = Ok (c', q ++ ps ++ [[]]).
Proof.
  intros polls. revert ps. induction polls as [|e polls IH];
    intros ps is_active connects pieces c q Hps Hs Hp Hst Hv Hc Hx Hn; [simpl in Hn; lia|].
  apply Forall_cons in Hx as [He Hx]. cbn [sum_list_with] in Hn. cbn [network_recv_thread].
  destruct e as [|[] []]; cbn [ready] in Hn; try done; try (by eapply IH).
  set (c0 := if is_active then TcpContext (tc_socket c) (tc_new_socket c) true true else c).
  assert (E0 : (if is_active then tcp_connect connects c else Ok (0, c)) = Ok (0, c0))
    by (unfold c0; destruct is_active; [by rewrite tcp_connect_ok, Hv by done|done]).
  assert (H0 : tc_socket c0 = tc_socket c) by (unfold c0; by destruct is_active).
  unfold network_recv_packet. rewrite E0, res_bind_ok. change (0 <? 0) with false. cbn iota.
  rewrite H0. destruct ps as [|p ps].
  - assert (Hnil : pieces = []).
    { destruct pieces as [|[b| |] pieces]; [done| | |]; apply Forall_cons in Hp as [He' _]; try done.
      change (stream (RData b :: pieces)) with (b ++ stream pieces) in Hst. by destruct b. }
    rewrite Hnil in Hs. unfold recv_packet, tcp_io_read. cbn [tcp_read length Nat.ltb Nat.leb].
    unfold recv. rewrite Hs. cbn [app mbind res_bind]. by eexists.
  - apply Forall_cons in Hps as [Hcar Hps]. cbn [map concat] in Hst.
    destruct (recv_packet_ok p _ pieces [REof] (tc_socket c) Hs Hp Hcar Hst)
      as (s' & E & p' & Hs' & Hp' & Hst').
    rewrite E. cbn [mbind res_bind mret res_ret]. unfold carried, MAX_IP_PAYLOAD_LEN in Hcar.
    rewrite (proj2 (Z.leb_gt _ _)) by lia. unfold MAX_IP_PAYLOAD_LEN at 1.
    rewrite (proj2 (Z.ltb_ge _ _)) by lia.
    destruct (IH ps is_active connects p' (set_socket c0 s') (mysock_enqueue_buffer q p))
      as (c' & E'); try done; try (cbn; unfold c0; destruct is_active; done).
    + simpl in Hn. lia.
    + exists c'. rewrite E'. unfold mysock_enqueue_buffer. by rewrite <-!app_assoc.
Qed.

(** The network layer carries packets over a TCP connection. Whatever the sizes of
    the single writes and reads, the receive thread puts exactly the packets
    that were sent, each whole and in order, into its queue, and a mark for
    the end once the peer's stream ends. *)
Theorem tcp_delivers connects sender ps :
  can_send connects (length (concat (map frame ps))) sender -> Forall carried ps ->
  s_out (tc_socket sender) = [] ->
  exists sender', send_packets connects sender ps = Ok sender' /\
    forall receiver pieces polls is_active connects' q,
      s_in (tc_socket receiver) = pieces ++ [REof] -> pieces_ok pieces ->
      stream pieces = s_out (tc_socket sender') -> tc_peer_valid receiver = true ->
      tc_connected receiver || connects' = true -> Forall no_exit polls ->
      (length ps < sum_list_with ready polls)%nat ->
      exists receiver', network_recv_thread polls is_active connects' receiver q =
        Ok (receiver', q ++ ps ++ [[]]).
Proof.
  intros Hc Hps Ho. destruct (send_packets_ok connects ps sender Hc Hps) as (c' & E & O).
  rewrite Ho in O. exists c'. split; [exact E|].
  intros receiver pieces polls is_active connects' q Hs Hp Hst Hv Hcon Hx Hn.
  eapply recv_thread_ok; [exact Hps|exact Hs|exact Hp|rewrite Hst, O; reflexivity|done..].
Qed.

Lemma tcp_delivers_witness :
  exists receiver', network_recv_thread [PollReady false true; PollIntr; PollReady false true;
      PollReady false true] true true
      (TcpContext (Sock [RData [0; 1; 7]; RData [0]; RData [2; 8; 9]; REof] [] [] false) None
        false true) [] = Ok (receiver', [[7]; [8; 9]; []]).
Proof.
  destruct (tcp_delivers true
    (TcpContext (Sock [] (map SSent (replicate 7 1%nat)) [] false) None false true) [[7]; [8; 9]])
    as (s' & E & H).
  - constructor; [reflexivity|reflexivity|]. exists (replicate 7 1%nat).
    split; [reflexivity|]. split; [repeat constructor|]. apply Nat.leb_le. reflexivity.
  - repeat constructor.
  - reflexivity.
  - vm_compute in E. injection E as <-.
    destruct (H (TcpContext (Sock [RData [0; 1; 7]; RData [0]; RData [2; 8; 9]; REof] [] [] false)
      None false true) [RData [0; 1; 7]; RData [0]; RData [2; 8; 9]]
      [PollReady false true; PollIntr; PollReady false true; PollReady false true] true true [])
      as (r' & R).
    + reflexivity.
    + repeat constructor; discriminate.
    + vm_compute. reflexivity.
    + reflexivity.
    + reflexivity.
    + repeat constructor.
    + apply Nat.ltb_lt. reflexivity.
    + exists r'. exact R.
Defined.
