(* ===== verification/TcpSum.v ===== *)
(** The STCP segment header (transport-layer/src/transport.h) and its checksum
    (transport-layer/src/tcp_sum.c). *)
From S2P Require Import Prelude Mem.

(** * [struct tcphdr]; [th_x2] and [th_off] share a byte, low nibble first. *)
Definition th_sport := Field 0 2.
Definition th_dport := Field 2 2.
Definition th_seq := Field 4 4.
Definition th_ack := Field 8 4.
Definition th_off_x2 := Field 12 1.
Definition th_flags := Field 13 1.
Definition th_win := Field 14 2.
Definition th_sum := Field 16 2.
Definition th_urp := Field 18 2.
Definition sizeof_tcphdr : nat := 20.

Definition TH_FIN : Z := 1.
Definition TH_SYN : Z := 2.
Definition TH_ACK : Z := 16.
Definition STCP_MSS : nat := 536.

(** [TCP_DATA_START(p)] *)
Definition TCP_DATA_START (p : buffer) : res nat :=
  b ← ld th_off_x2 0 p; mret (Z.to_nat (Z.shiftr b 4) * 4)%nat.
(** [header->th_off = v] *)
Definition st_th_off (v : Z) (p : buffer) : res buffer :=
  b ← ld th_off_x2 0 p;
  st th_off_x2 0 (Z.lor (Z.land b 0xf) (Z.shiftl (Z.land v 0xf) 4)) p.

Definition IPPROTO_TCP : Z := 6.

(** The packed pseudo header: source, destination, zero, protocol, length. *)
Definition pseudo_header (src_addr dst_addr : Z) (len : nat) : buffer :=
  le_bytes 4 src_addr ++ le_bytes 4 dst_addr ++ [0; IPPROTO_TCP] ++
  le_bytes 2 (htons (u16 (Z.of_nat len))).

(** The loops over the 16-bit words (host order) of a region, [k] counting
    words, that leave out the word [skip]; an odd last byte counts as the low
    half of a word. The accumulator is an [int32_t]. *)
Fixpoint sum_words (skip k : nat) (data : buffer) (sum : Z) : Z :=
  match data with
  | a :: b :: rest =>
      sum_words skip (S k) rest
        (if (k =? skip)%nat then sum else i32 (sum + (a + 256 * b)))
  | [a] => i32 (sum + a)
  | [] => sum
  end.

(** [_mysock_tcp_checksum] *)
Definition mysock_tcp_checksum (src_addr dst_addr : Z) (packet : buffer) : res Z :=
  if (length packet <? sizeof_tcphdr)%nat then Fault AssertFail
  else if negb (0 <? src_addr) then Fault AssertFail
  else if negb (0 <? dst_addr) then Fault AssertFail
  else
    let sum := sum_words 6 0 (pseudo_header src_addr dst_addr (length packet)) 0 in
    let sum := sum_words 8 0 packet sum in
    let sum := i32 (Z.shiftr sum 16 + Z.land sum 0xffff) in
    let sum := i32 (sum + Z.shiftr sum 16) in
    Ok (u16 (Z.lnot sum)).

(** [_mysock_set_checksum]: from our address to the peer's. *)
Definition mysock_set_checksum (local peer : Z) (packet : buffer) : res buffer :=
  if (length packet <? sizeof_tcphdr)%nat then Fault AssertFail
  else
    sum ← mysock_tcp_checksum local peer packet;
    st th_sum 0 sum packet.

(** [_mysock_verify_checksum]: from the peer's address to ours. *)
Definition mysock_verify_checksum (local peer : Z) (packet : buffer) : res bool :=
  if (length packet <? sizeof_tcphdr)%nat then Fault AssertFail
  else
    my_sum ← mysock_tcp_checksum peer local packet;
    sum ← ld th_sum 0 packet;
    mret (my_sum =? sum).

(** * The sum *)

(** The exact sum of the words, as a number. *)
Fixpoint word_total (skip k : nat) (data : buffer) : Z :=
  match data with
  | a :: b :: rest => (if (k =? skip)%nat then 0 else a + 256 * b) + word_total skip (S k) rest
  | [a] => a
  | [] => 0
  end.

Lemma word_total_bound skip k data :
  bytes_ok data -> 0 <= word_total skip k data /\
  2 * word_total skip k data <= 65535 * (Z.of_nat (length data) + 1).
Proof.
  revert k. induction data as [|a|a b l IH] using list_pair_ind; intros k; simpl; intros H;
    [lia| |]; repeat (apply Forall_cons in H as [? H]); unfold is_byte in *.
  - lia.
  - specialize (IH (S k) H). destruct (Nat.eqb_spec k skip); lia.
Qed.

Lemma i32_small z : 0 <= z < 2147483648 -> i32 z = z.
Proof. intros H. unfold i32. rewrite u32_small by lia. case_test; lia. Qed.

Lemma sum_words_exact skip k data sum :
  bytes_ok data -> 0 <= sum -> sum + word_total skip k data < 2147483648 ->
  sum_words skip k data sum = sum + word_total skip k data.
Proof.
  revert k sum. induction data as [|a|a b l IH] using list_pair_ind;
    cbn [sum_words word_total]; intros k sum H Hs Hlt;
    [lia| |]; repeat (apply Forall_cons in H as [? H]); unfold is_byte in *.
  - apply i32_small. lia.
  - pose proof (word_total_bound skip (S k) l H) as [Hp _].
    destruct (Nat.eqb_spec k skip); [rewrite IH; done || lia|].
    rewrite i32_small by lia. rewrite IH; try done; lia.
Qed.

(** A length up to which the signed accumulator cannot overflow, whatever the
    bytes; the segments of the protocol have at most 556. *)
Definition segment_max : Z := 65000.

(** What is summed: everything but the checksum field. *)
Definition tcp_total (src_addr dst_addr : Z) (packet : buffer) : Z :=
  word_total 6 0 (pseudo_header src_addr dst_addr (length packet)) + word_total 8 0 packet.

(** Two folding steps are enough for sums this small. *)
Lemma fold_twice s :
  0 <= s < 2147483648 ->
  let t := i32 (Z.shiftr s 16 + Z.land s 0xffff) in
  let r := i32 (t + Z.shiftr t 16) in
  exists c, u16 (Z.lnot r) = 65535 - c /\ 0 <= c <= 65535 /\ c mod 65535 = s mod 65535 /\
    (c = 0 <-> s = 0).
Proof.
  intros Hs. simpl. rewrite !Z.shiftr_div_pow2 by lia.
  change (Z.land s 0xffff) with (Z.land s (Z.ones 16)). rewrite Z.land_ones by lia.
  change (2 ^ 16) with 65536.
  set (t := s / 65536 + s mod 65536).
  assert (Ht : 0 <= t <= 98303 /\ t mod 65535 = s mod 65535 /\ (t = 0 <-> s = 0)).
  { unfold t. split; [Z.div_mod_to_equations; lia|]. split.
    - rewrite (Z.div_mod s 65536) at 3 by lia.
      replace (65536 * (s / 65536) + s mod 65536)
        with (s / 65536 + s mod 65536 + s / 65536 * 65535) by lia.
      by rewrite Z_mod_plus_full.
    - Z.div_mod_to_equations; lia. }
  destruct Ht as (Ht1 & Ht2 & Ht3). rewrite (i32_small t) by lia.
  set (r := t + t / 65536).
  assert (Hr : r = t /\ t < 65536 \/ r = t + 1 /\ 65536 <= t)
    by (unfold r; clearbody t; Z.div_mod_to_equations; lia).
  clearbody r t. rewrite i32_small by lia.
  exists (if t <? 65536 then t else t - 65535).
  assert (Hm : (t - 65535) mod 65535 = t mod 65535)
    by (replace (t - 65535) with (t + -1 * 65535) by lia; apply Z_mod_plus_full).
  unfold u16, Z.lnot. destruct (Z.ltb_spec t 65536).
  - destruct Hr as [[-> _]|[_ ?]]; [|lia]. split; [|lia].
    symmetry. apply (Z.mod_unique _ _ (-1)); lia.
  - destruct Hr as [[_ ?]|[-> _]]; [lia|]. split; [|lia].
    symmetry. apply (Z.mod_unique _ _ (-2)); lia.
Qed.

Lemma pseudo_header_ok src dst n :
  bytes_ok (pseudo_header src dst n) /\ length (pseudo_header src dst n) = 12%nat.
Proof.
  split; [|done]. unfold pseudo_header. rewrite !bytes_ok_app.
  assert (bytes_ok [0; IPPROTO_TCP]) by (apply (bool_decide_unpack _); vm_compute; exact I).
  pose proof le_bytes_ok. auto.
Qed.

Lemma pseudo_positive src dst n : 0 < word_total 6 0 (pseudo_header src dst n).
Proof.
  unfold pseudo_header. set (t := le_bytes 2 _).
  assert (Ht : bytes_ok t) by apply le_bytes_ok. clearbody t.
  cbn [le_bytes app word_total Nat.eqb].
  pose proof (proj1 (word_total_bound 6 5 t Ht)). unfold IPPROTO_TCP.
  assert (Hm : forall x, 0 <= x mod 256) by (intros x; apply Z.mod_pos_bound; lia).
  pose proof (Hm src). pose proof (Hm (src / 256)). pose proof (Hm (src / 256 / 256)).
  pose proof (Hm (src / 256 / 256 / 256)). pose proof (Hm dst). pose proof (Hm (dst / 256)).
  pose proof (Hm (dst / 256 / 256)). pose proof (Hm (dst / 256 / 256 / 256)). lia.
Qed.

(** What the checksum is: 65535 minus the ones'-complement sum. *)
Lemma tcp_checksum_eq src dst packet :
  (20 <= length packet)%nat -> Z.of_nat (length packet) <= segment_max ->
  bytes_ok packet -> 0 < src -> 0 < dst ->
  exists c, mysock_tcp_checksum src dst packet = Ok (65535 - c) /\ 0 <= c <= 65535 /\
    c mod 65535 = tcp_total src dst packet mod 65535 /\ 0 < c.
Proof.
  unfold segment_max. intros Hl Hm Hb Hs Hd. unfold mysock_tcp_checksum, sizeof_tcphdr.
  destruct (Nat.ltb_spec (length packet) 20); [lia|].
  destruct (Z.ltb_spec 0 src); [|lia]. destruct (Z.ltb_spec 0 dst); [|lia]. cbn [negb].
  destruct (pseudo_header_ok src dst (length packet)) as [Pb Pl].
  pose proof (word_total_bound 6 0 _ Pb) as [P0 P1]. rewrite Pl in P1.
  pose proof (word_total_bound 8 0 _ Hb) as [Q0 Q1].
  rewrite (sum_words_exact 6 0) by (done || lia). rewrite Z.add_0_l.
  rewrite (sum_words_exact 8 0) by (done || lia). fold (tcp_total src dst packet).
  assert (Ht : 0 < tcp_total src dst packet < 2147483648).
  { unfold tcp_total in *. split; [|lia].
    assert (0 < word_total 6 0 (pseudo_header src dst (length packet))); [|lia].
    apply pseudo_positive. }
  destruct (fold_twice (tcp_total src dst packet)) as (c & Hc & Hr & Hcm & Hz); [lia|].
  cbv zeta in Hc. exists c. rewrite Hc. split; [done|]. split; [done|]. split; [done|]. lia.
Qed.

(** The field does not count. *)
Lemma word_total_skip k data v :
  (2 * (8 - k) + 2 <= length data)%nat -> (k <= 8)%nat ->
  word_total 8 k (splice (2 * (8 - k)) (le_bytes 2 v) data) = word_total 8 k data.
Proof.
  revert k. induction data as [|a|a b l IH] using list_pair_ind; intros k Hl Hk;
    simpl in Hl; [lia|lia|].
  destruct (Nat.eq_dec k 8%nat) as [->|Hne].
  - unfold splice. simpl. rewrite drop_0. done.
  - replace (2 * (8 - k))%nat with (S (S (2 * (8 - S k)))) by lia.
    unfold splice. cbn [take app word_total drop Nat.add].
    destruct (Nat.eqb_spec k 8); [lia|]. f_equal. apply (IH (S k)); lia.
Qed.

Lemma tcp_total_field src dst p v :
  (20 <= length p)%nat -> tcp_total src dst (fset th_sum 0 v p) = tcp_total src dst p.
Proof.
  intros Hl. unfold tcp_total. rewrite length_fset by in_bounds. f_equal.
  apply (word_total_skip 0); lia.
Qed.

(** The words of addresses count the same in either order. *)
Lemma checksum_value src dst p c :
  (20 <= length p)%nat -> Z.of_nat (length p) <= segment_max -> bytes_ok p ->
  0 < src -> 0 < dst ->
  mysock_tcp_checksum src dst p = Ok c <->
  0 <= c < 65535 /\ (c + tcp_total src dst p) mod 65535 = 0.
Proof.
  intros Hl Hm Hb Hs Hd.
  destruct (tcp_checksum_eq src dst p Hl Hm Hb Hs Hd) as (d & -> & Hr & Hc & Hp).
  set (t := tcp_total src dst p) in *. clearbody t.
  split.
  - intros [= <-]. split; [lia|]. rewrite Zplus_mod, <-Hc, <-Zplus_mod.
    replace (65535 - d + d) with 65535 by lia. done.
  - intros [Hcr Hz]. f_equal.
    rewrite Zplus_mod, <-Hc, <-Zplus_mod in Hz.
    apply Z.mod_divide in Hz as [k Hk]; [|lia]. assert (k = 1); lia.
Qed.

Lemma verify_iff local peer r :
  (20 <= length r)%nat -> Z.of_nat (length r) <= segment_max -> bytes_ok r ->
  0 < local -> 0 < peer ->
  mysock_verify_checksum peer local r = Ok true <->
  mysock_tcp_checksum local peer r = Ok (fval th_sum 0 r).
Proof.
  intros Hl Hm Br Hs Hd. unfold mysock_verify_checksum, sizeof_tcphdr.
  destruct (Nat.ltb_spec (length r) 20); [lia|].
  destruct (tcp_checksum_eq local peer r Hl Hm Br Hs Hd) as (e & -> & _).
  cbn [mbind res_bind]. rewrite ld_ok by in_bounds. cbn [mbind res_bind mret res_ret].
  split; [intros [= He%Z.eqb_eq]; by rewrite He|intros [= ->]; by rewrite Z.eqb_refl].
Qed.

(** C25: A segment that has been given its checksum by one end is accepted by
    the other end; and of two segments that carry the same checksum and that an
    end accepts, the words add up to the same sum modulo 65535: no change that
    alters the ones'-complement sum goes unnoticed. *)
Theorem checksum_roundtrip local peer p :
  (20 <= length p)%nat -> Z.of_nat (length p) <= segment_max -> bytes_ok p ->
  0 < local -> 0 < peer ->
  exists q, mysock_set_checksum local peer p = Ok q /\ length q = length p /\
    mysock_verify_checksum peer local q = Ok true /\
    (forall r, bytes_ok r -> length r = length p -> fval th_sum 0 r = fval th_sum 0 q ->
       mysock_verify_checksum peer local r = Ok true ->
       tcp_total local peer r mod 65535 = tcp_total local peer q mod 65535).
Proof.
  intros Hl Hm Hb Hs Hd.
  destruct (tcp_checksum_eq local peer p Hl Hm Hb Hs Hd) as (d & Hc & Hr & Hdm & Hp).
  unfold mysock_set_checksum, sizeof_tcphdr. destruct (Nat.ltb_spec (length p) 20); [lia|].
  rewrite Hc. cbn [mbind res_bind]. rewrite st_ok by in_bounds.
  set (q := fset th_sum 0 (65535 - d) p).
  assert (Lq : length q = length p) by (apply length_fset; in_bounds).
  assert (Bq : bytes_ok q) by (by apply fset_bytes_ok).
  assert (Hf : fval th_sum 0 q = 65535 - d).
  { unfold q. rewrite fval_fset by in_bounds. apply Z.mod_small.
    change (256 ^ Z.of_nat (f_size th_sum)) with 65536. lia. }
  assert (Hv : forall r, bytes_ok r -> length r = length p ->
    (mysock_verify_checksum peer local r = Ok true <->
     mysock_tcp_checksum local peer r = Ok (fval th_sum 0 r)))
    by (intros; apply verify_iff; done || lia).
  exists q. split; [done|]. split; [done|].
  assert (Hq : mysock_tcp_checksum local peer q = Ok (fval th_sum 0 q)).
  { apply checksum_value; [lia|lia|done|done|done|].
    unfold q. rewrite tcp_total_field by done. fold q. rewrite Hf.
    by apply checksum_value. }
  split; [by apply Hv|]. intros r Br Lr Hfr Hvr. apply Hv in Hvr; [|done|done].
  apply checksum_value in Hvr; [|lia|lia|done|done|done].
  apply checksum_value in Hq; [|lia|lia|done|done|done].
  destruct Hvr as [_ Hvr], Hq as [_ Hq]. rewrite Hfr in Hvr.
  set (v := fval th_sum 0 q) in *. clearbody v.
  replace (tcp_total local peer r) with (v + tcp_total local peer r - v) by lia.
  replace (tcp_total local peer q) with (v + tcp_total local peer q - v) by lia.
  rewrite Zminus_mod, Hvr. by rewrite (Zminus_mod (v + tcp_total local peer q)), Hq.
Qed.

Lemma checksum_roundtrip_witness :
  exists q, mysock_set_checksum 16777343 33554442 (replicate 23 7) = Ok q /\
    mysock_verify_checksum 33554442 16777343 q = Ok true.
Proof.
  destruct (checksum_roundtrip 16777343 33554442 (replicate 23 7)) as (q & H1 & _ & H2 & _).
  - simpl. lia.
  - simpl. unfold segment_max. lia.
  - apply (bool_decide_unpack _). vm_compute. exact I.
  - lia.
  - lia.
  - exists q. split; [exact H1|exact H2].
Defined.
