(* ===== verification/HashTable.v ===== *)
(** The chained hash table of transport-layer/src/mysock_hash.h, the macro
    [HASH_TABLE_DECLARE_EXTENDED], for any key type, hash function and size, and
    its refinement of finite maps. *)
From stdpp Require Import functions.
From S2P Require Import Prelude.

Section hash_table.
Context {K V : Type} `{Countable K} (hashfn : K -> nat) (size : nat).

(** The array of buckets, each a chain from its head. *)
Abbreviation hash_table := (list (list (K * V))).

Definition hash_empty : hash_table := replicate size [].

(** [tbl[ndx]], after the assertion that the index is in range. *)
Definition bucket (tbl : hash_table) (key : K) : res (list (K * V)) :=
  if (hashfn key <? size)%nat then
    match tbl !! hashfn key with Some b => Ok b | None => Fault OutOfBounds end
  else Fault AssertFail.

(** The loop of [_hash_get_entry]: the first entry with the key. *)
Fixpoint chain_find (key : K) (b : list (K * V)) : option V :=
  match b with
  | [] => None
  | (k, v) :: b => if decide (k = key) then Some v else chain_find key b
  end.

Definition hash_get_entry (tbl : hash_table) (key : K) : res (option V) :=
  b ← bucket tbl key; mret (chain_find key b).

(** [_hash_insert]: at the head of the chain, without a look for duplicates. *)
Definition hash_insert (tbl : hash_table) (key : K) (data : V) : res hash_table :=
  b ← bucket tbl key; mret (<[hashfn key := (key, data) :: b]> tbl).

(** [_hash_lookup] asserts that there is an entry, [_hash_lookup_ptr] does
    not. *)
Definition hash_lookup (tbl : hash_table) (key : K) : res V :=
  e ← hash_get_entry tbl key;
  match e with Some v => mret v | None => Fault AssertFail end.
Definition hash_lookup_ptr (tbl : hash_table) (key : K) : res (option V) :=
  hash_get_entry tbl key.
Definition hash_entry_exists (tbl : hash_table) (key : K) : res bool :=
  e ← hash_get_entry tbl key;
  mret (match e with Some _ => true | None => false end).

(** Overwriting the data of the first entry with the key. *)
Fixpoint chain_set (key : K) (data : V) (b : list (K * V)) : list (K * V) :=
  match b with
  | [] => []
  | (k, v) :: b => if decide (k = key) then (k, data) :: b else (k, v) :: chain_set key data b
  end.

(** [_hash_set_entry] *)
Definition hash_set_entry (tbl : hash_table) (key : K) (data : V) : res hash_table :=
  e ← hash_get_entry tbl key;
  match e with
  | Some _ => b ← bucket tbl key; mret (<[hashfn key := chain_set key data b]> tbl)
  | None => hash_insert tbl key data
  end.

(** The loop of [_hash_delete]: unlink the first entry with the key. *)
Fixpoint chain_delete (key : K) (b : list (K * V)) : list (K * V) :=
  match b with
  | [] => []
  | (k, v) :: b => if decide (k = key) then b else (k, v) :: chain_delete key b
  end.

(** [_hash_delete], which asserts that the key is gone. *)
Definition hash_delete (tbl : hash_table) (key : K) : res hash_table :=
  b ← bucket tbl key;
  let tbl := <[hashfn key := chain_delete key b]> tbl in
  e ← hash_get_entry tbl key;
  match e with None => mret tbl | Some _ => Fault AssertFail end.

(** * Abstraction *)

(** A table represents a map: every bucket holds exactly the map's entries that
    hash to it, each once. *)
Record represents (tbl : hash_table) (m : gmap K V) : Prop := {
  rep_size : length tbl = size;
  rep_nodup : forall i b, tbl !! i = Some b -> NoDup b.*1;
  rep_find : forall i b, tbl !! i = Some b -> forall k, hashfn k = i -> chain_find k b = m !! k;
  rep_hash : forall i b, tbl !! i = Some b -> forall k, k ∈ b.*1 -> hashfn k = i }.

Hypothesis hash_range : forall k, (hashfn k < size)%nat.

Lemma bucket_ok tbl m key :
  represents tbl m -> exists b, bucket tbl key = Ok b /\ tbl !! hashfn key = Some b.
Proof.
  intros Hr. unfold bucket. pose proof (hash_range key).
  destruct (Nat.ltb_spec (hashfn key) size); [|lia].
  destruct (lookup_lt_is_Some_2 tbl (hashfn key)) as [b Hb];
    [rewrite (rep_size _ _ Hr); lia|].
  rewrite Hb. by exists b.
Qed.

Lemma get_entry_ok tbl m key :
  represents tbl m -> hash_get_entry tbl key = Ok (m !! key).
Proof.
  intros Hr. unfold hash_get_entry. destruct (bucket_ok tbl m key Hr) as (b & -> & Hb).
  cbn [mbind res_bind mret res_ret]. f_equal. by apply (rep_find _ _ Hr _ _ Hb).
Qed.

Lemma empty_represents : represents hash_empty ∅.
Proof.
  unfold hash_empty. split.
  - apply length_replicate.
  - intros i b [-> _]%lookup_replicate. constructor.
  - intros i b [-> _]%lookup_replicate k _. by rewrite lookup_empty.
  - intros i b [-> _]%lookup_replicate k Hk. by apply not_elem_of_nil in Hk.
Qed.

Lemma chain_find_none key b : key ∉ b.*1 -> chain_find key b = None.
Proof.
  induction b as [|[k v] b IH]; [done|]. cbn [chain_find fmap list_fmap fst].
  rewrite not_elem_of_cons. intros [H1 H2]. rewrite decide_False by congruence. auto.
Qed.

Lemma chain_find_elem key b v : chain_find key b = Some v -> key ∈ b.*1.
Proof.
  intros Hf. destruct (decide (key ∈ b.*1)) as [|Hn]; [done|].
  by rewrite chain_find_none in Hf.
Qed.

(** Replacing one bucket, whose entries are those of a map that differs only at
    one key. *)
Lemma update_represents tbl m key b b' (m' : gmap K V) :
  represents tbl m -> tbl !! hashfn key = Some b -> NoDup b'.*1 ->
  (forall k, k ∈ b'.*1 -> hashfn k = hashfn key) ->
  (forall k, hashfn k = hashfn key -> chain_find k b' = m' !! k) ->
  (forall k, k <> key -> m' !! k = m !! k) ->
  represents (<[hashfn key := b']> tbl) m'.
Proof.
  intros Hr Hb Hn Hh Hf Hm.
  assert (Hlt : (hashfn key < length tbl)%nat) by (by eapply lookup_lt_Some).
  split.
  - rewrite length_insert. apply Hr.
  - intros i c Hc. destruct (decide (i = hashfn key)) as [->|Hne].
    + rewrite list_lookup_insert_eq in Hc by done. by injection Hc as <-.
    + rewrite list_lookup_insert_ne in Hc by done. by eapply rep_nodup.
  - intros i c Hc k Hk. destruct (decide (i = hashfn key)) as [->|Hne].
    + rewrite list_lookup_insert_eq in Hc by done. injection Hc as <-. auto.
    + rewrite list_lookup_insert_ne in Hc by done.
      rewrite Hm by congruence. by eapply rep_find.
  - intros i c Hc k Hk. destruct (decide (i = hashfn key)) as [->|Hne].
    + rewrite list_lookup_insert_eq in Hc by done. injection Hc as <-. auto.
    + rewrite list_lookup_insert_ne in Hc by done. by eapply rep_hash.
Qed.

Lemma chain_delete_spec key b :
  NoDup b.*1 ->
  NoDup (chain_delete key b).*1 /\ (forall k, k ∈ (chain_delete key b).*1 -> k ∈ b.*1) /\
  chain_find key (chain_delete key b) = None /\
  (forall k, k <> key -> chain_find k (chain_delete key b) = chain_find k b).
Proof.
  induction b as [|[k v] b IH]; [done|]. cbn [chain_delete chain_find fmap list_fmap fst].
  rewrite NoDup_cons. intros [Hn Hd]. destruct (decide (k = key)) as [->|Hne].
  - split; [done|]. split; [set_solver|]. split; [by apply chain_find_none|].
    intros j Hj. by rewrite decide_False by congruence.
  - destruct (IH Hd) as (H1 & H2 & H3 & H4). cbn [fmap list_fmap fst chain_find].
    split. { apply NoDup_cons. split; [|done]. intros Hk%H2. by apply Hn. }
    split; [set_solver|]. rewrite decide_False by done. split; [done|].
    intros j Hj. by rewrite H4.
Qed.

Lemma chain_set_spec key v b :
  (chain_set key v b).*1 = b.*1 /\
  (key ∈ b.*1 -> chain_find key (chain_set key v b) = Some v) /\
  (forall k, k <> key -> chain_find k (chain_set key v b) = chain_find k b).
Proof.
  induction b as [|[k w] b (H1 & H2 & H3)]; [set_solver|].
  cbn [chain_set chain_find fmap list_fmap fst].
  destruct (decide (k = key)) as [->|Hne]; cbn [chain_find fmap list_fmap fst].
  - split; [done|]. split; [by rewrite decide_True|].
    intros j Hj. by rewrite !decide_False by congruence.
  - split; [by f_equal|]. rewrite decide_False by done. split; [set_solver|].
    intros j Hj. by rewrite H3.
Qed.

Lemma insert_represents tbl m key v :
  represents tbl m -> m !! key = None ->
  exists t, hash_insert tbl key v = Ok t /\ represents t (<[key := v]> m).
Proof.
  intros Hr Hm. unfold hash_insert. destruct (bucket_ok tbl m key Hr) as (b & -> & Hb).
  eexists. split; [done|].
  assert (Hnk : key ∉ b.*1).
  { intros Hk. pose proof (rep_find _ _ Hr _ _ Hb key eq_refl) as Hf. rewrite Hm in Hf.
    clear -Hk Hf. induction b as [|[k w] b IH]; [by apply not_elem_of_nil in Hk|].
    cbn [chain_find fmap list_fmap fst] in *. destruct (decide (k = key)); [done|].
    set_solver. }
  eapply update_represents; try done.
  - cbn. apply NoDup_cons. split; [done|]. by eapply rep_nodup.
  - intros k [->|Hk]%elem_of_cons; [done|]. by eapply rep_hash.
  - intros k Hk. cbn [chain_find]. case_decide as E.
    + subst. by rewrite lookup_insert_eq.
    + rewrite lookup_insert_ne by done. by eapply rep_find.
  - intros k Hk. by rewrite lookup_insert_ne by congruence.
Qed.

Lemma delete_represents tbl m key :
  represents tbl m -> exists t, hash_delete tbl key = Ok t /\ represents t (delete key m).
Proof.
  intros Hr. unfold hash_delete. destruct (bucket_ok tbl m key Hr) as (b & -> & Hb).
  cbn [mbind res_bind].
  destruct (chain_delete_spec key b (rep_nodup _ _ Hr _ _ Hb)) as (H1 & H2 & H3 & H4).
  assert (Hr' : represents (<[hashfn key := chain_delete key b]> tbl) (delete key m)).
  { eapply update_represents; try done.
    - intros k Hk. by eapply rep_hash, H2.
    - intros k Hk. destruct (decide (k = key)) as [->|Hne].
      + by rewrite H3, lookup_delete_eq.
      + rewrite H4, lookup_delete_ne by congruence. by eapply rep_find.
    - intros k Hk. by rewrite lookup_delete_ne by congruence. }
  rewrite (get_entry_ok _ _ key Hr'), lookup_delete_eq. by eexists.
Qed.

Lemma set_represents tbl m key v :
  represents tbl m ->
  exists t, hash_set_entry tbl key v = Ok t /\ represents t (<[key := v]> m).
Proof.
  intros Hr. unfold hash_set_entry. rewrite (get_entry_ok _ _ key Hr). cbn [mbind res_bind].
  destruct (m !! key) as [w|] eqn:Hm; [|by apply insert_represents].
  destruct (bucket_ok tbl m key Hr) as (b & -> & Hb). cbn [mbind res_bind].
  eexists. split; [done|]. destruct (chain_set_spec key v b) as (H1 & H2 & H3).
  pose proof (rep_find _ _ Hr _ _ Hb key eq_refl) as Hf. rewrite Hm in Hf.
  eapply update_represents; try done.
  - rewrite H1. by eapply rep_nodup.
  - intros k Hk. rewrite H1 in Hk. by eapply rep_hash.
  - intros k Hk. destruct (decide (k = key)) as [->|Hne].
    + rewrite lookup_insert_eq. apply H2. by eapply chain_find_elem.
    + rewrite lookup_insert_ne, H3 by congruence. by eapply rep_find.
  - intros k Hk. by rewrite lookup_insert_ne by congruence.
Qed.

(** * Programs over the table *)

(** The operations, and what they mean for a map, as long as the table is not asked
    to insert a key that it has. *)
Inductive hash_op := HInsert (k : K) (v : V) | HSet (k : K) (v : V) | HDelete (k : K).

Definition run_hash_op (tbl : hash_table) (op : hash_op) : res hash_table :=
  match op with
  | HInsert k v => hash_insert tbl k v
  | HSet k v => hash_set_entry tbl k v
  | HDelete k => hash_delete tbl k
  end.
Definition spec_hash_op (m : gmap K V) (op : hash_op) : gmap K V :=
  match op with
  | HInsert k v | HSet k v => <[k := v]> m
  | HDelete k => delete k m
  end.
Definition hash_op_ok (m : gmap K V) (op : hash_op) : Prop :=
  match op with HInsert k _ => m !! k = None | _ => True end.

Fixpoint run_hash_ops (tbl : hash_table) (ops : list hash_op) : res hash_table :=
  match ops with
  | [] => Ok tbl
  | op :: ops => t ← run_hash_op tbl op; run_hash_ops t ops
  end.
Fixpoint hash_ops_ok (m : gmap K V) (ops : list hash_op) : Prop :=
  match ops with
  | [] => True
  | op :: ops => hash_op_ok m op /\ hash_ops_ok (spec_hash_op m op) ops
  end.

Lemma run_hash_op_represents tbl m op :
  represents tbl m -> hash_op_ok m op ->
  exists t, run_hash_op tbl op = Ok t /\ represents t (spec_hash_op m op).
Proof.
  intros Hr Ho. destruct op; cbn [run_hash_op spec_hash_op].
  - by apply insert_represents.
  - by apply set_represents.
  - by apply delete_represents.
Qed.

Lemma hash_ops_map ops :
  hash_ops_ok ∅ ops ->
  exists t, run_hash_ops hash_empty ops = Ok t /\
    forall k, hash_lookup_ptr t k = Ok (fold_left spec_hash_op ops ∅ !! k).
Proof.
  pose proof empty_represents as Hr. revert Hr.
  generalize hash_empty (∅ : gmap K V). induction ops as [|op ops IH]; intros tbl m Hr Hok.
  - exists tbl. split; [done|]. intros k. by apply get_entry_ok.
  - destruct Hok as [H1 H2].
    destruct (run_hash_op_represents tbl m op Hr H1) as (t & Ht & Hrt).
    cbn [run_hash_ops]. rewrite Ht. by apply IH.
Qed.

(** ** Keys inserted twice *)

(** What the operations mean in general: each key has the values inserted for it, the
    last one first. An assignment changes the first; a deletion takes it away, and
    fails when there is another. *)
Definition stack_op (st : K -> list V) (op : hash_op) : option (K -> list V) :=
  match op with
  | HInsert k v => Some (<[k := v :: st k]> st)
  | HSet k v => Some (<[k := v :: tail (st k)]> st)
  | HDelete k => if (length (st k) <=? 1)%nat then Some (<[k := []]> st) else None
  end.
Fixpoint stack_ops (st : K -> list V) (ops : list hash_op) : option (K -> list V) :=
  match ops with
  | [] => Some st
  | op :: ops => match stack_op st op with Some st => stack_ops st ops | None => None end
  end.

(** The values of a key in a chain. *)
Fixpoint chain_values (key : K) (b : list (K * V)) : list V :=
  match b with
  | [] => []
  | (k, v) :: b => if decide (k = key) then v :: chain_values key b else chain_values key b
  end.

Definition stacked (tbl : hash_table) (st : K -> list V) : Prop :=
  length tbl = size /\
  forall k b, tbl !! hashfn k = Some b -> chain_values k b = st k.

Lemma chain_find_values key b : chain_find key b = head (chain_values key b).
Proof. induction b as [|[k v] b IH]; [done|]. cbn. by case_decide. Qed.

Lemma chain_set_values key v b k :
  chain_values k (chain_set key v b) =
    if decide (k = key) then match chain_values key b with [] => [] | _ :: l => v :: l end
    else chain_values k b.
Proof.
  induction b as [|[j w] b IH]; [by case_decide|]. cbn.
  destruct (decide (j = key)) as [->|Hj]; cbn; repeat case_decide; congruence.
Qed.

Lemma chain_delete_values key b k :
  chain_values k (chain_delete key b) =
    if decide (k = key) then tail (chain_values key b) else chain_values k b.
Proof.
  induction b as [|[j w] b IH]; [by case_decide|]. cbn.
  destruct (decide (j = key)) as [->|Hj]; cbn; repeat case_decide; congruence.
Qed.

Lemma stacked_bucket tbl st key :
  stacked tbl st -> exists b, bucket tbl key = Ok b /\ chain_values key b = st key /\
    tbl !! hashfn key = Some b.
Proof.
  intros [Hl Hs]. unfold bucket. pose proof (hash_range key).
  rewrite (proj2 (Nat.ltb_lt _ _)) by done.
  destruct (lookup_lt_is_Some_2 tbl (hashfn key)) as [b Hb]; [lia|].
  rewrite Hb. eauto.
Qed.

(** Replacing a key's chain. *)
Lemma stacked_update tbl st key b b' l :
  stacked tbl st -> tbl !! hashfn key = Some b ->
  (forall k, chain_values k b' = if decide (k = key) then l else chain_values k b) ->
  stacked (<[hashfn key := b']> tbl) (<[key := l]> st).
Proof.
  intros [Hl Hs] Hb Hv. split; [by rewrite length_insert|]. intros k c Hc.
  assert (Hst : (<[key := l]> st) k = if decide (k = key) then l else st k).
  { case_decide as E; [subst; by rewrite fn_lookup_insert|by rewrite fn_lookup_insert_ne]. }
  rewrite Hst. destruct (decide (hashfn k = hashfn key)) as [E|E].
  - rewrite E, list_lookup_insert_eq in Hc by (rewrite Hl; apply hash_range).
    injection Hc as <-. rewrite Hv. case_decide; [done|]. apply Hs. by rewrite E.
  - rewrite list_lookup_insert_ne in Hc by congruence. rewrite decide_False by congruence. auto.
Qed.

Lemma stacked_lookup tbl st key :
  stacked tbl st -> hash_get_entry tbl key = Ok (head (st key)).
Proof.
  intros Hs. destruct (stacked_bucket tbl st key Hs) as (b & E & Hv & _).
  unfold hash_get_entry. rewrite E. cbn. by rewrite chain_find_values, Hv.
Qed.

Lemma stacked_insert tbl st k v :
  stacked tbl st -> exists t, hash_insert tbl k v = Ok t /\ stacked t (<[k := v :: st k]> st).
Proof.
  intros Hs. destruct (stacked_bucket tbl st k Hs) as (b & E & Hv & Hb).
  unfold hash_insert. rewrite E. eexists. split; [done|].
  eapply stacked_update; [done..|]. intros j. cbn. rewrite <-Hv.
  destruct (decide (k = j)) as [->|]; [by rewrite decide_True|by rewrite decide_False by congruence].
Qed.

Lemma run_hash_op_stack tbl st op :
  stacked tbl st ->
  match stack_op st op with
  | Some st' => exists t, run_hash_op tbl op = Ok t /\ stacked t st'
  | None => run_hash_op tbl op = Fault AssertFail
  end.
Proof.
  intros Hs. destruct op as [k v|k v|k]; cbn [stack_op run_hash_op].
  - by apply stacked_insert.
  - unfold hash_set_entry. rewrite (stacked_lookup tbl st k Hs). cbn [mbind res_bind].
    destruct (stacked_bucket tbl st k Hs) as (b & E & Hv & Hb).
    destruct (st k) as [|w l] eqn:El; cbn [head tail].
    { destruct (stacked_insert tbl st k v Hs) as (t & Et & Ht). rewrite El in Ht. eauto. }
    rewrite E. eexists. split; [done|]. eapply stacked_update; [done..|].
    intros j. rewrite chain_set_values. by rewrite Hv.
  - destruct (stacked_bucket tbl st k Hs) as (b & E & Hv & Hb).
    unfold hash_delete. rewrite E. cbn [mbind res_bind].
    assert (Hu : stacked (<[hashfn k := chain_delete k b]> tbl) (<[k := tail (st k)]> st)).
    { eapply stacked_update; [done..|]. intros j. by rewrite chain_delete_values, Hv. }
    rewrite (stacked_lookup _ _ k Hu), fn_lookup_insert. cbn [mbind res_bind].
    destruct (st k) as [|w [|? ?]] eqn:El; cbn in *; [eauto..|done].
Qed.

(** C16: The table under every sequence of its operations. It keeps for each key the
    values inserted for it, the last one first, and answers with the first; an
    assignment replaces that one; and the sequence fails, with the assertion of
    [_hash_delete], exactly when it comes to delete a key that has been inserted
    again since it was last absent. So as long as only absent keys are inserted, no
    operation fails and the table is a finite map. *)
Theorem hash_refines_map ops :
  (match stack_ops (fun _ => []) ops with
   | Some st => exists t, run_hash_ops hash_empty ops = Ok t /\
       forall k, hash_lookup_ptr t k = Ok (head (st k))
   | None => run_hash_ops hash_empty ops = Fault AssertFail
   end) /\
  (hash_ops_ok ∅ ops ->
   exists t, run_hash_ops hash_empty ops = Ok t /\
     forall k, hash_lookup_ptr t k = Ok (fold_left spec_hash_op ops ∅ !! k)).
Proof.
  split; [|apply hash_ops_map].
  assert (Hs : stacked hash_empty (fun _ => [])).
  { split; [apply length_replicate|]. intros k b Hb. by apply lookup_replicate in Hb as [-> _]. }
  revert Hs. generalize hash_empty (fun _ : K => @nil V).
  induction ops as [|op ops IH]; intros tbl st Hs; cbn [stack_ops run_hash_ops].
  - exists tbl. split; [done|]. intros k. by apply stacked_lookup.
  - pose proof (run_hash_op_stack tbl st op Hs) as Hop.
    destruct (stack_op st op) as [st'|]; [|by rewrite Hop].
    destruct Hop as (t & -> & Ht). by apply IH.
Qed.
End hash_table.

Lemma hash_refines_map_witness :
  run_hash_ops (fun k : nat => k mod 4)%nat 4 (hash_empty (K := nat) (V := Z) 4)
    [HInsert 3%nat 30; HInsert 7%nat 70; HInsert 3%nat 31; HDelete 3%nat] = Fault AssertFail /\
  exists t, run_hash_ops (fun k : nat => k mod 4)%nat 4
      (hash_empty (K := nat) (V := Z) 4) [HInsert 3%nat 30; HInsert 7%nat 70; HSet 3%nat 31;
      HDelete 7%nat; HInsert 11%nat 5] = Ok t /\
    forall k, hash_lookup_ptr (fun k : nat => k mod 4)%nat 4 t k =
      Ok (fold_left spec_hash_op [HInsert 3%nat 30; HInsert 7%nat 70; HSet 3%nat 31;
        HDelete 7%nat; HInsert 11%nat 5] (∅ : gmap nat Z) !! k).
Proof.
  assert (Hr : forall k : nat, (k mod 4 < 4)%nat) by (intros k; apply Nat.mod_upper_bound; lia).
  split.
  - exact (proj1 (hash_refines_map (fun k : nat => k mod 4)%nat 4 Hr
      [HInsert 3%nat 30; HInsert 7%nat 70; HInsert 3%nat 31; HDelete 3%nat])).
  - apply (hash_refines_map (fun k : nat => k mod 4)%nat 4 Hr). repeat split; reflexivity.
Defined.
