(* ===== verification/Stcp.v ===== *)
(** The STCP transport layer: transport-layer/src/transport.c, over the
    interface of transport-layer/src/stcp_api.c and network.c. One [endpoint] is
    one end of a connection; its transport thread runs in the state-and-fault
    monad. *)
From S2P Require Import Prelude Mem TcpSum PacketQueue.

(** * State *)

Inductive cstate :=
| CSTATE_CLOSED
| CSTATE_SYN_SENT
| CSTATE_SYN_RCVD
| CSTATE_ESTABLISHED
| CSTATE_FIN_WAIT_1
| CSTATE_FIN_WAIT_2
| CSTATE_CLOSING
| CSTATE_CLOSE_WAIT
| CSTATE_LAST_ACK.

#[export] Instance cstate_eq_dec : EqDecision cstate.
Proof. solve_decision. Defined.

Definition RECEIVER_WINDOW_SIZE : Z := 3072.

(** [context_t] *)
Record context_t := Context_t {
  done : bool;
  connection_state : cstate;
  initial_sequence_num : Z;
  sequence_num : Z;
  ack_num : Z;
  fin_sent : bool;
  fin_received : bool;
  fin_acked : bool;
  recv_window_size : Z;
  recv_buffer_used : Z;
  next_seq_expected : Z;
  peer_window_size : Z;
  last_ack_received : Z;
  last_byte_sent : Z }.

(** What the transport thread sees of a [mysock_context_t]: the addresses and
    ports of the connection, the three queues, the close request, what
    [stcp_unblock_application] tells the application ([None] while it is
    blocked), and everything handed to the network layer. *)
Record endpoint := Endpoint {
  ep_ctx : context_t;
  ep_local : Z; ep_peer : Z; ep_sport : Z; ep_dport : Z;
  network_recv_queue : packet_queue;
  app_send_queue : packet_queue;
  app_recv_queue : packet_queue;
  close_requested : bool;
  ep_unblocked : option Z;
  ep_sent : list buffer }.

Definition set_ctx (e : endpoint) (c : context_t) : endpoint :=
  Endpoint c (ep_local e) (ep_peer e) (ep_sport e) (ep_dport e) (network_recv_queue e)
    (app_send_queue e) (app_recv_queue e) (close_requested e) (ep_unblocked e) (ep_sent e).
Definition set_net (e : endpoint) (q : packet_queue) : endpoint :=
  Endpoint (ep_ctx e) (ep_local e) (ep_peer e) (ep_sport e) (ep_dport e) q
    (app_send_queue e) (app_recv_queue e) (close_requested e) (ep_unblocked e) (ep_sent e).
Definition set_to_app (e : endpoint) (q : packet_queue) : endpoint :=
  Endpoint (ep_ctx e) (ep_local e) (ep_peer e) (ep_sport e) (ep_dport e)
    (network_recv_queue e) q (app_recv_queue e) (close_requested e) (ep_unblocked e)
    (ep_sent e).
Definition set_from_app (e : endpoint) (q : packet_queue) : endpoint :=
  Endpoint (ep_ctx e) (ep_local e) (ep_peer e) (ep_sport e) (ep_dport e)
    (network_recv_queue e) (app_send_queue e) q (close_requested e) (ep_unblocked e)
    (ep_sent e).
Definition set_close (e : endpoint) (b : bool) : endpoint :=
  Endpoint (ep_ctx e) (ep_local e) (ep_peer e) (ep_sport e) (ep_dport e)
    (network_recv_queue e) (app_send_queue e) (app_recv_queue e) b (ep_unblocked e)
    (ep_sent e).
Definition set_unblocked (e : endpoint) (err : Z) : endpoint :=
  Endpoint (ep_ctx e) (ep_local e) (ep_peer e) (ep_sport e) (ep_dport e)
    (network_recv_queue e) (app_send_queue e) (app_recv_queue e) (close_requested e)
    (Some err) (ep_sent e).
Definition set_sent (e : endpoint) (l : list buffer) : endpoint :=
  Endpoint (ep_ctx e) (ep_local e) (ep_peer e) (ep_sport e) (ep_dport e)
    (network_recv_queue e) (app_send_queue e) (app_recv_queue e) (close_requested e)
    (ep_unblocked e) l.

(** Updates of the context. *)
Definition with_done (c : context_t) : context_t :=
  Context_t true (connection_state c) (initial_sequence_num c) (sequence_num c) (ack_num c)
    (fin_sent c) (fin_received c) (fin_acked c) (recv_window_size c) (recv_buffer_used c)
    (next_seq_expected c) (peer_window_size c) (last_ack_received c) (last_byte_sent c).
Definition with_state (c : context_t) (st : cstate) : context_t :=
  Context_t (done c) st (initial_sequence_num c) (sequence_num c) (ack_num c)
    (fin_sent c) (fin_received c) (fin_acked c) (recv_window_size c) (recv_buffer_used c)
    (next_seq_expected c) (peer_window_size c) (last_ack_received c) (last_byte_sent c).
Definition with_seq (c : context_t) (n : Z) : context_t :=
  Context_t (done c) (connection_state c) (initial_sequence_num c) n (ack_num c)
    (fin_sent c) (fin_received c) (fin_acked c) (recv_window_size c) (recv_buffer_used c)
    (next_seq_expected c) (peer_window_size c) (last_ack_received c) (last_byte_sent c).
Definition with_ack (c : context_t) (n : Z) : context_t :=
  Context_t (done c) (connection_state c) (initial_sequence_num c) (sequence_num c) n
    (fin_sent c) (fin_received c) (fin_acked c) (recv_window_size c) (recv_buffer_used c)
    (next_seq_expected c) (peer_window_size c) (last_ack_received c) (last_byte_sent c).
Definition with_fin_sent (c : context_t) : context_t :=
  Context_t (done c) (connection_state c) (initial_sequence_num c) (sequence_num c)
    (ack_num c) true (fin_received c) (fin_acked c) (recv_window_size c)
    (recv_buffer_used c) (next_seq_expected c) (peer_window_size c) (last_ack_received c)
    (last_byte_sent c).
Definition with_fin_received (c : context_t) : context_t :=
  Context_t (done c) (connection_state c) (initial_sequence_num c) (sequence_num c)
    (ack_num c) (fin_sent c) true (fin_acked c) (recv_window_size c)
    (recv_buffer_used c) (next_seq_expected c) (peer_window_size c) (last_ack_received c)
    (last_byte_sent c).
Definition with_fin_acked (c : context_t) : context_t :=
  Context_t (done c) (connection_state c) (initial_sequence_num c) (sequence_num c)
    (ack_num c) (fin_sent c) (fin_received c) true (recv_window_size c)
    (recv_buffer_used c) (next_seq_expected c) (peer_window_size c) (last_ack_received c)
    (last_byte_sent c).
Definition with_used (c : context_t) (n : Z) : context_t :=
  Context_t (done c) (connection_state c) (initial_sequence_num c) (sequence_num c)
    (ack_num c) (fin_sent c) (fin_received c) (fin_acked c) (recv_window_size c) n
    (next_seq_expected c) (peer_window_size c) (last_ack_received c) (last_byte_sent c).
Definition with_next (c : context_t) (n : Z) : context_t :=
  Context_t (done c) (connection_state c) (initial_sequence_num c) (sequence_num c)
    (ack_num c) (fin_sent c) (fin_received c) (fin_acked c) (recv_window_size c)
    (recv_buffer_used c) n (peer_window_size c) (last_ack_received c) (last_byte_sent c).
Definition with_window (c : context_t) (n : Z) : context_t :=
  Context_t (done c) (connection_state c) (initial_sequence_num c) (sequence_num c)
    (ack_num c) (fin_sent c) (fin_received c) (fin_acked c) (recv_window_size c)
    (recv_buffer_used c) (next_seq_expected c) n (last_ack_received c) (last_byte_sent c).

Abbreviation SM := (M endpoint).

Definition get_ctx : SM context_t := gets ep_ctx.
Definition upd (f : context_t -> context_t) : SM unit :=
  modify (fun e => set_ctx e (f (ep_ctx e))).

(** * The interface below: stcp_api.c *)

Definition APP_DATA : Z := 1.
Definition NETWORK_DATA : Z := 2.
Definition APP_CLOSE_REQUESTED : Z := 4.
Definition ANY_EVENT : Z := 7.
Definition has (event flag : Z) : bool := negb (Z.land event flag =? 0).

Definition nonempty (q : packet_queue) : bool := match q with [] => false | _ => true end.

(** [stcp_wait_for_event] without a time-out: blocks until some event is
    there. The close request is reported, and cleared, whatever the flags. *)
Definition stcp_wait_for_event (flags : Z) : SM Z :=
  e ← get;
  let rc := 0 in
  let rc := if has flags APP_DATA && nonempty (app_recv_queue e)
            then Z.lor rc APP_DATA else rc in
  let rc := if has flags NETWORK_DATA && nonempty (network_recv_queue e)
            then Z.lor rc NETWORK_DATA else rc in
  let close := close_requested e && negb (nonempty (app_recv_queue e)) in
  let rc := if close then Z.lor rc APP_CLOSE_REQUESTED else rc in
  if rc =? 0 then fail Blocked
  else
    put (if close then set_close e false else e);;
    mret rc.

Section stcp.
Context {memcpy : Memcpy}.

(** [stcp_network_recv] into a buffer of [max_len] bytes: the bytes received and
    the length returned. The assertion reads the length returned, which exceeds
    the buffer when the packet does. *)
Definition stcp_network_recv (max_len : nat) : SM (buffer * nat) :=
  e ← get;
  '(d, len, q) ← lift (mysock_dequeue_buffer (network_recv_queue e) max_len false);
  put (set_net e q);;
  if (len =? 0)%nat then mret (d, len)
  else if (max_len <? len)%nat then fail OutOfBounds
  else
    ok ← lift (mysock_verify_checksum (ep_local e) (ep_peer e) d);
    assertM ok;;
    mret (d, len).

(** The fields of the header that [stcp_network_send] fills. *)
Definition finish_header (local peer sport dport : Z) (p : buffer) : res buffer :=
  p ← st th_sport 0 sport p;
  p ← st th_dport 0 dport p;
  p ← st th_sum 0 0 p;
  p ← st th_urp 0 0 p;
  mysock_set_checksum local peer p.


(** [stcp_network_send] of one segment. *)
Definition stcp_network_send (src : buffer) : SM unit :=
  assertM (length src <=? MAX_IP_PAYLOAD_LEN)%nat;;
  assertM (sizeof_tcphdr <=? length src)%nat;;
  e ← get;
  assertM (0 <? ep_dport e);;
  p ← lift (finish_header (ep_local e) (ep_peer e) (ep_sport e) (ep_dport e) src);
  put (set_sent e (ep_sent e ++ [p])).

Definition EINTR : Z := 4.

(** [stcp_app_recv], [stcp_app_send], [stcp_fin_received] and
    [stcp_unblock_application]; [err] is what [errno] holds when the last is
    called, 0 where the transport layer has not set it. *)
Definition stcp_app_recv (max_len : nat) : SM (buffer * nat) :=
  e ← get;
  '(d, len, q) ← lift (mysock_dequeue_buffer (app_recv_queue e) max_len true);
  put (set_from_app e q);;
  mret (d, len).
Definition stcp_app_send (src : buffer) : SM unit :=
  if (0 <? length src)%nat
  then modify (fun e => set_to_app e (mysock_enqueue_buffer (app_send_queue e) src))
  else mret tt.
Definition stcp_fin_received : SM unit :=
  modify (fun e => set_to_app e (mysock_enqueue_buffer (app_send_queue e) [])).
Definition stcp_unblock_application (err : Z) : SM unit :=
  e ← get;
  match ep_unblocked e with
  | Some _ => fail AssertFail
  | None => put (set_unblocked e (if err =? EINTR then 0 else err))
  end.

(** * transport.c *)

(** The header [send_packet] builds, in front of the data. *)
Definition fill_header (c : context_t) (flags : Z) (p : buffer) : res buffer :=
  p ← st th_seq 0 (htonl (sequence_num c)) p;
  p ← st th_ack 0 (htonl (ack_num c)) p;
  p ← st_th_off 5 p;
  p ← st th_flags 0 flags p;
  st th_win 0 (htons (u16 (recv_window_size c - recv_buffer_used c))) p.

(** [send_packet] *)
Definition send_packet (data : buffer) (flags : Z) : SM unit :=
  assertM (length data <=? STCP_MSS)%nat;;
  c ← get_ctx;
  p ← lift (fill_header c flags (replicate sizeof_tcphdr 0 ++ data));
  stcp_network_send p.

Definition ECONNREFUSED : Z := 111.

(** [generate_initial_seq_num]: [r] is what [rand()] answers; with
    [FIXED_INITNUM] the number is 1. *)
Definition generate_initial_seq_num (fixed : bool) (r : Z) : Z :=
  if fixed then 1 else Z.rem r 256.

(** The context [transport_init] starts from. *)
Definition init_context (isn : Z) : context_t :=
  Context_t false CSTATE_CLOSED isn isn 0 false false false
    RECEIVER_WINDOW_SIZE 0 0 RECEIVER_WINDOW_SIZE isn isn.

(** Wait for a segment and read its header; [None] when the connection is
    refused. *)
Definition recv_header : SM (option buffer) :=
  event ← stcp_wait_for_event NETWORK_DATA;
  if has event NETWORK_DATA then
    '(buf, recv_len) ← stcp_network_recv sizeof_tcphdr;
    if (recv_len <? sizeof_tcphdr)%nat then
      stcp_unblock_application ECONNREFUSED;; mret None
    else mret (Some buf)
  else
    stcp_unblock_application ECONNREFUSED;; mret None.

(** [transport_init] up to the control loop, cut where it waits. The active end
    sends its SYN ... *)
Definition active_syn : SM unit :=
  upd (fun c => with_state c CSTATE_SYN_SENT);;
  send_packet [] TH_SYN;;
  upd (fun c => with_seq c (u32 (sequence_num c + 1))).

(** ... and waits for the SYN-ACK. *)
Definition active_established : SM bool :=
  h ← recv_header;
  match h with
  | None => mret false
  | Some header =>
      flags ← lift (ld th_flags 0 header);
      ack ← lift (ld th_ack 0 header);
      c ← get_ctx;
      if (Z.land flags (Z.lor TH_SYN TH_ACK) =? Z.lor TH_SYN TH_ACK) &&
         (ntohl ack =? sequence_num c)
      then
        seq ← lift (ld th_seq 0 header);
        win ← lift (ld th_win 0 header);
        upd (fun c => with_ack c (u32 (ntohl seq + 1)));;
        upd (fun c => with_window c (ntohs win));;
        upd (fun c => with_next c (u32 (ntohl seq + 1)));;
        send_packet [] TH_ACK;;
        upd (fun c => with_state c CSTATE_ESTABLISHED);;
        stcp_unblock_application 0;;
        mret true
      else
        stcp_unblock_application ECONNREFUSED;; mret false
  end.

(** The passive end waits for the SYN and answers it ... *)
Definition passive_syn : SM bool :=
  h ← recv_header;
  match h with
  | None => mret false
  | Some header =>
      flags ← lift (ld th_flags 0 header);
      if has flags TH_SYN then
        seq ← lift (ld th_seq 0 header);
        win ← lift (ld th_win 0 header);
        upd (fun c => with_ack c (u32 (ntohl seq + 1)));;
        upd (fun c => with_state c CSTATE_SYN_RCVD);;
        upd (fun c => with_next c (u32 (ntohl seq + 1)));;
        upd (fun c => with_window c (ntohs win));;
        send_packet [] (Z.lor TH_SYN TH_ACK);;
        upd (fun c => with_seq c (u32 (sequence_num c + 1)));;
        mret true
      else
        stcp_unblock_application ECONNREFUSED;; mret false
  end.

(** ... and waits for the ACK. *)
Definition passive_established : SM bool :=
  h ← recv_header;
  match h with
  | None => mret false
  | Some header =>
      flags ← lift (ld th_flags 0 header);
      ack ← lift (ld th_ack 0 header);
      c ← get_ctx;
      if has flags TH_ACK && (ntohl ack =? sequence_num c) then
        win ← lift (ld th_win 0 header);
        upd (fun c => with_window c (ntohs win));;
        upd (fun c => with_state c CSTATE_ESTABLISHED);;
        stcp_unblock_application 0;;
        mret true
      else
        stcp_unblock_application ECONNREFUSED;; mret false
  end.

(** ** The control loop, event by event *)

Definition handle_app_data : SM unit :=
  c ← get_ctx;
  let max_to_send :=
    u32 (peer_window_size c - u32 (last_byte_sent c - last_ack_received c)) in
  let max_to_send :=
    if max_to_send >? Z.of_nat STCP_MSS then Z.of_nat STCP_MSS else max_to_send in
  if max_to_send >? 0 then
    '(app_buf, bytes_read) ← stcp_app_recv (Z.to_nat max_to_send);
    if (0 <? bytes_read)%nat then
      send_packet app_buf TH_ACK;;
      upd (fun c => with_seq c (u32 (sequence_num c + Z.of_nat bytes_read)))
    else mret tt
  else mret tt.

(** The FIN flag of a segment. *)
Definition handle_fin (recv_seq : Z) : SM unit :=
  upd with_fin_received;;
  upd (fun c => with_ack c (u32 (recv_seq + 1)));;
  send_packet [] TH_ACK;;
  stcp_fin_received;;
  c ← get_ctx;
  match connection_state c with
  | CSTATE_ESTABLISHED => upd (fun c => with_state c CSTATE_CLOSE_WAIT)
  | CSTATE_FIN_WAIT_1 => upd (fun c => with_state c CSTATE_CLOSING)
  | CSTATE_FIN_WAIT_2 => upd with_done
  | _ => mret tt
  end.

(** The ACK flag of a segment. *)
Definition handle_ack (recv_ack : Z) : SM unit :=
  c ← get_ctx;
  let mine := recv_ack =? sequence_num c in
  match connection_state c with
  | CSTATE_FIN_WAIT_1 =>
      if mine then upd with_fin_acked;; upd (fun c => with_state c CSTATE_FIN_WAIT_2)
      else mret tt
  | CSTATE_CLOSING =>
      if mine then upd with_fin_acked;; upd with_done else mret tt
  | CSTATE_LAST_ACK =>
      if mine then
        upd with_fin_acked;; upd (fun c => with_state c CSTATE_CLOSED);; upd with_done
      else mret tt
  | _ => mret tt
  end.

(** The data of a segment: [bytes_received - TCP_DATA_START(buf)] in [size_t],
    and the copy out of the receive buffer. *)
Definition handle_data (buf : buffer) (bytes_received : nat) (recv_seq : Z) : SM unit :=
  start ← lift (TCP_DATA_START buf);
  let data_len := u64 (Z.of_nat bytes_received - Z.of_nat start) in
  c ← get_ctx;
  if (data_len >? 0) && (recv_seq =? ack_num c) then
    upd (fun c => with_used c (u16 (recv_buffer_used c + data_len)));;
    (if recv_seq =? next_seq_expected c then
       upd (fun c => with_next c (u32 (recv_seq + data_len)));;
       data ← lift (if data_len <=? Z.of_nat (length buf)
                    then rd start (Z.to_nat data_len) buf else Fault OutOfBounds);
       stcp_app_send data;;
       upd (fun c => with_used c (u16 (recv_buffer_used c - data_len)))
     else mret tt);;
    upd (fun c => with_ack c (u32 (ack_num c + data_len)));;
    send_packet [] TH_ACK
  else if data_len >? 0 then send_packet [] TH_ACK
  else mret tt.

(** One segment from the network. *)
Definition handle_segment (buf : buffer) (bytes_received : nat) : SM unit :=
  seq ← lift (ld th_seq 0 buf);
  win ← lift (ld th_win 0 buf);
  let recv_seq := ntohl seq in
  upd (fun c => with_window c (ntohs win));;
  flags ← lift (ld th_flags 0 buf);
  (if has flags TH_FIN then handle_fin recv_seq else mret tt);;
  (if has flags TH_ACK then ack ← lift (ld th_ack 0 buf); handle_ack (ntohl ack)
   else mret tt);;
  handle_data buf bytes_received recv_seq.

(** Network data; [true] when the loop is to [continue]. *)
Definition handle_network_data : SM bool :=
  '(buf, bytes_received) ← stcp_network_recv (STCP_MSS + sizeof_tcphdr);
  if (bytes_received =? 0)%nat then
    c ← get_ctx;
    (if decide (connection_state c = CSTATE_ESTABLISHED)
     then upd (fun c => with_state c CSTATE_CLOSED);; upd with_done
     else mret tt);;
    mret true
  else
    handle_segment buf bytes_received;;
    mret false.

Definition handle_close : SM unit :=
  c ← get_ctx;
  if fin_sent c then mret tt
  else
    upd with_fin_sent;;
    send_packet [] (Z.lor TH_FIN TH_ACK);;
    upd (fun c => with_seq c (u32 (sequence_num c + 1)));;
    c ← get_ctx;
    match connection_state c with
    | CSTATE_ESTABLISHED => upd (fun c => with_state c CSTATE_FIN_WAIT_1)
    | CSTATE_CLOSE_WAIT => upd (fun c => with_state c CSTATE_LAST_ACK)
    | _ => mret tt
    end.

(** The body of the loop of [control_loop]. *)
Definition control_step : SM unit :=
  event ← stcp_wait_for_event ANY_EVENT;
  (if has event APP_DATA then handle_app_data else mret tt);;
  continue ← (if has event NETWORK_DATA then handle_network_data else mret false);
  if (continue : bool) then mret tt
  else if has event APP_CLOSE_REQUESTED then handle_close
  else mret tt.

(** [control_loop] on what is there: runs until the connection is done, or
    until it would block. *)
Fixpoint control_loop (fuel : nat) : SM unit :=
  match fuel with
  | O => fail OutOfFuel
  | S fuel =>
      c ← get_ctx;
      if done c then mret tt
      else control_step;; control_loop fuel
  end.
End stcp.
