(* ===== verification/StcpProps.v ===== *)
(** What one endpoint of STCP sends and how it takes what it receives: the form
    of its segments, and the opening handshake. *)
From S2P Require Import Prelude Mem TcpSum PacketQueue Stcp.

Section protocol.
Context {memcpy : Memcpy}.

(** * Segments *)

(** What a segment says. *)
Record seg_view := SegView {
  sv_seq : Z; sv_ack : Z; sv_flags : Z; sv_win : Z; sv_data : buffer }.

(** [p] is a segment from address [src] to [dst] with the contents [v], as
    [send_packet] makes them. *)
Record segment (src dst : Z) (p : buffer) (v : seg_view) : Prop := {
  sg_length : length p = (20 + length (sv_data v))%nat;
  sg_mss : (length (sv_data v) <= STCP_MSS)%nat;
  sg_bytes : bytes_ok p;
  sg_seq : ntohl (fval th_seq 0 p) = sv_seq v;
  sg_ack : ntohl (fval th_ack 0 p) = sv_ack v;
  sg_flags : fval th_flags 0 p = sv_flags v;
  sg_win : ntohs (fval th_win 0 p) = sv_win v;
  sg_off : TCP_DATA_START p = Ok 20%nat;
  sg_data : slice 20 (length (sv_data v)) p = sv_data v;
  sg_sum : mysock_verify_checksum dst src p = Ok true }.

(** An endpoint whose connection has addresses and a peer port. *)
Definition connected (e : endpoint) : Prop :=
  0 < ep_local e /\ 0 < ep_peer e /\ 0 < ep_dport e.

(** Sequence numbers and windows are in range. *)
Definition ctx_ok (c : context_t) : Prop :=
  0 <= sequence_num c < 2 ^ 32 /\ 0 <= ack_num c < 2 ^ 32.

(** What the context puts in a segment. *)
Definition seg_of (c : context_t) (flags : Z) (data : buffer) : seg_view :=
  SegView (sequence_num c) (ack_num c) flags
    (u16 (recv_window_size c - recv_buffer_used c)) data.

Lemma htonl_small z : 0 <= z < 2 ^ 32 -> ntohl (htonl z mod 256 ^ Z.of_nat 4) = z.
Proof.
  intros Hz. pose proof (bswap_range 4 z).
  rewrite Z.mod_small by done. by apply bswap_bswap.
Qed.

Lemma htons_small z : 0 <= z < 2 ^ 16 -> ntohs (htons z mod 256 ^ Z.of_nat 2) = z.
Proof.
  intros Hz. pose proof (bswap_range 2 z).
  rewrite Z.mod_small by done. by apply bswap_bswap.
Qed.

Lemma fill_header_ok c flags data :
  ctx_ok c -> 0 <= flags < 256 -> bytes_ok data -> (length data <= STCP_MSS)%nat ->
  exists p, fill_header c flags (replicate 20 0 ++ data) = Ok p /\
    length p = (20 + length data)%nat /\ bytes_ok p /\
    ntohl (fval th_seq 0 p) = sequence_num c /\ ntohl (fval th_ack 0 p) = ack_num c /\
    fval th_flags 0 p = flags /\
    ntohs (fval th_win 0 p) = u16 (recv_window_size c - recv_buffer_used c) /\
    fval th_off_x2 0 p = 80 /\ slice 20 (length data) p = data.
Proof.
  intros [Hs Ha] Hf Hd Hm. set (p0 := replicate 20 0 ++ data).
  assert (L0 : length p0 = (20 + length data)%nat) by (unfold p0; len).
  assert (B0 : bytes_ok p0).
  { apply bytes_ok_app. split; [|done]. apply Forall_replicate. unfold is_byte. lia. }
  assert (D0 : slice 20 (length data) p0 = data).
  { unfold p0. rewrite slice_app_r by (rewrite length_replicate; lia).
    rewrite length_replicate, Nat.sub_diag. apply slice_all. }
  assert (Z0 : fval th_off_x2 0 p0 = 0) by done.
  clearbody p0. apply ok_with_inv. unfold fill_header, st_th_off.
  do 6 mem_step. simpl. split; [lia|]. split; [done|].
  split; [mem_read; by apply htonl_small|]. split; [mem_read; by apply htonl_small|].
  split; [mem_read; by apply Z.mod_small|].
  split; [mem_read; apply htons_small, u16_range|].
  split; [|by mem_read].
  assert (Hx : fval th_off_x2 0 p1 = 0) by (mem_read; done).
  rewrite Hx in *. mem_read. done.
Qed.

Lemma finish_header_ok local peer sport dport p n :
  length p = (20 + n)%nat -> (n <= STCP_MSS)%nat -> bytes_ok p -> 0 < local -> 0 < peer ->
  exists q, finish_header local peer sport dport p = Ok q /\ length q = length p /\
    bytes_ok q /\ mysock_verify_checksum peer local q = Ok true /\
    (forall f, (4 <= f_off f)%nat -> (f_off f + f_size f <= 16)%nat -> fval f 0 q = fval f 0 p) /\
    (forall m, slice 20 m q = slice 20 m p).
Proof.
  unfold STCP_MSS. intros Hl Hn Hb Hlo Hpe. unfold finish_header.
  assert (E : exists p3, (p ← st th_sport 0 sport p; p ← st th_dport 0 dport p;
     p ← st th_sum 0 0 p; st th_urp 0 0 p) = Ok p3 /\ length p3 = length p /\ bytes_ok p3 /\
    (forall f, (4 <= f_off f)%nat -> (f_off f + f_size f <= 16)%nat -> fval f 0 p3 = fval f 0 p) /\
    (forall m, slice 20 m p3 = slice 20 m p)).
  { apply ok_with_inv. do 4 mem_step. simpl. split; [lia|]. split; [done|]. split.
    - intros f H1 H2. mem_read. done.
    - intros m. by mem_read. }
  destruct E as (p3 & E & L3 & B3 & F3 & S3).
  assert (E' : finish_header local peer sport dport p = mysock_set_checksum local peer p3).
  { unfold finish_header. destruct (st th_sport 0 sport p) as [p0|]; [|done].
    cbn [mbind res_bind] in *. destruct (st th_dport 0 dport p0) as [p1|]; [|done].
    cbn [mbind res_bind] in *. destruct (st th_sum 0 0 p1) as [p2|]; [|done].
    cbn [mbind res_bind] in *. by rewrite E. }
  unfold finish_header in E'. rewrite E'. clear E E'.
  destruct (tcp_checksum_eq local peer p3 ltac:(lia) ltac:(unfold segment_max; lia) B3 Hlo Hpe)
    as (d & Hc & Hd & _).
  unfold mysock_set_checksum, sizeof_tcphdr. destruct (Nat.ltb_spec (length p3) 20); [lia|].
  rewrite Hc. cbn [mbind res_bind]. rewrite st_ok by in_bounds.
  set (q := fset th_sum 0 (65535 - d) p3).
  assert (Lq : length q = length p3) by (apply length_fset; in_bounds).
  assert (Bq : bytes_ok q) by (by apply fset_bytes_ok).
  exists q. split; [done|]. split; [lia|]. split; [done|]. split; [|split].
  - apply verify_iff; [lia|unfold segment_max; lia|done|done|done|].
    apply checksum_value in Hc; [|lia|unfold segment_max; lia|done|done|done].
    assert (Et : tcp_total local peer q = tcp_total local peer p3)
      by (apply tcp_total_field; lia).
    assert (Ef : fval th_sum 0 q = 65535 - d).
    { unfold q. rewrite fval_fset by in_bounds. apply Z.mod_small.
      change (256 ^ Z.of_nat (f_size th_sum)) with 65536. lia. }
    apply checksum_value; [lia|unfold segment_max; lia|done|done|done|].
    by rewrite Et, Ef.
  - intros f H1 H2. unfold q. rewrite fval_fset_ne by in_bounds. auto.
  - intros m. unfold q. rewrite slice_fset_ne by in_bounds. auto.
Qed.

(** [send_packet] hands one segment with the context's numbers to the network
    layer, and does nothing else. *)
Lemma send_packet_ok e data flags :
  connected e -> ctx_ok (ep_ctx e) -> 0 <= flags < 256 -> bytes_ok data ->
  (length data <= STCP_MSS)%nat ->
  exists p, send_packet data flags e = Ok (tt, set_sent e (ep_sent e ++ [p])) /\
    segment (ep_local e) (ep_peer e) p (seg_of (ep_ctx e) flags data).
Proof.
  intros (Hlo & Hpe & Hdp) Hc Hf Hd Hm.
  destruct (fill_header_ok (ep_ctx e) flags data Hc Hf Hd Hm)
    as (p & Ep & Lp & Bp & F1 & F2 & F3 & F4 & F5 & F6).
  destruct (finish_header_ok (ep_local e) (ep_peer e) (ep_sport e) (ep_dport e) p
    (length data) Lp Hm Bp Hlo Hpe) as (q & Eq & Lq & Bq & Hv & Hfq & Hsq).
  exists q. split.
  - unfold send_packet. rewrite (proj2 (Nat.leb_le _ _)) by done. unfold get_ctx. exec.
    unfold sizeof_tcphdr. rewrite Ep. exec. unfold stcp_network_send, STCP_MSS in *.
    rewrite (proj2 (Nat.leb_le (length p) MAX_IP_PAYLOAD_LEN))
      by (unfold MAX_IP_PAYLOAD_LEN; lia).
    rewrite (proj2 (Nat.leb_le sizeof_tcphdr (length p))) by (unfold sizeof_tcphdr; lia). exec.
    rewrite (proj2 (Z.ltb_lt _ _)) by done. exec. rewrite Eq. exec. done.
  - split; cbn [seg_of sv_data sv_seq sv_ack sv_flags sv_win];
      rewrite ?Hfq by (field_lits; lia); try done; try lia.
    + unfold TCP_DATA_START. rewrite ld_ok by in_bounds. cbn [mbind res_bind].
      rewrite Hfq by (field_lits; lia). by rewrite F5.
    + by rewrite Hsq.
Qed.

(** ** Receiving *)

(** The wait for a segment, when there is one. *)
Lemma wait_network e p q :
  network_recv_queue e = p :: q -> close_requested e = false ->
  stcp_wait_for_event NETWORK_DATA e = Ok (NETWORK_DATA, e).
Proof.
  intros Hq Hc. unfold stcp_wait_for_event. exec. rewrite Hq, Hc.
  by destruct (nonempty (app_recv_queue e)).
Qed.

(** The events of a turn of the control loop: data of the application, of the
    network, and the request to close. *)
Definition events (a n c : bool) : Z :=
  (if a then APP_DATA else 0) + (if n then NETWORK_DATA else 0) +
  (if c then APP_CLOSE_REQUESTED else 0).

Lemma has_events a n c :
  has (events a n c) APP_DATA = a /\ has (events a n c) NETWORK_DATA = n /\
  has (events a n c) APP_CLOSE_REQUESTED = c.
Proof. by destruct a, n, c. Qed.

(** The wait of the control loop: the close request waits until the
    application's queue is empty. *)
Lemma wait_any e a n c :
  a = nonempty (app_recv_queue e) -> n = nonempty (network_recv_queue e) ->
  c = close_requested e && negb a -> a || n || c = true ->
  stcp_wait_for_event ANY_EVENT e =
    Ok (events a n c, if c then set_close e false else e).
Proof.
  intros -> -> -> H. unfold stcp_wait_for_event. exec.
  by destruct (nonempty (app_recv_queue e)), (nonempty (network_recv_queue e)),
    (close_requested e).
Qed.

Lemma wait_blocks e :
  app_recv_queue e = [] -> network_recv_queue e = [] -> close_requested e = false ->
  stcp_wait_for_event ANY_EVENT e = Fault Blocked.
Proof. intros Ha Hn Hc. unfold stcp_wait_for_event. exec. by rewrite Ha, Hn, Hc. Qed.

(** A segment at the head of the queue is received whole and accepted. *)
Lemma network_recv_ok e p v q max_len :
  network_recv_queue e = p :: q -> segment (ep_peer e) (ep_local e) p v ->
  (length p <= max_len)%nat ->
  stcp_network_recv max_len e = Ok ((p, length p), set_net e q).
Proof.
  intros Hq Hs Hl. unfold stcp_network_recv. exec. rewrite Hq.
  unfold mysock_dequeue_buffer. rewrite andb_false_r. exec.
  rewrite take_ge by lia. pose proof (sg_length _ _ _ _ Hs).
  destruct (Nat.eqb_spec (length p) 0); [lia|].
  destruct (Nat.ltb_spec max_len (length p)); [lia|].
  rewrite (sg_sum _ _ _ _ Hs). exec. done.
Qed.

Lemma recv_header_ok e p v q :
  network_recv_queue e = p :: q -> segment (ep_peer e) (ep_local e) p v -> sv_data v = [] ->
  close_requested e = false ->
  recv_header e = Ok (Some p, set_net e q).
Proof.
  intros Hq Hs Hd Hc. unfold recv_header.
  rewrite (bind_ok _ _ _ _ _ (wait_network e p q Hq Hc)).
  change (has NETWORK_DATA NETWORK_DATA) with true. cbn iota.
  pose proof (sg_length _ _ _ _ Hs) as Hl. rewrite Hd in Hl. simpl in Hl.
  rewrite (bind_ok _ _ _ _ _ (network_recv_ok e p v q 20 Hq Hs ltac:(lia))).
  cbn beta iota. by rewrite Hl.
Qed.

(** ** The opening handshake *)

(** A new endpoint: nothing sent, received, asked or told. *)
Record fresh (isn : Z) (e : endpoint) : Prop := {
  fr_ctx : ep_ctx e = init_context isn;
  fr_isn : 0 <= isn < 2 ^ 32;
  fr_connected : connected e;
  fr_close : close_requested e = false;
  fr_unblocked : ep_unblocked e = None;
  fr_sent : ep_sent e = [] }.

(** Each of two endpoints has the other's address as its peer's. *)
Definition linked (a b : endpoint) : Prop :=
  ep_peer a = ep_local b /\ ep_peer b = ep_local a.

(** The context of an end that is connected: its numbers and the peer's. *)
Definition established_ctx (isn peer_isn : Z) : context_t :=
  Context_t false CSTATE_ESTABLISHED isn (u32 (isn + 1)) (u32 (peer_isn + 1))
    false false false RECEIVER_WINDOW_SIZE 0 (u32 (peer_isn + 1)) RECEIVER_WINDOW_SIZE isn isn.

(** The initial sequence number is a byte. *)
Lemma isn_range fixed r : 0 <= r -> 0 <= generate_initial_seq_num fixed r < 256.
Proof.
  intros Hr. unfold generate_initial_seq_num. destruct fixed; [lia|].
  rewrite Z.rem_mod_nonneg by lia. apply Z.mod_pos_bound. lia.
Qed.

Lemma ctx_ok_u32 c n : ctx_ok c -> ctx_ok (with_seq c (u32 n)) /\ ctx_ok (with_ack c (u32 n)).
Proof. intros [H1 H2]. pose proof (u32_range n). by split. Qed.

Lemma active_syn_ok isn e :
  fresh isn e ->
  exists p, active_syn e = Ok (tt, set_sent (set_ctx e
      (with_seq (with_state (init_context isn) CSTATE_SYN_SENT) (u32 (isn + 1)))) [p]) /\
    segment (ep_local e) (ep_peer e) p (SegView isn 0 TH_SYN RECEIVER_WINDOW_SIZE []).
Proof.
  intros [Hc Hi Hcon Hcl Hu Hs]. unfold active_syn, upd. exec. rewrite Hc.
  set (e1 := set_ctx e (with_state (init_context isn) CSTATE_SYN_SENT)).
  destruct (send_packet_ok e1 [] TH_SYN Hcon) as (p & E & Hp);
    [by split; simpl; lia|unfold TH_SYN; lia|constructor|simpl; lia|].
  exists p. rewrite (bind_ok _ _ _ _ _ E). split; [|exact Hp].
  subst e1. simpl. rewrite Hs. done.
Qed.

(** What the active end makes of the answer to its SYN. *)
Lemma active_established_ok e p v q :
  network_recv_queue e = p :: q -> segment (ep_peer e) (ep_local e) p v -> sv_data v = [] ->
  close_requested e = false -> ep_unblocked e = None -> connected e -> ctx_ok (ep_ctx e) ->
  let c := ep_ctx e in
  let c' := with_next (with_window (with_ack c (u32 (sv_seq v + 1))) (sv_win v))
              (u32 (sv_seq v + 1)) in
  if (Z.land (sv_flags v) (Z.lor TH_SYN TH_ACK) =? Z.lor TH_SYN TH_ACK) &&
     (sv_ack v =? sequence_num c)
  then exists r, active_established e = Ok (true,
         set_unblocked (set_sent (set_ctx (set_net e q) (with_state c' CSTATE_ESTABLISHED))
           (ep_sent e ++ [r])) 0) /\
       segment (ep_local e) (ep_peer e) r (seg_of c' TH_ACK [])
  else active_established e = Ok (false, set_unblocked (set_net e q) ECONNREFUSED).
Proof.
  intros Hq Hs Hd Hcl Hu Hcon Hc c c'. unfold active_established.
  rewrite (bind_ok _ _ _ _ _ (recv_header_ok e p v q Hq Hs Hd Hcl)).
  destruct Hs as [Hl _ _ Sseq Sack Sfl Swin _ _ _]. rewrite Hd in Hl. simpl in Hl.
  unfold get_ctx. do 2 mload. rewrite Sfl, Sack. cbn [set_net ep_ctx]. fold c.
  destruct (_ && _).
  - do 2 mload. unfold upd. exec. rewrite Sseq, Swin. cbn [set_net set_ctx ep_ctx]. fold c c'.
    set (e1 := set_ctx (set_net e q) c').
    destruct (send_packet_ok e1 [] TH_ACK) as (r & E & Hseg);
      [exact Hcon| |unfold TH_ACK; lia|constructor|simpl; lia|].
    { pose proof (u32_range (sv_seq v + 1)). destruct Hc. by split. }
    exists r. rewrite (bind_ok _ _ _ _ _ E). exec. unfold stcp_unblock_application. exec.
    cbn. rewrite Hu. split; [done|exact Hseg].
  - unfold stcp_unblock_application. exec. cbn. by rewrite Hu.
Qed.

(** What the passive end makes of the segment that opens the connection. *)
Lemma passive_syn_ok e p v q :
  network_recv_queue e = p :: q -> segment (ep_peer e) (ep_local e) p v -> sv_data v = [] ->
  close_requested e = false -> ep_unblocked e = None -> connected e -> ctx_ok (ep_ctx e) ->
  let c' := with_window (with_next (with_state (with_ack (ep_ctx e) (u32 (sv_seq v + 1)))
              CSTATE_SYN_RCVD) (u32 (sv_seq v + 1))) (sv_win v) in
  if has (sv_flags v) TH_SYN
  then exists r, passive_syn e = Ok (true,
         set_sent (set_ctx (set_net e q) (with_seq c' (u32 (sequence_num c' + 1))))
           (ep_sent e ++ [r])) /\
       segment (ep_local e) (ep_peer e) r (seg_of c' (Z.lor TH_SYN TH_ACK) [])
  else passive_syn e = Ok (false, set_unblocked (set_net e q) ECONNREFUSED).
Proof.
  intros Hq Hs Hd Hcl Hu Hcon Hc c'. unfold passive_syn.
  rewrite (bind_ok _ _ _ _ _ (recv_header_ok e p v q Hq Hs Hd Hcl)).
  destruct Hs as [Hl _ _ Sseq Sack Sfl Swin _ _ _]. rewrite Hd in Hl. simpl in Hl.
  mload. rewrite Sfl. destruct (has _ _).
  - do 2 mload. unfold upd. exec. rewrite Sseq, Swin. cbn [set_net set_ctx ep_ctx]. fold c'.
    set (e1 := set_ctx (set_net e q) c').
    destruct (send_packet_ok e1 [] (Z.lor TH_SYN TH_ACK)) as (r & E & Hseg);
      [exact Hcon| |by vm_compute|constructor|simpl; lia|].
    { pose proof (u32_range (sv_seq v + 1)). destruct Hc. by split. }
    exists r. rewrite (bind_ok _ _ _ _ _ E). exec. split; [done|exact Hseg].
  - unfold stcp_unblock_application. exec. cbn. by rewrite Hu.
Qed.

(** What the passive end makes of the answer to its SYN-ACK. *)
Lemma passive_established_ok e p v q :
  network_recv_queue e = p :: q -> segment (ep_peer e) (ep_local e) p v -> sv_data v = [] ->
  close_requested e = false -> ep_unblocked e = None ->
  passive_established e =
    if has (sv_flags v) TH_ACK && (sv_ack v =? sequence_num (ep_ctx e))
    then Ok (true, set_unblocked (set_ctx (set_net e q)
           (with_state (with_window (ep_ctx e) (sv_win v)) CSTATE_ESTABLISHED)) 0)
    else Ok (false, set_unblocked (set_net e q) ECONNREFUSED).
Proof.
  intros Hq Hs Hd Hcl Hu. unfold passive_established.
  rewrite (bind_ok _ _ _ _ _ (recv_header_ok e p v q Hq Hs Hd Hcl)).
  destruct Hs as [Hl _ _ Sseq Sack Sfl Swin _ _ _]. rewrite Hd in Hl. simpl in Hl.
  unfold get_ctx. do 2 mload. rewrite Sfl, Sack. cbn [set_net ep_ctx]. destruct (_ && _).
  - mload. unfold upd, stcp_unblock_application. exec. rewrite Swin. cbn. by rewrite Hu.
  - unfold stcp_unblock_application. exec. cbn. by rewrite Hu.
Qed.

(** The handshake, with every segment delivered as soon as it is sent. *)
Definition open_connection (a b : endpoint) : res (bool * endpoint * endpoint) :=
  '(_, a) ← active_syn a;
  '(ok1, b) ← passive_syn (set_net b (ep_sent a));
  '(ok2, a) ← active_established (set_net a (ep_sent b));
  '(ok3, b) ← passive_established (set_net b (drop 1 (ep_sent a)));
  mret (ok1 && ok2 && ok3, a, b).

Lemma endpoint_ext e e' :
  ep_ctx e = ep_ctx e' -> ep_local e = ep_local e' -> ep_peer e = ep_peer e' ->
  ep_sport e = ep_sport e' -> ep_dport e = ep_dport e' ->
  network_recv_queue e = network_recv_queue e' -> app_send_queue e = app_send_queue e' ->
  app_recv_queue e = app_recv_queue e' -> close_requested e = close_requested e' ->
  ep_unblocked e = ep_unblocked e' -> ep_sent e = ep_sent e' -> e = e'.
Proof. destruct e, e'. cbn. congruence. Qed.

(** The endpoint [e] with its connection established: the handshake touches
    neither the queues of the application nor the ports. *)
Definition opened (e : endpoint) (c : context_t) (sent : list buffer) : endpoint :=
  Endpoint c (ep_local e) (ep_peer e) (ep_sport e) (ep_dport e) []
    (app_send_queue e) (app_recv_queue e) false (Some 0) sent.

(** The passive end when it has answered a SYN. *)
Definition syn_received (e : endpoint) (isn peer_isn : Z) (synack : buffer) : endpoint :=
  Endpoint (Context_t false CSTATE_SYN_RCVD isn (u32 (isn + 1)) (u32 (peer_isn + 1))
      false false false RECEIVER_WINDOW_SIZE 0 (u32 (peer_isn + 1)) RECEIVER_WINDOW_SIZE isn isn)
    (ep_local e) (ep_peer e) (ep_sport e) (ep_dport e) []
    (app_send_queue e) (app_recv_queue e) false None [synack].
Definition syn_sent (e : endpoint) (isn : Z) (syn : buffer) : endpoint :=
  set_sent (set_ctx e (with_seq (with_state (init_context isn) CSTATE_SYN_SENT) (u32 (isn + 1)))) [syn].

(** The handshake step by step. *)
Lemma open_steps isn_a isn_b a b :
  fresh isn_a a -> fresh isn_b b -> linked a b ->
  exists syn synack ack,
    active_syn a = Ok (tt, syn_sent a isn_a syn) /\
    passive_syn (set_net b [syn]) = Ok (true, syn_received b isn_b isn_a synack) /\
    active_established (set_net (syn_sent a isn_a syn) [synack]) =
      Ok (true, opened a (established_ctx isn_a isn_b) [syn; ack]) /\
    passive_established (set_net (syn_received b isn_b isn_a synack) [ack]) =
      Ok (true, opened b (established_ctx isn_b isn_a) [synack]) /\
    segment (ep_local a) (ep_peer a) syn
      (SegView isn_a 0 TH_SYN RECEIVER_WINDOW_SIZE []) /\
    segment (ep_local b) (ep_peer b) synack
      (SegView isn_b (u32 (isn_a + 1)) (Z.lor TH_SYN TH_ACK) RECEIVER_WINDOW_SIZE []) /\
    segment (ep_local a) (ep_peer a) ack
      (SegView (u32 (isn_a + 1)) (u32 (isn_b + 1)) TH_ACK RECEIVER_WINDOW_SIZE []).
Proof.
  intros Fa Fb [Lab Lba]. destruct (active_syn_ok isn_a a Fa) as (syn & Ea1 & Ssyn).
  destruct Fb as [Cb Ib Conb Clb Ub Sb], Fa as [Ca Ia Cona Cla Ua Sa].
  fold (syn_sent a isn_a syn) in Ea1.
  pose proof (passive_syn_ok (set_net b [syn]) syn _ [] eq_refl
    ltac:(cbn; rewrite Lba, <-Lab; exact Ssyn) eq_refl Clb Ub Conb
    ltac:(cbn; rewrite Cb; split; simpl; lia)) as Hb.
  cbn [sv_flags sv_seq sv_win has] in Hb. cbn in Hb. rewrite Sb in Hb.
  destruct Hb as (synack & Eb1 & Ssynack). rewrite Cb in *.
  set (b1 := set_sent _ _) in Eb1.
  assert (Eb : b1 = syn_received b isn_b isn_a synack) by (by apply endpoint_ext).
  assert (Hc1 : ctx_ok (ep_ctx (set_net (syn_sent a isn_a syn) [synack])))
    by (pose proof (u32_range (isn_a + 1)); split; simpl; lia).
  pose proof (active_established_ok (set_net (syn_sent a isn_a syn) [synack]) synack _ [] eq_refl
    ltac:(cbn; rewrite Lab, <-Lba; exact Ssynack) eq_refl Cla Ua Cona Hc1) as Ha.
  cbn in Ha. rewrite !Z.eqb_refl in Ha. destruct Ha as (ack & Ea2 & Sack).
  pose proof (passive_established_ok (set_net b1 [ack]) ack _ [] eq_refl
    ltac:(cbn; rewrite Lba, <-Lab; exact Sack) eq_refl Clb Ub) as Eb2.
  cbn in Eb2. rewrite !Z.eqb_refl in Eb2.
  change (has TH_ACK TH_ACK && true) with true in Eb2. cbn iota in Eb2.
  exists syn, synack, ack. rewrite <-Eb. split; [exact Ea1|]. split; [exact Eb1|].
  split; [rewrite Ea2; f_equal; f_equal; by apply endpoint_ext|].
  split; [rewrite Eb2; f_equal; f_equal; by apply endpoint_ext|]. done.
Qed.

Lemma open_connection_ok isn_a isn_b a b :
  fresh isn_a a -> fresh isn_b b -> linked a b ->
  exists syn synack ack,
    open_connection a b =
      Ok (true, opened a (established_ctx isn_a isn_b) [syn; ack],
          opened b (established_ctx isn_b isn_a) [synack]) /\
    segment (ep_local a) (ep_peer a) syn
      (SegView isn_a 0 TH_SYN RECEIVER_WINDOW_SIZE []) /\
    segment (ep_local b) (ep_peer b) synack
      (SegView isn_b (u32 (isn_a + 1)) (Z.lor TH_SYN TH_ACK) RECEIVER_WINDOW_SIZE []) /\
    segment (ep_local a) (ep_peer a) ack
      (SegView (u32 (isn_a + 1)) (u32 (isn_b + 1)) TH_ACK RECEIVER_WINDOW_SIZE []).
Proof.
  intros Fa Fb Hl. destruct (open_steps isn_a isn_b a b Fa Fb Hl)
    as (syn & synack & ack & E1 & E2 & E3 & E4 & Hs).
  exists syn, synack, ack. split; [|exact Hs]. unfold open_connection.
  rewrite E1. cbn [mbind res_bind syn_sent ep_sent set_sent]. rewrite E2.
  cbn [mbind res_bind syn_received ep_sent]. rewrite E3.
  cbn [mbind res_bind opened ep_sent drop]. by rewrite E4.
Qed.

(** The three-way handshake: an active and a passive end, each with any
    initial sequence number, that deliver each other their segments, are both
    established after the SYN, the SYN-ACK and the ACK; each has its own number
    and the peer's, both one past the SYN, and the peer's window; the
    applications are unblocked without an error; the segments carry the numbers
    and flags the protocol asks for. *)
Theorem handshake isn_a isn_b a b :
  fresh isn_a a -> fresh isn_b b -> linked a b ->
  exists syn synack ack,
    open_connection a b =
      Ok (true, opened a (established_ctx isn_a isn_b) [syn; ack],
          opened b (established_ctx isn_b isn_a) [synack]) /\
    segment (ep_local a) (ep_peer a) syn
      (SegView isn_a 0 TH_SYN RECEIVER_WINDOW_SIZE []) /\
    segment (ep_local b) (ep_peer b) synack
      (SegView isn_b (u32 (isn_a + 1)) (Z.lor TH_SYN TH_ACK) RECEIVER_WINDOW_SIZE []) /\
    segment (ep_local a) (ep_peer a) ack
      (SegView (u32 (isn_a + 1)) (u32 (isn_b + 1)) TH_ACK RECEIVER_WINDOW_SIZE []).
Proof. apply open_connection_ok. Qed.

End protocol.

#[local] Existing Instance moving_memcpy.

(** A new endpoint with no data. *)
Definition new_endpoint (isn local peer sport dport : Z) : endpoint :=
  Endpoint (init_context isn) local peer sport dport [] [] [] false None [].

Lemma new_fresh isn local peer sport dport :
  0 <= isn < 2 ^ 32 -> 0 < local -> 0 < peer -> 0 < dport ->
  fresh isn (new_endpoint isn local peer sport dport).
Proof. intros. by split. Qed.

Lemma handshake_witness :
  fresh 1 (new_endpoint 1 16777343 33554559 4660 80) /\
  exists a b, open_connection (new_endpoint 1 16777343 33554559 4660 80)
      (new_endpoint 4294967295 33554559 16777343 80 4660) = Ok (true, a, b) /\
    sequence_num (ep_ctx b) = 0 /\ connection_state (ep_ctx b) = CSTATE_ESTABLISHED.
Proof.
  split; [apply new_fresh; lia|].
  destruct (handshake 1 4294967295 (new_endpoint 1 16777343 33554559 4660 80)
    (new_endpoint 4294967295 33554559 16777343 80 4660)) as (syn & synack & ack & H1 & _).
  - apply new_fresh; lia.
  - apply new_fresh; lia.
  - by split.
  - eexists _, _. split; [exact H1|]. by split.
Defined.

(** Each wait of the handshake lets exactly the right segment through: the
    active end a segment with both SYN and ACK that acknowledges its SYN, the
    passive end first any segment with SYN and then one with ACK that
    acknowledges its own SYN. At any other segment the end sends nothing, keeps
    its context, and unblocks its application with [ECONNREFUSED]. *)
Theorem handshake_exact e p v q :
  network_recv_queue e = p :: q -> segment (ep_peer e) (ep_local e) p v -> sv_data v = [] ->
  close_requested e = false -> ep_unblocked e = None -> connected e -> ctx_ok (ep_ctx e) ->
  let refused := Ok (false, set_unblocked (set_net e q) ECONNREFUSED) in
  let acks := sv_ack v =? sequence_num (ep_ctx e) in
  let synack := Z.land (sv_flags v) (Z.lor TH_SYN TH_ACK) =? Z.lor TH_SYN TH_ACK in
  (if synack && acks
   then exists e', active_established e = Ok (true, e') /\ ep_unblocked e' = Some 0
   else active_established e = refused) /\
  (if has (sv_flags v) TH_SYN
   then exists e', passive_syn e = Ok (true, e') /\ ep_unblocked e' = None
   else passive_syn e = refused) /\
  (if has (sv_flags v) TH_ACK && acks
   then exists e', passive_established e = Ok (true, e') /\ ep_unblocked e' = Some 0 /\
          ep_sent e' = ep_sent e
   else passive_established e = refused).
Proof.
  intros Hq Hs Hd Hcl Hu Hcon Hc refused acks synack.
  pose proof (active_established_ok e p v q Hq Hs Hd Hcl Hu Hcon Hc) as H1.
  pose proof (passive_syn_ok e p v q Hq Hs Hd Hcl Hu Hcon Hc) as H2.
  pose proof (passive_established_ok e p v q Hq Hs Hd Hcl Hu) as H3.
  cbv zeta in H1, H2. fold acks synack in H1, H3. split; [|split].
  - destruct (_ && _); [|done]. destruct H1 as (r & -> & _). by eexists.
  - destruct (has _ _); [|done]. destruct H2 as (r & -> & _). by eexists.
  - destruct (has (sv_flags v) TH_ACK && acks); [|done]. rewrite H3. eexists. split; [done|]. split; done.
Qed.

(** A SYN-ACK with the number 7 that acknowledges 2, as an endpoint sends it. *)
Definition synack_example : buffer :=
  match send_packet [] (Z.lor TH_SYN TH_ACK)
    (set_ctx (new_endpoint 7 33554559 16777343 80 4660) (with_ack (init_context 7) 2)) with
  | Ok (_, e) => hd [] (ep_sent e)
  | Fault _ => []
  end.

Lemma handshake_exact_witness :
  exists e', active_established
    (set_ctx (set_net (new_endpoint 1 16777343 33554559 4660 80) [synack_example])
       (with_seq (init_context 1) 2)) = Ok (true, e') /\ ep_unblocked e' = Some 0.
Proof.
  destruct (handshake_exact
    (set_ctx (set_net (new_endpoint 1 16777343 33554559 4660 80) [synack_example])
       (with_seq (init_context 1) 2)) synack_example
    (SegView 7 2 (Z.lor TH_SYN TH_ACK) RECEIVER_WINDOW_SIZE []) []) as (H & _).
  - reflexivity.
  - split; try reflexivity; [cbn; lia|apply (bool_decide_unpack _); vm_compute; exact I].
  - reflexivity.
  - reflexivity.
  - reflexivity.
  - unfold connected. cbn. lia.
  - unfold ctx_ok. cbn. lia.
  - exact H.
Defined.
