(* ===== verification/StcpNet.v ===== *)
(** Two connected STCP endpoints over a network that may lose, duplicate and
    reorder segments: what one application reads is always a prefix of what the
    other wrote, and no turn of the transport thread faults. *)
From S2P Require Import Prelude Mem TcpSum PacketQueue Stcp StcpProps.

Section connection.
Context {memcpy : Memcpy}.

(** * What a connection carries *)

(** One direction: the initial sequence number of the end that sends, what its
    application has written so far, and whether it has closed. *)
Record stream := Stream { s_isn : Z; s_written : buffer; s_closed : bool }.

(** The stream stays within one turn of the sequence numbers: the SYN, the bytes
    and the FIN have different numbers. *)
Definition stream_ok (s : stream) : Prop :=
  bytes_ok (s_written s) /\ Z.of_nat (length (s_written s)) + 2 < 2 ^ 32.

(** The sequence number of byte [k] of a stream. *)
Definition seq_at (s : stream) (k : nat) : Z := u32 (s_isn s + 1 + Z.of_nat k).

(** [s'] is [s] some time later. *)
Definition stream_le (s s' : stream) : Prop :=
  s_isn s' = s_isn s /\ s_written s `prefix_of` s_written s' /\
  (s_closed s = true -> s' = s).

(** A segment that carries part of the stream at its place, or no data; with a
    FIN, it is at the end of a stream that is closed. *)
Definition seg_ok (src dst : Z) (s : stream) (p : buffer) : Prop :=
  exists v, segment src dst p v /\ sv_win v = RECEIVER_WINDOW_SIZE /\
    (has (sv_flags v) TH_FIN = true ->
       s_closed s = true /\ sv_seq v = seq_at s (length (s_written s)) /\ sv_data v = []) /\
    (sv_data v = [] \/ exists k,
       sv_seq v = seq_at s k /\ (k + length (sv_data v) <= length (s_written s))%nat /\
       sv_data v = slice k (length (sv_data v)) (s_written s)).

(** The streams of an endpoint, what its application has read, and the
    addresses. *)
Record view := View {
  v_me : stream; v_peer : stream; v_read : buffer; v_local : Z; v_remote : Z }.

(** What the endpoint has given its application, read or not. *)
Definition delivered (g : view) (e : endpoint) : buffer :=
  v_read g ++ concat (app_send_queue e).

Record end_inv (g : view) (e : endpoint) : Prop := {
  ei_connected : connected e;
  ei_addr : ep_local e = v_local g /\ ep_peer e = v_remote g;
  ei_me : stream_ok (v_me g);
  ei_peer : stream_ok (v_peer g);
  ei_window : recv_window_size (ep_ctx e) = RECEIVER_WINDOW_SIZE /\
    recv_buffer_used (ep_ctx e) = 0 /\ peer_window_size (ep_ctx e) = RECEIVER_WINDOW_SIZE /\
    last_byte_sent (ep_ctx e) = last_ack_received (ep_ctx e);
  ei_out : exists k, (k <= length (s_written (v_me g)))%nat /\
    drop k (s_written (v_me g)) = concat (app_recv_queue e) /\
    sequence_num (ep_ctx e) =
      seq_at (v_me g) (k + if fin_sent (ep_ctx e) then 1 else 0);
  ei_fin : fin_sent (ep_ctx e) = true -> s_closed (v_me g) = true /\ app_recv_queue e = [];
  ei_close : close_requested e = true -> s_closed (v_me g) = true;
  ei_sent : Forall (seg_ok (ep_local e) (ep_peer e) (v_me g)) (ep_sent e);
  ei_net : Forall (fun p => p = [] \/ seg_ok (ep_peer e) (ep_local e) (v_peer g) p)
    (network_recv_queue e);
  ei_prefix : delivered g e `prefix_of` s_written (v_peer g);
  ei_next : next_seq_expected (ep_ctx e) = seq_at (v_peer g) (length (delivered g e));
  ei_ack : ack_num (ep_ctx e) = next_seq_expected (ep_ctx e) \/
    s_closed (v_peer g) = true /\
    ack_num (ep_ctx e) = seq_at (v_peer g) (S (length (s_written (v_peer g)))) }.

(** ** Sequence numbers *)

Lemma seq_at_range s k : 0 <= seq_at s k < 2 ^ 32.
Proof. apply u32_range. Qed.

Lemma seq_at_add s k n : u32 (seq_at s k + Z.of_nat n) = seq_at s (k + n).
Proof. unfold seq_at. rewrite u32_add_l. f_equal. lia. Qed.

Lemma seq_at_inj s k k' :
  stream_ok s -> (k <= S (length (s_written s)))%nat -> (k' <= S (length (s_written s)))%nat ->
  seq_at s k = seq_at s k' -> k = k'.
Proof.
  intros [_ Hn] Hk Hk' H. unfold seq_at, u32 in H.
  assert (Hm : (Z.of_nat k - Z.of_nat k') mod 4294967296 = 0).
  { replace (Z.of_nat k - Z.of_nat k')
      with ((s_isn s + 1 + Z.of_nat k) - (s_isn s + 1 + Z.of_nat k')) by lia.
    by rewrite Zminus_mod, H, Z.sub_diag. }
  apply Z.mod_divide in Hm as [c Hc]; [|lia]. lia.
Qed.

(** Segments stay right as the stream grows. *)
Lemma seg_ok_le src dst s s' p : stream_le s s' -> seg_ok src dst s p -> seg_ok src dst s' p.
Proof.
  intros (Hi & [w Hw] & Hc) (v & Hv & Hwin & Hf & Hd). exists v. split; [done|]. split; [done|].
  split.
  - intros Hfin. destruct (Hf Hfin) as (H1 & H2 & H3). by rewrite (Hc H1).
  - destruct Hd as [Hd|(k & H1 & H2 & H3)]; [by left|right]. exists k.
    split; [unfold seq_at in *; by rewrite Hi|]. rewrite Hw, length_app. split; [lia|].
    rewrite slice_app_l by lia. done.
Qed.

(** An invariant endpoint's numbers are in range. *)
Lemma end_ctx_ok g e : end_inv g e -> ctx_ok (ep_ctx e).
Proof.
  intros H. destruct (ei_out g e H) as (k & _ & _ & Hs). split.
  - rewrite Hs. apply seq_at_range.
  - destruct (ei_ack g e H) as [->|[_ ->]]; [rewrite (ei_next g e H)|]; apply seq_at_range.
Qed.

(** Sending a segment without data keeps the invariant, a FIN apart. *)
Lemma send_ack_inv g e :
  end_inv g e ->
  exists p, send_packet [] TH_ACK e = Ok (tt, set_sent e (ep_sent e ++ [p])) /\
    segment (ep_local e) (ep_peer e) p (seg_of (ep_ctx e) TH_ACK []) /\
    end_inv g (set_sent e (ep_sent e ++ [p])).
Proof.
  intros H. destruct (send_packet_ok e [] TH_ACK (ei_connected g e H) (end_ctx_ok g e H))
    as (p & E & Hp); [unfold TH_ACK; lia|constructor|simpl; lia|].
  exists p. split; [done|]. split; [done|].
  destruct (ei_window g e H) as (W1 & W2 & W3 & W4).
  destruct H. split; try done. cbn. apply Forall_app. split; [done|]. constructor; [|done].
  exists (seg_of (ep_ctx e) TH_ACK []). split; [done|]. cbn. rewrite W1, W2.
  split; [done|]. split; [done|]. by left.
Qed.

(** * The handlers of the control loop *)

(** What a turn takes from the application: the first node, at most a segment
    of it. *)
Definition taken (pq : packet_queue) : buffer := take STCP_MSS (hd [] pq).
Definition left_over (pq : packet_queue) : packet_queue :=
  match pq with
  | [] => []
  | node :: next => if (STCP_MSS <? length node)%nat then drop STCP_MSS node :: next else next
  end.

Lemma taken_left pq : taken pq ++ concat (left_over pq) = concat pq.
Proof.
  destruct pq as [|node next]; [done|]. unfold taken, left_over. cbn [hd concat].
  destruct (Nat.ltb_spec STCP_MSS (length node)).
  - cbn [concat]. by rewrite app_assoc, take_drop.
  - by rewrite take_ge by lia.
Qed.

(** What is left of the first node after a segment of it has been taken is moved to
    its front: fine where the library moves the bytes, or where the node is at most
    two segments long. *)
Definition movable (pq : packet_queue) : Prop :=
  memcpy_overlaps = true \/ (length (hd [] pq) <= 2 * STCP_MSS)%nat.

Lemma movable_dec pq :
  movable pq \/ memcpy_overlaps = false /\ (2 * STCP_MSS < length (hd [] pq))%nat.
Proof.
  unfold movable. destruct memcpy_overlaps; [by do 2 left|].
  destruct (Nat.le_gt_cases (length (hd [] pq)) (2 * STCP_MSS)); [left; by right|by right].
Qed.

(** Moving a node to its front makes it shorter. *)
Lemma movable_left pq : Forall (fun node => movable [node]) pq ->
  Forall (fun node => movable [node]) (left_over pq).
Proof.
  destruct 1 as [|node next Hn H]; [done|]. unfold left_over.
  destruct (_ <? _)%nat; [|done]. constructor; [|done].
  destruct Hn as [Hm|Hl]; [by left|right]. simpl in *. rewrite length_drop. lia.
Qed.

Lemma movable_head pq : Forall (fun node => movable [node]) pq -> movable pq.
Proof. destruct 1; [right; simpl; lia|done]. Qed.

Lemma app_recv_ok e :
  app_recv_queue e <> [] -> movable (app_recv_queue e) ->
  stcp_app_recv STCP_MSS e =
    Ok ((taken (app_recv_queue e), length (taken (app_recv_queue e))),
        set_from_app e (left_over (app_recv_queue e))).
Proof.
  intros Hq Hm. unfold stcp_app_recv. exec. destruct (app_recv_queue e) as [|node next]; [done|].
  rewrite dequeue_moves by exact Hm. exec. unfold taken. cbn [hd]. by rewrite length_take.
Qed.

Lemma app_recv_overlap e :
  memcpy_overlaps = false -> (2 * STCP_MSS < length (hd [] (app_recv_queue e)))%nat ->
  stcp_app_recv STCP_MSS e = Fault Overlap.
Proof.
  intros Hm Hl. unfold stcp_app_recv. exec. destruct (app_recv_queue e) as [|node next].
  - unfold STCP_MSS in Hl. simpl in Hl. lia.
  - by rewrite dequeue_overlap.
Qed.

(** The window that the peer advertises is never used up: the amount in flight
    is computed from two fields that nothing updates, so a turn always sends as
    much as fits a segment. *)
Lemma handle_app_data_turn g e :
  end_inv g e ->
  handle_app_data e =
    ('(app_buf, bytes_read) ← stcp_app_recv STCP_MSS;
     if (0 <? bytes_read)%nat then
       send_packet app_buf TH_ACK;;
       upd (fun c => with_seq c (u32 (sequence_num c + Z.of_nat bytes_read)))
     else mret tt) e.
Proof.
  intros H. unfold handle_app_data, get_ctx. exec.
  destruct (ei_window g e H) as (_ & _ & -> & W4). rewrite W4, Z.sub_diag.
  change (u32 (RECEIVER_WINDOW_SIZE - u32 0)) with 3072.
  change (3072 >? Z.of_nat STCP_MSS) with true. cbn iota.
  change (Z.of_nat STCP_MSS >? 0) with true. cbn iota. by rewrite Nat2Z.id.
Qed.

Lemma handle_app_data_eq g e :
  end_inv g e -> app_recv_queue e <> [] -> movable (app_recv_queue e) ->
  let d := taken (app_recv_queue e) in
  let e1 := set_from_app e (left_over (app_recv_queue e)) in
  if (0 <? length d)%nat
  then exists p, handle_app_data e = Ok (tt, set_ctx (set_sent e1 (ep_sent e ++ [p]))
         (with_seq (ep_ctx e) (u32 (sequence_num (ep_ctx e) + Z.of_nat (length d))))) /\
       segment (ep_local e) (ep_peer e) p (seg_of (ep_ctx e) TH_ACK d)
  else handle_app_data e = Ok (tt, e1).
Proof.
  intros H Hq Hm d e1. rewrite (handle_app_data_turn g e H).
  rewrite (bind_ok _ _ _ _ _ (app_recv_ok e Hq Hm)). fold d e1. cbn beta iota.
  destruct (Nat.ltb_spec 0 (length d)); [|done].
  destruct (send_packet_ok e1 d TH_ACK (ei_connected g e H) (end_ctx_ok g e H))
    as (p & E & Hp); [unfold TH_ACK; lia| |subst d; unfold taken; rewrite length_take; lia|].
  { destruct (ei_out g e H) as (k & _ & Hk & _). destruct (ei_me g e H) as [Hb _].
    assert (Hc : bytes_ok (concat (app_recv_queue e))) by (rewrite <-Hk; by apply Forall_drop).
    rewrite <-(taken_left (app_recv_queue e)) in Hc. by apply bytes_ok_app in Hc as [Hc _]. }
  exists p. rewrite (bind_ok _ _ _ _ _ E). split; [done|exact Hp].
Qed.

(** What an end has acknowledged, expects and has given its application stays as it
    is ... *)
Definition stays (g : view) (e e' : endpoint) : Prop :=
  ack_num (ep_ctx e') = ack_num (ep_ctx e) /\
  next_seq_expected (ep_ctx e') = next_seq_expected (ep_ctx e) /\
  delivered g e' = delivered g e.

(** ... at least when it has acknowledged a FIN beyond what it expects. *)
Definition stuck (g : view) (e e' : endpoint) : Prop :=
  ack_num (ep_ctx e) <> next_seq_expected (ep_ctx e) -> stays g e e'.

Lemma stays_stuck g e e' : stays g e e' -> stuck g e e'.
Proof. by intros H _. Qed.

Lemma stuck_trans g e1 e2 e3 : stuck g e1 e2 -> stuck g e2 e3 -> stuck g e1 e3.
Proof.
  intros H1 H2 Hn. destruct (H1 Hn) as (A1 & N1 & D1).
  destruct (H2 ltac:(congruence)) as (A2 & N2 & D2). unfold stays. by rewrite A2, N2, D2.
Qed.

Lemma handle_app_data_inv g e :
  end_inv g e -> app_recv_queue e <> [] -> movable (app_recv_queue e) ->
  exists e', handle_app_data e = Ok (tt, e') /\ end_inv g e' /\ stays g e e' /\
    network_recv_queue e' = network_recv_queue e /\ close_requested e' = close_requested e.
Proof.
  intros H Hq Hm. pose proof (handle_app_data_eq g e H Hq Hm) as Hh. cbv zeta in Hh.
  pose proof (taken_left (app_recv_queue e)) as Ht.
  assert (Hf : fin_sent (ep_ctx e) = false).
  { destruct (fin_sent (ep_ctx e)) eqn:Ef; [|done]. by destruct (ei_fin g e H Ef) as [_ ?]. }
  destruct (ei_out g e H) as (k & Hk & Hd & Hs). rewrite Hf, Nat.add_0_r in Hs.
  destruct (ei_window g e H) as (W1 & W2 & W3 & W4).
  set (d := taken (app_recv_queue e)) in *. rewrite <-Ht in Hd.
  assert (Hlen : (k + length d <= length (s_written (v_me g)))%nat)
    by (apply (f_equal length) in Hd; rewrite length_drop, length_app in Hd; lia).
  assert (Hdrop : drop (k + length d) (s_written (v_me g)) = concat (left_over (app_recv_queue e)))
    by (rewrite <-drop_drop, Hd; by rewrite drop_app_length).
  destruct (Nat.ltb_spec 0 (length d)).
  - destruct Hh as (p & -> & Hp). eexists. split; [done|]. split; [|done].
    destruct H. split; try done; cbn.
    + exists (k + length d)%nat. split; [done|]. split; [done|].
      rewrite Hf, Hs, seq_at_add. by rewrite Nat.add_0_r.
    + by rewrite Hf.
    + apply Forall_app. split; [done|]. constructor; [|done].
      eexists. split; [exact Hp|]. cbn. rewrite W1, W2. split; [done|].
      split; [done|]. right. exists k. split; [done|]. split; [done|].
      unfold slice. rewrite Hd. by rewrite take_app_length.
  - rewrite Hh. eexists. split; [done|]. split; [|done]. destruct H. split; try done; cbn.
    + exists k. split; [done|]. split; [|by rewrite Hf, Nat.add_0_r].
      rewrite <-Hdrop. f_equal. lia.
    + by rewrite Hf.
Qed.

(** ** What leaves the invariant alone *)

(** Two contexts that differ only in the state of the connection, the flags and
    the initial number. *)
Definition ctx_same (c c' : context_t) : Prop :=
  recv_window_size c' = recv_window_size c /\ recv_buffer_used c' = recv_buffer_used c /\
  peer_window_size c' = peer_window_size c /\ last_byte_sent c' = last_byte_sent c /\
  last_ack_received c' = last_ack_received c /\ sequence_num c' = sequence_num c /\
  fin_sent c' = fin_sent c /\ next_seq_expected c' = next_seq_expected c /\
  ack_num c' = ack_num c.

Lemma set_ctx_inv g e c' : end_inv g e -> ctx_same (ep_ctx e) c' -> end_inv g (set_ctx e c').
Proof.
  intros [] (S1 & S2 & S3 & S4 & S5 & S6 & S7 & S8 & S9).
  split; try done; cbn; by rewrite ?S1, ?S2, ?S3, ?S4, ?S5, ?S6, ?S7, ?S8, ?S9.
Qed.

Lemma delivered_enqueue g e l :
  delivered g (set_to_app e (mysock_enqueue_buffer (app_send_queue e) l)) = delivered g e ++ l.
Proof.
  unfold delivered, mysock_enqueue_buffer. cbn. rewrite concat_app. cbn.
  by rewrite app_nil_r, app_assoc.
Qed.

(** Telling the application that the stream has ended gives it no bytes. *)
Lemma fin_to_app_inv g e :
  end_inv g e -> end_inv g (set_to_app e (mysock_enqueue_buffer (app_send_queue e) [])).
Proof.
  intros []. split; try done; rewrite delivered_enqueue, app_nil_r; done.
Qed.

(** What a handler of network data keeps besides the invariant, when it leaves
    the application with [d]. *)
Definition kept (g : view) (e : endpoint) (d : buffer) (e' : endpoint) : Prop :=
  end_inv g e' /\ network_recv_queue e' = network_recv_queue e /\
  app_recv_queue e' = app_recv_queue e /\ close_requested e' = close_requested e /\
  ep_local e' = ep_local e /\ ep_peer e' = ep_peer e /\ delivered g e' = d.

Lemma wp_upd f Q e : Q tt (set_ctx e (f (ep_ctx e))) -> wp (upd f) Q e.
Proof. done. Qed.

Lemma wp_modify (f : endpoint -> endpoint) Q e : Q tt (f e) -> wp (modify f) Q e.
Proof. done. Qed.

Lemma wp_get_ctx Q e : Q (ep_ctx e) e -> wp get_ctx Q e.
Proof. done. Qed.

(** An update of the state or of the flags. *)
Lemma upd_kept g e e0 d c' :
  kept g e0 d e -> ctx_same (ep_ctx e) c' -> kept g e0 d (set_ctx e c').
Proof. intros [H Hk] Hs. split; [by apply set_ctx_inv|done]. Qed.

Lemma wp_send_ack g e e0 d :
  kept g e0 d e ->
  wp (send_packet [] TH_ACK) (fun _ e' => kept g e0 d e' /\ ep_ctx e' = ep_ctx e /\
    app_send_queue e' = app_send_queue e) e.
Proof.
  intros [H Hk]. destruct (send_ack_inv g e H) as (p & E & _ & H').
  eapply wp_eq; [exact E|]. split; [|done]. by split.
Qed.

(** ** FIN and ACK *)

Lemma handle_fin_kept g e e0 d seq :
  kept g e0 d e -> s_closed (v_peer g) = true ->
  seq = seq_at (v_peer g) (length (s_written (v_peer g))) ->
  wp (handle_fin seq) (fun _ e' => kept g e0 d e' /\ ack_num (ep_ctx e') = u32 (seq + 1) /\
    app_send_queue e' = app_send_queue e ++ [[]]) e.
Proof.
  intros Hk Hcl Hseq. unfold handle_fin. apply wp_bind, wp_upd.
  pose proof (upd_kept g e e0 d (with_fin_received (ep_ctx e)) Hk) as Hk1. clear Hk.
  set (e1 := set_ctx e _) in *. specialize (Hk1 ltac:(by repeat split)).
  change (app_send_queue e) with (app_send_queue e1). clearbody e1. clear e.
  apply wp_bind, wp_upd. set (e2 := set_ctx e1 _).
  assert (Hk2 : kept g e0 d e2).
  { destruct Hk1 as [[] Hk1]. split; [|done]. split; try done. right. split; [done|]. cbn.
    rewrite Hseq, (seq_at_add _ _ 1). f_equal. lia. }
  change (app_send_queue e1) with (app_send_queue e2).
  assert (Ha2 : ack_num (ep_ctx e2) = u32 (seq + 1)) by done. clearbody e2. clear e1 Hk1.
  apply wp_bind. eapply wp_mono; [by apply wp_send_ack|]. intros [] e3 ([H3 Hk3] & C3 & T3).
  rewrite <-C3, <-T3 in *.
  apply wp_bind, wp_modify. set (e4 := set_to_app e3 _).
  assert (Hk4 : kept g e0 d e4).
  { split; [by apply fin_to_app_inv|]. unfold e4. rewrite delivered_enqueue, app_nil_r.
    exact Hk3. }
  assert (Ha4 : ack_num (ep_ctx e4) = u32 (seq + 1)) by done.
  change (app_send_queue e3 ++ [[]]) with (app_send_queue e4). clearbody e4.
  apply wp_bind, wp_get_ctx.
  destruct (connection_state (ep_ctx e4)); try done;
    apply wp_upd; (split; [by apply upd_kept; [|repeat split]|done]).
Qed.

Lemma ctx_same_refl c : ctx_same c c.
Proof. by repeat split. Qed.

(** An acknowledgement changes at most the state and the flags. *)
Lemma handle_ack_ok e ack :
  exists c', handle_ack ack e = Ok (tt, set_ctx e c') /\ ctx_same (ep_ctx e) c'.
Proof.
  unfold handle_ack, get_ctx. exec.
  destruct (connection_state (ep_ctx e)), (ack =? sequence_num (ep_ctx e)) eqn:Ha;
    try (exists (ep_ctx e); split; [by destruct e|apply ctx_same_refl]);
    eexists; (split; [reflexivity|by repeat split]).
Qed.

(** ** Data *)

(** The data of a segment fits where the stream stands: what the acknowledgement
    number accepts is the next part of the stream. *)
Lemma next_data g e v :
  end_inv g e ->
  (sv_data v = [] \/ exists k, sv_seq v = seq_at (v_peer g) k /\
     (k + length (sv_data v) <= length (s_written (v_peer g)))%nat /\
     sv_data v = slice k (length (sv_data v)) (s_written (v_peer g))) ->
  sv_data v <> [] -> sv_seq v = ack_num (ep_ctx e) ->
  ack_num (ep_ctx e) = next_seq_expected (ep_ctx e) /\
  delivered g e ++ sv_data v `prefix_of` s_written (v_peer g) /\
  u32 (sv_seq v + Z.of_nat (length (sv_data v))) =
    seq_at (v_peer g) (length (delivered g e ++ sv_data v)).
Proof.
  intros H [?|(k & Hs & Hk & Hd)] Hn Ha; [done|].
  assert (Hpos : (0 < length (sv_data v))%nat) by (destruct (sv_data v); [done|simpl; lia]).
  pose proof (ei_prefix g e H) as [rest Hp].
  assert (Hl : (length (delivered g e) <= length (s_written (v_peer g)))%nat)
    by (rewrite Hp, length_app; lia).
  destruct (ei_ack g e H) as [Hack|[_ Hack]].
  - split; [done|]. rewrite (ei_next g e H) in Hack.
    assert (Hkd : k = length (delivered g e)).
    { apply (seq_at_inj (v_peer g)); [apply H|lia|lia|congruence]. }
    rewrite Hs, seq_at_add, length_app, <-Hkd. split; [|done].
    exists (drop (length (sv_data v)) rest).
    rewrite <-app_assoc. rewrite Hp at 1. f_equal. rewrite Hd, Hp, Hkd.
    unfold slice. rewrite drop_app_length, length_take.
    rewrite Hp, length_app in Hk. rewrite Nat.min_l by lia. by rewrite take_drop.
  - exfalso. assert (k = S (length (s_written (v_peer g)))); [|lia].
    apply (seq_at_inj (v_peer g)); [apply H|lia|lia|congruence].
Qed.

(** What [handle_data] does with a segment. *)
Lemma handle_data_ok g e e0 d p v :
  kept g e0 d e -> segment (ep_peer e) (ep_local e) p v ->
  (sv_data v = [] \/ exists k, sv_seq v = seq_at (v_peer g) k /\
     (k + length (sv_data v) <= length (s_written (v_peer g)))%nat /\
     sv_data v = slice k (length (sv_data v)) (s_written (v_peer g))) ->
  wp (handle_data p (length p) (sv_seq v)) (fun _ e' =>
     kept g e0 (d ++ if sv_seq v =? ack_num (ep_ctx e) then sv_data v else []) e' /\
     (ack_num (ep_ctx e) = next_seq_expected (ep_ctx e) ->
      ack_num (ep_ctx e') = next_seq_expected (ep_ctx e')) /\
     (sv_data v = [] \/ sv_seq v <> ack_num (ep_ctx e) ->
      ack_num (ep_ctx e') = ack_num (ep_ctx e) /\ app_send_queue e' = app_send_queue e)) e.
Proof.
  intros Hk Hs Hd. unfold handle_data. rewrite (sg_off _ _ _ _ Hs).
  apply wp_bind, wp_lift, wp_bind, wp_get_ctx.
  pose proof (sg_length _ _ _ _ Hs) as Hl. pose proof (sg_mss _ _ _ _ Hs) as Hm.
  unfold STCP_MSS in Hm.
  replace (u64 (Z.of_nat (length p) - Z.of_nat 20)) with (Z.of_nat (length (sv_data v)))
    by (rewrite u64_small by lia; lia).
  destruct (decide (sv_data v = [])) as [He|Hn].
  { rewrite He. cbn. destruct (_ =? _); by rewrite app_nil_r. }
  assert (Hpos : (0 < length (sv_data v))%nat) by (destruct (sv_data v); [done|simpl; lia]).
  destruct (Z.gtb_spec (Z.of_nat (length (sv_data v))) 0); [|lia]. cbn [andb].
  destruct (Z.eqb_spec (sv_seq v) (ack_num (ep_ctx e))) as [Ha|Ha].
  - destruct (next_data g e v (proj1 Hk) Hd Hn Ha) as (Hack & Hpre & Hnext).
    destruct (ei_window g e (proj1 Hk)) as (W1 & W2 & W3 & W4).
    apply wp_bind, wp_upd. rewrite W2, Z.add_0_l, u16_small by lia.
    rewrite (proj2 (Z.eqb_eq _ _)) by congruence.
    apply wp_bind, wp_bind, wp_upd, wp_bind.
    rewrite (proj2 (Z.leb_le _ _)), Nat2Z.id by lia.
    rewrite rd_ok by lia. rewrite (sg_data _ _ _ _ Hs). apply wp_lift, wp_bind.
    unfold stcp_app_send. rewrite (proj2 (Nat.ltb_lt _ _)) by done.
    eapply wp_eq; [done|]. apply wp_upd. cbn. rewrite Z.sub_diag. change (u16 0) with 0.
    apply wp_bind, wp_upd. cbn. rewrite <-Ha, Hnext.
    set (e1 := set_ctx _ _).
    assert (Hde : delivered g e1 = delivered g e ++ sv_data v)
      by (unfold e1; apply (delivered_enqueue g e)).
    assert (Hk1 : kept g e0 (d ++ sv_data v) e1).
    { destruct Hk as [[] (K1 & K2 & K3 & K4 & K5 & K6)]. split; [|by rewrite Hde, K6].
      split; try done; rewrite ?Hde; try done. by left. }
    destruct (send_ack_inv g e1 (proj1 Hk1)) as (q & E & _ & Hi).
    eapply wp_eq; [exact E|]. split; [|split; [done|by intros [?|?]]].
    split; [exact Hi|apply Hk1].
  - destruct (send_ack_inv g e (proj1 Hk)) as (q & E & _ & Hi).
    eapply wp_eq; [exact E|]. split; [|done].
    rewrite app_nil_r. split; [exact Hi|apply Hk].
Qed.

(** ** A segment, and a packet from the network *)

(** Nothing changes an acknowledgement of a FIN beyond what is expected: another FIN
    has the same number, and no data has it. *)
Lemma kept_stuck g e e' v ack :
  end_inv g e -> end_inv g e' ->
  (has (sv_flags v) TH_FIN = true -> s_closed (v_peer g) = true /\
     sv_seq v = seq_at (v_peer g) (length (s_written (v_peer g))) /\ sv_data v = []) ->
  (sv_data v = [] \/ exists k, sv_seq v = seq_at (v_peer g) k /\
     (k + length (sv_data v) <= length (s_written (v_peer g)))%nat /\
     sv_data v = slice k (length (sv_data v)) (s_written (v_peer g))) ->
  ack = (if has (sv_flags v) TH_FIN then u32 (sv_seq v + 1) else ack_num (ep_ctx e)) ->
  (sv_data v = [] \/ sv_seq v <> ack -> ack_num (ep_ctx e') = ack) ->
  delivered g e' = delivered g e ++ (if sv_seq v =? ack_num (ep_ctx e) then sv_data v else []) ->
  stuck g e e'.
Proof.
  intros H H' Hfin Hd Hack Ha He' Hne.
  assert (Hl : sv_data v = [] \/ sv_seq v <> ack_num (ep_ctx e)).
  { destruct (decide (sv_data v = [])) as [|Hn]; [by left|right]. intros Hs.
    by destruct (next_data g e v H Hd Hn Hs). }
  assert (Hde : delivered g e' = delivered g e).
  { rewrite He'. destruct (Z.eqb_spec (sv_seq v) (ack_num (ep_ctx e))) as [Hs|];
      [destruct Hl as [->|]; [|done]|]; by rewrite app_nil_r. }
  split; [|by rewrite (ei_next _ _ H'), (ei_next _ _ H), Hde].
  destruct (has (sv_flags v) TH_FIN); [|rewrite Ha, Hack; [done|by rewrite Hack]].
  destruct (Hfin eq_refl) as (_ & Hseq & Hdn). rewrite Ha, Hack by (by left).
  destruct (ei_ack g e H) as [?|[_ ->]]; [done|]. rewrite Hseq, (seq_at_add _ _ 1).
  f_equal. lia.
Qed.

Lemma handle_segment_ok g e e0 d p :
  kept g e0 d e -> seg_ok (ep_peer e) (ep_local e) (v_peer g) p ->
  exists v, segment (ep_peer e) (ep_local e) p v /\
  wp (handle_segment p (length p)) (fun _ e' =>
    kept g e0 (d ++ if sv_seq v =? ack_num (ep_ctx e) then sv_data v else []) e' /\
    (has (sv_flags v) TH_FIN = false -> ack_num (ep_ctx e) = next_seq_expected (ep_ctx e) ->
     ack_num (ep_ctx e') = next_seq_expected (ep_ctx e')) /\
    stuck g e e' /\
    (has (sv_flags v) TH_FIN = true -> ack_num (ep_ctx e') = u32 (sv_seq v + 1) /\
     app_send_queue e' = app_send_queue e ++ [[]])) e.
Proof.
  intros Hk (v & Hs & Hwin & Hfin & Hd). exists v. split; [done|]. unfold handle_segment.
  pose proof (sg_length _ _ _ _ Hs) as Hl.
  apply wp_bind. rewrite ld_ok by in_bounds. apply wp_lift, wp_bind.
  rewrite ld_ok by in_bounds. apply wp_lift. rewrite (sg_seq _ _ _ _ Hs), (sg_win _ _ _ _ Hs).
  apply wp_bind, wp_upd. rewrite Hwin.
  set (e1 := set_ctx e (with_window (ep_ctx e) RECEIVER_WINDOW_SIZE)).
  assert (Hk1 : kept g e0 d e1).
  { destruct (ei_window g e (proj1 Hk)) as (W1 & W2 & W3 & W4).
    apply upd_kept; [done|]. by repeat split. }
  unfold stuck, stays. change (delivered g e) with (delivered g e1).
  change (app_send_queue e) with (app_send_queue e1).
  change (ack_num (ep_ctx e)) with (ack_num (ep_ctx e1)).
  change (next_seq_expected (ep_ctx e)) with (next_seq_expected (ep_ctx e1)).
  fold (stays g e1).
  assert (Hs1 : segment (ep_peer e1) (ep_local e1) p v) by done. clearbody e1. clear Hk.
  apply wp_bind. rewrite ld_ok by in_bounds. apply wp_lift. rewrite (sg_flags _ _ _ _ Hs).
  apply wp_bind.
  eapply (wp_mono _ (fun _ e2 => kept g e0 d e2 /\ if has (sv_flags v) TH_FIN
    then ack_num (ep_ctx e2) = u32 (sv_seq v + 1) /\ app_send_queue e2 = app_send_queue e1 ++ [[]]
    else e2 = e1)).
  { destruct (has (sv_flags v) TH_FIN) eqn:Ef; [|done].
    apply handle_fin_kept; try done; by apply Hfin. }
  intros [] e2 [Hk2 Ee2].
  assert (Hs2 : segment (ep_peer e2) (ep_local e2) p v).
  { destruct Hk1 as (_ & _ & _ & _ & L1 & P1 & _), Hk2 as (_ & _ & _ & _ & L2 & P2 & _).
    by rewrite L2, P2, <-L1, <-P1. }
  apply wp_bind.
  eapply (wp_mono _ (fun _ e3 => exists c', e3 = set_ctx e2 c' /\ ctx_same (ep_ctx e2) c')).
  { destruct (has (sv_flags v) TH_ACK).
    - apply wp_bind. rewrite ld_ok by in_bounds. apply wp_lift.
      destruct (handle_ack_ok e2 (ntohl (fval th_ack 0 p))) as (c' & E & Hc).
      eapply wp_eq; [exact E|]. eauto.
    - apply wp_ret. exists (ep_ctx e2). split; [by destruct e2|apply ctx_same_refl]. }
  intros [] e3 (c' & -> & Hc).
  eapply wp_mono; [by apply handle_data_ok; [apply upd_kept| |]|].
  intros [] e4 (Hk4 & Ha4 & Hs4). cbn in Hk4, Ha4, Hs4.
  destruct Hc as (_ & _ & _ & _ & _ & _ & _ & C8 & C9).
  rewrite C8, C9 in Ha4. rewrite C9 in Hk4, Hs4.
  assert (Hk5 : kept g e0 (d ++ if sv_seq v =? ack_num (ep_ctx e1) then sv_data v else []) e4).
  { destruct (has (sv_flags v) TH_FIN) eqn:Ef; [|by subst e2].
    destruct (Hfin eq_refl) as (_ & _ & He). rewrite He in *. by destruct (_ =? _), (_ =? _). }
  assert (Hst : stuck g e1 e4).
  { apply (kept_stuck g e1 e4 v (ack_num (ep_ctx e2))); [apply Hk1|apply Hk4|done..| | |].
    - destruct (has (sv_flags v) TH_FIN); [apply Ee2|by subst e2].
    - intros H. by apply Hs4.
    - destruct Hk5 as (_ & _ & _ & _ & _ & _ & ->), Hk1 as (_ & _ & _ & _ & _ & _ & <-). done. }
  split; [exact Hk5|]. split; [|split; [exact Hst|]]; intros Hf; rewrite Hf in *.
  - subst e2. by apply Ha4.
  - destruct (Hfin eq_refl) as (_ & _ & He). destruct (Hs4 (or_introl He)) as [-> ->].
    exact Ee2.
Qed.

(** A packet from the network: a segment, or the end of the network's stream. *)
Lemma handle_network_data_ok g e :
  end_inv g e -> network_recv_queue e <> [] ->
  wp handle_network_data (fun cont e' => end_inv g e' /\ stuck g e e' /\
    app_recv_queue e' = app_recv_queue e /\ close_requested e' = close_requested e) e.
Proof.
  intros H Hn. destruct (network_recv_queue e) as [|p q] eqn:Hq; [done|]. clear Hn.
  pose proof (ei_net g e H) as Hnet. rewrite Hq in Hnet.
  apply Forall_cons in Hnet as [Hp Hnet].
  assert (Hi : end_inv g (set_net e q)) by (destruct H; by split).
  unfold handle_network_data. apply wp_bind. destruct Hp as [->|Hp].
  - eapply wp_eq; [unfold stcp_network_recv; exec; rewrite Hq; reflexivity|]. cbn iota.
    cbn. apply wp_bind, wp_get_ctx, wp_bind. cbn. case_decide; [|done].
    apply wp_bind, wp_upd, wp_upd, wp_ret. split; [|split; [by apply stays_stuck|done]]. cbn.
    apply (set_ctx_inv g (set_net e q)); [done|by repeat split].
  - destruct (Hp) as (v & Hs & _). pose proof (sg_length _ _ _ _ Hs) as Hl.
    pose proof (sg_mss _ _ _ _ Hs) as Hm. clear Hs.
    destruct (handle_segment_ok g (set_net e q) (set_net e q) (delivered g e) p) as (v' & Hs & Hw);
      [split; [exact Hi|by repeat split]|done|].
    eapply wp_eq; [apply (network_recv_ok e p v' q); [done..|unfold sizeof_tcphdr; lia]|].
    cbn beta iota. destruct (Nat.eqb_spec (length p) 0); [lia|].
    apply wp_bind. eapply wp_mono; [exact Hw|].
    intros [] e' [(H1 & _ & H2 & H3 & _) (_ & H4 & _)]. by apply wp_ret.
Qed.

(** ** The close request, and a whole turn *)

(** The FIN goes out once, after everything the application wrote. *)
Lemma handle_close_ok g e :
  end_inv g e -> app_recv_queue e = [] -> s_closed (v_me g) = true ->
  wp handle_close (fun _ e' => end_inv g e' /\ fin_sent (ep_ctx e') = true /\ stays g e e') e.
Proof.
  intros H Hq Hcl. unfold handle_close. apply wp_bind, wp_get_ctx.
  destruct (fin_sent (ep_ctx e)) eqn:Ef; [by apply wp_ret|].
  apply wp_bind, wp_upd. set (e1 := set_ctx e _).
  assert (Hc1 : ctx_ok (ep_ctx e1)) by apply (end_ctx_ok g e H).
  destruct (send_packet_ok e1 [] (Z.lor TH_FIN TH_ACK) (ei_connected g e H) Hc1)
    as (p & E & Hp); [by vm_compute|constructor|simpl; lia|].
  apply wp_bind. eapply wp_eq; [exact E|]. apply wp_bind, wp_upd. set (e2 := set_ctx _ _).
  assert (H2 : end_inv g e2).
  { destruct (ei_window g e H) as (W1 & W2 & W3 & W4).
    destruct (ei_out g e H) as (k & Hk & Hd & Hs). rewrite Ef, Nat.add_0_r in Hs.
    assert (Ek : k = length (s_written (v_me g))).
    { apply (f_equal length) in Hd. rewrite Hq, length_drop in Hd. simpl in Hd. lia. }
    destruct H. split; try done; cbn.
    - exists k. split; [done|]. split; [done|]. rewrite Hs, (seq_at_add _ _ 1). done.
    - apply Forall_app. split; [done|]. constructor; [|done].
      eexists. split; [exact Hp|]. cbn. rewrite W1, W2. split; [done|].
      split; [|by left]. intros _. by rewrite Hs, Ek. }
  assert (Hf2 : fin_sent (ep_ctx e2) = true) by done.
  assert (Hs2 : stays g e e2) by done.
  clearbody e2. apply wp_bind, wp_get_ctx.
  assert (Hst : forall st, end_inv g (set_ctx e2 (with_state (ep_ctx e2) st)))
    by (intros st; apply set_ctx_inv; [done|by repeat split]).
  by destruct (connection_state (ep_ctx e2)); first [by apply wp_ret | apply wp_upd].
Qed.

(** A turn that finds a write longer than two segments, over a library that does not
    copy a node over itself. *)
Lemma control_step_overlap g e :
  end_inv g e -> memcpy_overlaps = false ->
  (2 * STCP_MSS < length (hd [] (app_recv_queue e)))%nat ->
  control_step e = Fault Overlap.
Proof.
  intros H Hm Hl. assert (Ha : nonempty (app_recv_queue e) = true)
    by (destruct (app_recv_queue e); [unfold STCP_MSS in Hl; simpl in Hl; lia|done]).
  unfold control_step. rewrite (bind_ok _ _ _ _ _ (wait_any e true
    (nonempty (network_recv_queue e)) false ltac:(done) eq_refl
    ltac:(by rewrite andb_false_r) ltac:(done))).
  destruct (has_events true (nonempty (network_recv_queue e)) false) as (-> & _).
  apply bind_fault. rewrite (handle_app_data_turn g e H). by apply bind_fault, app_recv_overlap.
Qed.

(** One turn of the control loop: it blocks when there is nothing to do, it faults
    when it has to copy a node over itself and the library does not do that, and
    otherwise it ends in an endpoint that keeps the invariant. *)
Lemma control_step_inv g e :
  end_inv g e ->
  (control_step e = Fault Blocked /\ app_recv_queue e = [] /\ network_recv_queue e = [] /\
   close_requested e = false) \/
  (control_step e = Fault Overlap /\ memcpy_overlaps = false /\
   (2 * STCP_MSS < length (hd [] (app_recv_queue e)))%nat) \/
  exists e', control_step e = Ok (tt, e') /\ end_inv g e' /\ stuck g e e'.
Proof.
  intros H. destruct (movable_dec (app_recv_queue e)) as [Hm|[Hm Hl]].
  2:{ right; left. split; [by apply (control_step_overlap g)|done]. }
  set (a := nonempty (app_recv_queue e)). set (n := nonempty (network_recv_queue e)).
  set (c := close_requested e && negb a).
  destruct (a || n || c) eqn:Hev.
  2:{ left. apply orb_false_iff in Hev as [[Ha Hn]%orb_false_iff Hc].
      unfold c in Hc. rewrite Ha, andb_true_r in Hc.
      unfold a in Ha. destruct (app_recv_queue e) eqn:Eqa; [|done].
      unfold n in Hn. destruct (network_recv_queue e) eqn:Eqn; [|done].
      split; [|done]. unfold control_step. apply bind_fault. by apply wait_blocks. }
  right; right. unfold control_step.
  rewrite (bind_ok _ _ _ _ _ (wait_any e a n c eq_refl eq_refl eq_refl Hev)).
  destruct (has_events a n c) as (Ea & En & Ec). rewrite Ea, En, Ec.
  set (e0 := if c then set_close e false else e).
  assert (H0 : end_inv g e0) by (unfold e0; destruct c; [destruct H; by split|done]).
  assert (Q0 : app_recv_queue e0 = app_recv_queue e) by (unfold e0; by destruct c).
  assert (N0 : network_recv_queue e0 = network_recv_queue e) by (unfold e0; by destruct c).
  assert (Hc : c = true -> a = false /\ s_closed (v_me g) = true).
  { unfold c. intros [Hc Ha]%andb_true_iff. apply negb_true_iff in Ha.
    split; [done|]. by apply (ei_close g e H). }
  match goal with |- exists e', ?m ?e = _ /\ _ => enough (W : wp m (fun _ e' => end_inv g e' /\ stuck g e0 e') e) end.
  { apply wp_ok in W as ([] & e' & E & H' & Hs). exists e'. split; [exact E|]. split; [done|].
    unfold e0 in Hs. by destruct c. }
  apply wp_bind. eapply (wp_mono _ (fun _ e1 => end_inv g e1 /\ stuck g e0 e1 /\
    network_recv_queue e1 = network_recv_queue e /\ (a = false -> app_recv_queue e1 = []))).
  { unfold a. rewrite <-Q0. destruct (app_recv_queue e0) eqn:Eq; cbn iota; cbn [nonempty].
    - apply wp_ret. by rewrite N0, Eq.
    - destruct (handle_app_data_inv g e0 H0) as (e1 & E & H1 & S1 & N1 & _);
        [by rewrite Eq|by rewrite Eq, Q0|].
      eapply wp_eq; [exact E|]. rewrite N1. split; [done|]. split; [by apply stays_stuck|done]. }
  intros [] e1 (H1 & S1 & N1 & A1).
  apply wp_bind. eapply (wp_mono _ (fun _ e2 => end_inv g e2 /\ stuck g e0 e2 /\
    (a = false -> app_recv_queue e2 = []))).
  { unfold n. rewrite <-N1. destruct (network_recv_queue e1) eqn:Eq; cbn [nonempty].
    - by apply wp_ret.
    - eapply wp_mono; [apply handle_network_data_ok; [done|by rewrite Eq]|].
      intros cont e2 (H2 & S2 & A2 & _). rewrite A2. split; [done|]. split; [|done].
      by eapply stuck_trans. }
  intros cont e2 (H2 & S2 & A2). destruct cont; [done|].
  destruct c; [|done]. destruct (Hc eq_refl) as [Ha Hcl].
  eapply wp_mono; [exact (handle_close_ok g e2 H2 (A2 Ha) Hcl)|].
  intros [] e3 (H3 & _ & S3). split; [done|]. by eapply stuck_trans; [|apply stays_stuck].
Qed.

(** * Two ends and the network *)

(** One end of the connection and its application: what the application has
    written and read, whether it has closed, and whether a read has found the
    end of the stream. *)
Record party := Party {
  p_end : endpoint; p_isn : Z; p_written : buffer; p_read : buffer;
  p_closed : bool; p_eof : bool }.

Definition stream_of (p : party) : stream := Stream (p_isn p) (p_written p) (p_closed p).
Definition view_of (p q : party) : view :=
  View (stream_of p) (stream_of q) (p_read p) (ep_local (p_end p)) (ep_peer (p_end p)).

(** What the application sees of its end. *)
Definition app_of (p : party) : app_side :=
  AppSide (app_recv_queue (p_end p)) (app_send_queue (p_end p))
    (close_requested (p_end p)) (p_eof p).

Definition with_end (p : party) (e : endpoint) : party :=
  Party e (p_isn p) (p_written p) (p_read p) (p_closed p) (p_eof p).

(** The steps of one end, [q] being the other: a turn of its transport thread;
    the arrival of any segment that the other end has ever sent, or of the end
    of the network's stream; and the calls of its application, which does not
    use the socket after closing it, and writes less than a whole turn of the
    sequence numbers. *)
Inductive party_step (q p : party) : party -> Prop :=
| step_turn e' :
    done (ep_ctx (p_end p)) = false -> control_step (p_end p) = Ok (tt, e') ->
    party_step q p (with_end p e')
| step_arrival s :
    s ∈ ep_sent (p_end q) \/ s = [] ->
    party_step q p (with_end p (set_net (p_end p)
      (mysock_enqueue_buffer (network_recv_queue (p_end p)) s)))
| step_write data n a' :
    p_closed p = false -> bytes_ok data ->
    Z.of_nat (length (p_written p ++ data)) + 2 < 2 ^ 32 ->
    mywrite (app_of p) data = Ok (n, a') ->
    party_step q p (Party (set_from_app (p_end p) (as_recv_queue a')) (p_isn p)
      (p_written p ++ data) (p_read p) false (as_eof a'))
| step_read size d n a' :
    p_closed p = false -> myread (app_of p) size = Ok (d, n, a') ->
    party_step q p (Party (set_to_app (p_end p) (as_send_queue a')) (p_isn p)
      (p_written p) (p_read p ++ d) false (as_eof a'))
| step_close :
    p_closed p = false ->
    party_step q p (Party (set_close (p_end p) true) (p_isn p)
      (p_written p) (p_read p) true (p_eof p)).

Inductive conn_step : party * party -> party * party -> Prop :=
| step_left p p' q : party_step q p p' -> conn_step (p, q) (p', q)
| step_right p q q' : party_step p q q' -> conn_step (p, q) (p, q').

(** A party at the end of the handshake. *)
Definition party_at (isn : Z) (e : endpoint) : party := Party e isn [] [] false false.

(** The connections: what is reached after the handshake of two new ends with
    empty queues. *)
Inductive conn_reachable : party * party -> Prop :=
| reach_open isn_a isn_b a b a' b' :
    fresh isn_a a -> fresh isn_b b -> linked a b ->
    app_recv_queue a = [] -> app_send_queue a = [] ->
    app_recv_queue b = [] -> app_send_queue b = [] ->
    open_connection a b = Ok (true, a', b') ->
    conn_reachable (party_at isn_a a', party_at isn_b b')
| reach_step c c' : conn_reachable c -> conn_step c c' -> conn_reachable c'.

Definition conn_inv (c : party * party) : Prop :=
  end_inv (view_of c.1 c.2) (p_end c.1) /\ end_inv (view_of c.2 c.1) (p_end c.2) /\
  linked (p_end c.1) (p_end c.2).

(** The invariant of an end survives the growth of the other's stream. *)
Lemma end_inv_peer g e s' :
  end_inv g e -> stream_le (v_peer g) s' -> stream_ok s' ->
  end_inv (View (v_me g) s' (v_read g) (v_local g) (v_remote g)) e.
Proof.
  intros [] Hle Hok. split; try done; cbn.
  - eapply Forall_impl; [exact ei_net0|]. intros p [->|Hp]; [by left|right].
    by apply (seg_ok_le _ _ (v_peer g)).
  - destruct Hle as (_ & Hp & _). by etrans.
  - destruct Hle as (Hi & _ & _). unfold seq_at in *. rewrite Hi. exact ei_next0.
  - destruct ei_ack0 as [?|[Hc Ha]]; [by left|right].
    destruct Hle as (_ & _ & Hs). by rewrite (Hs Hc).
Qed.

Lemma stream_le_refl s : stream_le s s.
Proof. by split; [|split]. Qed.

Lemma stream_le_open isn w c w' c' :
  c = false -> w `prefix_of` w' -> stream_le (Stream isn w c) (Stream isn w' c').
Proof. intros -> Hw. by split; [|split]. Qed.

(** A read takes what it returns from the front of the queue. *)
Lemma myread_queue p size d n a' :
  myread (app_of p) size = Ok (d, n, a') ->
  concat (app_send_queue (p_end p)) = d ++ concat (as_send_queue a').
Proof.
  unfold myread. destruct (as_close_requested _); [done|]. destruct (as_eof _).
  - by intros [= <- _ <-].
  - destruct (mysock_dequeue_buffer _ _ _) as [[[d' l] q]|] eqn:Ed; [|done].
    intros [= <- _ <-]. by apply dequeue_partial in Ed as (_ & _ & Hc).
Qed.

(** What a step of one end keeps. *)
Lemma party_step_inv p q p' :
  end_inv (view_of p q) (p_end p) -> end_inv (view_of q p) (p_end q) ->
  linked (p_end p) (p_end q) -> party_step q p p' ->
  end_inv (view_of p' q) (p_end p') /\ stream_le (stream_of p) (stream_of p') /\
  ep_local (p_end p') = ep_local (p_end p) /\ ep_peer (p_end p') = ep_peer (p_end p).
Proof.
  intros H Hq [L1 L2]. destruct 1 as [e' Hd E|s Hs|data n a' Hcl Hb Hr E|size d n a' Hcl E|Hcl].
  - destruct (control_step_inv _ _ H) as [[E' _]|[[E' _]|(e2 & E' & H' & _)]]; [congruence..|].
    rewrite E in E'. injection E' as <-. destruct (ei_addr _ _ H') as [A1 A2]. cbn in A1, A2.
    unfold view_of, with_end. cbn. rewrite A1, A2. split; [done|]. split; [apply stream_le_refl|done].
  - split; [|by split; [apply stream_le_refl|]]. destruct H. split; try done. cbn.
    apply Forall_app. split; [done|]. constructor; [|done]. destruct Hs as [Hs| ->]; [|by left].
    right. rewrite L1, <-L2.
    exact (proj1 (Forall_forall _ _) (ei_sent _ _ Hq) s Hs).
  - unfold mywrite in E. destruct (as_close_requested _); [done|]. injection E as <- <-.
    assert (Hle : stream_le (stream_of p) (Stream (p_isn p) (p_written p ++ data) false))
      by (apply stream_le_open; [done|by exists data]).
    split; [|done]. destruct H. destruct ei_me0 as [M1 M2].
    split; try done; cbn; unfold mysock_enqueue_buffer.
    + split; [|done]. apply bytes_ok_app. by split.
    + destruct ei_out0 as (k & K1 & K2 & K3). cbn in *. exists k.
      rewrite length_app. split; [lia|]. split; [|done].
      rewrite concat_app, <-K2. cbn. rewrite app_nil_r. by rewrite drop_app_le by lia.
    + intros Hf. destruct (ei_fin0 Hf) as [Hc _]. cbn in Hc. congruence.
    + intros Hf. specialize (ei_close0 Hf). cbn in ei_close0. congruence.
    + eapply Forall_impl; [exact ei_sent0|]. intros s Hs. by eapply seg_ok_le.
  - apply myread_queue in E.
    assert (Hde : (p_read p ++ d) ++ concat (as_send_queue a') =
      p_read p ++ concat (app_send_queue (p_end p))) by (by rewrite E, app_assoc).
    split; [|by split; [apply stream_le_open|]].
    destruct H. unfold delivered in *.
    split; try done; cbn; try (unfold delivered; cbn; by rewrite Hde); by rewrite <-Hcl.
  - split; [|by split; [apply stream_le_open|]].
    destruct H. split; try done; cbn.
    + intros Hf. split; [done|by apply ei_fin0].
    + eapply Forall_impl; [exact ei_sent0|]. intros s Hs.
      eapply seg_ok_le; [by apply stream_le_open|exact Hs].
Qed.

Lemma conn_step_inv c c' : conn_inv c -> conn_step c c' -> conn_inv c'.
Proof.
  intros (Hp & Hq & Hl). destruct 1 as [p p' q Hs|p q q' Hs]; cbn in *.
  - destruct (party_step_inv p q p' Hp Hq Hl Hs) as (Hp' & Hle & A1 & A2).
    split; [done|]. split; [|unfold linked in *; cbn in *; by rewrite A1, A2].
    apply (end_inv_peer (view_of q p)); [done|done|apply (ei_me _ _ Hp')].
  - destruct (party_step_inv q p q') as (Hq' & Hle & A1 & A2); [done|done|by destruct Hl|done|].
    split; [|split; [done|unfold linked in *; cbn in *; by rewrite A1, A2]].
    apply (end_inv_peer (view_of p q)); [done|done|apply (ei_me _ _ Hq')].
Qed.

(** The first segments carry no data and no FIN. *)
Lemma opening_seg_ok src dst s p seq ack flags :
  segment src dst p (SegView seq ack flags RECEIVER_WINDOW_SIZE []) ->
  has flags TH_FIN = false -> seg_ok src dst s p.
Proof.
  intros Hs Hf. eexists. split; [exact Hs|]. cbn. rewrite Hf.
  split; [done|]. split; [done|]. by left.
Qed.

Lemma established_inv isn peer_isn e sent :
  fresh isn e -> app_recv_queue e = [] -> app_send_queue e = [] ->
  Forall (seg_ok (ep_local e) (ep_peer e) (Stream isn [] false)) sent ->
  end_inv (View (Stream isn [] false) (Stream peer_isn [] false) [] (ep_local e) (ep_peer e))
    (opened e (established_ctx isn peer_isn) sent).
Proof.
  intros [Fc Fi Fcon Fcl Fu Fs] Ha Hs Hsent.
  assert (Hok : forall i, stream_ok (Stream i [] false))
    by (intros i; split; [constructor|by vm_compute]).
  split; try done; cbn; unfold delivered; cbn; rewrite ?Ha, ?Hs.
  - apply Hok.
  - apply Hok.
  - exists 0%nat. split; [simpl; lia|]. split; [done|]. unfold seq_at. cbn. f_equal. lia.
  - by exists [].
  - unfold seq_at. cbn. f_equal. lia.
  - by left.
Qed.

Lemma reachable_inv c : conn_reachable c -> conn_inv c.
Proof.
  induction 1 as [isn_a isn_b a b a' b' Fa Fb Hl A1 A2 B1 B2 E|c c' _ IH Hs];
    [|by eapply conn_step_inv].
  destruct (open_connection_ok isn_a isn_b a b Fa Fb Hl) as (syn & sa & ack & E' & S1 & S2 & S3).
  rewrite E in E'. injection E' as -> ->. split; [|split; [|exact Hl]]; cbn.
  - apply (established_inv isn_a isn_b a [syn; ack] Fa A1 A2).
    repeat constructor; by eapply opening_seg_ok.
  - apply (established_inv isn_b isn_a b [sa] Fb B1 B2).
    repeat constructor; by eapply opening_seg_ok.
Qed.

(** What each application has been given is a prefix of what the other wrote. *)
Lemma stcp_stream p q :
  conn_reachable (p, q) ->
  (p_read q ++ concat (app_send_queue (p_end q))) `prefix_of` p_written p /\
  (p_read p ++ concat (app_send_queue (p_end p))) `prefix_of` p_written q.
Proof.
  intros H. destruct (reachable_inv _ H) as (Hp & Hq & _).
  split; [apply (ei_prefix _ _ Hq)|apply (ei_prefix _ _ Hp)].
Qed.

(** C1: Over a network that loses, duplicates and reorders segments, what an
    application has been given is at every moment a prefix of what the
    application at the other end has written: no byte is lost in the middle,
    invented, repeated or out of place, in either direction, before and after
    closing. *)
Theorem stcp_prefix p q :
  conn_reachable (p, q) ->
  (p_read q ++ concat (app_send_queue (p_end q))) `prefix_of` p_written p /\
  (p_read p ++ concat (app_send_queue (p_end p))) `prefix_of` p_written q.
Proof. apply stcp_stream. Qed.

(** C19: A turn of the transport thread of a connection never reads or writes
    outside a buffer and never fails an assertion, whatever segments arrive again or
    late: it ends, or waits because there is nothing from the application, nothing
    from the network and no close request, or, exactly when the oldest write of the
    application that is still queued is longer than two segments, lets [memcpy] copy
    the rest of it over itself, which C leaves undefined: a fault where the library
    does not move such bytes, and no fault where it does. What it has sent is
    well-formed: every segment is accepted by the other end's checksum. *)
Theorem stcp_no_fault p q :
  conn_reachable (p, q) ->
  (match control_step (p_end p) with
   | Ok _ => memcpy_overlaps = true \/
       (length (hd [] (app_recv_queue (p_end p))) <= 2 * STCP_MSS)%nat
   | Fault Blocked => app_recv_queue (p_end p) = [] /\
       network_recv_queue (p_end p) = [] /\ close_requested (p_end p) = false
   | Fault Overlap => memcpy_overlaps = false /\
       (2 * STCP_MSS < length (hd [] (app_recv_queue (p_end p))))%nat
   | Fault _ => False
   end) /\
  forall s, s ∈ ep_sent (p_end p) ->
    (20 <= length s <= 556)%nat /\
    mysock_verify_checksum (ep_local (p_end q)) (ep_peer (p_end q)) s = Ok true.
Proof.
  intros H. destruct (reachable_inv _ H) as (Hp & Hq & L1 & L2). cbn in Hp, Hq, L1, L2. split.
  - destruct (movable_dec (app_recv_queue (p_end p))) as [Hm|[Hm Hl]].
    + destruct (control_step_inv _ _ Hp) as [(-> & Hn)|[(-> & Hn)|(e' & -> & _)]]; done.
    + by rewrite (control_step_overlap _ _ Hp Hm Hl).
  - intros s Hs. destruct (proj1 (Forall_forall _ _) (ei_sent _ _ Hp) s Hs) as (v & Hv & _).
    destruct Hv as [Hl Hm _ _ _ _ _ _ _ Hsum]. unfold STCP_MSS in Hm.
    split; [lia|]. by rewrite L2, <-L1.
Qed.

End connection.

#[local] Existing Instance moving_memcpy.

(** ** A run *)

(** Two ends connect; one writes two bytes and sends them; the segment arrives
    twice; the other application reads. *)
Definition turn (e : endpoint) : endpoint :=
  match control_step e with Ok (_, e') => e' | Fault _ => e end.
Definition arrive (s : buffer) (p : party) : party :=
  with_end p (set_net (p_end p) (mysock_enqueue_buffer (network_recv_queue (p_end p)) s)).

Definition run_a : endpoint := new_endpoint 1 16777343 33554559 4660 80.
Definition run_b : endpoint := new_endpoint 4294967295 33554559 16777343 80 4660.
Definition run_open : endpoint * endpoint :=
  match open_connection run_a run_b with Ok (_, a, b) => (a, b) | Fault _ => (run_a, run_b) end.
Definition run_p0 : party := party_at 1 run_open.1.
Definition run_p1 : party := Party (set_from_app (p_end run_p0) [[104; 105]]) 1 [104; 105] []
  false false.
Definition run_p : party := with_end run_p1 (turn (p_end run_p1)).
Definition run_seg : buffer := List.last (ep_sent (p_end run_p)) [].
Definition run_q0 : party := party_at 4294967295 run_open.2.
Definition run_q1 : party := arrive run_seg (arrive run_seg run_q0).
Definition run_q2 : party := with_end run_q1 (turn (p_end run_q1)).
Definition run_q3 : party := with_end run_q2 (turn (p_end run_q2)).
Definition run_q : party := Party (set_to_app (p_end run_q3) []) 4294967295 [] [104; 105]
  false false.

(** A turn that does not fault is a step. *)
Lemma turn_step q p :
  (match control_step (p_end p) with Ok _ => done (ep_ctx (p_end p)) | Fault _ => true end)
    = false ->
  party_step q p (with_end p (turn (p_end p))).
Proof.
  intros H. unfold turn. destruct (control_step (p_end p)) as [[[] e']|] eqn:E; [|done].
  by apply step_turn.
Qed.

Lemma run_reachable0 : conn_reachable (run_p0, run_q0).
Proof.
  apply (reach_open 1 4294967295 run_a run_b).
  - apply new_fresh; lia.
  - apply new_fresh; lia.
  - by split.
  - done.
  - done.
  - done.
  - done.
  - vm_compute. reflexivity.
Qed.

Lemma run_reachable1 : conn_reachable (run_p, run_q0).
Proof.
  apply (reach_step (run_p1, run_q0)).
  - apply (reach_step (run_p0, run_q0)); [apply run_reachable0|apply step_left].
    apply (step_write _ run_p0 [104; 105] 2 (AppSide [[104; 105]] [] false false)).
    + reflexivity.
    + apply (bool_decide_unpack _). vm_compute. exact I.
    + vm_compute. reflexivity.
    + vm_compute. reflexivity.
  - apply step_left, turn_step. vm_compute. reflexivity.
Qed.

Lemma run_reachable2 : conn_reachable (run_p, run_q1).
Proof.
  assert (Hs : run_seg ∈ ep_sent (p_end run_p)).
  { apply (bool_decide_unpack _). vm_compute. exact I. }
  apply (reach_step (run_p, arrive run_seg run_q0)).
  - apply (reach_step (run_p, run_q0)); [apply run_reachable1|].
    apply step_right, step_arrival. by left.
  - apply step_right, step_arrival. by left.
Qed.

Lemma run_reachable : conn_reachable (run_p, run_q).
Proof.
  apply (reach_step (run_p, run_q3)).
  - apply (reach_step (run_p, run_q2)).
    + apply (reach_step (run_p, run_q1)); [apply run_reachable2|].
      apply step_right, turn_step. vm_compute. reflexivity.
    + apply step_right, turn_step. vm_compute. reflexivity.
  - apply step_right.
    assert (E : run_q = Party (set_to_app (p_end run_q3) []) (p_isn run_q3)
      (p_written run_q3) (p_read run_q3 ++ [104; 105]) false false) by (vm_compute; reflexivity).
    rewrite E. apply (step_read _ run_q3 10 _ 2 (AppSide [] [] false false));
      vm_compute; reflexivity.
Qed.

Lemma stcp_prefix_witness :
  p_read run_q = [104; 105] /\ p_read run_q ++ concat (app_send_queue (p_end run_q))
    `prefix_of` p_written run_p.
Proof. split; [reflexivity|]. exact (proj1 (stcp_prefix run_p run_q run_reachable)). Defined.

Lemma stcp_no_fault_witness :
  mysock_verify_checksum (ep_local (p_end run_q)) (ep_peer (p_end run_q)) run_seg = Ok true.
Proof.
  pose proof (stcp_no_fault run_p run_q run_reachable) as [_ H].
  specialize (H run_seg). destruct H as [_ H]; [|exact H].
  apply (bool_decide_unpack _). vm_compute. exact I.
Defined.
