(* ===== verification/StcpLive.v ===== *)
(** What a connection achieves: over a network that keeps the order, everything
    that is written arrives; a connection closes on both sides; and what keeps
    these from holding over other networks. *)
From S2P Require Import Prelude Mem TcpSum PacketQueue Stcp StcpProps StcpNet.

Section liveness.
Context {memcpy : Memcpy}.

(** [n] turns of the control loop. *)
Fixpoint turns (n : nat) : SM unit :=
  match n with
  | O => mret tt
  | S n => control_step;; turns n
  end.

Lemma turns_cons n e e1 e2 :
  control_step e = Ok (tt, e1) -> turns n e1 = Ok (tt, e2) -> turns (S n) e = Ok (tt, e2).
Proof. intros H1 H2. cbn [turns]. by rewrite (bind_ok _ _ _ _ _ H1). Qed.

(** ** Turns with one event *)

Lemma step_app_only e e' :
  app_recv_queue e <> [] -> network_recv_queue e = [] -> handle_app_data e = Ok (tt, e') ->
  control_step e = Ok (tt, e').
Proof.
  intros Ha Hn H. unfold control_step.
  rewrite (bind_ok _ _ _ _ _ (wait_any e true false false
    ltac:(by destruct (app_recv_queue e)) ltac:(by rewrite Hn) (eq_sym (andb_false_r _)) eq_refl)).
  change (has (events true false false) APP_DATA) with true.
  change (has (events true false false) NETWORK_DATA) with false.
  change (has (events true false false) APP_CLOSE_REQUESTED) with false. cbn iota.
  by rewrite (bind_ok _ _ _ _ _ H).
Qed.

Lemma step_net_only e e' c :
  app_recv_queue e = [] -> network_recv_queue e <> [] -> close_requested e = false ->
  handle_network_data e = Ok (c, e') -> control_step e = Ok (tt, e').
Proof.
  intros Ha Hn Hc H. unfold control_step.
  rewrite (bind_ok _ _ _ _ _ (wait_any e false true false
    ltac:(by rewrite Ha) ltac:(by destruct (network_recv_queue e)) ltac:(by rewrite Hc) eq_refl)).
  change (has (events false true false) APP_DATA) with false.
  change (has (events false true false) NETWORK_DATA) with true.
  change (has (events false true false) APP_CLOSE_REQUESTED) with false. cbn iota.
  rewrite bind_ret_l, (bind_ok _ _ _ _ _ H). by destruct c.
Qed.

Lemma step_close_only e e' :
  app_recv_queue e = [] -> network_recv_queue e = [] -> close_requested e = true ->
  handle_close (set_close e false) = Ok (tt, e') -> control_step e = Ok (tt, e').
Proof.
  intros Ha Hn Hc H. unfold control_step.
  rewrite (bind_ok _ _ _ _ _ (wait_any e false false true
    ltac:(by rewrite Ha) ltac:(by rewrite Hn) ltac:(by rewrite Hc) eq_refl)).
  change (has (events false false true) APP_DATA) with false.
  change (has (events false false true) NETWORK_DATA) with false.
  change (has (events false false true) APP_CLOSE_REQUESTED) with true. cbn iota.
  by rewrite !bind_ret_l.
Qed.

(** ** Sending everything *)

(** Segments that carry a stream from byte [k] to its end. *)
Inductive chain (src dst : Z) (s : stream) : nat -> list buffer -> Prop :=
| chain_nil k : k = length (s_written s) -> chain src dst s k []
| chain_cons k p v l :
    segment src dst p v -> sv_win v = RECEIVER_WINDOW_SIZE -> sv_seq v = seq_at s k ->
    has (sv_flags v) TH_FIN = false ->
    (k + length (sv_data v) <= length (s_written s))%nat ->
    sv_data v = slice k (length (sv_data v)) (s_written s) ->
    chain src dst s (k + length (sv_data v)) l ->
    chain src dst s k (p :: l).

Lemma chain_ok src dst s k l : chain src dst s k l -> Forall (seg_ok src dst s) l.
Proof.
  induction 1 as [|k p v l Hs Hw Hq Hf Hl Hd Hc IH]; constructor; [|done].
  exists v. split; [done|]. split; [done|]. split; [by rewrite Hf|]. right. by exists k.
Qed.

(** What is still to be sent, counting nodes too. *)
Definition backlog (pq : packet_queue) : nat := length (concat pq) + length pq.

Lemma backlog_left pq : pq <> [] -> (backlog (left_over pq) < backlog pq)%nat.
Proof.
  destruct pq as [|node next]; [done|]. intros _. unfold backlog, left_over.
  destruct (Nat.ltb_spec STCP_MSS (length node)); cbn [concat length]; rewrite ?length_app.
  - rewrite length_drop. unfold STCP_MSS in *. lia.
  - lia.
Qed.

(** However little has been acknowledged, an end sends all that its application
    has written, where the library moves bytes over themselves or no write is longer
    than two segments. *)
Lemma send_all n g e k :
  (backlog (app_recv_queue e) <= n)%nat -> Forall (fun node => movable [node]) (app_recv_queue e) ->
  end_inv g e -> network_recv_queue e = [] ->
  (k <= length (s_written (v_me g)))%nat ->
  drop k (s_written (v_me g)) = concat (app_recv_queue e) ->
  exists m e' segs, turns m e = Ok (tt, e') /\ app_recv_queue e' = [] /\
    network_recv_queue e' = [] /\
    ep_sent e' = ep_sent e ++ segs /\ chain (ep_local e) (ep_peer e) (v_me g) k segs.
Proof.
  revert e k. induction n as [|n IH]; intros e k Hn Hmv H Hnet Hk Hd.
  all: destruct (app_recv_queue e) as [|node next] eqn:Hq.
  1, 3: exists 0%nat, e, []; rewrite app_nil_r; (repeat split; try done); apply chain_nil;
    apply (f_equal length) in Hd; rewrite length_drop in Hd; simpl in Hd; lia.
  { unfold backlog in Hn. simpl in Hn. lia. }
  assert (Hne : app_recv_queue e <> []) by (by rewrite Hq).
  rewrite <-Hq in Hmv. pose proof (movable_head _ Hmv) as Hm. apply movable_left in Hmv.
  destruct (handle_app_data_inv g e H Hne Hm) as (e1 & E1 & H1 & _ & N1 & C1).
  pose proof (handle_app_data_eq g e H Hne Hm) as Hh. cbv zeta in Hh.
  pose proof (step_app_only e e1 Hne Hnet E1) as Hstep.
  pose proof (backlog_left _ Hne) as Hb. rewrite <-Hq in Hn, Hd.
  pose proof (taken_left (app_recv_queue e)) as Ht. rewrite <-Ht in Hd.
  set (d := taken (app_recv_queue e)) in *.
  assert (Hlen : (k + length d <= length (s_written (v_me g)))%nat)
    by (apply (f_equal length) in Hd; rewrite length_drop, length_app in Hd; lia).
  assert (Hdrop : drop (k + length d) (s_written (v_me g)) = concat (left_over (app_recv_queue e)))
    by (rewrite <-drop_drop, Hd; by rewrite drop_app_length).
  destruct (ei_out g e H) as (k' & Hk' & Hd' & Hs).
  assert (Hf : fin_sent (ep_ctx e) = false).
  { destruct (fin_sent (ep_ctx e)) eqn:Ef; [|done]. by destruct (ei_fin g e H Ef) as [_ ?]. }
  assert (Ek : k' = k).
  { rewrite <-Ht, <-Hd in Hd'. apply (f_equal length) in Hd'. rewrite !length_drop in Hd'. lia. }
  rewrite Hf, Nat.add_0_r, Ek in Hs. clear k' Hk' Hd' Ek.
  destruct (ei_window g e H) as (W1 & W2 & W3 & W4).
  destruct (Nat.ltb_spec 0 (length d)) as [Hpos|Hz].
  - destruct Hh as (p & Eh & Hp). rewrite E1 in Eh. injection Eh as ->.
    set (e1 := set_ctx _ _) in *.
    destruct (IH e1 (k + length d)%nat) as (m & e' & segs & T & A & N & Ses & C); try done.
    { change (app_recv_queue e1) with (left_over (app_recv_queue e)). lia. }
    exists (S m), e', (p :: segs). split; [by eapply turns_cons|]. split; [done|].
    split; [done|]. split.
    + rewrite Ses. change (ep_sent e1) with (ep_sent e ++ [p]). by rewrite <-app_assoc.
    + eapply chain_cons; [exact Hp|..]; try done; cbn.
      * by rewrite W1, W2.
      * unfold slice. rewrite Hd. by rewrite take_app_length.
  - rewrite E1 in Hh. injection Hh as ->. set (e1 := set_from_app _ _) in *.
    destruct (IH e1 k) as (m & e' & segs & T & A & N & Ses & C); try done.
    { change (app_recv_queue e1) with (left_over (app_recv_queue e)). lia. }
    { change (app_recv_queue e1) with (left_over (app_recv_queue e)).
      rewrite <-Hdrop. f_equal. lia. }
    exists (S m), e', segs. split; [by eapply turns_cons|done].
Qed.

(** ** Receiving everything *)

Lemma segment_fun src dst p v v' : segment src dst p v -> segment src dst p v' -> v = v'.
Proof.
  intros [L1 _ _ S1 A1 F1 W1 _ D1 _] [L2 _ _ S2 A2 F2 W2 _ D2 _].
  assert (Hl : length (sv_data v) = length (sv_data v')) by lia.
  rewrite Hl in D1. destruct v, v'. cbn in *. congruence.
Qed.

(** The segments of a chain, taken in order, are all accepted. *)
Lemma recv_all g segs k e :
  chain (ep_peer e) (ep_local e) (v_peer g) k segs -> end_inv g e ->
  k = length (delivered g e) -> app_recv_queue e = [] -> close_requested e = false ->
  network_recv_queue e = segs -> ack_num (ep_ctx e) = next_seq_expected (ep_ctx e) ->
  exists e', turns (length segs) e = Ok (tt, e') /\ end_inv g e' /\
    delivered g e' = s_written (v_peer g).
Proof.
  remember (ep_peer e) as src eqn:Esrc. remember (ep_local e) as dst eqn:Edst.
  remember (v_peer g) as s eqn:Es.
  intros Hc. revert e Esrc Edst.
  induction Hc as [k Hk|k p v l Hs Hw Hseq Hf Hl Hd Hc IH]; intros e Esrc Edst H Hk' Ha Hcl Hn Hack.
  - exists e. split; [done|]. split; [done|]. pose proof (ei_prefix g e H) as [rest Hr].
    rewrite <-Es in Hr. rewrite Hr in Hk. rewrite length_app in Hk.
    assert (rest = []) as -> by (destruct rest; simpl in *; [done|lia]).
    by rewrite Hr, app_nil_r.
  - set (e1 := set_net e l).
    assert (H1 : end_inv g e1).
    { pose proof (ei_net g e H) as Hnet. rewrite Hn in Hnet.
      apply Forall_cons in Hnet as [_ Hnet]. by destruct H. }
    assert (Hok : seg_ok (ep_peer e1) (ep_local e1) (v_peer g) p).
    { exists v. cbn. rewrite <-Esrc, <-Edst, <-Es. split; [done|]. split; [done|].
      split; [by rewrite Hf|right; by exists k]. }
    destruct (handle_segment_ok g e1 e1 (delivered g e) p) as (v' & Hs' & Hwp);
      [split; [exact H1|by repeat split]|done|].
    cbn in Hs'. rewrite <-Esrc, <-Edst in Hs'.
    assert (v' = v) as -> by (by eapply segment_fun).
    apply wp_ok in Hwp as ([] & e2 & E & (Hk2 & N2 & A2 & C2 & L2 & P2 & D2) & Hack2 & _).
    specialize (Hack2 Hf Hack).
    assert (Hse : (sv_seq v =? ack_num (ep_ctx e1)) = true).
    { apply Z.eqb_eq. cbn. by rewrite Hack, (ei_next g e H), Hseq, <-Es, Hk'. }
    rewrite Hse in D2.
    assert (Hnd : handle_network_data e = Ok (false, e2)).
    { unfold handle_network_data.
      pose proof (sg_length _ _ _ _ Hs). pose proof (sg_mss _ _ _ _ Hs).
      rewrite (bind_ok _ _ _ _ _ (network_recv_ok e p v l (STCP_MSS + sizeof_tcphdr)%nat Hn
        ltac:(by rewrite <-Esrc, <-Edst) ltac:(unfold sizeof_tcphdr; lia))).
      cbn beta iota. destruct (Nat.eqb_spec (length p) 0); [lia|].
      by rewrite (bind_ok _ _ _ _ _ E). }
    assert (Hne : network_recv_queue e <> []) by (by rewrite Hn).
    pose proof (step_net_only e e2 false Ha Hne Hcl Hnd) as Hstep.
    destruct (IH e2) as (e' & T & H' & D'); try done.
    + by rewrite P2.
    + by rewrite L2.
    + by rewrite D2, length_app, Hk'.
    + by rewrite A2.
    + by rewrite C2.
    + exists e'. split; [by eapply turns_cons|done].
Qed.

(** C9: In-order delivery is complete. From any state of a connection where the
    receiver has everything that was sent and nothing is on its way, and over a
    [memcpy] that moves bytes over themselves or with no write longer than two
    segments still queued, the sender sends all that its application has written in
    finitely many turns; when these segments arrive in order, the receiver's
    application is given exactly what the other application wrote. The sender does it
    without a single acknowledgement: the code never counts what it has sent against
    the window of its peer, although the README of the transport layer forbids it to
    send data outside that window. *)
Theorem transfer_complete p q :
  conn_reachable (p, q) -> p_closed p = false ->
  network_recv_queue (p_end p) = [] -> app_recv_queue (p_end q) = [] ->
  network_recv_queue (p_end q) = [] -> close_requested (p_end q) = false ->
  ack_num (ep_ctx (p_end q)) = next_seq_expected (ep_ctx (p_end q)) ->
  next_seq_expected (ep_ctx (p_end q)) = sequence_num (ep_ctx (p_end p)) ->
  memcpy_overlaps = true \/
    Forall (fun write => length write <= 2 * STCP_MSS)%nat (app_recv_queue (p_end p)) ->
  exists n e segs f,
    turns n (p_end p) = Ok (tt, e) /\ app_recv_queue e = [] /\
    ep_sent e = ep_sent (p_end p) ++ segs /\
    turns (length segs) (set_net (p_end q) segs) = Ok (tt, f) /\
    p_read q ++ concat (app_send_queue f) = p_written p.
Proof.
  intros Hr Hcl Hnp Haq Hnq Hcq Hack Hnext Hmv.
  assert (Hmv' : Forall (fun node => movable [node]) (app_recv_queue (p_end p))).
  { destruct Hmv as [Hm|Hm]; [apply Forall_true; by left|].
    eapply Forall_impl; [exact Hm|]. by right. }
  destruct (reachable_inv _ Hr) as (Hp & Hq & L1 & L2). cbn in Hp, Hq, L1, L2.
  destruct (ei_out _ _ Hp) as (k & Hk & Hd & Hs).
  assert (Hf : fin_sent (ep_ctx (p_end p)) = false).
  { destruct (fin_sent _) eqn:Ef; [|done]. destruct (ei_fin _ _ Hp Ef) as [Hc _].
    cbn in Hc. congruence. }
  rewrite Hf, Nat.add_0_r in Hs.
  destruct (send_all _ _ _ k (le_n _) Hmv' Hp Hnp Hk Hd) as (n & e & segs & T & A & N & Hsent & Hch).
  exists n, e, segs. cbn in Hch. rewrite L1, <-L2 in Hch.
  set (f0 := set_net (p_end q) segs).
  assert (H0 : end_inv (view_of q p) f0).
  { pose proof (chain_ok _ _ _ _ _ Hch) as Hsegs. destruct Hq. split; try done. cbn.
    eapply Forall_impl; [exact Hsegs|]. intros s Hok. by right. }
  pose proof (ei_next _ _ Hq) as Hnx. pose proof (ei_prefix _ _ Hq) as [rest Hrest].
  destruct (recv_all (view_of q p) segs k f0) as (f & Tf & _ & Df); try done.
  - apply (seq_at_inj (stream_of p)).
    + exact (ei_me _ _ Hp).
    + cbn in *. lia.
    + apply (f_equal length) in Hrest. rewrite length_app in Hrest. cbn in *.
      unfold delivered in *. cbn in *. lia.
    + cbn in Hs, Hnx. rewrite <-Hs, <-Hnext. exact Hnx.
  - by exists f.
Qed.

(** * Closing *)

(** What an acknowledgement, and a FIN, do to the context. *)
Definition on_ack (c : context_t) (ack : Z) : context_t :=
  if ack =? sequence_num c then
    match connection_state c with
    | CSTATE_FIN_WAIT_1 => with_state (with_fin_acked c) CSTATE_FIN_WAIT_2
    | CSTATE_CLOSING => with_done (with_fin_acked c)
    | CSTATE_LAST_ACK => with_done (with_state (with_fin_acked c) CSTATE_CLOSED)
    | _ => c
    end
  else c.
Definition after_fin (c : context_t) : context_t :=
  match connection_state c with
  | CSTATE_ESTABLISHED => with_state c CSTATE_CLOSE_WAIT
  | CSTATE_FIN_WAIT_1 => with_state c CSTATE_CLOSING
  | CSTATE_FIN_WAIT_2 => with_done c
  | _ => c
  end.
Definition after_close (c : context_t) : context_t :=
  match connection_state c with
  | CSTATE_ESTABLISHED => with_state c CSTATE_FIN_WAIT_1
  | CSTATE_CLOSE_WAIT => with_state c CSTATE_LAST_ACK
  | _ => c
  end.

Lemma set_ctx_id e : set_ctx e (ep_ctx e) = e.
Proof. by destruct e. Qed.

Lemma handle_ack_eq e ack : handle_ack ack e = Ok (tt, set_ctx e (on_ack (ep_ctx e) ack)).
Proof.
  unfold handle_ack, get_ctx, on_ack. exec.
  destruct (ack =? sequence_num (ep_ctx e)), (connection_state (ep_ctx e)); try reflexivity;
    by rewrite set_ctx_id.
Qed.

(** The part of an endpoint that closing uses. *)
Record quiet (e : endpoint) : Prop := {
  qt_connected : connected e;
  qt_ctx : ctx_ok (ep_ctx e);
  qt_app : app_recv_queue e = [];
  qt_close : close_requested e = false }.

(** A segment without data or FIN that acknowledges: only the context changes. *)
Lemma recv_ack e p v :
  quiet e -> segment (ep_peer e) (ep_local e) p v -> sv_data v = [] ->
  sv_flags v = TH_ACK ->
  control_step (set_net e [p]) =
    Ok (tt, set_ctx (set_net e []) (on_ack (with_window (ep_ctx e) (sv_win v)) (sv_ack v))).
Proof.
  intros Hq Hs Hd Hf. pose proof (sg_length _ _ _ _ Hs) as Hl. rewrite Hd in Hl. simpl in Hl.
  apply (step_net_only _ _ false); [by destruct Hq|done|by destruct Hq|].
  unfold handle_network_data.
  rewrite (bind_ok _ _ _ _ _ (network_recv_ok (set_net e [p]) p v [] (STCP_MSS + sizeof_tcphdr)
    eq_refl Hs ltac:(unfold STCP_MSS; lia))).
  cbn beta iota. rewrite Hl. cbn [Nat.eqb]. unfold handle_segment. exec.
  do 3 (mload; unfold upd; exec). destruct Hs as [_ _ _ Sq Sa Sf Sw Sof _ _].
  rewrite Sf, Hf, Sw.
  change (has TH_ACK TH_FIN) with false. change (has TH_ACK TH_ACK) with true. cbn iota. exec.
  mload. rewrite Sa, (bind_ok _ _ _ _ _ (handle_ack_eq _ _)).
  unfold handle_data. rewrite Sof. exec.
  change (u64 (Z.of_nat 20 - Z.of_nat 20)) with 0. unfold get_ctx. exec. done.
Qed.

(** A FIN: it is acknowledged and the application is told. *)
Lemma recv_fin e p v :
  quiet e -> segment (ep_peer e) (ep_local e) p v -> sv_data v = [] ->
  sv_flags v = Z.lor TH_FIN TH_ACK ->
  let c := with_ack (with_fin_received (with_window (ep_ctx e) (sv_win v))) (u32 (sv_seq v + 1)) in
  exists r, control_step (set_net e [p]) =
    Ok (tt, set_ctx (set_to_app (set_sent (set_net e []) (ep_sent e ++ [r]))
        (app_send_queue e ++ [[]])) (on_ack (after_fin c) (sv_ack v))) /\
    segment (ep_local e) (ep_peer e) r (seg_of c TH_ACK []).
Proof.
  intros Hq Hs Hd Hf c. pose proof (sg_length _ _ _ _ Hs) as Hl. rewrite Hd in Hl. simpl in Hl.
  set (e1 := set_ctx (set_net e []) c).
  assert (Hc1 : ctx_ok (ep_ctx e1)).
  { pose proof (u32_range (sv_seq v + 1)). destruct Hq as [_ [? ?] _ _]. by split. }
  destruct (send_packet_ok e1 [] TH_ACK (qt_connected e Hq) Hc1) as (r & E & Hr);
    [unfold TH_ACK; lia|constructor|simpl; lia|].
  exists r. split; [|exact Hr].
  apply (step_net_only _ _ false); [by destruct Hq|done|by destruct Hq|].
  unfold handle_network_data.
  rewrite (bind_ok _ _ _ _ _ (network_recv_ok (set_net e [p]) p v [] (STCP_MSS + sizeof_tcphdr)
    eq_refl Hs ltac:(unfold STCP_MSS; lia))).
  cbn beta iota. rewrite Hl. cbn [Nat.eqb]. unfold handle_segment. exec.
  do 3 (mload; unfold upd; exec). destruct Hs as [_ _ _ Sq Sa Sf Sw Sof _ _].
  rewrite Sf, Hf, Sw, Sq.
  change (has (Z.lor TH_FIN TH_ACK) TH_FIN) with true.
  change (has (Z.lor TH_FIN TH_ACK) TH_ACK) with true. cbn iota.
  unfold handle_fin, upd. exec. match goal with |- mbind _ _ ?x = _ => change x with e1 end.
  rewrite (bind_ok _ _ _ _ _ E). unfold stcp_fin_received, get_ctx. exec.
  set (e2 := set_to_app _ _).
  assert (Hst : (match connection_state (ep_ctx e2) with
    | CSTATE_ESTABLISHED => modify (fun e => set_ctx e (with_state (ep_ctx e) CSTATE_CLOSE_WAIT))
    | CSTATE_FIN_WAIT_1 => modify (fun e => set_ctx e (with_state (ep_ctx e) CSTATE_CLOSING))
    | CSTATE_FIN_WAIT_2 => modify (fun e => set_ctx e (with_done (ep_ctx e)))
    | _ => mret tt end) e2 = Ok (tt, set_ctx e2 (after_fin (ep_ctx e2)))).
  { unfold after_fin. destruct (connection_state (ep_ctx e2)); try reflexivity;
      by rewrite set_ctx_id. }
  rewrite (bind_ok _ _ _ _ _ Hst). exec.
  mload. rewrite Sa, (bind_ok _ _ _ _ _ (handle_ack_eq _ _)).
  unfold handle_data. rewrite Sof. exec.
  change (u64 (Z.of_nat 20 - Z.of_nat 20)) with 0. unfold get_ctx. exec. done.
Qed.

(** The close request of the application. *)
Lemma close_turn e :
  quiet e -> network_recv_queue e = [] -> fin_sent (ep_ctx e) = false ->
  let c := with_fin_sent (ep_ctx e) in
  exists r, control_step (set_close e true) =
    Ok (tt, set_ctx (set_sent e (ep_sent e ++ [r]))
      (after_close (with_seq c (u32 (sequence_num c + 1))))) /\
    segment (ep_local e) (ep_peer e) r (seg_of c (Z.lor TH_FIN TH_ACK) []).
Proof.
  intros Hq Hn Hf c. set (e1 := set_ctx (set_close (set_close e true) false) c).
  assert (Hc1 : ctx_ok (ep_ctx e1)) by (by destruct Hq).
  destruct (send_packet_ok e1 [] (Z.lor TH_FIN TH_ACK) (qt_connected e Hq) Hc1) as (r & E & Hr);
    [by vm_compute|constructor|simpl; lia|].
  exists r. split; [|exact Hr].
  apply step_close_only; [by destruct Hq|done|done|].
  unfold handle_close, get_ctx. exec. cbn [set_close ep_ctx]. rewrite Hf. unfold upd. exec.
  match goal with |- mbind _ _ ?x = _ => change x with e1 end. rewrite (bind_ok _ _ _ _ _ E). exec.
  assert (Ee : forall c', set_ctx (set_sent e1 (ep_sent e1 ++ [r])) c' =
    set_ctx (set_sent e (ep_sent e ++ [r])) c').
  { intros c'. apply endpoint_ext; try done. symmetry. apply (qt_close e Hq). }
  unfold after_close. cbn [with_seq connection_state].
  change (connection_state c) with (connection_state (ep_ctx e)).
  cbn [set_ctx ep_ctx set_sent with_seq connection_state].
  change (connection_state (ep_ctx e1)) with (connection_state (ep_ctx e)).
  destruct (connection_state (ep_ctx e)); unfold modify, mret, M_ret; cbn; do 2 f_equal;
    apply Ee.
Qed.

(** What a turn made of [e]: a context, the segments sent and what the
    application is told; nothing is left to do. *)
Record becomes (e e' : endpoint) (c : context_t) (sent : list buffer) (told : packet_queue)
  : Prop := {
  bc_quiet : quiet e';
  bc_local : ep_local e' = ep_local e;
  bc_peer : ep_peer e' = ep_peer e;
  bc_net : network_recv_queue e' = [];
  bc_ctx : ep_ctx e' = c;
  bc_sent : ep_sent e' = sent;
  bc_told : app_send_queue e' = told }.

Lemma on_ack_ok c ack : ctx_ok c -> ctx_ok (on_ack c ack).
Proof. intros [? ?]. unfold on_ack. destruct (_ =? _), (connection_state c); by split. Qed.

Lemma turn_ack e p v :
  quiet e -> segment (ep_peer e) (ep_local e) p v -> sv_data v = [] -> sv_flags v = TH_ACK ->
  exists e', control_step (set_net e [p]) = Ok (tt, e') /\
    becomes e e' (on_ack (with_window (ep_ctx e) (sv_win v)) (sv_ack v)) (ep_sent e)
      (app_send_queue e).
Proof.
  intros Hq Hs Hd Hf. rewrite (recv_ack e p v Hq Hs Hd Hf). eexists. split; [done|].
  destruct Hq as [? ? ? ?]. split; try done. split; try done. by apply on_ack_ok.
Qed.

Lemma turn_fin e p v :
  quiet e -> segment (ep_peer e) (ep_local e) p v -> sv_data v = [] ->
  sv_flags v = Z.lor TH_FIN TH_ACK ->
  let c := with_ack (with_fin_received (with_window (ep_ctx e) (sv_win v))) (u32 (sv_seq v + 1)) in
  exists e' r, control_step (set_net e [p]) = Ok (tt, e') /\
    becomes e e' (on_ack (after_fin c) (sv_ack v)) (ep_sent e ++ [r])
      (app_send_queue e ++ [[]]) /\
    segment (ep_local e) (ep_peer e) r (seg_of c TH_ACK []).
Proof.
  intros Hq Hs Hd Hf c. destruct (recv_fin e p v Hq Hs Hd Hf) as (r & E & Hr).
  eexists _, r. split; [exact E|]. split; [|exact Hr].
  destruct Hq as [? [? ?] ? ?]. split; try done. split; try done. cbn.
  apply on_ack_ok. pose proof (u32_range (sv_seq v + 1)). unfold after_fin, c. cbn.
  by destruct (connection_state (ep_ctx e)).
Qed.

Lemma turn_close e :
  quiet e -> network_recv_queue e = [] -> fin_sent (ep_ctx e) = false ->
  let c := with_fin_sent (ep_ctx e) in
  exists e' r, control_step (set_close e true) = Ok (tt, e') /\
    becomes e e' (after_close (with_seq c (u32 (sequence_num c + 1)))) (ep_sent e ++ [r])
      (app_send_queue e) /\
    segment (ep_local e) (ep_peer e) r (seg_of c (Z.lor TH_FIN TH_ACK) []).
Proof.
  intros Hq Hn Hf c. destruct (close_turn e Hq Hn Hf) as (r & E & Hr).
  eexists _, r. split; [exact E|]. split; [|exact Hr].
  destruct Hq as [? [? ?] ? ?]. split; try done. split; try done. cbn.
  pose proof (u32_range (sequence_num (ep_ctx e) + 1)). unfold after_close, c. cbn.
  by destruct (connection_state (ep_ctx e)).
Qed.

(** An end of a connection that has said all it had to say: it is established,
    nothing is queued, and it acknowledges exactly what [peer] has sent. *)
Record settled (e peer : endpoint) : Prop := {
  se_quiet : quiet e;
  se_net : network_recv_queue e = [];
  se_state : connection_state (ep_ctx e) = CSTATE_ESTABLISHED;
  se_done : done (ep_ctx e) = false;
  se_fin : fin_sent (ep_ctx e) = false;
  se_ack : ack_num (ep_ctx e) = sequence_num (ep_ctx peer) }.

Lemma u32_succ_ne n : 0 <= n < 2 ^ 32 -> (n =? u32 (n + 1)) = false.
Proof.
  intros Hn. apply Z.eqb_neq. unfold u32. intros H.
  destruct (Z.eq_dec n 4294967295) as [->|]; [done|]. rewrite Z.mod_small in H; lia.
Qed.

(** C28: An orderly close. When the application of one end closes, its FIN is
    acknowledged by the other end and the other application is told that the
    stream has ended; when that one closes too, its FIN and the last
    acknowledgement finish both control loops: the states go through FIN-WAIT-1,
    FIN-WAIT-2 on one side and CLOSE-WAIT, LAST-ACK, CLOSED on the other. *)
Theorem graceful_close a b :
  settled a b -> settled b a -> linked a b ->
  exists a1 a2 a3 b1 b2 b3 fin1 ack1 fin2 ack2,
    control_step (set_close a true) = Ok (tt, a1) /\ ep_sent a1 = ep_sent a ++ [fin1] /\
    connection_state (ep_ctx a1) = CSTATE_FIN_WAIT_1 /\
    control_step (set_net b [fin1]) = Ok (tt, b1) /\ ep_sent b1 = ep_sent b ++ [ack1] /\
    connection_state (ep_ctx b1) = CSTATE_CLOSE_WAIT /\
    app_send_queue b1 = app_send_queue b ++ [[]] /\
    control_step (set_net a1 [ack1]) = Ok (tt, a2) /\
    connection_state (ep_ctx a2) = CSTATE_FIN_WAIT_2 /\ done (ep_ctx a2) = false /\
    control_step (set_close b1 true) = Ok (tt, b2) /\
    ep_sent b2 = ep_sent b ++ [ack1; fin2] /\
    connection_state (ep_ctx b2) = CSTATE_LAST_ACK /\ done (ep_ctx b2) = false /\
    control_step (set_net a2 [fin2]) = Ok (tt, a3) /\ done (ep_ctx a3) = true /\
    ep_sent a3 = ep_sent a ++ [fin1; ack2] /\ app_send_queue a3 = app_send_queue a ++ [[]] /\
    control_step (set_net b2 [ack2]) = Ok (tt, b3) /\ done (ep_ctx b3) = true /\
    connection_state (ep_ctx b3) = CSTATE_CLOSED.
Proof.
  intros [Qa Na Sa Da Fa Aa] [Qb Nb Sb Db Fb Ab] [Lab Lba].
  pose proof (qt_ctx a Qa) as [Ra _]. pose proof (qt_ctx b Qb) as [Rb _].
  destruct (turn_close a Qa Na Fa) as (a1 & fin1 & E1 & A1 & G1).
  destruct A1 as [QA1 LA1 PA1 NA1 CA1 SA1 TA1].
  unfold after_close in CA1. cbn in CA1. rewrite Sa in CA1.
  rewrite Lab, <-Lba in G1.
  destruct (turn_fin b fin1 _ Qb G1 eq_refl eq_refl) as (b1 & ack1 & E2 & B1 & G2).
  destruct B1 as [QB1 LB1 PB1 NB1 CB1 SB1 TB1].
  unfold after_fin, on_ack in CB1. cbn in CB1. rewrite Sb in CB1. cbn in CB1.
  rewrite Aa, Z.eqb_refl in CB1. cbn in CB1, G2.
  rewrite Lba, <-Lab, <-LA1, <-PA1 in G2.
  destruct (turn_ack a1 ack1 _ QA1 G2 eq_refl eq_refl) as (a2 & E3 & A2).
  destruct A2 as [QA2 LA2 PA2 NA2 CA2 SA2 TA2].
  unfold on_ack in CA2. rewrite CA1 in CA2. cbn in CA2. rewrite Z.eqb_refl in CA2.
  destruct (turn_close b1 QB1 NB1) as (b2 & fin2 & E4 & B2 & G4); [by rewrite CB1|].
  destruct B2 as [QB2 LB2 PB2 NB2 CB2 SB2 TB2].
  unfold after_close in CB2. rewrite CB1 in CB2. cbn in CB2.
  rewrite LB1, PB1, Lba, <-Lab, <-LA1, <-PA1, <-LA2, <-PA2 in G4.
  destruct (turn_fin a2 fin2 _ QA2 G4 eq_refl eq_refl) as (a3 & ack2 & E5 & A3 & G5).
  destruct A3 as [QA3 LA3 PA3 NA3 CA3 SA3 TA3].
  unfold after_fin, on_ack in CA3. rewrite CA2 in CA3. cbn in CA3.
  rewrite LA2, PA2, LA1, PA1, Lab, <-Lba, <-LB1, <-PB1, <-LB2, <-PB2 in G5.
  destruct (turn_ack b2 ack2 _ QB2 G5 eq_refl eq_refl) as (b3 & E6 & B3).
  destruct B3 as [QB3 LB3 PB3 NB3 CB3 SB3 TB3].
  unfold on_ack in CB3. rewrite CB2, CB1 in CB3. cbn in CB3. rewrite Z.eqb_refl in CB3.
  exists a1, a2, a3, b1, b2, b3, fin1, ack1, fin2, ack2.
  assert (D3 : done (ep_ctx a3) = true) by (rewrite CA3; by destruct (_ =? _)).
  rewrite D3, SB2, SB1, SA3, SA2, SA1, TA3, TA2, TA1, TB1, CB3, CB2, CA2, CA1, CB1.
  cbn. rewrite <-!app_assoc, Da, Db. by repeat split.
Qed.

End liveness.

#[local] Existing Instance moving_memcpy.

Lemma transfer_complete_witness :
  exists n e segs f, turns n (p_end run_p1) = Ok (tt, e) /\
    turns (length segs) (set_net (p_end run_q0) segs) = Ok (tt, f) /\
    concat (app_send_queue f) = [104; 105].
Proof.
  assert (Hr : conn_reachable (run_p1, run_q0)).
  { apply (reach_step (run_p0, run_q0)); [apply run_reachable0|apply step_left].
    apply (step_write _ run_p0 [104; 105] 2 (AppSide [[104; 105]] [] false false)).
    - reflexivity.
    - apply (bool_decide_unpack _). vm_compute. exact I.
    - vm_compute. reflexivity.
    - vm_compute. reflexivity. }
  destruct (transfer_complete run_p1 run_q0 Hr) as (n & e & segs & f & H1 & _ & _ & H2 & H3);
    [vm_compute; reflexivity..|right; vm_compute; repeat constructor|].
  exists n, e, segs, f. split; [exact H1|]. split; [exact H2|exact H3].
Defined.

(** Both ends of the run after the handshake. *)
Lemma run_settled :
  settled (p_end run_p0) (p_end run_q0) /\ settled (p_end run_q0) (p_end run_p0) /\
  linked (p_end run_p0) (p_end run_q0).
Proof.
  assert (E : open_connection run_a run_b = Ok (true, run_open.1, run_open.2))
    by (vm_compute; reflexivity).
  assert (Hl : linked run_a run_b) by (by split).
  assert (Fa : fresh 1 run_a) by (apply new_fresh; lia).
  assert (Fb : fresh 4294967295 run_b) by (apply new_fresh; lia).
  pose proof (open_connection_ok 1 4294967295 run_a run_b Fa Fb Hl) as (syn & sa & ack & E' & _).
  rewrite E in E'. unfold run_p0, run_q0, party_at. cbn [p_end].
  clear E. generalize dependent run_open. intros [x y] E'. cbn [fst snd] in *.
  injection E' as -> ->. split; [|split]; [| |done].
  all: split; try reflexivity; split; try reflexivity.
  all: unfold connected, ctx_ok; vm_compute; intuition congruence.
Qed.

Lemma graceful_close_witness :
  exists a1 fin1, control_step (set_close (p_end run_p0) true) = Ok (tt, a1) /\
    ep_sent a1 = ep_sent (p_end run_p0) ++ [fin1] /\
    connection_state (ep_ctx a1) = CSTATE_FIN_WAIT_1.
Proof.
  destruct run_settled as (Ha & Hb & Hl).
  destruct (graceful_close (p_end run_p0) (p_end run_q0) Ha Hb Hl)
    as (a1 & _ & _ & _ & _ & _ & fin1 & _ & _ & _ & H1 & H2 & H3 & _).
  exists a1, fin1. split; [exact H1|]. split; [exact H2|exact H3].
Defined.
