(* ===== verification/StcpHazards.v ===== *)
(** Where STCP goes wrong: a FIN that overtakes data, the end of the network's
    stream outside the established state, and segments whose header lies about
    their length. *)
From stdpp Require Import relations.
From S2P Require Import Prelude Mem TcpSum PacketQueue Stcp StcpProps StcpNet StcpLive.

Section hazards.
Context {memcpy : Memcpy}.

(** * A FIN that overtakes data *)

(** An end that has acknowledged a FIN ahead of its data: whatever happens to the
    connection, it gives its application nothing more. *)
Definition cut_off (given : buffer) (c : party * party) : Prop :=
  conn_inv c /\ p_closed c.1 = true /\
  ack_num (ep_ctx (p_end c.2)) <> next_seq_expected (ep_ctx (p_end c.2)) /\
  delivered (view_of c.2 c.1) (p_end c.2) = given.

Lemma closed_stream q p p' : party_step q p p' -> p_closed p = true -> p_closed p' = true.
Proof. destruct 1; cbn; congruence. Qed.

Lemma cut_off_party p q q' :
  end_inv (view_of q p) (p_end q) -> party_step p q q' ->
  ack_num (ep_ctx (p_end q)) <> next_seq_expected (ep_ctx (p_end q)) ->
  ack_num (ep_ctx (p_end q')) <> next_seq_expected (ep_ctx (p_end q')) /\
  delivered (view_of q' p) (p_end q') = delivered (view_of q p) (p_end q).
Proof.
  intros Hq Hs Hne. destruct Hs as [e' _ E|s _|data n a' _ _ _ E|size d n a' _ E|_]; try done.
  - destruct (control_step_inv _ _ Hq) as [[E' _]|[[E' _]|(e2 & E' & _ & Hst)]]; [congruence..|].
    rewrite E in E'. injection E' as <-. destruct (Hst Hne) as (A & N & D). cbn.
    split; [congruence|exact D].
  - apply myread_queue in E. unfold delivered in *. cbn. split; [done|].
    by rewrite E, app_assoc.
Qed.

Lemma cut_off_step given c c' : cut_off given c -> conn_step c c' -> cut_off given c'.
Proof.
  intros (Hinv & Hcl & Hne & Hd) Hs. split; [by eapply conn_step_inv|].
  destruct Hinv as (Hp & Hq & _). destruct Hs as [p p' q Hs|p q q' Hs]; cbn in *.
  - split; [by eapply closed_stream|]. split; [done|exact Hd].
  - destruct (cut_off_party p q q' Hq Hs Hne) as [Hne' Hd'].
    split; [done|]. split; [done|]. etrans; [exact Hd'|exact Hd].
Qed.

Lemma cut_off_steps given c c' : cut_off given c -> rtc conn_step c c' -> cut_off given c'.
Proof. intros H. induction 1; eauto using cut_off_step. Qed.

(** The turn in which a FIN comes, whatever its place in the stream. *)
Lemma fin_turn g e fin v rest :
  end_inv g e -> app_recv_queue e = [] -> close_requested e = false ->
  network_recv_queue e = fin :: rest -> seg_ok (ep_peer e) (ep_local e) (v_peer g) fin ->
  segment (ep_peer e) (ep_local e) fin v -> has (sv_flags v) TH_FIN = true ->
  exists e', control_step e = Ok (tt, e') /\ end_inv g e' /\
    ack_num (ep_ctx e') = u32 (sv_seq v + 1) /\
    app_send_queue e' = app_send_queue e ++ [[]].
Proof.
  intros H Ha Hc Hn Hok Hv Hfin. set (e1 := set_net e rest).
  assert (H1 : end_inv g e1).
  { pose proof (ei_net g e H) as Hnet. rewrite Hn in Hnet.
    apply Forall_cons in Hnet as [_ Hnet]. by destruct H. }
  destruct (handle_segment_ok g e1 e1 (delivered g e) fin) as (v' & Hv' & Hw);
    [split; [exact H1|by repeat split]|done|].
  assert (v' = v) as -> by (by eapply segment_fun).
  apply wp_ok in Hw as ([] & e' & E & (H' & _) & _ & _ & Hf). destruct (Hf Hfin) as [A T].
  exists e'. split; [|by split; [|split]].
  apply (step_net_only e e' false); [done|by rewrite Hn|done|]. unfold handle_network_data.
  pose proof (sg_length _ _ _ _ Hv). pose proof (sg_mss _ _ _ _ Hv).
  rewrite (bind_ok _ _ _ _ _ (network_recv_ok e fin v rest (STCP_MSS + sizeof_tcphdr)%nat Hn Hv
    ltac:(unfold sizeof_tcphdr; lia))).
  cbn beta iota. destruct (Nat.eqb_spec (length fin) 0); [lia|].
  by rewrite (bind_ok _ _ _ _ _ E).
Qed.

(** C37: The FIN of a segment counts at once, whatever is missing before it. When the
    next segment in the queue of an end is a FIN that lies beyond the data it is
    waiting for, its turn acknowledges that FIN, with it the data that has not come,
    and tells the application that the stream has ended; the application then has
    less than the other end has written, and nothing that happens to the connection
    afterwards, the arrival of the missing segments included, gives it another
    byte. *)
Theorem early_fin_loses_data p q fin v rest :
  conn_reachable (p, q) ->
  app_recv_queue (p_end q) = [] -> close_requested (p_end q) = false ->
  ack_num (ep_ctx (p_end q)) = next_seq_expected (ep_ctx (p_end q)) ->
  network_recv_queue (p_end q) = fin :: rest -> fin ∈ ep_sent (p_end p) ->
  segment (ep_local (p_end p)) (ep_peer (p_end p)) fin v ->
  has (sv_flags v) TH_FIN = true -> sv_seq v <> ack_num (ep_ctx (p_end q)) ->
  exists e, control_step (p_end q) = Ok (tt, e) /\
    ack_num (ep_ctx e) = u32 (sv_seq v + 1) /\
    app_send_queue e = app_send_queue (p_end q) ++ [[]] /\
    (length (p_read q ++ concat (app_send_queue e)) < length (p_written p))%nat /\
    forall p' q', rtc conn_step (p, with_end q e) (p', q') ->
      p_read q' ++ concat (app_send_queue (p_end q')) =
        p_read q ++ concat (app_send_queue (p_end q)).
Proof.
  intros Hr Ha Hc Hack Hn Hs Hv Hfin Hseq. pose proof (reachable_inv _ Hr) as (Hp & Hq & Hl).
  destruct Hl as [L1 L2]. cbn in Hp, Hq, L1, L2.
  pose proof (proj1 (Forall_forall _ _) (ei_sent _ _ Hp) fin Hs) as Hok.
  pose proof Hok as (v' & Hv' & _ & Hf & _).
  rewrite (segment_fun _ _ _ _ _ Hv' Hv) in Hf. destruct (Hf Hfin) as (Hcl & Hsq & _). cbn in Hcl, Hsq.
  rewrite L1, <-L2 in Hok, Hv.
  destruct (fin_turn _ _ fin v rest Hq Ha Hc Hn Hok Hv Hfin) as (e & E & He & A & T).
  exists e. split; [exact E|]. split; [exact A|]. split; [exact T|].
  assert (Hd : delivered (view_of q p) e = delivered (view_of q p) (p_end q))
    by (unfold delivered; rewrite T, concat_app; cbn; by rewrite app_nil_r).
  pose proof (prefix_length _ _ (ei_prefix _ _ Hq)) as Hpre. pose proof (ei_next _ _ Hq) as Hnx.
  change (s_written (v_peer (view_of q p))) with (p_written p) in Hpre.
  change (v_peer (view_of q p)) with (stream_of p) in *.
  assert (Hlt : (length (delivered (view_of q p) (p_end q)) < length (p_written p))%nat).
  { destruct (decide (length (delivered (view_of q p) (p_end q)) = length (p_written p)))
      as [Hl|]; [|lia].
    destruct Hseq. by rewrite Hsq, Hack, Hnx, Hl. }
  split; [change (p_read q ++ concat (app_send_queue e)) with (delivered (view_of q p) e);
    by rewrite Hd|].
  assert (Hcut : cut_off (delivered (view_of q p) (p_end q)) (p, with_end q e)).
  { split; [|split; [exact Hcl|]].
    - destruct (ei_addr _ _ He) as [A1 A2]. cbn in A1, A2.
      split; [|split; [by unfold view_of; cbn; rewrite A1, A2|split; cbn; congruence]].
      exact Hp.
    - cbn. split; [|exact Hd]. rewrite A, (ei_next _ _ He), Hd, Hsq, (seq_at_add _ _ 1).
      intros Heq. apply seq_at_inj in Heq; [|apply (ei_me _ _ Hp)|cbn in *; lia..].
      cbn in *. lia. }
  intros p' q' Hrtc. by destruct (cut_off_steps _ _ _ Hcut Hrtc) as (_ & _ & _ & D).
Qed.

(** * The end of the network's stream *)

(** The end of the network's stream stops the control loop only in the
    established state. In any other state it is dropped, together with a close
    request that came in the same turn: no FIN is sent for it, now or later, and
    with nothing else queued the transport thread then waits for ever. *)
Theorem eof_swallows_close e q :
  connection_state (ep_ctx e) <> CSTATE_ESTABLISHED ->
  app_recv_queue e = [] -> network_recv_queue e = [] :: q ->
  control_step e = Ok (tt, set_net (set_close e false) q) /\
  (q = [] -> control_step (set_net (set_close e false) q) = Fault Blocked).
Proof.
  intros Hst Ha Hn. split.
  2:{ intros ->. unfold control_step. apply bind_fault. by apply wait_blocks. }
  unfold control_step.
  assert (Hwait : stcp_wait_for_event ANY_EVENT e =
    Ok (events false true (close_requested e), set_close e false)).
  { rewrite (wait_any e false true (close_requested e));
      [|by rewrite Ha|by rewrite Hn|by rewrite andb_true_r|done].
    destruct (close_requested e) eqn:Ec; [done|]. do 2 f_equal.
    apply endpoint_ext; try done. }
  rewrite (bind_ok _ _ _ _ _ Hwait).
  destruct (has_events false true (close_requested e)) as (E1 & E2 & E3).
  rewrite E1, E2, bind_ret_l.
  assert (Hd : handle_network_data (set_close e false) = Ok (true, set_net (set_close e false) q)).
  { unfold handle_network_data.
    rewrite (bind_ok _ _ _ ([], 0%nat) (set_net (set_close e false) q))
      by (unfold stcp_network_recv; exec; cbn; by rewrite Hn).
    cbn. unfold get_ctx. exec. cbn. by case_decide. }
  by rewrite (bind_ok _ _ _ _ _ Hd).
Qed.

(** A passive end that is asked to close while it waits for the ACK of the
    handshake tells the application that the connection was refused, and ends:
    this is the call that [close_listener_deadlocks] of DemuxHazards is about. *)
Lemma handshake_close_unblocks e :
  app_recv_queue e = [] -> network_recv_queue e = [] -> close_requested e = true ->
  ep_unblocked e = None ->
  passive_established e = Ok (false, set_unblocked (set_close e false) ECONNREFUSED).
Proof.
  intros Ha Hn Hc Hu. unfold passive_established, recv_header, stcp_wait_for_event. exec.
  rewrite Ha, Hn, Hc. unfold stcp_unblock_application.
  destruct e as [? ? ? ? ? ? ? ? ? [|] ?]; [done|]. reflexivity.
Qed.

(** * Lengths that are not what the header says *)

(** A packet at the head of the queue that the checksum accepts. *)
Definition accepted (e : endpoint) (p : buffer) : Prop :=
  (20 <= length p <= 556)%nat /\ bytes_ok p /\
  mysock_verify_checksum (ep_local e) (ep_peer e) p = Ok true.

Lemma network_recv_accepted e p q :
  network_recv_queue e = p :: q -> accepted e p ->
  stcp_network_recv (STCP_MSS + sizeof_tcphdr) e = Ok ((p, length p), set_net e q).
Proof.
  intros Hq ((Hl & Hm) & _ & Hs). unfold stcp_network_recv. exec. rewrite Hq.
  unfold mysock_dequeue_buffer. rewrite andb_false_r. exec.
  rewrite take_ge by (unfold STCP_MSS, sizeof_tcphdr; lia).
  destruct (Nat.eqb_spec (length p) 0); [lia|].
  destruct (Nat.ltb_spec (STCP_MSS + sizeof_tcphdr) (length p));
    [unfold STCP_MSS, sizeof_tcphdr in *; lia|].
  rewrite Hs. exec. done.
Qed.

(** The lengths of a segment are never checked against each other. A segment
    in sequence whose data offset points past its end makes the control loop read
    outside its buffer, the length of the data having wrapped around; and a
    segment with any data at all in the opening handshake makes the checksum
    read past the header-sized buffer. Both need only a packet with a right
    checksum. *)
Theorem bad_lengths_overread e p q n :
  network_recv_queue e = p :: q -> accepted e p -> close_requested e = false ->
  (app_recv_queue e = [] -> TCP_DATA_START p = Ok n -> (length p < n)%nat ->
   fval th_flags 0 p = 0 -> ntohl (fval th_seq 0 p) = ack_num (ep_ctx e) ->
   ack_num (ep_ctx e) = next_seq_expected (ep_ctx e) ->
   control_step e = Fault OutOfBounds) /\
  ((20 < length p)%nat ->
   active_established e = Fault OutOfBounds /\ passive_syn e = Fault OutOfBounds /\
   passive_established e = Fault OutOfBounds).
Proof.
  intros Hq Hacc Hc. pose proof Hacc as ((Hl & Hm) & Hb & Hs). split.
  - intros Ha Hoff Hn Hf Hseq Hack.
    assert (Hn60 : (n <= 60)%nat).
    { unfold TCP_DATA_START in Hoff. rewrite ld_ok in Hoff by in_bounds. injection Hoff as <-.
      pose proof (fval_range th_off_x2 0 p ltac:(in_bounds) Hb) as Hr.
      change (256 ^ Z.of_nat (f_size th_off_x2)) with 256 in Hr.
      rewrite Z.shiftr_div_pow2 by lia. change (2 ^ 4) with 16.
      set (x := fval th_off_x2 0 p) in *. clearbody x.
      assert (0 <= x / 16 < 16) by (Z.div_mod_to_equations; lia). lia. }
    unfold control_step.
    rewrite (bind_ok _ _ _ _ _ (wait_any e false true false
      ltac:(by rewrite Ha) ltac:(by rewrite Hq) ltac:(by rewrite Hc) eq_refl)).
    change (has (events false true false) APP_DATA) with false.
    change (has (events false true false) NETWORK_DATA) with true. cbn iota.
    rewrite bind_ret_l. apply bind_fault. unfold handle_network_data.
    rewrite (bind_ok _ _ _ _ _ (network_recv_accepted e p q Hq Hacc)). cbn beta iota.
    destruct (Nat.eqb_spec (length p) 0); [lia|]. apply bind_fault.
    unfold handle_segment. do 3 (mload; unfold upd; exec). rewrite Hf.
    change (has 0 TH_FIN) with false. change (has 0 TH_ACK) with false. cbn iota. exec.
    unfold handle_data. rewrite Hoff. exec. unfold get_ctx. exec. cbn [set_net set_ctx ep_ctx].
    assert (Hu : u64 (Z.of_nat (length p) - Z.of_nat n) =
      18446744073709551616 + (Z.of_nat (length p) - Z.of_nat n)).
    { unfold u64. symmetry. apply (Z.mod_unique _ _ (-1)); lia. }
    rewrite Hu. rewrite (proj2 (Z.gtb_lt _ _)) by lia.
    cbn [with_window ack_num]. rewrite Hseq, Z.eqb_refl. cbn [andb].
    unfold upd. exec. cbn [with_window next_seq_expected]. rewrite Hack, Z.eqb_refl. exec.
    rewrite (proj2 (Z.leb_gt _ _)) by lia. done.
  - intros H20.
    assert (Hr : recv_header e = Fault OutOfBounds).
    { unfold recv_header. rewrite (bind_ok _ _ _ _ _ (wait_network e p q Hq Hc)).
      change (has NETWORK_DATA NETWORK_DATA) with true. cbn iota. apply bind_fault.
      unfold stcp_network_recv. exec. rewrite Hq. unfold mysock_dequeue_buffer.
      rewrite andb_false_r. exec. destruct (Nat.eqb_spec (length p) 0); [lia|].
      unfold sizeof_tcphdr. destruct (Nat.ltb_spec 20 (length p)); [done|lia]. }
    split; [|split]; by apply bind_fault.
Qed.
End hazards.

#[local] Existing Instance moving_memcpy.

(** The run again: one end writes, sends and closes, and its FIN arrives first. *)
Definition fin_p1 : party := Party (set_close (p_end run_p) true) 1 [104; 105] [] true false.
Definition fin_p : party := with_end fin_p1 (turn (p_end fin_p1)).
Definition fin_seg : buffer := List.last (ep_sent (p_end fin_p)) [].
Definition fin_q1 : party := arrive fin_seg run_q0.

Lemma fin_reachable : conn_reachable (fin_p, fin_q1).
Proof.
  assert (H1 : conn_reachable (fin_p1, run_q0)).
  { apply (reach_step (run_p, run_q0)); [apply run_reachable1|].
    apply step_left, (step_close run_q0 run_p). vm_compute. reflexivity. }
  assert (H2 : conn_reachable (fin_p, run_q0)).
  { apply (reach_step (fin_p1, run_q0)); [exact H1|].
    apply step_left, turn_step. vm_compute. reflexivity. }
  apply (reach_step (fin_p, run_q0)); [exact H2|]. apply step_right, step_arrival. left.
  apply (bool_decide_unpack _). vm_compute. exact I.
Qed.

Lemma early_fin_loses_data_witness :
  p_written fin_p = [104; 105] /\ exists e, control_step (p_end fin_q1) = Ok (tt, e) /\
    app_send_queue e = [[]] /\
    forall p' q', rtc conn_step (fin_p, with_end fin_q1 e) (p', q') ->
      p_read q' ++ concat (app_send_queue (p_end q')) = [].
Proof.
  split; [vm_compute; reflexivity|].
  destruct (early_fin_loses_data fin_p fin_q1 fin_seg (SegView 4 0 17 3072 []) []) as (e & H1 & _ & H2 & _ & H3).
  - apply fin_reachable.
  - reflexivity.
  - reflexivity.
  - vm_compute. reflexivity.
  - reflexivity.
  - apply (bool_decide_unpack _). vm_compute. exact I.
  - split; try (vm_compute; reflexivity).
    + apply (bool_decide_unpack _). vm_compute. exact I.
    + apply (bool_decide_unpack _). vm_compute. exact I.
  - reflexivity.
  - vm_compute. discriminate.
  - exists e. split; [exact H1|]. split; [exact H2|exact H3].
Defined.

(** A passive end in CLOSE-WAIT whose peer's network stream ends as its
    application closes. *)
Definition eof_example : endpoint :=
  set_net (set_close (set_ctx run_b (with_state (init_context 7) CSTATE_CLOSE_WAIT)) true) [[]].

Lemma eof_swallows_close_witness :
  exists e', control_step eof_example = Ok (tt, e') /\ ep_sent e' = [] /\
    fin_sent (ep_ctx e') = false /\ control_step e' = Fault Blocked.
Proof.
  destruct (eof_swallows_close eof_example []) as [H1 H2].
  - discriminate.
  - reflexivity.
  - reflexivity.
  - eexists. split; [exact H1|]. split; [reflexivity|]. split; [reflexivity|].
    apply H2. reflexivity.
Defined.

(** A packet of a header that claims to be 60 bytes long, and one of a byte of
    data, with their checksums. *)
Definition bad_packet (off : Z) (data : buffer) : buffer :=
  match (p ← st_th_off off (replicate 20 0 ++ data); mysock_set_checksum 16777343 33554559 p) with
  | Ok p => p
  | Fault _ => []
  end.
Definition bad_endpoint (p : buffer) : endpoint :=
  set_net (set_ctx run_b (with_state (init_context 0) CSTATE_ESTABLISHED)) [p].

Lemma bad_lengths_overread_witness :
  control_step (bad_endpoint (bad_packet 15 [])) = Fault OutOfBounds /\
  passive_established (bad_endpoint (bad_packet 5 [65])) = Fault OutOfBounds.
Proof.
  destruct (bad_lengths_overread (bad_endpoint (bad_packet 15 [])) (bad_packet 15 []) [] 60)
    as [H1 _].
  { reflexivity. }
  { split; [vm_compute; lia|]. split; [|vm_compute; reflexivity].
    apply (bool_decide_unpack _). vm_compute. exact I. }
  { reflexivity. }
  destruct (bad_lengths_overread (bad_endpoint (bad_packet 5 [65])) (bad_packet 5 [65]) [] 20)
    as [_ H2].
  { reflexivity. }
  { split; [vm_compute; lia|]. split; [|vm_compute; reflexivity].
    apply (bool_decide_unpack _). vm_compute. exact I. }
  { reflexivity. }
  split; [apply H1; vm_compute; reflexivity || lia|apply H2; vm_compute; lia].
Defined.
