(* ===== verification/HttpParse.v ===== *)
(** The HTTP request parser of the proxy: http-proxy/src/proxy_parse.c. *)
From S2P Require Import Prelude CString.

Definition CRLF : buffer := [13; 10].
Definition SP : Z := 32.
Definition SLASH : Z := 47.
Definition COLON : Z := 58.

(** * Data *)

(** The fields of the request line; they live in [parse->buf], except [path],
    which is allocated. *)
Record request_line := RequestLine {
  method : buffer; protocol : buffer; host : buffer; port : option buffer;
  path : buffer; version : buffer }.

(** A header: its key and value, or [None] once it has been removed ([key] is
    null). *)
Definition parsed_header : Type := option (buffer * buffer).

(** [struct ParsedRequest]: the line is there when [buf] is not null; the array
    of headers has room for [headerslen], of which [headersused] (the length of
    the list) are in use. *)
Record parsed_request := ParsedRequest {
  line : option request_line;
  headers : list parsed_header;
  headerslen : nat }.

Definition headersused (pr : parsed_request) : nat := length (headers pr).

Definition DEFAULT_NHDRS : nat := 8.
Definition MAX_REQ_LEN : Z := 65535.
Definition MIN_REQ_LEN : Z := 4.
Definition root_abs_path : buffer := [SLASH].

(** [ParsedRequest_create], with [ParsedHeader_create] *)
Definition ParsedRequest_create : parsed_request := ParsedRequest None [] DEFAULT_NHDRS.

(** * Headers *)

(** [ParsedHeader_get]: the place of the first header with the key. *)
Fixpoint find_header (key : buffer) (hs : list parsed_header) : option nat :=
  match hs with
  | [] => None
  | Some (k, _) :: hs => if strcmp_eq k key then Some O else S <$> find_header key hs
  | None :: hs => S <$> find_header key hs
  end.
Definition ParsedHeader_get (pr : parsed_request) (key : buffer) : option nat :=
  find_header key (headers pr).

(** [ParsedHeader_remove] *)
Definition ParsedHeader_remove (pr : parsed_request) (key : buffer) : Z * parsed_request :=
  match ParsedHeader_get pr key with
  | None => (-1, pr)
  | Some i => (0, ParsedRequest (line pr) (<[i := None]> (headers pr)) (headerslen pr))
  end.

(** [ParsedHeader_set]: the array grows when it is almost full; the store is
    within it or out of bounds. *)
Definition ParsedHeader_set (pr : parsed_request) (key value : buffer)
  : res (Z * parsed_request) :=
  let pr := (ParsedHeader_remove pr key).2 in
  let cap := if (headerslen pr <=? headersused pr + 1)%nat
             then (headerslen pr * 2)%nat else headerslen pr in
  if (headersused pr <? cap)%nat
  then Ok (0, ParsedRequest (line pr) (headers pr ++ [Some (key, value)]) cap)
  else Fault OutOfBounds.

(** [ParsedHeader_parse]: [hline] is the string from the start of a header on, to
    the end of the whole request. Stepping two past the colon may leave the
    string; a value without an end is used as a null pointer. *)
Definition ParsedHeader_parse (pr : parsed_request) (hline : buffer) : res (Z * parsed_request) :=
  match index hline COLON with
  | None => Ok (-1, pr)
  | Some (key, index1) =>
      if (length index1 <? 2)%nat then Fault OutOfBounds
      else
        match strstr (drop 2 index1) CRLF with
        | None => Fault NullDeref
        | Some (value, _) =>
            '(_, pr) ← ParsedHeader_set pr key value;
            mret (0, pr)
        end
  end.

(** The loop over the headers; [fuel] bounds the number of lines. *)
Fixpoint parse_headers (fuel : nat) (pr : parsed_request) (current : buffer)
  : res (Z * parsed_request) :=
  match fuel with
  | O => Fault OutOfFuel
  | S fuel =>
      match current with
      | [] => Ok (0, pr)
      | _ =>
          if is_prefix CRLF current then Ok (0, pr)
          else
            '(ret, pr) ← ParsedHeader_parse pr current;
            if negb (ret =? 0) then Ok (-1, pr)
            else
              match strstr current CRLF with
              | None => Ok (0, pr)
              | Some (_, s) =>
                  if (length s <? 2)%nat then Ok (0, pr)
                  else parse_headers fuel pr (drop 2 s)
              end
      end
  end.

(** * The request line *)

Definition EINVAL : Z := 22.
Definition ERANGE : Z := 34.

(** The test of the port; [err] is [errno] before the call of [strtol], which
    sets it when the number is out of range. *)
Definition bad_port (err : Z) (port : buffer) : bool :=
  let '(v, over) := strtol port in
  (i32 v =? 0) && ((if over then ERANGE else err) =? EINVAL).

(** What the memory from the address of the request on holds once the end of
    the protocol has been overwritten. *)
Definition full_addr_mem (full : buffer) (k : nat) (proto : buffer) (rest : option buffer)
  (version : buffer) : buffer :=
  take (k + length proto) full ++
  (match rest with Some r => 0 :: r | None => [] end) ++ 0 :: version ++ [0].

(** The part of [ParsedRequest_parse] that takes the request line apart, up to where
    the path is allocated: method, protocol, host with port, path and version;
    [None] where the code returns -1. *)
Definition parse_addr (buf : buffer)
  : res (option (buffer * buffer * buffer * buffer * buffer)) :=
  match strtok buf [SP] with
  | None => Ok None
  | Some (_, method, rest) =>
  match strtok (saved rest) [SP] with
  | None => Ok None
  | Some (_, full_addr, None) => Fault OutOfBounds
  | Some (_, full_addr, Some version) =>
  if negb (is_prefix (str "HTTP/") version) then Ok None else
  match strtok full_addr (str "://") with
  | None => Ok None
  | Some (k, protocol, rest) =>
  rem ← c_str (drop (length protocol + 3) (full_addr_mem full_addr k protocol rest version));
  match strtok (saved rest) [SLASH] with
  | None => Ok None
  | Some (_, host, rest) =>
  if (length host =? length rem)%nat then Ok None else
  let path := match strtok (saved rest) [SP] with
    | None => Some root_abs_path
    | Some (_, p, _) => if is_prefix root_abs_path p then None else Some (root_abs_path ++ p)
    end in
  match path with
  | None => Ok None
  | Some path => Ok (Some (method, protocol, host, path, version))
  end end end end end.

(** The rest of it: host and port. *)
Definition parse_host_port (err : Z) (t : buffer * buffer * buffer * buffer * buffer)
  : option request_line :=
  let '(method, protocol, host, path, version) := t in
  match strtok host [COLON] with
  | None => None
  | Some (_, host, rest) =>
  let port := '(_, p, _) ← strtok (saved rest) [SLASH]; Some p in
  if (match port with Some p => bad_port err p | None => false end) then None
  else Some (RequestLine method protocol host port path version)
  end.

Definition parse_request_line (err : Z) (buf : buffer) : res (option request_line) :=
  t ← parse_addr buf; Ok (t ≫= parse_host_port err).

(** [ParsedRequest_parse] of the first [buflen] bytes of [buf]. *)
Definition ParsedRequest_parse (err : Z) (parse : parsed_request) (buf : buffer) (buflen : Z)
  : res (Z * parsed_request) :=
  match line parse with
  | Some _ => Ok (-1, parse)
  | None =>
      if (buflen <? MIN_REQ_LEN) || (buflen >? MAX_REQ_LEN) then Ok (-1, parse)
      else
        data ← rd 0 (Z.to_nat buflen) buf;
        tmp_buf ← c_str (data ++ [0]);
        match strstr tmp_buf (CRLF ++ CRLF), strstr tmp_buf CRLF with
        | Some _, Some (first, rest) =>
            l ← parse_request_line err first;
            match l with
            | None => Ok (-1, parse)
            | Some l =>
                parse_headers (S (length rest))
                  (ParsedRequest (Some l) (headers parse) (headerslen parse)) (drop 2 rest)
            end
        | _, _ => Ok (-1, parse)
        end
  end.

(** * Printing *)

(** [memcpy(current, src, n); current += n;] in a buffer. *)
Definition put_at (cur : nat * buffer) (src : buffer) : res (nat * buffer) :=
  b ← wr cur.1 src cur.2; mret ((cur.1 + length src)%nat, b).

Fixpoint put_all (cur : nat * buffer) (srcs : list buffer) : res (nat * buffer) :=
  match srcs with
  | [] => Ok cur
  | src :: srcs => cur ← put_at cur src; put_all cur srcs
  end.

(** [ParsedRequest_requestLineLen] and [ParsedRequest_printRequestLine] *)
Definition ParsedRequest_requestLineLen (pr : parsed_request) : nat :=
  match line pr with
  | None => 0
  | Some l =>
      length (method l) + 1 + length (protocol l) + 3 + length (host l) + 1 +
      length (version l) + 2 +
      (match port l with Some p => length p + 1 | None => 0 end) + length (path l)
  end.

Definition ParsedRequest_printRequestLine (l : request_line) (len : nat) (buf : buffer)
  (buflen : nat) : res (option (nat * buffer)) :=
  if (buflen <? len)%nat then Ok None
  else
    cur ← put_all (0%nat, buf)
      [method l; [SP]; protocol l; str "://"; host l;
       match port l with Some p => COLON :: p | None => [] end;
       path l; [SP]; version l; CRLF];
    mret (Some cur).

(** [ParsedHeader_lineLen], [ParsedHeader_headersLen] and
    [ParsedHeader_printHeaders] *)
Definition ParsedHeader_lineLen (ph : parsed_header) : nat :=
  match ph with Some (k, v) => length k + length v + 4 | None => 0 end.
Definition ParsedHeader_headersLen (pr : parsed_request) : nat :=
  match line pr with
  | None => 0
  | Some _ => sum_list_with ParsedHeader_lineLen (headers pr) + 2
  end.

Fixpoint print_headers (cur : nat * buffer) (hs : list parsed_header) : res (nat * buffer) :=
  match hs with
  | [] => put_at cur CRLF
  | Some (k, v) :: hs => cur ← put_all cur [k; str ": "; v; CRLF]; print_headers cur hs
  | None :: hs => print_headers cur hs
  end.

Definition ParsedHeader_printHeaders (pr : parsed_request) (cur : nat * buffer) (len : nat)
  : res (option buffer) :=
  if (len <? ParsedHeader_headersLen pr)%nat then Ok None
  else '(_, b) ← print_headers cur (headers pr); mret (Some b).

(** [ParsedRequest_unparse], [ParsedRequest_unparse_headers] and
    [ParsedRequest_totalLen]; [None] where the code returns -1. *)
Definition ParsedRequest_unparse (pr : parsed_request) (buf : buffer) (buflen : nat)
  : res (option buffer) :=
  match line pr with
  | None => Ok None
  | Some l =>
      r ← ParsedRequest_printRequestLine l (ParsedRequest_requestLineLen pr) buf buflen;
      match r with
      | None => Ok None
      | Some (tmp, buf) => ParsedHeader_printHeaders pr (tmp, buf) (buflen - tmp)%nat
      end
  end.
Definition ParsedRequest_unparse_headers (pr : parsed_request) (buf : buffer) (buflen : nat)
  : res (option buffer) :=
  match line pr with
  | None => Ok None
  | Some _ => ParsedHeader_printHeaders pr (0%nat, buf) buflen
  end.
Definition ParsedRequest_totalLen (pr : parsed_request) : nat :=
  match line pr with
  | None => 0
  | Some _ => ParsedRequest_requestLineLen pr + ParsedHeader_headersLen pr
  end.
