(* ===== verification/HttpProps.v ===== *)
(** What the request parser of the proxy promises: the headers are a map, and
    parsing undoes printing; and the requests it goes wrong on. *)
From S2P Require Import Prelude CString HttpParse.
#[local] Set Warnings "-clear-no-such-hyp".

(** * The headers as a map *)

(** The value that [ParsedHeader_get] finds. *)
Fixpoint header_value (hs : list parsed_header) (key : buffer) : option buffer :=
  match hs with
  | [] => None
  | Some (k, v) :: hs => if strcmp_eq k key then Some v else header_value hs key
  | None :: hs => header_value hs key
  end.

(** The keys in use. *)
Fixpoint keys (hs : list parsed_header) : list buffer :=
  match hs with
  | [] => []
  | Some (k, _) :: hs => k :: keys hs
  | None :: hs => keys hs
  end.

(** Keys are distinct and there is room in the array for one more. *)
Definition headers_ok (pr : parsed_request) : Prop :=
  NoDup (keys (headers pr)) /\ (headersused pr < headerslen pr)%nat.

Lemma header_value_keys hs k : header_value hs k = None <-> k ∉ keys hs.
Proof.
  induction hs as [|[[k' v]|] hs IH]; cbn.
  - split; [intros _; apply not_elem_of_nil|done].
  - unfold strcmp_eq. case_bool_decide as Hk.
    + subst. split; [done|]. intros Hn. destruct Hn. left.
    + rewrite IH, not_elem_of_cons. intuition congruence.
  - done.
Qed.

Lemma find_header_value hs k i v :
  find_header k hs = Some i -> header_value hs k = Some v -> hs !! i = Some (Some (k, v)).
Proof.
  revert i. induction hs as [|[[k' v']|] hs IH]; intros i; cbn; [done| |].
  - unfold strcmp_eq. case_bool_decide; [by intros [= <-] [= <-]; subst|].
    destruct (find_header k hs); [|done]. intros [= <-]. cbn. auto.
  - destruct (find_header k hs); [|done]. intros [= <-]. cbn. auto.
Qed.

Lemma find_header_none hs k : find_header k hs = None <-> header_value hs k = None.
Proof.
  induction hs as [|[[k' v']|] hs IH]; cbn; [done| |].
  - unfold strcmp_eq. case_bool_decide; [done|]. by rewrite fmap_None.
  - by rewrite fmap_None.
Qed.

Lemma remove_value hs key i k :
  NoDup (keys hs) -> find_header key hs = Some i ->
  header_value (<[i := None]> hs) k = if decide (k = key) then None else header_value hs k.
Proof.
  revert i. induction hs as [|[[k' v']|] hs IH]; intros i Hnd; cbn; [done| |].
  - apply NoDup_cons in Hnd as [Hn Hnd]. unfold strcmp_eq. case_bool_decide as Hk.
    + intros [= <-]. subst. cbn. case_decide; [subst; by apply header_value_keys|].
      unfold strcmp_eq. by rewrite bool_decide_false.
    + destruct (find_header key hs) as [j|]; [|done]. intros [= <-]. cbn.
      specialize (IH j Hnd eq_refl). unfold strcmp_eq.
      case_bool_decide; [subst; by rewrite decide_False|exact IH].
  - destruct (find_header key hs) as [j|]; [|done]. intros [= <-]. cbn. by apply IH.
Qed.

Lemma keys_remove hs i : sublist (keys (<[i := None]> hs)) (keys hs).
Proof.
  revert i. induction hs as [|[[k v]|] hs IH]; intros [|i]; cbn; try done.
  - by apply sublist_cons.
  - by apply sublist_skip.
Qed.

Lemma header_value_app hs k v key :
  header_value (hs ++ [Some (k, v)]) key =
  match header_value hs key with
  | Some w => Some w
  | None => if decide (key = k) then Some v else None
  end.
Proof.
  induction hs as [|[[k' v']|] hs IH]; cbn; [| |done]; unfold strcmp_eq.
  - case_bool_decide; case_decide; congruence.
  - by case_bool_decide.
Qed.

Lemma keys_app hs k v : keys (hs ++ [Some (k, v)]) = keys hs ++ [k].
Proof. induction hs as [|[[k' v']|] hs IH]; cbn; by rewrite ?IH. Qed.

Lemma remove_ok pr key :
  headers_ok pr ->
  let pr' := (ParsedHeader_remove pr key).2 in
  headers_ok pr' /\ headersused pr' = headersused pr /\ headerslen pr' = headerslen pr /\
  line pr' = line pr /\
  forall k, header_value (headers pr') k =
    if decide (k = key) then None else header_value (headers pr) k.
Proof.
  intros [Hnd Hu]. unfold ParsedHeader_remove, ParsedHeader_get. cbv zeta.
  destruct (find_header key (headers pr)) as [i|] eqn:Ef; cbn.
  - assert (Hl : length (<[i:=None]> (headers pr)) = length (headers pr)) by apply length_insert.
    split; [|split; [exact Hl|]].
    + split; cbn; [|unfold headersused in *; cbn; by rewrite Hl].
      eapply sublist_NoDup; [exact Hnd|apply keys_remove].
    + split; [done|]. split; [done|]. intros k. by apply remove_value.
  - split; [by split|]. split; [done|]. split; [done|]. split; [done|].
    intros k. case_decide; [|done]. subst. by apply find_header_none.
Qed.

(** The headers of a request implement a finite map. Setting a header always
    succeeds, never stores outside the array, however many have been set and
    removed before, and makes the key map to the value and leaves every other
    key alone; removing unmaps the key, and fails exactly when it is not there;
    [ParsedHeader_get] finds the entry of a key exactly when it is mapped. *)
Theorem headers_refine_map pr key value :
  headers_ok pr ->
  (exists pr', ParsedHeader_set pr key value = Ok (0, pr') /\ headers_ok pr' /\
     line pr' = line pr /\
     forall k, header_value (headers pr') k =
       if decide (k = key) then Some value else header_value (headers pr) k) /\
  (exists r pr', ParsedHeader_remove pr key = (r, pr') /\ headers_ok pr' /\
     (r = -1 <-> header_value (headers pr) key = None) /\
     forall k, header_value (headers pr') k =
       if decide (k = key) then None else header_value (headers pr) k) /\
  (forall i, ParsedHeader_get pr key = Some i ->
     exists v, headers pr !! i = Some (Some (key, v)) /\ header_value (headers pr) key = Some v) /\
  (ParsedHeader_get pr key = None <-> header_value (headers pr) key = None).
Proof.
  intros Hok. pose proof (remove_ok pr key Hok) as Hr. cbv zeta in Hr.
  destruct Hr as ([Hnd Hu] & Hu' & Hl' & Hline & Hv). split; [|split; [|split]].
  - unfold ParsedHeader_set. set (pr1 := (ParsedHeader_remove pr key).2) in *. clearbody pr1.
    set (cap := if (headerslen pr1 <=? headersused pr1 + 1)%nat then _ else _).
    assert (Hc : (headersused pr1 + 1 < cap)%nat)
      by (unfold cap; destruct (Nat.leb_spec (headerslen pr1) (headersused pr1 + 1)); lia).
    rewrite (proj2 (Nat.ltb_lt _ _)) by lia.
    eexists. split; [done|]. split; [split; cbn|split; [done|]].
    + rewrite keys_app. apply NoDup_app. split; [done|]. split; [|apply NoDup_singleton].
      intros k Hk Hk1. apply list_elem_of_singleton in Hk1 as ->. apply header_value_keys in Hk; [done|].
      rewrite Hv. by rewrite decide_True.
    + unfold headersused in *. cbn. rewrite length_app. simpl. lia.
    + intros k. cbn. rewrite header_value_app, Hv. case_decide; [done|].
      by destruct (header_value (headers pr) k).
  - exists (ParsedHeader_remove pr key).1, (ParsedHeader_remove pr key).2.
    split; [by destruct (ParsedHeader_remove pr key)|]. split; [by split|]. split; [|done].
    rewrite <-find_header_none. unfold ParsedHeader_remove, ParsedHeader_get.
    by destruct (find_header key (headers pr)).
  - intros i Hi. destruct (header_value (headers pr) key) as [v|] eqn:Ev.
    + exists v. split; [|done]. by eapply find_header_value.
    + apply find_header_none in Ev. unfold ParsedHeader_get in Hi. congruence.
  - apply find_header_none.
Qed.

Lemma headers_refine_map_witness :
  exists pr', ParsedHeader_set ParsedRequest_create (str "Host") (str "h") = Ok (0, pr') /\
    header_value (headers pr') (str "Host") = Some (str "h").
Proof.
  destruct (headers_refine_map ParsedRequest_create (str "Host") (str "h")) as (H & _).
  - split; [constructor|]. unfold headersused, ParsedRequest_create, DEFAULT_NHDRS. simpl. lia.
  - destruct H as (pr' & H1 & _ & _ & H2). exists pr'. split; [exact H1|].
    rewrite H2. reflexivity.
Defined.

(** * Parsing undoes printing *)

(** What [ParsedRequest_unparse] prints. *)
Definition host_port (l : request_line) : buffer :=
  host l ++ match port l with Some p => COLON :: p | None => [] end.
Definition full_address (l : request_line) : buffer :=
  protocol l ++ str "://" ++ host_port l ++ path l.
Definition render_line (l : request_line) : buffer :=
  method l ++ SP :: full_address l ++ SP :: version l.
Definition render_header (h : buffer * buffer) : buffer := h.1 ++ str ": " ++ h.2 ++ CRLF.
Definition render_headers (hs : list (buffer * buffer)) : buffer :=
  concat (map render_header hs) ++ CRLF.
Definition render (l : request_line) (hs : list (buffer * buffer)) : buffer :=
  render_line l ++ CRLF ++ render_headers hs.

(** A request line whose fields do not contain what ends them. *)
Record line_ok (err : Z) (l : request_line) : Prop := {
  lo_method : method l <> [] /\ free_of [SP; 13; 10; 0] (method l);
  lo_protocol : protocol l <> [] /\ free_of [SP; COLON; SLASH; 13; 10; 0] (protocol l);
  lo_host : host l <> [] /\ free_of [SP; COLON; SLASH; 13; 10; 0] (host l);
  lo_port : match port l with
    | Some p => p <> [] /\ free_of [SP; SLASH; 13; 10; 0] p /\ bad_port err p = false
    | None => True end;
  lo_path : exists p, path l = SLASH :: p /\ free_of [SP; 13; 10; 0] p /\
    is_prefix [SLASH] p = false;
  lo_version : is_prefix (str "HTTP/") (version l) = true /\ free_of [13; 10; 0] (version l) }.

Definition header_ok (h : buffer * buffer) : Prop :=
  free_of [COLON; 13; 10; 0] h.1 /\ free_of [13; 10; 0] h.2.

Lemma host_port_free err l ks :
  line_ok err l -> ks ⊆ [SP; SLASH; 13; 10; 0] -> free_of ks (host_port l).
Proof.
  intros H Hk. unfold host_port. apply free_of_app.
  destruct (lo_host err l H) as [_ Hh].
  split; [eapply free_of_sub; [exact Hh|set_solver]|].
  pose proof (lo_port err l H) as Hp. destruct (port l) as [p|]; [|constructor].
  destruct Hp as (_ & Hp & _). constructor.
  - intros Hc. apply Hk in Hc. unfold SP, COLON, SLASH in Hc. set_solver.
  - by eapply free_of_sub.
Qed.

Lemma host_port_nonempty err l : line_ok err l -> host_port l <> [].
Proof.
  intros H. destruct (lo_host err l H) as [Hh _]. unfold host_port.
  by destruct (host l).
Qed.

Lemma full_free err l ks :
  line_ok err l -> ks ⊆ [SP; 13; 10; 0] -> free_of ks (full_address l).
Proof.
  intros H Hk. unfold full_address. rewrite !free_of_app.
  destruct (lo_protocol err l H) as [_ Hp]. destruct (lo_path err l H) as (p & -> & Hpath & _).
  split; [eapply free_of_sub; [exact Hp|set_solver]|].
  split; [|split].
  - eapply free_of_sub; [|exact Hk]. by apply (bool_decide_unpack _).
  - eapply host_port_free; [exact H|set_solver].
  - constructor; [|by eapply free_of_sub].
    intros Hc. apply Hk in Hc. unfold SLASH, SP in Hc. set_solver.
Qed.

Lemma full_nonempty err l : line_ok err l -> full_address l <> [].
Proof.
  intros H. destruct (lo_protocol err l H) as [Hp _]. unfold full_address.
  by destruct (protocol l).
Qed.

(** The whole line has no line break and no NUL. *)
Lemma line_free err l : line_ok err l -> free_of [13; 10; 0] (render_line l).
Proof.
  intros H. unfold render_line. destruct (lo_method err l H) as [_ Hm].
  destruct (lo_version err l H) as [_ Hv].
  apply free_of_app. split; [eapply free_of_sub; [exact Hm|set_solver]|].
  constructor; [by vm_compute; set_solver|]. apply free_of_app.
  split; [eapply full_free; [exact H|set_solver]|].
  constructor; [unfold SP; set_solver|done].
Qed.

(** The address splits at the slashes. *)
Lemma full_split l p :
  path l = SLASH :: p ->
  full_address l = protocol l ++ COLON :: [SLASH; SLASH] ++ host_port l ++ SLASH :: p.
Proof. intros Hp. unfold full_address. by rewrite Hp. Qed.

Lemma parse_line_ok err l :
  line_ok err l -> parse_request_line err (render_line l) = Ok (Some l).
Proof.
  intros H. destruct (lo_method err l H) as [Hm Fm], (lo_protocol err l H) as [Hp Fp],
    (lo_host err l H) as [Hh Fh], (lo_version err l H) as [Hv Fv],
    (lo_path err l H) as (p & Epath & Fpath & Hpath).
  unfold parse_request_line, parse_addr, render_line.
  rewrite strtok_delim; [|by eapply free_of_sub; [exact Fm|set_solver]|done|set_solver].
  cbn [saved].
  rewrite strtok_delim; [|eapply full_free; [exact H|set_solver]|by eapply full_nonempty|set_solver].
  rewrite Hv. cbn [negb]. rewrite (full_split l p Epath).
  rewrite strtok_delim; [|eapply free_of_sub; [exact Fp|by vm_compute; set_solver]|done|
    by apply (bool_decide_unpack _)].
  assert (Erem : c_str (drop (length (protocol l) + 3) (full_addr_mem
    (protocol l ++ COLON :: [SLASH; SLASH] ++ host_port l ++ SLASH :: p) 0 (protocol l)
    (Some ([SLASH; SLASH] ++ host_port l ++ SLASH :: p)) (version l))) =
    Ok (host_port l ++ SLASH :: p)).
  { unfold full_addr_mem. cbn [Nat.add]. rewrite take_app_length, <-drop_drop, drop_app_length.
    cbn [app drop]. rewrite <-app_assoc. cbn [app].
    change (host_port l ++ SLASH :: p ++ 0 :: version l ++ [0]) with
      (host_port l ++ (SLASH :: p) ++ 0 :: version l ++ [0]). rewrite app_assoc.
    apply c_str_app. apply Forall_app. split.
    - eapply Forall_impl; [apply (host_port_free err l [0] H); set_solver|]. set_solver.
    - constructor; [done|]. eapply Forall_impl; [exact Fpath|]. set_solver. }
  rewrite Erem. cbn [mbind res_bind saved app].
  rewrite !strtok_skip by set_solver.
  rewrite strtok_delim; [|eapply host_port_free; [exact H|set_solver]|
    by eapply host_port_nonempty|set_solver].
  rewrite (proj2 (Nat.eqb_neq _ _)) by (rewrite length_app; simpl; lia).
  cbn [saved].
  assert (Epath' : (match strtok p [SP] with
    | None => Some root_abs_path
    | Some (_, p, _) => if is_prefix root_abs_path p then None else Some (root_abs_path ++ p)
    end) = Some (path l)).
  { rewrite Epath. destruct p as [|c p]; [done|].
    rewrite strtok_end; [|eapply free_of_sub; [exact Fpath|set_solver]|done].
    unfold root_abs_path. by rewrite Hpath. }
  rewrite Epath'. unfold host_port. pose proof (lo_port err l H) as Hport.
  assert (Fh' : free_of [COLON] (host l)) by (eapply free_of_sub; [exact Fh|set_solver]).
  destruct l as [m pr h po pa v]. cbn in *. destruct po as [po|].
  - destruct Hport as (Hpo & Fpo & Bpo). rewrite strtok_delim by (done || set_solver).
    cbn [saved]. rewrite strtok_end; [|eapply free_of_sub; [exact Fpo|set_solver]|done].
    cbn [mbind option_bind]. by rewrite Bpo.
  - rewrite app_nil_r, strtok_end by done. done.
Qed.

(** ** The headers *)

Lemma find_header_new hs k : k ∉ keys hs -> find_header k hs = None.
Proof. intros Hk. by apply find_header_none, header_value_keys. Qed.

(** Setting a new key appends it. *)
Lemma set_new pr key value :
  headers_ok pr -> key ∉ keys (headers pr) ->
  exists cap, ParsedHeader_set pr key value =
      Ok (0, ParsedRequest (line pr) (headers pr ++ [Some (key, value)]) cap) /\
    (length (headers pr) + 1 < cap)%nat.
Proof.
  intros [_ Hu] Hk. unfold ParsedHeader_set, ParsedHeader_remove, ParsedHeader_get.
  rewrite find_header_new by done. cbn [snd].
  set (cap := if (headerslen pr <=? headersused pr + 1)%nat then _ else _).
  unfold headersused in *.
  assert (Hc : (length (headers pr) + 1 < cap)%nat)
    by (unfold cap; destruct (Nat.leb_spec (headerslen pr) (length (headers pr) + 1)); lia).
  rewrite (proj2 (Nat.ltb_lt _ _)) by lia. by exists cap.
Qed.

Lemma render_header_split k v r :
  render_header (k, v) ++ r = k ++ COLON :: SP :: v ++ CRLF ++ r.
Proof. unfold render_header. cbn [fst snd]. by rewrite <-!app_assoc. Qed.

(** The first line break after a header that has none inside ends it. *)
Lemma header_crlf k v r :
  header_ok (k, v) -> strstr (render_header (k, v) ++ r) CRLF =
    Some (k ++ COLON :: SP :: v, CRLF ++ r).
Proof.
  intros [Hk Hv]. cbn in Hk, Hv. rewrite render_header_split.
  replace (k ++ COLON :: SP :: v ++ CRLF ++ r) with ((k ++ COLON :: SP :: v) ++ CRLF ++ r)
    by (by rewrite <-app_assoc).
  apply (strstr_skip _ 13 [10]). rewrite elem_of_app, !elem_of_cons.
  intros [Hx|[Hx|[Hx|Hx]]]; try done.
  - by apply (free_of_not _ k 13 Hk); [set_solver|].
  - by apply (free_of_not _ v 13 Hv); [set_solver|].
Qed.

Lemma parse_header_ok pr k v r :
  headers_ok pr -> header_ok (k, v) -> k ∉ keys (headers pr) ->
  exists cap, ParsedHeader_parse pr (render_header (k, v) ++ r) =
      Ok (0, ParsedRequest (line pr) (headers pr ++ [Some (k, v)]) cap) /\
    (length (headers pr) + 1 < cap)%nat.
Proof.
  intros Hok [Hk Hv] Hnew. cbn in Hk, Hv. destruct (set_new pr k v Hok Hnew) as (cap & E & Hc).
  exists cap. split; [|done]. unfold ParsedHeader_parse. rewrite render_header_split.
  rewrite index_skip by (by apply (free_of_not _ k COLON Hk); set_solver).
  cbn [length Nat.ltb Nat.leb drop].
  assert (Hs : strstr (v ++ CRLF ++ r) CRLF = Some (v, CRLF ++ r))
    by (apply (strstr_skip v 13 [10]); by apply (free_of_not _ v 13 Hv); set_solver).
  by rewrite drop_0, Hs, E.
Qed.

Lemma not_crlf k v r : header_ok (k, v) -> is_prefix CRLF (render_header (k, v) ++ r) = false.
Proof.
  intros [Hk _]. cbn in Hk. rewrite render_header_split. unfold CRLF.
  destruct k as [|c k]; [done|]. cbn [app is_prefix].
  apply Forall_cons in Hk as [Hc _]. destruct (Z.eqb_spec 13 c) as [<-|]; [|done]. set_solver.
Qed.

Lemma parse_headers_ok hs pr fuel :
  headers_ok pr -> Forall header_ok hs -> NoDup (keys (headers pr) ++ map fst hs) ->
  (length hs < fuel)%nat ->
  exists cap, parse_headers fuel pr (render_headers hs) =
    Ok (0, ParsedRequest (line pr) (headers pr ++ map Some hs) cap).
Proof.
  revert pr fuel. induction hs as [|[k v] hs IH]; intros pr fuel Hok Hhs Hnd Hf.
  - destruct fuel as [|fuel]; [simpl in Hf; lia|]. exists (headerslen pr). cbn.
    rewrite app_nil_r. by destruct pr.
  - destruct fuel as [|fuel]; [simpl in Hf; lia|]. apply Forall_cons in Hhs as [Hh Hhs].
    assert (Hk : k ∉ keys (headers pr)).
    { intros Hk. apply NoDup_app in Hnd as (_ & Hnd & _). apply (Hnd k Hk). left. }
    set (r := render_headers hs).
    assert (Er : render_headers ((k, v) :: hs) = render_header (k, v) ++ r)
      by (unfold render_headers, r; cbn [map concat]; by rewrite <-app_assoc).
    rewrite Er. destruct (parse_header_ok pr k v r Hok Hh Hk) as (cap & E & Hc).
    cbn [parse_headers].
    assert (Hne : exists c s, render_header (k, v) ++ r = c :: s)
      by (rewrite render_header_split; destruct k; eauto).
    destruct Hne as (c & s & Hcs). rewrite Hcs, <-Hcs. rewrite not_crlf by done.
    rewrite E. cbn [mbind res_bind]. change (negb (0 =? 0)) with false. cbn iota.
    rewrite header_crlf by done.
    rewrite (proj2 (Nat.ltb_ge _ _)) by (cbn; lia).
    change (drop 2 (CRLF ++ r)) with r.
    set (pr1 := ParsedRequest _ _ cap).
    destruct (IH pr1 fuel) as (cap' & E').
    + split; [|unfold headersused; cbn; rewrite length_app; simpl; lia]. cbn.
      rewrite keys_app. apply NoDup_app. apply NoDup_app in Hnd as (N1 & N2 & N3).
      split; [done|]. split; [|apply NoDup_singleton].
      intros x Hx Hx1. apply list_elem_of_singleton in Hx1 as ->. by apply (N2 k Hx); left.
    + done.
    + cbn. rewrite keys_app, <-app_assoc. exact Hnd.
    + simpl in Hf. lia.
    + exists cap'. unfold r. rewrite E'. unfold pr1. cbn. by rewrite <-app_assoc.
Qed.

(** ** The whole request *)

Lemma strstr_here a pat r : strstr (a ++ pat ++ r) pat <> None.
Proof.
  induction a as [|c a IH].
  - cbn [app]. destruct (pat ++ r) eqn:E; unfold strstr; rewrite <-?E, is_prefix_app; done.
  - cbn [app strstr]. destruct (is_prefix pat (c :: a ++ pat ++ r)); [done|].
    by destruct (strstr (a ++ pat ++ r) pat) as [[]|].
Qed.

(** A request always ends with an empty line. *)
Lemma render_end l hs : exists a, render l hs = a ++ (CRLF ++ CRLF) ++ [].
Proof.
  rewrite app_nil_r. unfold render, render_headers.
  destruct hs as [|h hs _] using rev_ind.
  - exists (render_line l). done.
  - exists (render_line l ++ CRLF ++ concat (map render_header hs) ++ h.1 ++ str ": " ++ h.2).
    rewrite map_app, concat_app. cbn [map concat]. unfold render_header at 2.
    rewrite app_nil_r. by rewrite <-!app_assoc.
Qed.

Lemma c_string_free ks s : 0 ∈ ks -> free_of ks s -> c_string s.
Proof. intros H0 H. eapply Forall_impl; [exact H|]. cbn. intros x Hx ->. done. Qed.

Lemma render_c_string err l hs :
  line_ok err l -> Forall header_ok hs -> c_string (render l hs).
Proof.
  intros Hl Hhs. assert (Hcr : c_string CRLF) by (repeat constructor; done).
  unfold render, render_headers, c_string. rewrite !Forall_app. split.
  { apply (c_string_free [13; 10; 0]); [set_solver|by eapply line_free]. }
  split; [exact Hcr|]. split; [|exact Hcr].
  induction Hhs as [|[k v] hs [Hk Hv] Hhs IH]; [constructor|]. cbn [map concat].
  apply Forall_app. split; [|exact IH]. unfold render_header. cbn [fst snd] in *.
  rewrite !Forall_app. split; [by apply (c_string_free [COLON; 13; 10; 0]); [set_solver|]|].
  split; [by repeat constructor|].
  split; [by apply (c_string_free [13; 10; 0]); [set_solver|]|exact Hcr].
Qed.

(** ** Printing *)

Lemma wr_ok_at pos src (b : buffer) :
  (pos + length src <= length b)%nat -> wr pos src b = Ok (splice pos src b).
Proof. apply wr_ok. Qed.

(** Two adjacent stores are one. *)
Lemma splice_adjacent {A} pos (s1 s2 b : list A) :
  (pos + length s1 + length s2 <= length b)%nat ->
  splice (pos + length s1) s2 (splice pos s1 b) = splice pos (s1 ++ s2) b.
Proof.
  intros H. apply list_eq. intros i.
  rewrite !lookup_splice by (rewrite ?length_splice, ?length_app; lia).
  rewrite length_app. repeat case_decide; try lia; try done.
  - by rewrite lookup_app_l by lia.
  - rewrite lookup_app_r by lia. f_equal. lia.
Qed.

Lemma splice_nil {A} pos (b : list A) : splice pos [] b = b.
Proof. unfold splice. cbn [app length]. rewrite Nat.add_0_r. apply take_drop. Qed.

Lemma put_all_ok srcs pos b :
  (pos + length (concat srcs) <= length b)%nat ->
  put_all (pos, b) srcs =
    Ok ((pos + length (concat srcs))%nat, splice pos (concat srcs) b).
Proof.
  revert pos b. induction srcs as [|src srcs IH]; intros pos b H; cbn [put_all concat] in *.
  - cbn. by rewrite Nat.add_0_r, splice_nil.
  - rewrite length_app in H. unfold put_at. cbn [fst snd]. rewrite wr_ok by lia.
    cbn [mbind res_bind mret res_ret].
    rewrite IH by (rewrite length_splice; lia). rewrite splice_adjacent by lia.
    rewrite length_app. by rewrite Nat.add_assoc.
Qed.

(** What is printed for a list of headers, removed ones left out. *)
Fixpoint live (hs : list parsed_header) : list (buffer * buffer) :=
  match hs with
  | [] => []
  | Some h :: hs => h :: live hs
  | None :: hs => live hs
  end.

Lemma headers_len hs :
  (sum_list_with ParsedHeader_lineLen hs + 2)%nat = length (render_headers (live hs)).
Proof.
  unfold render_headers. rewrite length_app. change (length CRLF) with 2%nat. f_equal.
  induction hs as [|[[k v]|] hs IH]; cbn [sum_list_with live map concat ParsedHeader_lineLen].
  - done.
  - rewrite length_app, IH. unfold render_header. cbn [fst snd].
    rewrite !length_app. change (length (str ": ")) with 2%nat.
    change (length CRLF) with 2%nat. lia.
  - exact IH.
Qed.

Lemma print_headers_ok hs pos b :
  (pos + length (render_headers (live hs)) <= length b)%nat ->
  print_headers (pos, b) hs = Ok ((pos + length (render_headers (live hs)))%nat,
    splice pos (render_headers (live hs)) b).
Proof.
  revert pos b. induction hs as [|[[k v]|] hs IH]; intros pos b H; cbn [live] in H;
    cbn [print_headers live].
  - unfold put_at. cbn [fst snd]. by rewrite wr_ok by done.
  - assert (Er : render_headers ((k, v) :: live hs) =
      concat [k; str ": "; v; CRLF] ++ render_headers (live hs))
      by (unfold render_headers, render_header; cbn [map concat fst snd];
          by rewrite <-!app_assoc, app_nil_l).
    rewrite Er in *. rewrite length_app in H. rewrite put_all_ok by lia.
    cbn [mbind res_bind]. rewrite IH by (rewrite length_splice; lia).
    rewrite splice_adjacent by lia. by rewrite length_app, Nat.add_assoc.
  - by apply IH.
Qed.

Lemma line_len l hs n :
  ParsedRequest_requestLineLen (ParsedRequest (Some l) hs n) = length (render_line l ++ CRLF).
Proof.
  unfold ParsedRequest_requestLineLen, render_line, full_address, host_port. cbn [line].
  repeat (rewrite ?length_app; cbn [length]). change (length (str "://")) with 3%nat.
  change (length CRLF) with 2%nat. destruct (port l); cbn [length]; lia.
Qed.

Lemma print_line_ok l len b buflen :
  len = length (render_line l ++ CRLF) -> (buflen <= length b)%nat ->
  ParsedRequest_printRequestLine l len b buflen =
    if (buflen <? len)%nat then Ok None
    else Ok (Some (len, splice 0 (render_line l ++ CRLF) b)).
Proof.
  intros -> Hb. unfold ParsedRequest_printRequestLine. case_test; [done|].
  set (srcs := [method l; [SP]; protocol l; str "://"; host l;
    match port l with Some p => COLON :: p | None => [] end; path l; [SP]; version l; CRLF]).
  assert (Es : concat srcs = render_line l ++ CRLF).
  { unfold srcs, render_line, full_address, host_port. cbn [concat].
    rewrite app_nil_r. repeat (rewrite <-?app_assoc; cbn [app]). done. }
  rewrite put_all_ok by (rewrite Es; lia). by rewrite Es, Nat.add_0_l.
Qed.

(** Printing into a buffer: the whole request, when it fits. *)
Lemma unparse_ok l hs n b buflen :
  let r := render l (live hs) in
  (buflen <= length b)%nat ->
  ParsedRequest_unparse (ParsedRequest (Some l) hs n) b buflen =
    Ok (if (length r <=? buflen)%nat then Some (splice 0 r b) else None).
Proof.
  intros r Hb. unfold ParsedRequest_unparse. cbn [line].
  rewrite line_len, (print_line_ok l _ b buflen) by done.
  set (first := render_line l ++ CRLF).
  assert (Er : r = first ++ render_headers (live hs))
    by (unfold r, render, first; by rewrite <-app_assoc).
  assert (Elen : length r = (length first + length (render_headers (live hs)))%nat)
    by (by rewrite Er, length_app).
  destruct (Nat.ltb_spec buflen (length first)); cbn [mbind res_bind].
  { by rewrite (proj2 (Nat.leb_gt _ _)) by lia. }
  unfold ParsedHeader_printHeaders, ParsedHeader_headersLen. cbn [line headers].
  rewrite headers_len. case_test; [by rewrite (proj2 (Nat.leb_gt _ _)) by lia|].
  rewrite print_headers_ok by (rewrite length_splice; simpl; lia).
  cbn [mbind res_bind mret res_ret]. rewrite (proj2 (Nat.leb_le _ _)) by lia.
  rewrite Er. by rewrite (splice_adjacent 0 first) by (simpl; lia).
Qed.

Lemma live_some hs : live (map Some hs) = hs.
Proof. induction hs as [|h hs IH]; cbn; by rewrite ?IH. Qed.

Lemma keys_some hs : keys (map Some hs) = map fst hs.
Proof. induction hs as [|[k v] hs IH]; cbn; by rewrite ?IH. Qed.

(** Parsing a request at the start of a buffer. *)
Lemma parse_render err l hs b :
  line_ok err l -> Forall header_ok hs -> NoDup (map fst hs) ->
  let r := render l hs in
  Z.of_nat (length r) <= MAX_REQ_LEN -> (length r <= length b)%nat ->
  exists cap, ParsedRequest_parse err ParsedRequest_create (splice 0 r b) (Z.of_nat (length r)) =
    Ok (0, ParsedRequest (Some l) (map Some hs) cap).
Proof.
  intros Hl Hhs Hnd r Hmax Hb. unfold ParsedRequest_parse, ParsedRequest_create. cbn [line].
  assert (Hmin : 4 <= Z.of_nat (length r)).
  { unfold r, render, render_headers. rewrite !length_app.
    change (length CRLF) with 2%nat. lia. }
  rewrite (proj2 (Z.ltb_ge _ _)) by (unfold MIN_REQ_LEN; lia).
  rewrite Z.gtb_ltb, (proj2 (Z.ltb_ge _ _)) by lia. cbn [orb]. rewrite Nat2Z.id.
  rewrite rd_ok by (rewrite length_splice; simpl; lia).
  rewrite slice_splice_eq by (done || simpl; lia). cbn [mbind res_bind].
  rewrite (c_str_app r []) by (by eapply render_c_string). cbn [mbind res_bind].
  destruct (render_end l hs) as [a Ea].
  pose proof (strstr_here a (CRLF ++ CRLF) []) as Hend. rewrite <-Ea in Hend. fold r in Hend.
  destruct (strstr r (CRLF ++ CRLF)) as [[x y]|]; [|done]. clear Hend.
  assert (Hs : strstr r CRLF = Some (render_line l, CRLF ++ render_headers hs)).
  { apply (strstr_skip (render_line l) 13 [10]).
    apply (free_of_not [13; 10; 0]); [by eapply line_free|set_solver]. }
  rewrite Hs, (parse_line_ok err l Hl). cbn [mbind res_bind].
  change (drop 2 (CRLF ++ render_headers hs)) with (render_headers hs).
  apply (parse_headers_ok hs (ParsedRequest (Some l) [] DEFAULT_NHDRS)).
  - split; [constructor|]. unfold headersused, DEFAULT_NHDRS. simpl. lia.
  - done.
  - exact Hnd.
  - rewrite length_app. unfold render_headers. rewrite length_app.
    assert (length hs <= length (concat (map render_header hs)))%nat; [|simpl; lia].
    clear. induction hs as [|h hs IH]; [simpl; lia|]. cbn [map concat length].
    rewrite length_app. unfold render_header at 1. rewrite !length_app. simpl. lia.
Qed.

(** C14: Parsing undoes printing. A request whose fields do not contain the
    characters that end them, with distinct header names, is printed in exactly
    [ParsedRequest_totalLen] bytes, without a store outside the buffer it is
    given; and parsing what was printed succeeds and gives the same method,
    protocol, host, port, path, version and headers. A buffer that is too small
    is refused. *)
Theorem parse_unparse err l hs n b buflen :
  line_ok err l -> Forall header_ok hs -> NoDup (map fst hs) ->
  let pr := ParsedRequest (Some l) (map Some hs) n in
  let len := ParsedRequest_totalLen pr in
  Z.of_nat len <= MAX_REQ_LEN -> (buflen <= length b)%nat ->
  ((len <= buflen)%nat -> exists out,
     ParsedRequest_unparse pr b buflen = Ok (Some (splice 0 out b)) /\ length out = len /\
     exists cap, ParsedRequest_parse err ParsedRequest_create (splice 0 out b) (Z.of_nat len) =
       Ok (0, ParsedRequest (Some l) (map Some hs) cap)) /\
  ((buflen < len)%nat -> ParsedRequest_unparse pr b buflen = Ok None).
Proof.
  intros Hl Hhs Hnd pr len Hmax Hb.
  assert (Elen : len = length (render l hs)).
  { unfold len, ParsedRequest_totalLen, ParsedHeader_headersLen, pr. cbn [line headers].
    rewrite line_len, headers_len, live_some. unfold render. rewrite !length_app. lia. }
  unfold pr. rewrite unparse_ok, live_some, <-Elen by done.
  split; [|intros Hlen; by rewrite (proj2 (Nat.leb_gt _ _)) by lia].
  intros Hlen. rewrite (proj2 (Nat.leb_le _ _)) by lia.
  exists (render l hs). split; [done|]. split; [done|].
  rewrite Elen in *. apply parse_render; try done. lia.
Qed.

(** [GET http://h:80/x HTTP/1.0] with one header. *)
Definition example_line : request_line :=
  RequestLine (str "GET") (str "http") (str "h") (Some (str "80")) (str "/x") (str "HTTP/1.0").
Definition example_headers : list (buffer * buffer) := [(str "A", str "b")].

Lemma example_line_ok : line_ok 0 example_line.
Proof.
  split; cbn; repeat (split; [first [done | by apply (bool_decide_unpack _)]|]);
    try (by apply (bool_decide_unpack _)); try done.
  exists (str "x"). split; [done|]. split; [by apply (bool_decide_unpack _)|done].
Qed.

Lemma parse_unparse_witness :
  exists out cap, ParsedRequest_unparse
      (ParsedRequest (Some example_line) (map Some example_headers) 8) (replicate 64 0) 64 =
      Ok (Some (splice 0 out (replicate 64 0))) /\
    ParsedRequest_parse 0 ParsedRequest_create (splice 0 out (replicate 64 0)) 36 =
      Ok (0, ParsedRequest (Some example_line) (map Some example_headers) cap).
Proof.
  destruct (parse_unparse 0 example_line example_headers 8 (replicate 64 0) 64) as [H _].
  - exact example_line_ok.
  - constructor; [split; apply (bool_decide_unpack _); vm_compute; exact I|constructor].
  - apply (bool_decide_unpack _). vm_compute. exact I.
  - vm_compute. discriminate.
  - rewrite length_replicate. lia.
  - destruct H as (out & H1 & _ & cap & H2); [vm_compute; lia|].
    exists out, cap. split; [exact H1|exact H2].
Defined.

(** * The requests it goes wrong on *)

(** A request line with only two fields is not refused: the version is read
    from behind the end of the line's allocation. A header line without a colon
    takes its name from whatever lies between its start and the next colon of the
    request, line breaks included, with the value of that later header, which
    then counts a second time. And an empty value takes the next header line into
    the value, starting with the line feed. *)
Theorem parse_hazards err method addr k k2 v2 r pr :
  method <> [] -> addr <> [] ->
  free_of [SP; 13; 10; 0] method -> free_of [SP; 13; 10; 0] addr ->
  free_of [COLON; 13; 10; 0] k -> header_ok (k2, v2) ->
  headers_ok pr -> k ++ CRLF ++ k2 ∉ keys (headers pr) -> k ∉ keys (headers pr) ->
  parse_request_line err (method ++ SP :: addr) = Fault OutOfBounds /\
  (exists cap, ParsedHeader_parse pr (k ++ CRLF ++ render_header (k2, v2) ++ r) =
     Ok (0, ParsedRequest (line pr) (headers pr ++ [Some (k ++ CRLF ++ k2, v2)]) cap)) /\
  (exists cap, ParsedHeader_parse pr (k ++ COLON :: CRLF ++ render_header (k2, v2) ++ r) =
     Ok (0, ParsedRequest (line pr)
       (headers pr ++ [Some (k, 10 :: k2 ++ COLON :: SP :: v2)]) cap)).
Proof.
  intros Hm Ha Fm Fa Fk [Fk2 Fv2] Hok Hn1 Hn2. cbn in Fk2, Fv2. split; [|split].
  - unfold parse_request_line, parse_addr.
    rewrite strtok_delim; [|eapply free_of_sub; [exact Fm|set_solver]|done|set_solver].
    cbn [saved]. by rewrite strtok_end; [|eapply free_of_sub; [exact Fa|set_solver]|].
  - destruct (set_new pr (k ++ CRLF ++ k2) v2 Hok Hn1) as (cap & E & _). exists cap.
    unfold ParsedHeader_parse. rewrite render_header_split.
    replace (k ++ CRLF ++ k2 ++ COLON :: SP :: v2 ++ CRLF ++ r)
      with ((k ++ CRLF ++ k2) ++ COLON :: SP :: v2 ++ CRLF ++ r) by (by rewrite <-!app_assoc).
    assert (Hc : COLON ∉ k ++ CRLF ++ k2).
    { rewrite !elem_of_app. intros [Hx|[Hx|Hx]].
      - by apply (free_of_not _ k COLON Fk); [set_solver|].
      - unfold CRLF, COLON in Hx. set_solver.
      - by apply (free_of_not _ k2 COLON Fk2); [set_solver|]. }
    rewrite index_skip by done. cbn [length Nat.ltb Nat.leb drop]. rewrite drop_0.
    assert (Hs : strstr (v2 ++ CRLF ++ r) CRLF = Some (v2, CRLF ++ r))
      by (apply (strstr_skip v2 13 [10]); by apply (free_of_not _ v2 13 Fv2); set_solver).
    by rewrite Hs, E.
  - set (val := 10 :: k2 ++ COLON :: SP :: v2).
    destruct (set_new pr k val Hok Hn2) as (cap & E & _). exists cap.
    unfold ParsedHeader_parse.
    rewrite index_skip by (by apply (free_of_not _ k COLON Fk); set_solver).
    cbn [CRLF app length Nat.ltb Nat.leb drop]. rewrite ?drop_0, render_header_split.
    assert (Hs : strstr (10 :: k2 ++ COLON :: SP :: v2 ++ CRLF ++ r) CRLF = Some (val, CRLF ++ r)).
    { replace (10 :: k2 ++ COLON :: SP :: v2 ++ CRLF ++ r) with (val ++ CRLF ++ r)
        by (unfold val; cbn [app]; by rewrite <-app_assoc).
      apply (strstr_skip val 13 [10]). unfold val, COLON, SP.
      rewrite !elem_of_cons, elem_of_app, !elem_of_cons.
      intros [Hx|[Hx|[Hx|[Hx|Hx]]]]; try done.
      - by apply (free_of_not _ k2 13 Fk2); [set_solver|].
      - by apply (free_of_not _ v2 13 Fv2); [set_solver|]. }
    by rewrite Hs, E.
Qed.

Lemma parse_hazards_witness :
  parse_request_line 0 (str "GET" ++ SP :: str "http://h/") = Fault OutOfBounds /\
  exists cap, ParsedHeader_parse ParsedRequest_create
      (str "Bad" ++ CRLF ++ render_header (str "Host", str "h") ++ CRLF) =
    Ok (0, ParsedRequest None [Some (str "Bad" ++ CRLF ++ str "Host", str "h")] cap).
Proof.
  destruct (parse_hazards 0 (str "GET") (str "http://h/") (str "Bad") (str "Host")
    (str "h") CRLF ParsedRequest_create) as (H1 & H2 & _).
  - discriminate.
  - discriminate.
  - apply (bool_decide_unpack _). vm_compute. exact I.
  - apply (bool_decide_unpack _). vm_compute. exact I.
  - apply (bool_decide_unpack _). vm_compute. exact I.
  - split; apply (bool_decide_unpack _); vm_compute; exact I.
  - split; [constructor|]. unfold headersused, ParsedRequest_create, DEFAULT_NHDRS. simpl. lia.
  - apply not_elem_of_nil.
  - apply not_elem_of_nil.
  - split; [exact H1|exact H2].
Defined.
