(* ===== verification/Proxy.v ===== *)
(** The HTTP proxy: http-proxy/src/proxy.c. The operating system answers its
    calls by lists of outcomes, one per call. *)
From S2P Require Import Prelude Sockets CString HttpParse.

Definition RECV_BUFFER_SIZE : nat := 2048.

(** * Receiving and sending *)

(** ** [receive_from_socket] *)

(** The four characters that end a header, just before [total]. *)
Definition ends_header (total : Z) (buf : buffer) : bool :=
  (total >=? 4) && bool_decide (slice (Z.to_nat (total - 4)) 4 buf = CRLF ++ CRLF).

(** The loop: an interrupted call counts as -1 bytes. The arithmetic is that of
    [ssize_t]; the length asked for is [RECV_BUFFER_SIZE - total]. *)
Fixpoint receive_loop (fuel : nat) (s : sock) (total : Z) (buf : buffer)
  : res (Z * buffer * sock) :=
  match fuel with
  | O => Fault OutOfFuel
  | S fuel =>
      '(r, s) ← recv s (Z.to_nat (Z.of_nat RECV_BUFFER_SIZE - total));
      match r with
      | IoOk [] => Ok (total, buf, s)
      | IoOk data =>
          buf ← (if total <? 0 then Fault OutOfBounds else wr (Z.to_nat total) data buf);
          let total := total + Z.of_nat (length data) in
          if ends_header total buf then Ok (total, buf, s) else receive_loop fuel s total buf
      | IoErr err =>
          if negb (err =? EINTR) then Ok (-1, buf, s)
          else
            let total := total - 1 in
            if ends_header total buf then Ok (-1, buf, s) else receive_loop fuel s total buf
      end
  end.

(** Enough turns for what the socket will deliver. *)
Definition recv_work (s : sock) : nat :=
  S (sum_list_with (fun e => match e with RData b => S (S (length b)) | _ => 2%nat end) (s_in s)).
Definition receive_from_socket (s : sock) (buf : buffer) : res (Z * buffer * sock) :=
  receive_loop (recv_work s) s 0 buf.

(** ** [send_to_socket] *)

Fixpoint send_loop (fuel : nat) (s : sock) (total : Z) (buf : buffer) (size : Z)
  : res (Z * sock) :=
  match fuel with
  | O => Fault OutOfFuel
  | S fuel =>
      if total <? size then
        data ← (if total <? 0 then Fault OutOfBounds
                else rd (Z.to_nat total) (Z.to_nat (size - total)) buf);
        '(r, s) ← send s data;
        match r with
        | IoOk sent => send_loop fuel s (total + Z.of_nat (length sent)) buf size
        | IoErr err =>
            if negb (err =? EINTR) then Ok (-1, close s)
            else send_loop fuel s (total - 1) buf size
        end
      else Ok (0, s)
  end.
Definition send_to_socket (s : sock) (buf : buffer) (size : Z) : res (Z * sock) :=
  send_loop (S (S (length (s_sends s)))) s 0 buf size.

(** * [parse_request] *)

(** [snprintf(buffer, size, ...)] of a string whose conversion is [out]: what
    fits, and a NUL. *)
Definition snprintf (buf : buffer) (size : nat) (out : buffer) : res buffer :=
  match size with
  | O => Ok buf
  | S m => wr 0 (take m out ++ [0]) buf
  end.

Definition get_request (path host : buffer) : buffer :=
  str "GET " ++ path ++ str " HTTP/1.0" ++ CRLF ++ str "Host: " ++ host ++ CRLF ++
  str "Connection: close" ++ CRLF ++ CRLF.

Definition default_port (l : request_line) : request_line :=
  RequestLine (method l) (protocol l) (host l)
    (Some (match port l with Some p => p | None => str "80" end)) (path l) (version l).

(** The result is the length of the request to forward, which is then in the
    buffer, or the negative of a code; with it, the request parsed ([None] once
    it has been destroyed). *)
Definition parse_request (err : Z) (buf : buffer) (buffer_size req_len : Z)
  : res (Z * buffer * option request_line) :=
  '(r, req) ← ParsedRequest_parse err ParsedRequest_create buf req_len;
  if r <? 0 then Ok (-400, buf, None)
  else
    match line req with
    | None => Fault NullDeref
    | Some l =>
        let l := default_port l in
        if negb (strcmp_eq (method l) (str "GET")) then Ok (-501, buf, None)
        else
          let out := get_request (path l) (host l) in
          let len := Z.of_nat (length out) in
          buf ← snprintf buf (Z.to_nat buffer_size) out;
          if len >=? buffer_size then Ok (-1, buf, None) else Ok (len, buf, Some l)
    end.

(** * Setting up *)

(** What the calls on one address answer: the descriptor of [socket], and whether
    [setsockopt], [bind] and [connect] succeed. *)
Record addrinfo := Addrinfo {
  ai_socket : option Z; ai_setsockopt : bool; ai_bind : bool; ai_connect : bool }.

(** [find_server_socket_binding] and [find_client_socket_binding]: the result, and
    the descriptors closed on the way. *)
Fixpoint find_server_socket_binding (servinfo : list addrinfo) : Z * list Z :=
  match servinfo with
  | [] => (-1, [])
  | p :: servinfo =>
      match ai_socket p with
      | None => find_server_socket_binding servinfo
      | Some sockfd =>
          if negb (ai_setsockopt p) || negb (ai_bind p)
          then let '(r, closed) := find_server_socket_binding servinfo in (r, sockfd :: closed)
          else (sockfd, [])
      end
  end.
Fixpoint find_client_socket_binding (servinfo : list addrinfo) : Z * list Z :=
  match servinfo with
  | [] => (-1, [])
  | p :: servinfo =>
      match ai_socket p with
      | None => find_client_socket_binding servinfo
      | Some sockfd =>
          if negb (ai_connect p)
          then let '(r, closed) := find_client_socket_binding servinfo in (r, sockfd :: closed)
          else (sockfd, [])
      end
  end.

(** [proxy_server_socket_setup] and [proxy_client_socket_setup], given what
    [getaddrinfo] and [listen] answer. *)
Definition proxy_server_socket_setup (servinfo : option (list addrinfo)) (listen : bool)
  : Z * list Z :=
  match servinfo with
  | None => (-1, [])
  | Some servinfo =>
      let '(sockfd, closed) := find_server_socket_binding servinfo in
      if sockfd <? 0 then (-1, closed)
      else if negb listen then (-1, closed ++ [sockfd])
      else (sockfd, closed)
  end.
Definition proxy_client_socket_setup (servinfo : option (list addrinfo)) : Z * list Z :=
  match servinfo with
  | None => (-1, [])
  | Some servinfo =>
      let '(sockfd, closed) := find_client_socket_binding servinfo in
      if sockfd <? 0 then (-1, closed) else (sockfd, closed)
  end.

(** * The conversation with one client *)

Definition bad_request : buffer := str "HTTP/1.0 400 Bad Request" ++ CRLF ++ CRLF.
Definition not_implemented : buffer := str "HTTP/1.0 501 Not Implemented" ++ CRLF ++ CRLF.

Section chat.
(** What [errno] holds before a port is converted, and what the set-up of the
    connection to a host and port gives. *)
Context (err : Z) (connect : buffer -> buffer -> option sock).

(** [chat_with_client]: the result, the client's socket and the server's, if
    there is one; [client_buffer] and [server_buffer] are the arrays on the
    stack. *)
Definition chat_with_client (client : sock) (client_buffer server_buffer : buffer)
  : res (Z * sock * option sock) :=
  '(total, client_buffer, client) ← receive_from_socket client client_buffer;
  if total <? 0 then Ok (-1, client, None)
  else
    '(req_len, client_buffer, req) ←
      parse_request err client_buffer (Z.of_nat RECV_BUFFER_SIZE) total;
    if req_len <? 0 then
      if req_len =? -400 then
        '(_, client) ← send_to_socket client bad_request (Z.of_nat (length bad_request));
        mret (-1, client, None)
      else if req_len =? -501 then
        '(_, client) ← send_to_socket client not_implemented (Z.of_nat (length not_implemented));
        mret (-1, client, None)
      else Ok (-1, client, None)
    else
      match req with
      | None => Fault UseAfterFree
      | Some l =>
          match connect (host l) (default [] (port l)) with
          | None => Ok (-1, client, None)
          | Some server =>
              '(r, server) ← send_to_socket server client_buffer req_len;
              if r <? 0 then Ok (-1, client, Some server)
              else
                '(total, server_buffer, server) ← receive_from_socket server server_buffer;
                if total <? 0 then Ok (-1, client, Some server)
                else
                  '(r, client) ← send_to_socket client server_buffer total;
                  if r <? 0 then Ok (-1, client, Some server)
                  else Ok (0, client, Some (close server))
          end
      end.
End chat.

(** ** The accept loop *)

Inductive accept_event := AcceptErr (err : Z) | Accepted (clientfd : Z).
Inductive fork_event := ForkFailed | ForkChild | ForkParent.
Inductive proxy_action := Close (fd : Z) | Chat (fd : Z) | Exit.

(** The inner loop of [proxy]: accept until a client comes. *)
Fixpoint accept_client (events : list accept_event) : res (Z * list accept_event) :=
  match events with
  | [] => Fault Blocked
  | AcceptErr _ :: events => accept_client events
  | Accepted clientfd :: events => Ok (clientfd, events)
  end.

(** A turn of the loop of [proxy]. *)
Definition proxy_turn (sockfd : Z) (events : list accept_event) (fork : fork_event)
  : res (list proxy_action * list accept_event) :=
  '(clientfd, events) ← accept_client events;
  mret (match fork with
    | ForkFailed => [Close clientfd]
    | ForkChild => [Close sockfd; Chat clientfd; Close clientfd; Exit]
    | ForkParent => [Close clientfd]
    end, events).
