(* ===== verification/ProxyProps.v ===== *)
(** What the HTTP proxy does for a client, and what interrupted calls and
    responses in several pieces make of it. *)
From S2P Require Import Prelude Sockets CString HttpParse HttpProps Proxy.
#[local] Set Warnings "-clear-no-such-hyp".

(** * Receiving *)

(** A message ends with an empty line. *)
Definition ends_with_blank (m : buffer) : bool :=
  (4 <=? length m)%nat && bool_decide (drop (length m - 4) m = CRLF ++ CRLF).

(** What [receive_from_socket] takes from an uninterrupted stream after [acc], whole
    message or not: up to the first piece that ends with an empty line, the end of
    the stream, or the size of the buffer. *)
Fixpoint received (acc : buffer) (events : list recv_event) : option buffer :=
  match events with
  | [] => None
  | RData b :: events =>
      let room := (RECV_BUFFER_SIZE - length acc)%nat in
      let acc' := acc ++ take room b in
      if (room =? 0)%nat then Some acc
      else if ends_with_blank acc' then Some acc'
      else if (room <? length b)%nat then Some acc'
      else received acc' events
  | _ :: _ => Some acc
  end.

(** ** What that is, of a stream in pieces *)

(** Nothing is cut off at the end of a piece before piece [i]. *)
Definition no_blank_before (i : nat) (pieces : list buffer) : Prop :=
  forall j, (j < i)%nat -> ends_with_blank (concat (take j pieces)) = false.

Lemma received_acc pieces rest : forall acc i,
  Forall (fun b => b <> []) pieces -> (length acc <= RECV_BUFFER_SIZE)%nat ->
  ends_with_blank acc = false -> (i <= length pieces)%nat ->
  (forall j, (j < i)%nat -> ends_with_blank (acc ++ concat (take j pieces)) = false) ->
  (i = length pieces /\ head rest = Some REof \/
   ends_with_blank (acc ++ concat (take i pieces)) = true) ->
  received acc (map RData pieces ++ rest) =
    Some (take RECV_BUFFER_SIZE (acc ++ concat (take i pieces))).
Proof.
  induction pieces as [|b pieces IH]; intros acc i Hne Hl Hb Hi Hbefore Hend.
  { assert (i = 0%nat) as -> by (simpl in Hi; lia). cbn [take concat] in *.
    rewrite app_nil_r in *. destruct Hend as [[_ Hr]|He]; [|congruence].
    destruct rest as [|[] rest]; try done. cbn. by rewrite take_ge. }
  apply Forall_cons in Hne as [Hb0 Hne]. destruct i as [|i].
  { cbn [take concat] in Hend. rewrite app_nil_r in Hend. destruct Hend as [[? _]|?]; [done|congruence]. }
  cbn [map app received take concat]. set (room := (RECV_BUFFER_SIZE - length acc)%nat).
  destruct (Nat.eqb_spec room 0) as [Hr|Hr].
  { f_equal. rewrite take_app_le, take_ge by (unfold room in Hr; lia). done. }
  destruct (Nat.le_gt_cases (length b) room) as [Hfit|Hbig].
  - rewrite (take_ge b) by done. rewrite (proj2 (Nat.ltb_ge _ _)) by done.
    assert (Hl' : (length (acc ++ b) <= RECV_BUFFER_SIZE)%nat)
      by (rewrite length_app; unfold room in Hfit; lia).
    destruct (ends_with_blank (acc ++ b)) eqn:Eb.
    + destruct i as [|i]; [cbn; by rewrite app_nil_r, take_ge|].
      specialize (Hbefore 1%nat ltac:(lia)). cbn in Hbefore. rewrite app_nil_r in Hbefore. congruence.
    + rewrite app_assoc. apply IH; [done|done|done|simpl in Hi; lia| |].
      * intros j Hj. rewrite <-app_assoc. apply (Hbefore (S j)). lia.
      * rewrite <-app_assoc. destruct Hend as [[Ei Hrest]|He]; [left|by right].
        injection Ei as ->. done.
  - assert (E : take RECV_BUFFER_SIZE (acc ++ b ++ concat (take i pieces)) = acc ++ take room b).
    { rewrite take_app_ge by lia. fold room. by rewrite take_app_le by lia. }
    rewrite E, (proj2 (Nat.ltb_lt _ _)) by done.
    by destruct (ends_with_blank (acc ++ take room b)).
Qed.

Lemma received_pieces pieces rest i :
  Forall (fun b => b <> []) pieces -> (i <= length pieces)%nat -> no_blank_before i pieces ->
  (i = length pieces /\ head rest = Some REof \/
   ends_with_blank (concat (take i pieces)) = true) ->
  received [] (map RData pieces ++ rest) = Some (take RECV_BUFFER_SIZE (concat (take i pieces))).
Proof. intros. by apply (received_acc pieces rest [] i); [|cbn; lia| | | |]. Qed.

(** Where a stream in pieces is cut. *)
Lemma first_blank pieces :
  exists i, (i <= length pieces)%nat /\ no_blank_before i pieces /\
    (i = length pieces \/ ends_with_blank (concat (take i pieces)) = true).
Proof.
  assert (H : forall k, (k <= length pieces)%nat ->
    no_blank_before k pieces \/ exists i, (i < k)%nat /\ no_blank_before i pieces /\
      ends_with_blank (concat (take i pieces)) = true).
  { induction k as [|k IH]; intros Hk; [left; intros j Hj; lia|].
    destruct IH as [Hb|(i & Hi & Hb & He)]; [lia| |right; exists i; split; [lia|done]].
    destruct (ends_with_blank (concat (take k pieces))) eqn:E; [right; exists k; split; [lia|done]|left].
    intros j Hj. destruct (decide (j = k)) as [->|]; [done|]. apply Hb. lia. }
  destruct (H (length pieces) ltac:(lia)) as [Hb|(i & Hi & Hb & He)].
  - exists (length pieces). auto.
  - exists i. split; [lia|auto].
Qed.

(** ** A request has no empty line before its end *)

(** Lines that are not empty, and an empty one. *)
Definition text (lines : list buffer) : buffer := concat (map (fun x => x ++ CRLF) lines) ++ CRLF.

Lemma text_blank lines n :
  Forall (fun x => x <> [] /\ free_of [10] x) lines ->
  text lines !! n = Some 10 -> text lines !! (n + 2)%nat = Some 10 ->
  length (text lines) = (n + 3)%nat.
Proof.
  revert n. induction lines as [|x lines IH]; intros n Hl H1 H2.
  { apply lookup_lt_Some in H2. cbn in *. lia. }
  apply Forall_cons in Hl as [[Hx Hf] Hl].
  assert (E : text (x :: lines) = x ++ 13 :: 10 :: text lines)
    by (unfold text; cbn; by rewrite <-!app_assoc).
  rewrite E in *. rewrite length_app. cbn [length].
  assert (Hlf : forall y m, free_of [10] y -> y !! m <> Some 10).
  { intros y m Hy Hm. apply (proj1 (Forall_lookup _ _) Hy) in Hm. set_solver. }
  destruct (Nat.lt_ge_cases n (length x)) as [Hn|Hn].
  { rewrite lookup_app_l in H1 by done. by apply Hlf in H1. }
  rewrite lookup_app_r in H1, H2 by lia.
  destruct (n - length x)%nat as [|[|k]] eqn:Ek; [done| |].
  - replace (n + 2 - length x)%nat with 3%nat in H2 by lia. cbn in H2.
    destruct lines as [|y lines]; [cbn; lia|].
    assert (Ey : text (y :: lines) = y ++ 13 :: 10 :: text lines)
      by (unfold text; cbn; by rewrite <-!app_assoc). rewrite Ey in H2.
    apply Forall_cons in Hl as [[Hy Hfy] _].
    destruct y as [|y0 [|y1 y]]; [done|done|]. exfalso. by apply (Hlf (y0 :: y1 :: y) 1%nat).
  - replace (n + 2 - length x)%nat with (S (S (k + 2))) in H2 by lia. cbn in H1, H2.
    rewrite (IH k Hl H1 H2). lia.
Qed.

Lemma render_text l hs :
  render l hs = text (render_line l :: map (fun h => h.1 ++ str ": " ++ h.2) hs).
Proof.
  unfold render, render_headers, text. cbn [map concat]. rewrite <-!app_assoc.
  assert (E : map render_header hs = map (fun x => x ++ CRLF) (map (fun h => h.1 ++ str ": " ++ h.2) hs)).
  { rewrite map_map. apply map_ext. intros [k v]. unfold render_header. by rewrite <-!app_assoc. }
  by rewrite E.
Qed.

Lemma render_blank_end err l hs m :
  line_ok err l -> Forall header_ok hs -> m `prefix_of` render l hs ->
  ends_with_blank m = true -> m = render l hs.
Proof.
  intros Hl Hhs [k Hk] He. unfold ends_with_blank in He. apply andb_true_iff in He as [H4 Hb].
  apply Nat.leb_le in H4. apply bool_decide_eq_true in Hb.
  assert (Hat : forall j c, (CRLF ++ CRLF) !! j = Some c ->
    render l hs !! (length m - 4 + j)%nat = Some c).
  { intros j c Hj. rewrite <-Hb, lookup_drop in Hj. rewrite Hk, lookup_app_l; [done|].
    by eapply lookup_lt_Some. }
  pose proof (Hat 1%nat 10 eq_refl) as H1. pose proof (Hat 3%nat 10 eq_refl) as H3.
  rewrite render_text in H1, H3.
  replace (length m - 4 + 3)%nat with (length m - 4 + 1 + 2)%nat in H3 by lia.
  apply text_blank in H3; [|clear -Hl Hhs|exact H1].
  - rewrite <-render_text, Hk, length_app in H3.
    assert (k = []) as -> by (destruct k; [done|simpl in H3; lia]). by rewrite Hk, app_nil_r.
  - apply Forall_cons. split.
    + split; [|eapply free_of_sub; [by eapply line_free|set_solver]].
      unfold render_line. destruct (lo_method _ _ Hl) as [Hm _]. by destruct (method l).
    + apply Forall_map. eapply Forall_impl; [exact Hhs|]. intros [x v] [Hx Hv]. cbn in *.
      split; [by destruct x|]. apply free_of_app. split; [eapply free_of_sub; [exact Hx|set_solver]|].
      do 2 (constructor; [by vm_compute; set_solver|]). eapply free_of_sub; [exact Hv|set_solver].
Qed.

Lemma text_end x lines : exists u, text (x :: lines) = u ++ CRLF ++ CRLF.
Proof.
  revert x. induction lines as [|y lines IH]; intros x.
  - exists x. unfold text. cbn [map concat]. by rewrite app_nil_r, <-app_assoc.
  - destruct (IH y) as [u Hu]. exists (x ++ CRLF ++ u).
    assert (E : text (x :: y :: lines) = x ++ CRLF ++ text (y :: lines))
      by (unfold text; cbn [map concat]; by rewrite <-!app_assoc).
    by rewrite E, Hu, <-!app_assoc.
Qed.

Lemma ends_with_blank_app u : ends_with_blank (u ++ CRLF ++ CRLF) = true.
Proof.
  unfold ends_with_blank. rewrite length_app. change (length (CRLF ++ CRLF)) with 4%nat.
  rewrite (proj2 (Nat.leb_le _ _)) by lia. cbn [andb]. apply bool_decide_eq_true.
  replace (length u + 4 - 4)%nat with (length u) by lia. by rewrite drop_app_length.
Qed.

(** A request, however it is cut into pieces, is received whole. *)
Lemma received_request err l hs pieces rest :
  line_ok err l -> Forall header_ok hs -> Forall (fun b => b <> []) pieces ->
  concat pieces = render l hs -> (length (render l hs) <= RECV_BUFFER_SIZE)%nat ->
  received [] (map RData pieces ++ rest) = Some (render l hs).
Proof.
  intros Hl Hhs Hne Hc Hlen.
  assert (Hend : ends_with_blank (concat pieces) = true).
  { rewrite Hc, render_text. destruct (text_end (render_line l)
      (map (fun h => h.1 ++ str ": " ++ h.2) hs)) as [u ->]. apply ends_with_blank_app. }
  rewrite (received_pieces pieces rest (length pieces)); [|done|done| |right].
  - by rewrite (take_ge pieces), Hc, take_ge.
  - intros j Hj. destruct (ends_with_blank (concat (take j pieces))) eqn:E; [|done].
    apply (render_blank_end err l hs) in E; [|done|done|].
    2:{ rewrite <-Hc. exists (concat (drop j pieces)). by rewrite <-concat_app, take_drop. }
    assert (Hp : concat pieces = concat (take j pieces) ++ concat (drop j pieces))
      by (by rewrite <-concat_app, take_drop).
    rewrite <-Hc, Hp in E. apply (f_equal length) in E. rewrite length_app in E.
    destruct (drop j pieces) as [|b q] eqn:Ed.
    { apply (f_equal length) in Ed. rewrite length_drop in Ed. simpl in Ed. lia. }
    assert (Hb : b <> []).
    { apply (Forall_drop _ j) in Hne. rewrite Ed in Hne. by apply Forall_cons in Hne as [? _]. }
    destruct b; [done|]. cbn in E. lia.
  - by rewrite (take_ge pieces).
Qed.

(** No call fails, and no piece is empty. *)
Definition uninterrupted (events : list recv_event) : Prop :=
  Forall (fun e => match e with RData b => b <> [] | REof => True | RErr _ => False end) events.

Lemma ends_header_eq m b :
  (length m <= length b)%nat ->
  ends_header (Z.of_nat (length m)) (splice 0 m b) = ends_with_blank m.
Proof.
  intros Hl. unfold ends_header, ends_with_blank.
  destruct (Nat.leb_spec 4 (length m)) as [H4|H4].
  - rewrite Z.geb_leb, (proj2 (Z.leb_le _ _)) by lia. cbn [andb].
    replace (Z.to_nat (Z.of_nat (length m) - 4)) with (length m - 4)%nat by lia.
    assert (E : slice (length m - 4) 4 (splice 0 m b) = drop (length m - 4) m); [|by rewrite E].
    unfold splice. rewrite take_0. cbn [app]. rewrite slice_app_l by lia.
    unfold slice. rewrite take_ge; [done|]. rewrite length_drop. lia.
  - rewrite Z.geb_leb, (proj2 (Z.leb_gt _ _)) by lia. done.
Qed.

(** What a turn leaves of a socket it only reads. *)
Definition same_sends (s s' : sock) : Prop :=
  s_sends s' = s_sends s /\ s_out s' = s_out s /\ s_closed s' = s_closed s.

Lemma receive_loop_ok events s acc b fuel :
  s_in s = events -> uninterrupted events -> (length acc <= RECV_BUFFER_SIZE)%nat ->
  length b = RECV_BUFFER_SIZE -> (recv_work s <= fuel)%nat ->
  match received acc events with
  | Some m => exists s', receive_loop fuel s (Z.of_nat (length acc)) (splice 0 acc b) =
      Ok (Z.of_nat (length m), splice 0 m b, s') /\ same_sends s s' /\
      (length m <= RECV_BUFFER_SIZE)%nat
  | None => receive_loop fuel s (Z.of_nat (length acc)) (splice 0 acc b) = Fault Blocked
  end.
Proof.
  revert s acc fuel. induction events as [|e events IH]; intros s acc fuel Hs Hu Ha Hb Hf;
    (destruct fuel as [|fuel]; [unfold recv_work in Hf; lia|]); cbn [receive_loop received].
  { unfold recv. by rewrite Hs. }
  apply Forall_cons in Hu as [He Hu]. unfold recv. rewrite Hs.
  replace (Z.to_nat (Z.of_nat RECV_BUFFER_SIZE - Z.of_nat (length acc)))
    with (RECV_BUFFER_SIZE - length acc)%nat by lia.
  destruct e as [data| |err]; [|by exists s|done].
  set (room := (RECV_BUFFER_SIZE - length acc)%nat). set (s1 := Sock _ _ _ _).
  assert (Hsame : same_sends s s1) by done. cbn [mbind res_bind].
  destruct (Nat.eqb_spec room 0) as [Hz|Hz].
  { rewrite Hz. cbn [take]. by exists s1. }
  destruct (take room data) as [|c d] eqn:Et.
  { destruct data; [done|]. by destruct room. }
  rewrite <-Et. set (acc' := acc ++ take room data).
  assert (Hlen : (length acc + length (take room data) <= RECV_BUFFER_SIZE)%nat)
    by (rewrite length_take; unfold room; lia).
  rewrite (proj2 (Z.ltb_ge _ _)) by lia. rewrite Nat2Z.id.
  rewrite wr_ok by (rewrite length_splice; simpl; lia). cbn [mbind res_bind].
  rewrite (splice_adjacent 0 acc) by (simpl; lia). fold acc'.
  replace (Z.of_nat (length acc) + Z.of_nat (length (take room data)))
    with (Z.of_nat (length acc')) by (unfold acc'; rewrite length_app; lia).
  assert (Hacc' : (length acc' <= RECV_BUFFER_SIZE)%nat) by (unfold acc'; rewrite length_app; lia).
  rewrite ends_header_eq by lia. destruct (ends_with_blank acc'); [by exists s1|].
  destruct (Nat.ltb_spec room (length data)) as [Hr|Hr].
  - destruct fuel as [|fuel].
    { unfold recv_work in Hf. rewrite Hs in Hf. cbn [sum_list_with] in Hf. lia. }
    assert (Hfull : length acc' = RECV_BUFFER_SIZE)
      by (unfold acc', room; rewrite length_app, length_take; unfold room in Hr; lia).
    cbn [receive_loop]. unfold recv. cbn [s_in s1]. rewrite Hfull, Z.sub_diag.
    cbn [Z.to_nat take mbind res_bind]. by eexists.
  - apply (IH s1); [done|done|done|done|].
    unfold recv_work in *. rewrite Hs in Hf. cbn [sum_list_with s_in s1] in *. lia.
Qed.

(** ** Sending *)

Lemma drop_splice_end {A} (m b : list A) k :
  (length m <= length b)%nat -> (k <= length m)%nat ->
  slice k (length m - k) (splice 0 m b) = drop k m.
Proof.
  intros Hl Hk. unfold splice. rewrite take_0. cbn [app]. rewrite slice_app_l by lia.
  unfold slice. rewrite take_ge; [done|]. rewrite length_drop. lia.
Qed.

(** With calls that each take something, everything goes out. *)
Lemma send_loop_ok ns s k m b fuel :
  s_sends s = map SSent ns -> Forall (fun n => 0 < n)%nat ns -> (k <= length m)%nat ->
  (length m <= k + length ns)%nat -> (length m <= length b)%nat -> (length ns < fuel)%nat ->
  exists s', send_loop fuel s (Z.of_nat k) (splice 0 m b) (Z.of_nat (length m)) = Ok (0, s') /\
    s_out s' = s_out s ++ drop k m /\ s_closed s' = s_closed s /\ s_in s' = s_in s.
Proof.
  revert s k fuel. induction ns as [|n ns IH]; intros s k fuel Hs Hns Hk Hm Hb Hf;
    (destruct fuel as [|fuel]; [lia|]); cbn [send_loop].
  - simpl in Hm. rewrite (proj2 (Z.ltb_ge _ _)) by lia. exists s. split; [done|].
    by rewrite drop_ge, app_nil_r by lia.
  - destruct (Z.ltb_spec (Z.of_nat k) (Z.of_nat (length m))) as [Hlt|Hge].
    2:{ exists s. split; [done|]. by rewrite drop_ge, app_nil_r by lia. }
    apply Forall_cons in Hns as [Hn Hns].
    rewrite (proj2 (Z.ltb_ge _ _)) by lia. rewrite Nat2Z.id.
    replace (Z.to_nat (Z.of_nat (length m) - Z.of_nat k)) with (length m - k)%nat by lia.
    rewrite rd_ok by (rewrite length_splice; simpl; lia).
    rewrite drop_splice_end by lia. cbn [mbind res_bind]. unfold send. rewrite Hs.
    cbn [map mbind res_bind].
    set (sent := take n (drop k m)). set (s1 := Sock _ _ _ _).
    assert (Hsent : (0 < length sent)%nat /\ (k + length sent <= length m)%nat)
      by (unfold sent; rewrite length_take, length_drop; lia).
    rewrite <-Nat2Z.inj_add.
    destruct (IH s1 (k + length sent)%nat fuel) as (s' & E & Ho & Hc & Hi);
      [done|done|lia|simpl in Hm; lia|done|simpl in Hf; lia|].
    exists s'. split; [exact E|]. split; [|done]. rewrite Ho. cbn [s_out s1].
    rewrite <-app_assoc. f_equal. rewrite <-drop_drop. unfold sent.
    rewrite length_take. destruct (Nat.le_gt_cases n (length (drop k m))) as [Hle|Hgt].
    + rewrite Nat.min_l by done. apply take_drop.
    + rewrite Nat.min_r, take_ge, (drop_ge _ (length (drop k m))) by lia. apply app_nil_r.
Qed.

(** The same of the functions themselves. *)
Lemma receive_from_socket_ok s b :
  uninterrupted (s_in s) -> length b = RECV_BUFFER_SIZE ->
  match received [] (s_in s) with
  | Some m => exists s', receive_from_socket s b = Ok (Z.of_nat (length m), splice 0 m b, s') /\
      same_sends s s' /\ (length m <= RECV_BUFFER_SIZE)%nat
  | None => receive_from_socket s b = Fault Blocked
  end.
Proof.
  intros Hu Hb. unfold receive_from_socket.
  pose proof (receive_loop_ok (s_in s) s [] b (recv_work s) eq_refl Hu) as H.
  rewrite splice_nil in H. exact (H (Nat.le_0_l _) Hb (le_n _)).
Qed.

Lemma send_to_socket_ok ns s m b :
  s_sends s = map SSent ns -> Forall (fun n => 0 < n)%nat ns ->
  (length m <= length ns)%nat -> (length m <= length b)%nat ->
  exists s', send_to_socket s (splice 0 m b) (Z.of_nat (length m)) = Ok (0, s') /\
    s_out s' = s_out s ++ m /\ s_closed s' = s_closed s /\ s_in s' = s_in s.
Proof.
  intros Hs Hn Hm Hb. unfold send_to_socket.
  destruct (send_loop_ok ns s 0%nat m b (S (S (length (s_sends s)))))
    as (s' & E & Ho & Hc & Hi); [done|done|lia|lia|lia|rewrite Hs, length_map; lia|].
  exists s'. rewrite drop_0 in Ho. done.
Qed.

(** On a stream without errors [receive_from_socket] takes exactly the
    message that its stopping rule describes and puts it at the start of the
    buffer, without storing outside it; it waits only when the stream stops short
    of one; and sending it back sends every byte once and in order, however
    little each call takes. *)
Theorem receive_send_exact s b :
  uninterrupted (s_in s) -> length b = RECV_BUFFER_SIZE ->
  match received [] (s_in s) with
  | Some m => exists s', receive_from_socket s b = Ok (Z.of_nat (length m), splice 0 m b, s') /\
      (length m <= RECV_BUFFER_SIZE)%nat /\ same_sends s s' /\
      forall ns, s_sends s = map SSent ns -> Forall (fun n => 0 < n)%nat ns ->
        (length m <= length ns)%nat ->
        exists s2, send_to_socket s' (splice 0 m b) (Z.of_nat (length m)) = Ok (0, s2) /\
          s_out s2 = s_out s ++ m /\ s_closed s2 = s_closed s
  | None => receive_from_socket s b = Fault Blocked
  end.
Proof.
  intros Hu Hb. pose proof (receive_from_socket_ok s b Hu Hb) as H.
  destruct (received [] (s_in s)) as [m|]; [|exact H].
  destruct H as (s' & E & Hs & Hm). exists s'. split; [exact E|]. split; [done|].
  split; [done|]. intros ns Hns Hpos Hl. destruct Hs as (S1 & S2 & S3).
  rewrite <-S1 in Hns.
  destruct (send_to_socket_ok ns s' m b) as (s2 & E2 & O2 & C2 & _); [done|done|lia|lia|].
  exists s2. rewrite E2, O2, C2, S2. done.
Qed.

Lemma receive_send_exact_witness :
  exists s', receive_from_socket (Sock [RData [65; 13]; RData [10; 13; 10]; RData [66]]
      (map SSent (replicate 8 2%nat)) [] false) (replicate RECV_BUFFER_SIZE 0) =
    Ok (5, splice 0 [65; 13; 10; 13; 10] (replicate RECV_BUFFER_SIZE 0), s').
Proof.
  pose proof (receive_send_exact (Sock [RData [65; 13]; RData [10; 13; 10]; RData [66]]
    (map SSent (replicate 8 2%nat)) [] false) (replicate RECV_BUFFER_SIZE 0)) as H.
  cbn [s_in] in H.
  assert (E : received [] [RData [65; 13]; RData [10; 13; 10]; RData [66]] =
    Some [65; 13; 10; 13; 10]) by (vm_compute; reflexivity).
  rewrite E in H. destruct H as (s' & H & _).
  - repeat constructor; discriminate.
  - apply length_replicate.
  - exists s'. exact H.
Defined.

(** * The conversation *)

Lemma splice_prefix {A} (m z b : list A) :
  (length m + length z <= length b)%nat ->
  splice 0 m (splice 0 (m ++ z) b) = splice 0 (m ++ z) b.
Proof.
  intros H. apply list_eq. intros i.
  rewrite !lookup_splice by (rewrite ?length_splice, ?length_app; simpl; rewrite ?length_app; lia).
  rewrite length_app. repeat case_decide; try lia; try done.
  rewrite Nat.sub_0_r, lookup_app_l by lia. done.
Qed.

(** A request for [GET] becomes the request that is forwarded. *)
Lemma parse_request_get err l hs b :
  line_ok err l -> Forall header_ok hs -> NoDup (map fst hs) -> method l = str "GET" ->
  let r := render l hs in
  let out := get_request (path l) (host l) in
  (length r <= RECV_BUFFER_SIZE)%nat -> length b = RECV_BUFFER_SIZE ->
  (length out < RECV_BUFFER_SIZE)%nat ->
  exists b', parse_request err (splice 0 r b) (Z.of_nat RECV_BUFFER_SIZE) (Z.of_nat (length r)) =
      Ok (Z.of_nat (length out), splice 0 out b', Some (default_port l)) /\
    length b' = RECV_BUFFER_SIZE.
Proof.
  intros Hl Hhs Hnd Hget r out Hr Hb Hout. unfold parse_request.
  assert (Hmax : Z.of_nat (length r) <= MAX_REQ_LEN)
    by (unfold MAX_REQ_LEN, RECV_BUFFER_SIZE in *; lia).
  destruct (parse_render err l hs b Hl Hhs Hnd Hmax) as (cap & E); [fold r; lia|]. fold r in E.
  rewrite E. cbn [mbind res_bind line]. change (0 <? 0) with false. cbn iota.
  cbn [default_port method path host]. rewrite Hget. change (negb (strcmp_eq _ _)) with false.
  cbn iota. fold out. unfold snprintf. rewrite Nat2Z.id.
  unfold RECV_BUFFER_SIZE at 1. change (Z.of_nat RECV_BUFFER_SIZE) with 2048.
  assert (Hn : length (out ++ [0]) = S (length out)) by (rewrite length_app; simpl; lia).
  assert (Hs : length (splice 0 r b) = 2048%nat)
    by (rewrite length_splice; [exact Hb | unfold RECV_BUFFER_SIZE in *; lia]).
  unfold RECV_BUFFER_SIZE in *. rewrite take_ge by lia.
  rewrite wr_ok by lia.
  cbn [mbind res_bind]. rewrite Z.geb_leb, (proj2 (Z.leb_gt _ _)) by lia.
  exists (splice 0 (out ++ [0]) (splice 0 r b)).
  rewrite splice_prefix by (cbn [length]; lia). split; [done|].
  rewrite length_splice; lia.
Qed.

Lemma uninterrupted_pieces pieces rest :
  Forall (fun b => b <> []) pieces -> uninterrupted rest ->
  uninterrupted (map RData pieces ++ rest).
Proof. intros Hp Hr. apply Forall_app. split; [|done]. by apply Forall_map. Qed.

(** What is cut off a response. *)
Lemma cut_response response i :
  Forall (fun b => b <> []) response -> (i <= length response)%nat ->
  no_blank_before i response ->
  i = length response \/ ends_with_blank (concat (take i response)) = true ->
  let sent := take RECV_BUFFER_SIZE (concat (take i response)) in
  ((length (concat response) <= RECV_BUFFER_SIZE)%nat ->
   no_blank_before (length response) response -> sent = concat response) /\
  (forall i, (i < length response)%nat -> no_blank_before i response ->
   ends_with_blank (concat (take i response)) = true ->
   sent = take RECV_BUFFER_SIZE (concat (take i response)) /\
   (length sent < length (concat response))%nat) /\
  ((RECV_BUFFER_SIZE < length (concat response))%nat ->
   no_blank_before (length response) response ->
   sent = take RECV_BUFFER_SIZE (concat response)).
Proof.
  intros Hne Hi Hb Hend sent.
  assert (Hsplit : concat response = concat (take i response) ++ concat (drop i response))
    by (by rewrite <-concat_app, take_drop).
  assert (Hall : no_blank_before (length response) response -> i = length response).
  { intros Hnb. destruct Hend as [|He]; [done|]. destruct (decide (i = length response)); [done|].
    rewrite Hnb in He by lia. done. }
  split; [|split].
  - intros Hl ->%Hall. unfold sent. by rewrite (take_ge response), take_ge.
  - intros j Hj Hbj He.
    assert (i = j) as ->.
    { destruct (Nat.lt_trichotomy i j) as [Hlt|[?|Hlt]]; [|done|].
      - destruct Hend as [->|Hi']; [lia|]. by rewrite Hbj in Hi'.
      - by rewrite Hb in He. }
    split; [done|]. rewrite Hsplit, length_app. unfold sent. rewrite length_take.
    destruct (drop j response) as [|b q] eqn:Ed.
    { apply (f_equal length) in Ed. rewrite length_drop in Ed. simpl in Ed. lia. }
    apply (Forall_drop _ j) in Hne. rewrite Ed in Hne. apply Forall_cons in Hne as [Hb' _].
    destruct b; [done|]. cbn [concat app length]. lia.
  - intros _ ->%Hall. unfold sent. by rewrite (take_ge response).
Qed.

(** C6: The proxy forwards. When a client's request for GET, in whatever pieces it
    arrives, is complete and fits the buffer of 2048 bytes, the server it names is
    sent a GET of the path with the host and without keeping the connection, and
    nothing else: the client's own headers are dropped, although the README asks for
    them to be passed on. Of the response that the server sends until it closes its
    end, the client is sent the part up to the first piece that ends with an empty
    line, and at most 2048 bytes: so exactly the response when it is no longer than
    that and no piece before its last byte ends with an empty line, and less than the
    response, which the README asks to be sent as it is, otherwise. The server's
    socket is closed. *)
Theorem proxy_forwards err connect client server l hs request more response ms ns cb sb :
  line_ok err l -> Forall header_ok hs -> NoDup (map fst hs) -> method l = str "GET" ->
  s_in client = map RData request ++ more -> Forall (fun b => b <> []) request ->
  uninterrupted more ->
  concat request = render l hs -> (length (render l hs) <= RECV_BUFFER_SIZE)%nat ->
  connect (host l) (match port l with Some p => p | None => str "80" end) = Some server ->
  s_in server = map RData response ++ [REof] -> Forall (fun b => b <> []) response ->
  s_sends server = map SSent ns -> Forall (fun n => 0 < n)%nat ns ->
  s_sends client = map SSent ms -> Forall (fun n => 0 < n)%nat ms ->
  let out := get_request (path l) (host l) in
  (length out < RECV_BUFFER_SIZE)%nat -> (length out <= length ns)%nat ->
  (RECV_BUFFER_SIZE <= length ms)%nat ->
  length cb = RECV_BUFFER_SIZE -> length sb = RECV_BUFFER_SIZE ->
  exists client' server' sent, chat_with_client err connect client cb sb =
      Ok (0, client', Some server') /\
    s_out server' = s_out server ++ out /\ s_closed server' = true /\
    s_out client' = s_out client ++ sent /\
    ((length (concat response) <= RECV_BUFFER_SIZE)%nat ->
     no_blank_before (length response) response -> sent = concat response) /\
    (forall i, (i < length response)%nat -> no_blank_before i response ->
     ends_with_blank (concat (take i response)) = true ->
     sent = take RECV_BUFFER_SIZE (concat (take i response)) /\
     (length sent < length (concat response))%nat) /\
    ((RECV_BUFFER_SIZE < length (concat response))%nat ->
     no_blank_before (length response) response ->
     sent = take RECV_BUFFER_SIZE (concat response)).
Proof.
  intros Hl Hhs Hnd Hget Hic Hnc Hmore Hrq Hlq Hcon Hisv Hnsv Hns Pns Hmss Pms out Hout Hlo Hlr Hcb Hsb.
  assert (Huc : uninterrupted (s_in client)) by (rewrite Hic; by apply uninterrupted_pieces).
  assert (Hus : uninterrupted (s_in server))
    by (rewrite Hisv; apply uninterrupted_pieces; [done|by constructor]).
  assert (Hmc : received [] (s_in client) = Some (render l hs))
    by (rewrite Hic; by eapply received_request).
  destruct (first_blank response) as (i & Hi & Hbefore & Hend).
  assert (Hms : received [] (s_in server) = Some (take RECV_BUFFER_SIZE (concat (take i response)))).
  { rewrite Hisv. apply received_pieces; [done..|]. destruct Hend; [by left|by right]. }
  set (reply := take RECV_BUFFER_SIZE (concat (take i response))) in *.
  assert (Hreply : (length reply <= RECV_BUFFER_SIZE)%nat) by (unfold reply; rewrite length_take; lia).
  unfold chat_with_client.
  pose proof (receive_from_socket_ok client cb Huc Hcb) as Hr. rewrite Hmc in Hr.
  destruct Hr as (c1 & Er & (S1 & S2 & S3) & Hlen). rewrite Er. cbn [mbind res_bind].
  rewrite (proj2 (Z.ltb_ge _ _)) by lia.
  destruct (parse_request_get err l hs cb Hl Hhs Hnd Hget Hlen Hcb Hout) as (b' & Ep & Hb').
  fold out in Ep. rewrite Ep. cbn [mbind res_bind]. rewrite (proj2 (Z.ltb_ge _ _)) by lia.
  cbn [default_port host port default from_option]. unfold id. rewrite Hcon.
  destruct (send_to_socket_ok ns server out b') as (s1 & Es & Os & Cs & Is);
    [done|done|lia|lia|]. rewrite Es. cbn [mbind res_bind].
  change (0 <? 0) with false. cbn iota.
  pose proof (receive_from_socket_ok s1 sb) as Hr2. rewrite Is, Hms in Hr2.
  destruct (Hr2 Hus Hsb) as (s2 & Er2 & (T1 & T2 & T3) & Hlen2). rewrite Er2.
  cbn [mbind res_bind]. rewrite (proj2 (Z.ltb_ge _ _)) by lia. rewrite <-S1 in Hmss.
  destruct (send_to_socket_ok ms c1 reply sb) as (c2 & Ec & Oc & Cc & Ic);
    [done|done|lia|lia|]. rewrite Ec. cbn [mbind res_bind].
  change (0 <? 0) with false. cbn iota. exists c2, (close s2), reply. split; [done|].
  cbn [close s_out s_closed]. rewrite T2, Os, Oc, S2. do 3 (split; [done|]).
  by apply cut_response.
Qed.

Definition example_request : buffer := render example_line example_headers.
Definition example_client : sock :=
  Sock [RData (take 10 example_request); RData (drop 10 example_request); REof]
    (map SSent (replicate RECV_BUFFER_SIZE 3%nat)) [] false.
Definition example_server : sock :=
  Sock [RData (str "HTTP/1.0 200 OK" ++ CRLF); RData (CRLF ++ str "hello"); REof]
    (map SSent (replicate 70 2%nat)) [] false.
Definition example_reply : buffer := str "HTTP/1.0 200 OK" ++ CRLF ++ CRLF ++ str "hello".

Lemma proxy_forwards_witness :
  exists client' server',
    chat_with_client 0 (fun _ _ => Some example_server) example_client
      (replicate RECV_BUFFER_SIZE 0) (replicate RECV_BUFFER_SIZE 0) =
      Ok (0, client', Some server') /\
    s_out server' = get_request (str "/x") (str "h") /\ s_closed server' = true /\
    s_out client' = example_reply.
Proof.
  destruct (proxy_forwards 0 (fun _ _ => Some example_server) example_client example_server
    example_line example_headers [take 10 example_request; drop 10 example_request] [REof]
    [str "HTTP/1.0 200 OK" ++ CRLF; CRLF ++ str "hello"]
    (replicate RECV_BUFFER_SIZE 3%nat) (replicate 70 2%nat)
    (replicate RECV_BUFFER_SIZE 0) (replicate RECV_BUFFER_SIZE 0))
    as (client' & server' & sent & H1 & H2 & H3 & H4 & H5 & _).
  - exact example_line_ok.
  - constructor; [split; apply (bool_decide_unpack _); vm_compute; exact I|constructor].
  - apply (bool_decide_unpack _). vm_compute. exact I.
  - reflexivity.
  - reflexivity.
  - apply (bool_decide_unpack _). vm_compute. exact I.
  - repeat constructor.
  - vm_compute. reflexivity.
  - apply Nat.leb_le. vm_compute. reflexivity.
  - reflexivity.
  - reflexivity.
  - apply (bool_decide_unpack _). vm_compute. exact I.
  - reflexivity.
  - apply (bool_decide_unpack _). vm_compute. exact I.
  - reflexivity.
  - apply (bool_decide_unpack _). vm_compute. exact I.
  - apply Nat.ltb_lt. vm_compute. reflexivity.
  - apply Nat.leb_le. vm_compute. reflexivity.
  - apply Nat.leb_le. vm_compute. reflexivity.
  - apply length_replicate.
  - apply length_replicate.
  - exists client', server'. split; [exact H1|]. split; [exact H2|]. split; [exact H3|].
    rewrite H4, H5.
    + reflexivity.
    + apply Nat.leb_le. vm_compute. reflexivity.
    + intros j Hj. do 2 (destruct j as [|j]; [vm_compute; reflexivity|]). cbn in Hj. lia.
Defined.

(** * Refusals *)

Lemma send_whole ns s m :
  s_sends s = map SSent ns -> Forall (fun n => 0 < n)%nat ns -> (length m <= length ns)%nat ->
  exists s', send_to_socket s m (Z.of_nat (length m)) = Ok (0, s') /\
    s_out s' = s_out s ++ m.
Proof.
  intros Hs Hn Hm. destruct (send_to_socket_ok ns s m m) as (s' & E & Ho & _); [done..|].
  assert (Em : splice 0 m m = m)
    by (unfold splice; rewrite take_0, Nat.add_0_l, drop_ge, app_nil_r by lia; done).
  rewrite Em in E. by exists s'.
Qed.

(** What is not a request for the parser. *)
Lemma parse_request_bad err m b :
  (length m < 4)%nat \/ (c_string m /\ strstr m (CRLF ++ CRLF) = None) ->
  (length m <= length b)%nat ->
  parse_request err (splice 0 m b) (Z.of_nat RECV_BUFFER_SIZE) (Z.of_nat (length m)) =
    Ok (-400, splice 0 m b, None).
Proof.
  intros Hm Hb. unfold parse_request, ParsedRequest_parse, ParsedRequest_create. cbn [line].
  destruct (_ || _) eqn:Hlen; [done|]. apply orb_false_iff in Hlen as [Hlen _].
  unfold MIN_REQ_LEN in Hlen. apply Z.ltb_ge in Hlen.
  destruct Hm as [Hm|[Hs Hm]]; [lia|].
  rewrite Nat2Z.id, rd_ok by (rewrite length_splice; simpl; lia).
  rewrite slice_splice_eq by (done || simpl; lia). cbn [mbind res_bind]. rewrite (c_str_app m []) by done. cbn [mbind res_bind].
  by rewrite Hm.
Qed.

Lemma parse_request_other err l hs b :
  line_ok err l -> Forall header_ok hs -> NoDup (map fst hs) -> method l <> str "GET" ->
  let r := render l hs in
  (length r <= RECV_BUFFER_SIZE)%nat -> (length r <= length b)%nat ->
  parse_request err (splice 0 r b) (Z.of_nat RECV_BUFFER_SIZE) (Z.of_nat (length r)) =
    Ok (-501, splice 0 r b, None).
Proof.
  intros Hl Hhs Hnd Hget r Hr Hb. unfold parse_request.
  destruct (parse_render err l hs b Hl Hhs Hnd) as (cap & E);
    [fold r; unfold MAX_REQ_LEN, RECV_BUFFER_SIZE in *; lia|done|]. fold r in E.
  rewrite E. cbn [mbind res_bind line]. change (0 <? 0) with false. cbn iota.
  cbn [default_port method]. unfold strcmp_eq. by rewrite bool_decide_eq_false_2.
Qed.

(** The proxy refuses. A message with no empty line, or of fewer than four
    bytes, is answered with exactly the 400 response, a well-formed request with
    another method than GET with exactly the 501 response; no server is
    contacted, and the result is -1. *)
Theorem proxy_refuses err connect client m cb sb ns :
  uninterrupted (s_in client) -> received [] (s_in client) = Some m ->
  s_sends client = map SSent ns -> Forall (fun n => 0 < n)%nat ns ->
  (length not_implemented <= length ns)%nat -> length cb = RECV_BUFFER_SIZE ->
  ((length m < 4)%nat \/ (c_string m /\ strstr m (CRLF ++ CRLF) = None) ->
    exists client', chat_with_client err connect client cb sb = Ok (-1, client', None) /\
      s_out client' = s_out client ++ bad_request) /\
  (forall l hs, m = render l hs -> line_ok err l -> Forall header_ok hs ->
    NoDup (map fst hs) -> method l <> str "GET" ->
    exists client', chat_with_client err connect client cb sb = Ok (-1, client', None) /\
      s_out client' = s_out client ++ not_implemented).
Proof.
  intros Hu Hm Hs Hn Hl Hb. pose proof (receive_from_socket_ok client cb Hu Hb) as H.
  rewrite Hm in H. destruct H as (c1 & E & (S1 & S2 & _) & Hlen).
  assert (Hbad : (length bad_request <= length ns)%nat)
    by (change (length bad_request) with 28%nat; change (length not_implemented) with 32%nat in Hl; lia).
  rewrite <-S1 in Hs. rewrite <-S2.
  unfold chat_with_client. rewrite E. cbn [mbind res_bind].
  rewrite (proj2 (Z.ltb_ge _ _)) by lia. split.
  - intros Hc. rewrite parse_request_bad by (done || lia). cbn [mbind res_bind].
    change (-400 <? 0) with true. change (-400 =? -400) with true. cbn iota.
    destruct (send_whole ns c1 bad_request) as (c2 & E2 & O2); [done..|]. rewrite E2.
    by exists c2.
  - intros l hs -> Hlo Hh Hnd Hg. rewrite parse_request_other by (done || lia).
    cbn [mbind res_bind]. change (-501 <? 0) with true. change (-501 =? -400) with false.
    change (-501 =? -501) with true. cbn iota.
    destruct (send_whole ns c1 not_implemented) as (c2 & E2 & O2); [done..|]. rewrite E2.
    by exists c2.
Qed.

Lemma proxy_refuses_witness :
  exists client', chat_with_client 0 (fun _ _ => None)
      (Sock [RData (str "GET /"); REof] (map SSent (replicate 40 3%nat)) [] false)
      (replicate RECV_BUFFER_SIZE 0) (replicate RECV_BUFFER_SIZE 0) = Ok (-1, client', None) /\
    s_out client' = bad_request.
Proof.
  apply (proxy_refuses 0 (fun _ _ => None)
    (Sock [RData (str "GET /"); REof] (map SSent (replicate 40 3%nat)) [] false)
    (str "GET /") (replicate RECV_BUFFER_SIZE 0) (replicate RECV_BUFFER_SIZE 0)
    (replicate 40 3%nat)).
  - repeat constructor; discriminate.
  - vm_compute. reflexivity.
  - reflexivity.
  - apply (bool_decide_unpack _). vm_compute. exact I.
  - apply Nat.leb_le. vm_compute. reflexivity.
  - apply length_replicate.
  - right. split; [|reflexivity]. repeat constructor; discriminate.
Defined.

(** * Interrupted calls *)

Lemma splice_over {A} (m1 m2 b : list A) :
  (length m1 <= length m2)%nat -> splice 0 m2 (splice 0 m1 b) = splice 0 m2 b.
Proof.
  intros H. unfold splice. rewrite !take_0, !Nat.add_0_l. cbn [app]. f_equal.
  rewrite drop_app_ge, drop_drop by lia. f_equal. lia.
Qed.

(** A turn of each loop: one that takes data and one that is interrupted. *)
Lemma receive_turn fuel s acc data events b :
  s_in s = RData data :: events -> data <> [] ->
  (length (acc ++ data) <= RECV_BUFFER_SIZE)%nat -> length b = RECV_BUFFER_SIZE ->
  receive_loop (S fuel) s (Z.of_nat (length acc)) (splice 0 acc b) =
    let s' := Sock events (s_sends s) (s_out s) (s_closed s) in
    let total := Z.of_nat (length (acc ++ data)) in
    if ends_with_blank (acc ++ data) then Ok (total, splice 0 (acc ++ data) b, s')
    else receive_loop fuel s' total (splice 0 (acc ++ data) b).
Proof.
  intros Hs Hd Hl Hb. rewrite length_app in Hl. cbn [receive_loop]. unfold recv. rewrite Hs.
  replace (Z.to_nat (Z.of_nat RECV_BUFFER_SIZE - Z.of_nat (length acc)))
    with (RECV_BUFFER_SIZE - length acc)%nat by lia.
  rewrite take_ge by lia. rewrite (proj2 (Nat.ltb_ge _ _)) by lia.
  cbn [mbind res_bind]. destruct data as [|y data]; [done|].
  rewrite (proj2 (Z.ltb_ge _ _)) by lia. rewrite Nat2Z.id.
  rewrite wr_ok by (rewrite length_splice; simpl in *; lia). cbn [mbind res_bind].
  rewrite (splice_adjacent 0 acc) by (simpl in *; lia).
  rewrite <-Nat2Z.inj_add, <-length_app, ends_header_eq by (rewrite length_app; lia). done.
Qed.

Lemma receive_interrupted fuel s total events b :
  s_in s = RErr EINTR :: events ->
  receive_loop (S fuel) s total b =
    let s' := Sock events (s_sends s) (s_out s) (s_closed s) in
    if ends_header (total - 1) b then Ok (-1, b, s') else receive_loop fuel s' (total - 1) b.
Proof. intros Hs. cbn [receive_loop]. unfold recv. by rewrite Hs. Qed.

Lemma send_turn fuel s k n sends m :
  s_sends s = SSent n :: sends -> (k < length m)%nat ->
  let sent := take n (drop k m) in
  send_loop (S fuel) s (Z.of_nat k) m (Z.of_nat (length m)) =
    send_loop fuel (Sock (s_in s) sends (s_out s ++ sent) (s_closed s))
      (Z.of_nat (k + length sent)) m (Z.of_nat (length m)).
Proof.
  intros Hs Hk sent. cbn [send_loop]. rewrite (proj2 (Z.ltb_lt _ _)) by lia.
  rewrite (proj2 (Z.ltb_ge _ _)) by lia. rewrite Nat2Z.id.
  replace (Z.to_nat (Z.of_nat (length m) - Z.of_nat k)) with (length m - k)%nat by lia.
  rewrite rd_ok by (simpl; lia). cbn [mbind res_bind]. unfold send. rewrite Hs.
  cbn [mbind res_bind].
  assert (E : slice k (length m - k) m = drop k m)
    by (unfold slice; rewrite take_ge; [done|rewrite length_drop; lia]).
  rewrite E. fold sent. by rewrite Nat2Z.inj_add.
Qed.

Lemma send_interrupted fuel s k sends m :
  s_sends s = SErr EINTR :: sends -> (k < length m)%nat ->
  send_loop (S fuel) s (Z.of_nat k) m (Z.of_nat (length m)) =
    send_loop fuel (Sock (s_in s) sends (s_out s) (s_closed s))
      (Z.of_nat k - 1) m (Z.of_nat (length m)).
Proof.
  intros Hs Hk. cbn [send_loop]. rewrite (proj2 (Z.ltb_lt _ _)) by lia.
  rewrite (proj2 (Z.ltb_ge _ _)) by lia. rewrite Nat2Z.id.
  rewrite rd_ok by lia. cbn [mbind res_bind]. unfold send. by rewrite Hs.
Qed.

(** A later interrupted [recv] loses the last byte; a later interrupted [send]
    sends one twice. *)
Lemma receive_loses s b m x d :
  d <> [] -> length b = RECV_BUFFER_SIZE -> (length (m ++ x :: d) <= RECV_BUFFER_SIZE)%nat ->
  ends_with_blank m = false -> ends_with_blank (m ++ [x]) = false ->
  s_in s = [RData (m ++ [x]); RErr EINTR; RData d; REof] ->
  exists s', receive_from_socket s b = Ok (Z.of_nat (length (m ++ d)), splice 0 (m ++ d) b, s').
Proof.
  intros Hd Hb Hl Hm Hmx Hs. rewrite length_app in Hl. cbn [length] in Hl.
  assert (Hd' : (0 < length d)%nat) by (destruct d; [done|simpl; lia]).
  unfold receive_from_socket.
  assert (Hf : exists f, recv_work s = S (S (S (S f)))).
  { exists (recv_work s - 4)%nat. unfold recv_work. rewrite Hs. cbn [sum_list_with foldr]. lia. }
  destruct Hf as [f ->]. pose proof (receive_turn (S (S (S f))) s [] _ _ b Hs) as E.
  rewrite splice_nil, app_nil_l, Hmx in E. cbn zeta in E.
  change (Z.of_nat (length [])) with 0 in E.
  rewrite E by (first [by destruct m | done | rewrite length_app; simpl; lia]).
  erewrite receive_interrupted by done. cbn zeta.
  assert (Em : splice 0 (m ++ [x]) b = splice 0 m (splice 0 (m ++ [x]) b))
    by (rewrite splice_prefix; [done|simpl; lia]).
  rewrite Em. set (b' := splice 0 (m ++ [x]) b).
  assert (Hb' : length b' = RECV_BUFFER_SIZE)
    by (unfold b'; rewrite length_splice; [done|rewrite length_app; simpl; lia]).
  replace (Z.of_nat (length (m ++ [x])) - 1) with (Z.of_nat (length m))
    by (rewrite length_app; simpl; lia).
  rewrite ends_header_eq, Hm by lia. erewrite receive_turn by (first [done | rewrite length_app; lia]).
  cbn zeta.
  assert (Eb : splice 0 (m ++ d) b' = splice 0 (m ++ d) b).
  { unfold b'. apply splice_over. rewrite !length_app. simpl. lia. }
  rewrite Eb. destruct (ends_with_blank (m ++ d)); [by eexists|].
  cbn [receive_loop]. unfold recv. cbn [s_in mbind res_bind]. by eexists.
Qed.

Lemma send_repeats s m x d n sends :
  d <> [] -> s_sends s = SSent (S (length m)) :: SErr EINTR :: SSent n :: sends -> (length d < n)%nat ->
  exists s', send_to_socket s (m ++ x :: d) (Z.of_nat (length (m ++ x :: d))) = Ok (0, s') /\
    s_out s' = s_out s ++ m ++ [x] ++ x :: d.
Proof.
  intros Hd Hs Hn. assert (Hd' : (0 < length d)%nat) by (destruct d; [done|simpl; lia]).
  unfold send_to_socket. rewrite Hs. cbn [length].
  set (f := S (S (length sends))). set (w := m ++ x :: d).
  assert (Hw : length w = (length m + S (length d))%nat) by (unfold w; by rewrite length_app).
  pose proof (send_turn (S (S f)) s 0 _ _ w Hs) as E. change (Z.of_nat 0) with 0 in E.
  rewrite E by lia. cbn zeta. rewrite drop_0, Nat.add_0_l, length_take, Nat.min_l by lia.
  erewrite send_interrupted by (done || lia). cbn [s_in s_out s_closed].
  replace (Z.of_nat (S (length m)) - 1) with (Z.of_nat (length m)) by lia.
  erewrite send_turn by (done || lia). cbn zeta. cbn [s_in s_out s_closed].
  assert (Ed : take n (drop (length m) w) = x :: d)
    by (unfold w; rewrite drop_app_length; apply take_ge; simpl; lia).
  assert (Et : take (S (length m)) w = m ++ [x]).
  { unfold w. rewrite take_app_ge by lia. replace (S (length m) - length m)%nat with 1%nat by lia.
    done. }
  rewrite Ed, Et. unfold f. cbn [send_loop length].
  rewrite (proj2 (Z.ltb_ge _ _)) by lia. eexists. split; [done|].
  cbn [s_out]. by rewrite <-!app_assoc.
Qed.

(** Interrupted calls corrupt. A first [recv] that is interrupted makes the next
    store its data before the buffer; a later one loses the last byte received.
    A first [send] that is interrupted makes the next read from before the
    message; a later one sends a byte twice. *)
Theorem interrupts_corrupt s b m x d :
  d <> [] -> length b = RECV_BUFFER_SIZE -> (length (m ++ x :: d) <= RECV_BUFFER_SIZE)%nat ->
  ends_with_blank m = false -> ends_with_blank (m ++ [x]) = false ->
  (forall events, s_in s = RErr EINTR :: RData d :: events ->
    receive_from_socket s b = Fault OutOfBounds) /\
  (s_in s = [RData (m ++ [x]); RErr EINTR; RData d; REof] ->
    exists s', receive_from_socket s b = Ok (Z.of_nat (length (m ++ d)), splice 0 (m ++ d) b, s')) /\
  (forall sends, s_sends s = SErr EINTR :: sends ->
    send_to_socket s d (Z.of_nat (length d)) = Fault OutOfBounds) /\
  (forall n sends, s_sends s = SSent (S (length m)) :: SErr EINTR :: SSent n :: sends ->
    (length d < n)%nat ->
    exists s', send_to_socket s (m ++ x :: d) (Z.of_nat (length (m ++ x :: d))) = Ok (0, s') /\
      s_out s' = s_out s ++ m ++ [x] ++ x :: d).
Proof.
  intros Hd Hb Hl Hm Hmx. assert (Hd' : (0 < length d)%nat) by (destruct d; [done|simpl; lia]).
  split; [|split; [|split]].
  - intros events Hs. unfold receive_from_socket, recv_work. rewrite Hs.
    rewrite (receive_interrupted _ _ _ _ _ Hs). cbn [sum_list_with foldr]. cbn zeta.
    change (ends_header (0 - 1) b) with false. cbn iota.
    destruct d as [|y d]; [done|]. cbn [Nat.add]. reflexivity.
  - by apply receive_loses.
  - intros sends Hs. unfold send_to_socket. rewrite Hs. cbn [length].
    pose proof (send_interrupted (S (S (length sends))) s 0 sends d Hs Hd') as E.
    change (Z.of_nat 0) with 0 in E. rewrite E. cbn [send_loop].
    rewrite (proj2 (Z.ltb_lt _ _)) by lia. reflexivity.
  - intros n sends. by apply send_repeats.
Qed.

Lemma interrupts_corrupt_witness :
  exists s', send_to_socket (Sock [] [SSent 2; SErr EINTR; SSent 9] [] false) (str "abcd") 4 =
    Ok (0, s') /\ s_out s' = str "abbcd".
Proof.
  destruct (interrupts_corrupt (Sock [] [SSent 2; SErr EINTR; SSent 9] [] false)
    (replicate RECV_BUFFER_SIZE 0) (str "a") 98 (str "cd")) as (_ & _ & _ & H).
  - discriminate.
  - apply length_replicate.
  - apply Nat.leb_le. vm_compute. reflexivity.
  - reflexivity.
  - reflexivity.
  - exact (H 9%nat [] eq_refl ltac:(apply Nat.ltb_lt; reflexivity)).
Defined.
