(* ===== verification/ProxyProcs.v ===== *)
(** The processes of the HTTP proxy (http-proxy/src/proxy.c): [main], the accept
    loop with its children, and the handler of SIGCHLD that reaps them; every
    order in which parent, handler, children and kernel can take their steps. *)
From S2P Require Import Prelude Sockets HttpParse Proxy ProxyProps.
#[local] Set Warnings "-clear-no-such-hyp".

(** * State *)

(** What a descriptor of a process refers to. *)
Inductive file := Listening | Conn (k : nat).

(** What has become of a connection: no child has served it yet, [fork] failed,
    a child has served it, or it died while it did. *)
Inductive fate := Waiting | Refused | Served | Crashed.

#[export] Instance file_eq_dec : EqDecision file.
Proof. solve_decision. Defined.
#[export] Instance fate_eq_dec : EqDecision fate.
Proof. solve_decision. Defined.

(** A connection: its socket as it was accepted and as it is now. *)
Record connection := Connection { k_from : sock; k_now : sock; k_fate : fate }.

(** A child: its descriptors, and what it has still to do. *)
Record child := Child { c_fds : gmap Z file; c_todo : list proxy_action }.

(** Where the parent is: between two calls, with what it has still to do in this
    turn of the loop (nothing: at [accept]); at [fork]; or about to report the
    failure of a call. *)
Inductive syscall := CAccept | CFork.
Inductive position :=
| Doing (acts : list proxy_action)
| AtFork (clientfd : Z)
| Reporting (call : syscall) (acts : list proxy_action).

(** The parent (its position, descriptors and [errno]; the [saved_errno] of the
    handler while this runs; what it has printed to stderr), whether SIGCHLD is
    pending, the children that run, those that have ended and not been waited
    for, and the connections. *)
Record procs := Procs {
  ps_pos : position; ps_fds : gmap Z file; ps_errno : Z; ps_handler : option Z;
  ps_log : list (syscall * Z); ps_pending : bool; ps_children : gmap nat child;
  ps_zombies : gset nat; ps_conns : gmap nat connection }.

Definition set_pos (s : procs) (p : position) : procs :=
  Procs p (ps_fds s) (ps_errno s) (ps_handler s) (ps_log s) (ps_pending s) (ps_children s)
    (ps_zombies s) (ps_conns s).
Definition set_fds (s : procs) (fds : gmap Z file) : procs :=
  Procs (ps_pos s) fds (ps_errno s) (ps_handler s) (ps_log s) (ps_pending s) (ps_children s)
    (ps_zombies s) (ps_conns s).
Definition set_errno (s : procs) (e : Z) : procs :=
  Procs (ps_pos s) (ps_fds s) e (ps_handler s) (ps_log s) (ps_pending s) (ps_children s)
    (ps_zombies s) (ps_conns s).
Definition set_handler (s : procs) (h : option Z) (pending : bool) : procs :=
  Procs (ps_pos s) (ps_fds s) (ps_errno s) h (ps_log s) pending (ps_children s)
    (ps_zombies s) (ps_conns s).
Definition perror (s : procs) (c : syscall) : procs :=
  Procs (ps_pos s) (ps_fds s) (ps_errno s) (ps_handler s) (ps_log s ++ [(c, ps_errno s)])
    (ps_pending s) (ps_children s) (ps_zombies s) (ps_conns s).
Definition set_child (s : procs) (pid : nat) (c : child) : procs :=
  Procs (ps_pos s) (ps_fds s) (ps_errno s) (ps_handler s) (ps_log s) (ps_pending s)
    (<[pid := c]> (ps_children s)) (ps_zombies s) (ps_conns s).
Definition set_conn (s : procs) (k : nat) (c : connection) : procs :=
  Procs (ps_pos s) (ps_fds s) (ps_errno s) (ps_handler s) (ps_log s) (ps_pending s)
    (ps_children s) (ps_zombies s) (<[k := c]> (ps_conns s)).
Definition set_zombies (s : procs) (z : gset nat) : procs :=
  Procs (ps_pos s) (ps_fds s) (ps_errno s) (ps_handler s) (ps_log s) (ps_pending s)
    (ps_children s) z (ps_conns s).

(** The end of a child: its descriptors are closed, the parent is sent SIGCHLD. *)
Definition end_child (s : procs) (pid : nat) : procs :=
  Procs (ps_pos s) (ps_fds s) (ps_errno s) (ps_handler s) (ps_log s) true
    (delete pid (ps_children s)) ({[pid]} ∪ ps_zombies s) (ps_conns s).

(** * The handler of SIGCHLD *)

Definition ECHILD : Z := 10.

(** [waitpid(-1, NULL, WNOHANG)]: the process waited for is any that has ended. *)
Definition waitpid (pid : nat) (s : procs) : res (Z * procs) :=
  if decide (ps_zombies s = ∅) then
    if decide (ps_children s = ∅) then Ok (-1, set_errno s ECHILD) else Ok (0, s)
  else if decide (pid ∈ ps_zombies s)
  then Ok (Z.of_nat pid, set_zombies s (ps_zombies s ∖ {[pid]}))
  else Fault Blocked.

(** [sigchld_handler], up to its loop, and a turn of the loop. While it runs,
    SIGCHLD is blocked. *)
Definition sigchld_handler (s : procs) : res procs :=
  match ps_handler s with
  | Some _ => Fault Blocked
  | None => if ps_pending s then Ok (set_handler s (Some (ps_errno s)) false) else Fault Blocked
  end.
Definition handler_turn (pid : nat) (s : procs) : res procs :=
  match ps_handler s with
  | None => Fault Blocked
  | Some saved_errno =>
      '(r, s) ← waitpid pid s;
      if r >? 0 then Ok s else Ok (set_errno (set_handler s None (ps_pending s)) saved_errno)
  end.

(** * The accept loop *)

Section loop.
Context (sockfd : Z).

(** What a process does after [fork]. *)
Definition after_fork (clientfd : Z) (f : fork_event) : list proxy_action :=
  match proxy_turn sockfd [Accepted clientfd] f with Ok (acts, _) => acts | Fault _ => [] end.

(** [accept] returns; the connection [k] is a new one. *)
Definition accept_step (r : accept_event) (k : nat) (sk : sock) (s : procs) : res procs :=
  match ps_handler s, ps_pos s with
  | None, Doing [] =>
      match r with
      | AcceptErr e => Ok (set_pos (set_errno s e) (Reporting CAccept []))
      | Accepted fd =>
          if decide (0 <= fd /\ ps_fds s !! fd = None /\ ps_conns s !! k = None)
          then Ok (set_pos (set_conn (set_fds s (<[fd := Conn k]> (ps_fds s))) k
                     (Connection sk sk Waiting)) (AtFork fd))
          else Fault Blocked
      end
  | _, _ => Fault Blocked
  end.

(** [fork] returns in the parent, and in the child, whose descriptors are copies;
    or it fails. *)
Definition fork_step (r : nat + Z) (s : procs) : res procs :=
  match ps_handler s, ps_pos s with
  | None, AtFork fd =>
      match r with
      | inl pid =>
          if decide ((0 < pid)%nat /\ ps_children s !! pid = None /\ pid ∉ ps_zombies s)
          then Ok (set_pos (set_child s pid (Child (ps_fds s) (after_fork fd ForkChild)))
                     (Doing (after_fork fd ForkParent)))
          else Fault Blocked
      | inr e =>
          match ps_fds s !! fd with
          | Some (Conn k) =>
              match ps_conns s !! k with
              | Some c =>
                  Ok (set_pos (set_errno (set_conn s k (Connection (k_from c) (k_now c) Refused)) e)
                        (Reporting CFork (after_fork fd ForkFailed)))
              | None => Fault Blocked
              end
          | _ => Fault Blocked
          end
      end
  | _, _ => Fault Blocked
  end.

(** The parent goes on: it reports the failure of a call ([accept]'s unless it was
    interrupted), or closes a descriptor. *)
Definition parent_step (s : procs) : res procs :=
  match ps_handler s, ps_pos s with
  | None, Reporting c acts =>
      let quiet := match c with CAccept => ps_errno s =? EINTR | CFork => false end in
      Ok (set_pos (if quiet then s else perror s c) (Doing acts))
  | None, Doing (Close fd :: acts) => Ok (set_pos (set_fds s (delete fd (ps_fds s))) (Doing acts))
  | _, _ => Fault Blocked
  end.

(** A child does the next thing it has to do. The conversation runs on the
    child's own sockets; [err], [connect] and the buffers are those of
    [chat_with_client]. *)
Definition child_step (pid : nat) (err : Z) (connect : buffer -> buffer -> option sock)
    (client_buffer server_buffer : buffer) (s : procs) : res procs :=
  match ps_children s !! pid with
  | Some (Child fds (Close fd :: acts)) => Ok (set_child s pid (Child (delete fd fds) acts))
  | Some (Child fds (Chat fd :: acts)) =>
      match fds !! fd with
      | Some (Conn k) =>
          match ps_conns s !! k with
          | Some c =>
              '(_, client, _) ← chat_with_client err connect (k_now c) client_buffer server_buffer;
              mret (set_child (set_conn s k (Connection (k_from c) client Served)) pid
                (Child (if s_closed client then delete fd fds else fds) acts))
          | None => Fault Blocked
          end
      | _ => Fault Blocked
      end
  | Some (Child _ (Exit :: _)) => Ok (end_child s pid)
  | _ => Fault Blocked
  end.

(** A child dies in its conversation, having sent and received whatever. *)
Definition crash_step (pid : nat) (now : sock) (s : procs) : res procs :=
  match ps_children s !! pid with
  | Some (Child fds (Chat fd :: _)) =>
      match fds !! fd with
      | Some (Conn k) =>
          match ps_conns s !! k with
          | Some c => Ok (end_child (set_conn s k (Connection (k_from c) now Crashed)) pid)
          | None => Fault Blocked
          end
      | _ => Fault Blocked
      end
  | _ => Fault Blocked
  end.

(** What happens next; [Fault Blocked] when it cannot. *)
Inductive event :=
| EvAccept (r : accept_event) (k : nat) (sk : sock)
| EvFork (r : nat + Z)
| EvParent
| EvChild (pid : nat) (err : Z) (connect : buffer -> buffer -> option sock)
    (client_buffer server_buffer : buffer)
| EvCrash (pid : nat) (now : sock)
| EvSignal
| EvWait (pid : nat).

Definition step (e : event) (s : procs) : res procs :=
  match e with
  | EvAccept r k sk => accept_step r k sk s
  | EvFork r => fork_step r s
  | EvParent => parent_step s
  | EvChild pid err connect cb sb => child_step pid err connect cb sb s
  | EvCrash pid now => crash_step pid now s
  | EvSignal => sigchld_handler s
  | EvWait pid => handler_turn pid s
  end.

Fixpoint run (es : list event) (s : procs) : res procs :=
  match es with [] => Ok s | e :: es => s ← step e s; run es s end.
End loop.

(** ** From [main] to the loop *)

Definition EXIT_FAILURE : Z := 1.

(** [proxy] up to its loop: what it returns, or the state in which it accepts. *)
Definition proxy (servinfo : option (list addrinfo)) (listen sigaction : bool)
  : Z + (Z * procs) :=
  let '(sockfd, _) := proxy_server_socket_setup servinfo listen in
  if sockfd <? 0 then inl (-1)
  else if negb sigaction then inl (-1)
  else inr (sockfd, Procs (Doing []) {[sockfd := Listening]} 0 None [] false ∅ ∅ ∅).

(** [main]; [getaddrinfo] looks a port up. *)
Definition main (argv : list buffer) (getaddrinfo : buffer -> option (list addrinfo))
    (listen sigaction : bool) : Z + (Z * procs) :=
  match argv with
  | [_; proxy_port] => proxy (getaddrinfo proxy_port) listen sigaction
  | _ => inl EXIT_FAILURE
  end.

(** * The invariant *)

(** A child holds a connection. *)
Definition holds (c : child) (k : nat) : Prop := exists fd, c_fds c !! fd = Some (Conn k).
Definition child_holds (s : procs) (k : nat) : Prop :=
  exists pid c, ps_children s !! pid = Some c /\ holds c k.
Definition parent_holds (s : procs) (k : nat) : Prop :=
  exists fd, ps_fds s !! fd = Some (Conn k).

(** What [errno] is for the loop, which the handler does not disturb, and what is
    printed once the parent has gone on. *)
Definition loop_errno (s : procs) : Z := default (ps_errno s) (ps_handler s).
Definition accept_report (e : Z) : list (syscall * Z) :=
  if e =? EINTR then [] else [(CAccept, e)].
Definition reports (s : procs) : list (syscall * Z) :=
  ps_log s ++
  match ps_pos s with
  | Reporting CAccept _ => accept_report (loop_errno s)
  | Reporting CFork _ => [(CFork, loop_errno s)]
  | _ => []
  end.

(** The failures among what happens. *)
Definition failures (e : event) : list (syscall * Z) :=
  match e with
  | EvAccept (AcceptErr e) _ _ => accept_report e
  | EvFork (inr e) => [(CFork, e)]
  | _ => []
  end.

Section invariant.
Context (sockfd : Z).

Definition own_fds : gmap Z file := {[sockfd := Listening]}.

(** The parent's descriptors at each position. *)
Definition parent_ok (s : procs) : Prop :=
  match ps_pos s with
  | Doing [] | Reporting CAccept [] => ps_fds s = own_fds
  | AtFork fd =>
      exists k c, fd <> sockfd /\ ps_fds s = <[fd := Conn k]> own_fds /\
        ps_conns s !! k = Some c /\ k_fate c = Waiting /\ ~ child_holds s k
  | Reporting CFork [Close fd] | Doing [Close fd] =>
      exists k, fd <> sockfd /\ ps_fds s = <[fd := Conn k]> own_fds
  | _ => False
  end.

(** The life of a child that serves connection [k] on descriptor [fd]. *)
Inductive stage (fd : Z) (k : nat) : fate -> child -> Prop :=
| stage_new : stage fd k Waiting
    (Child (<[fd := Conn k]> own_fds) [Close sockfd; Chat fd; Close fd; Exit])
| stage_chat : stage fd k Waiting (Child {[fd := Conn k]} [Chat fd; Close fd; Exit])
| stage_close fds : fds ⊆ {[fd := Conn k]} -> stage fd k Served (Child fds [Close fd; Exit])
| stage_exit : stage fd k Served (Child ∅ [Exit]).

Definition child_ok (s : procs) (c : child) : Prop :=
  exists fd k conn, fd <> sockfd /\ ps_conns s !! k = Some conn /\ stage fd k (k_fate conn) c.

(** What is known of a connection. *)
Definition conn_ok (s : procs) (k : nat) (c : connection) : Prop :=
  match k_fate c with
  | Waiting =>
      k_now c = k_from c /\
      ((exists fd, ps_pos s = AtFork fd /\ ps_fds s !! fd = Some (Conn k)) \/ child_holds s k)
  | Refused => k_now c = k_from c /\ ~ child_holds s k
  | Served =>
      exists err connect cb sb r server,
        chat_with_client err connect (k_from c) cb sb = Ok (r, k_now c, server)
  | Crashed => ~ child_holds s k
  end.

Record procs_inv (s : procs) : Prop := {
  pi_parent : parent_ok s;
  pi_child pid c : ps_children s !! pid = Some c ->
    (0 < pid)%nat /\ (pid ∉ ps_zombies s) /\ child_ok s c;
  pi_unique pid pid' c c' k :
    ps_children s !! pid = Some c -> ps_children s !! pid' = Some c' ->
    holds c k -> holds c' k -> pid = pid';
  pi_conn k c : ps_conns s !! k = Some c -> conn_ok s k c;
  pi_pid pid : pid ∈ ps_zombies s -> (0 < pid)%nat;
  pi_zombies : ps_zombies s <> ∅ -> ps_pending s = true \/ ps_handler s <> None }.

(** ** What the stages say *)

Lemma own_fds_conn fd k : own_fds !! fd = Some (Conn k) -> False.
Proof. unfold own_fds. by intros [_ ?]%lookup_singleton_Some. Qed.

Lemma insert_fds_conn fd k fd' k' :
  (<[fd := Conn k]> own_fds) !! fd' = Some (Conn k') -> fd' = fd /\ k' = k.
Proof.
  intros [[<- [= <-]]|[_ ?%own_fds_conn]]%lookup_insert_Some; [done|done].
Qed.

(** A child holds no connection but its own; until it has served it, it does. *)
Lemma stage_holds fd k f c k' : stage fd k f c -> holds c k' -> k' = k.
Proof.
  intros Hs [fd' Hh]. destruct Hs as [| |fds Hsub|]; cbn in Hh.
  - by apply insert_fds_conn in Hh as [_ ->].
  - by apply lookup_singleton_Some in Hh as [_ [= ->]].
  - eapply lookup_weaken in Hh; [|done]. by apply lookup_singleton_Some in Hh as [_ [= ->]].
  - done.
Qed.

Lemma stage_waiting fd k c : stage fd k Waiting c -> holds c k.
Proof.
  intros Hs. inversion Hs; subst; exists fd; cbn; [apply lookup_insert_eq|apply lookup_singleton_eq].
Qed.

Lemma stage_fate fd k f c : stage fd k f c -> f = Waiting \/ f = Served.
Proof. destruct 1; auto. Qed.

(** A change of the fate of a connection that no other child serves leaves the
    other children as they were. *)
Lemma child_ok_other s s' k c0 :
  ps_conns s !! k = Some c0 -> k_fate c0 = Waiting ->
  (forall k', k' <> k -> ps_conns s' !! k' = ps_conns s !! k') ->
  forall c, ~ holds c k -> child_ok s c -> child_ok s' c.
Proof.
  intros Hk Hf Hsame c Hn (fd & k' & conn & H1 & H2 & H3).
  assert (k' <> k).
  { intros ->. rewrite Hk in H2. injection H2 as <-. rewrite Hf in H3.
    by apply Hn, (stage_waiting fd). }
  exists fd, k', conn. split; [done|]. split; [by rewrite Hsame|done].
Qed.

(** ** Steps *)

Lemma conn_ok_ext s s' k c :
  (forall fd, ps_pos s = AtFork fd -> ps_pos s' = AtFork fd /\ ps_fds s' = ps_fds s) ->
  (child_holds s' k <-> child_holds s k) -> conn_ok s k c -> conn_ok s' k c.
Proof.
  intros Hp Hh. unfold conn_ok. destruct (k_fate c); [|by rewrite Hh|done|by rewrite Hh].
  intros [E H]. split; [done|]. rewrite Hh. destruct H as [(fd & H1 & H2)|]; [|by right].
  left. exists fd. destruct (Hp fd H1) as [-> ->]. done.
Qed.

(** A step of the parent or the handler that touches no connection and no child
    that runs. *)
Lemma inv_parent s s' :
  procs_inv s -> ps_children s' = ps_children s -> ps_conns s' = ps_conns s ->
  ps_zombies s' ⊆ ps_zombies s ->
  (forall fd, ps_pos s = AtFork fd -> ps_pos s' = AtFork fd /\ ps_fds s' = ps_fds s) ->
  parent_ok s' ->
  (ps_zombies s' <> ∅ -> ps_pending s' = true \/ ps_handler s' <> None) -> procs_inv s'.
Proof.
  intros [P1 P2 P3 P4 P5 P6] Hc Hk Hz Hf Hp Hp'.
  assert (Hh : forall k, child_holds s' k <-> child_holds s k)
    by (intros k; unfold child_holds; by rewrite Hc).
  split; [done| | | | |done].
  - intros pid c. rewrite Hc. intros (H1 & H2 & fd & k & conn & H3)%P2.
    split; [done|]. split; [set_solver|]. exists fd, k, conn. by rewrite Hk.
  - intros pid pid' c c' k. rewrite Hc. apply P3.
  - intros k c. rewrite Hk. intros ?%P4. by eapply conn_ok_ext.
  - intros pid Hin. apply P5. set_solver.
Qed.

(** A step of the child that serves connection [k]: it goes on as [new], or ends. *)
Lemma inv_child s s' pid fd k c conn conn' new :
  procs_inv s -> ps_children s !! pid = Some c -> ps_conns s !! k = Some conn ->
  fd <> sockfd -> stage fd k (k_fate conn) c ->
  ps_pos s' = ps_pos s -> ps_fds s' = ps_fds s -> ps_conns s' = <[k := conn']> (ps_conns s) ->
  ps_children s' = partial_alter (fun _ => new) pid (ps_children s) ->
  (forall c', new = Some c' -> stage fd k (k_fate conn') c' /\ (forall k', holds c' k' -> holds c k')) ->
  conn' = conn \/ k_fate conn = Waiting ->
  ps_zombies s' = match new with Some _ => ∅ | None => {[pid]} end ∪ ps_zombies s ->
  (new = None -> ps_pending s' = true) ->
  (new <> None -> ps_pending s' = ps_pending s) -> ps_handler s' = ps_handler s ->
  conn_ok s' k conn' -> procs_inv s'.
Proof.
  intros [P1 P2 P3 P4 P5 P6] Hc Hk Hfd Hst Ep Ef Ek Ec Hnew Hw Ez Hpn Hps Eh Hck.
  assert (Hpid : (0 < pid)%nat) by (by apply (P2 pid c)).
  assert (Hat : forall p x, ps_children s' !! p = Some x ->
    (p = pid /\ new = Some x) \/ (p <> pid /\ ps_children s !! p = Some x)).
  { intros p x. rewrite Ec. destruct (decide (p = pid)) as [->|Hne].
    - rewrite lookup_partial_alter_eq. auto.
    - rewrite lookup_partial_alter_ne by done. auto. }
  assert (Hoth : forall p, p <> pid -> ps_children s' !! p = ps_children s !! p)
    by (intros p Hne; rewrite Ec; by apply lookup_partial_alter_ne).
  assert (Hlk : forall k', k' <> k -> ps_conns s' !! k' = ps_conns s !! k')
    by (intros k' Hne; rewrite Ek; by apply lookup_insert_ne).
  assert (Hdown : forall k', child_holds s' k' -> child_holds s k').
  { intros k' (p & x & [(-> & Hn)|(Hne & Hx)]%Hat & Hh); [|by exists p, x].
    exists pid, c. split; [done|]. by apply (Hnew x Hn). }
  assert (Hup : forall k', k' <> k -> child_holds s k' -> child_holds s' k').
  { intros k' Hne (p & x & Hx & Hh). exists p, x. split; [|done]. rewrite Hoth; [done|].
    intros ->. rewrite Hc in Hx. injection Hx as <-. by apply Hne, (stage_holds fd k (k_fate conn) c). }
  split.
  - unfold parent_ok in *. rewrite Ep, Ef. destruct (ps_pos s) as [|fd'|]; [done| |done].
    destruct P1 as (k1 & c1 & H1 & H2 & H3 & H4 & H5). exists k1, c1.
    split; [done|]. split; [done|]. split; [|split; [done|naive_solver]].
    destruct (decide (k1 = k)) as [->|Hne]; [|by rewrite Hlk].
    rewrite Hk in H3. injection H3 as <-.
    destruct Hw as [->|Hw]; [rewrite Ek; apply lookup_insert_eq|]. exfalso. apply H5.
    exists pid, c. split; [done|]. rewrite Hw in Hst. by apply (stage_waiting fd).
  - intros p x Hx. destruct (Hat p x Hx) as [(-> & Hn)|(Hne & Hx')].
    + split; [done|]. split.
      * rewrite Ez, Hn. assert (pid ∉ ps_zombies s) by (by apply (P2 pid c)). set_solver.
      * exists fd, k, conn'. split; [done|]. split; [rewrite Ek; apply lookup_insert_eq|].
        by apply (Hnew x Hn).
    + destruct (P2 p x Hx') as (H1 & H2 & H3). split; [done|].
      split; [rewrite Ez; destruct new; set_solver|].
      destruct Hw as [->|Hw].
      * destruct H3 as (fd' & k' & conn'' & ? & Hc' & ?). exists fd', k', conn''.
        split; [done|]. split; [|done]. by rewrite Ek, insert_id.
      * eapply child_ok_other; [exact Hk|exact Hw|exact Hlk| |done].
        intros Hh. apply Hne. rewrite Hw in Hst.
        by apply (P3 p pid x c k); [..|apply (stage_waiting fd)].
  - assert (Hold : forall p x k', ps_children s' !! p = Some x -> holds x k' ->
      exists y, ps_children s !! p = Some y /\ holds y k').
    { intros p x k' [(-> & Hn)|(_ & Hx)]%Hat Hh; [|by exists x].
      exists c. split; [done|]. by apply (Hnew x Hn). }
    intros p p' x x' k' Hx Hx' Hh Hh'.
    destruct (Hold _ _ _ Hx Hh) as (y & Hy & ?). destruct (Hold _ _ _ Hx' Hh') as (y' & Hy' & ?).
    by apply (P3 p p' y y' k').
  - intros k' c'. rewrite Ek. intros [[<- <-]|[Hne H]]%lookup_insert_Some; [done|].
    apply (conn_ok_ext s); [|split; auto|auto]. intros fd' ?. by rewrite Ep, Ef.
  - intros p. rewrite Ez. destruct new; [set_solver|].
    rewrite elem_of_union, elem_of_singleton. intros [->|]; auto.
  - rewrite Ez, Eh. destruct new; [|auto]. rewrite Hps, (left_id_L ∅ (∪)) by done. exact P6.
Qed.

(** [step] preserves the invariant, and reports the failures. *)
Definition keeps (s s' : procs) (e : event) : Prop :=
  procs_inv s' /\ reports s' = reports s ++ failures e.

Lemma accept_keeps r k sk s s' :
  procs_inv s -> accept_step r k sk s = Ok s' -> keeps s s' (EvAccept r k sk).
Proof.
  intros Hi. unfold accept_step, keeps, reports, loop_errno.
  destruct (ps_handler s) eqn:Eh; [done|]. destruct (ps_pos s) as [[|]| |] eqn:Ep; [|done..].
  pose proof (pi_parent s Hi) as Hp. unfold parent_ok in Hp. rewrite Ep in Hp.
  destruct r as [e|fd].
  - intros [= <-]. cbn. rewrite Eh, app_nil_r. split; [|done].
    apply (inv_parent s); try done; [cbn; congruence|apply Hi].
  - case_decide as Hd; [|done]. destruct Hd as (Hfd & Hfree & Hk). intros [= <-]. cbn.
    rewrite !app_nil_r. split; [|done].
    assert (Hne : forall k' c, ps_conns s !! k' = Some c -> k' <> k) by congruence.
    assert (Hnh : forall pid c, ps_children s !! pid = Some c -> ~ holds c k).
    { intros pid c (_ & _ & fd' & k' & conn & _ & H1 & H2)%(pi_child s Hi) H3.
      apply (Hne k' conn H1). symmetry. by eapply stage_holds. }
    destruct Hi as [P1 P2 P3 P4 P5 P6]. split; try done.
    + exists k. eexists. split; [|split; [by rewrite <-Hp|]].
      { intros ->. rewrite Hp in Hfree. unfold own_fds in Hfree.
        by rewrite lookup_singleton_eq in Hfree. }
      split; [apply lookup_insert_eq|]. split; [done|]. intros (pid & c & H1 & H2). by apply (Hnh pid c).
    + intros pid c (H1 & H2 & fd' & k' & conn & H3 & H4 & H5)%P2. split; [done|]. split; [done|].
      exists fd', k', conn. split; [done|]. split; [|done].
      cbn. by rewrite lookup_insert_ne by (apply not_eq_sym; by eapply Hne).
    + intros k' c. cbn. intros [[<- <-]|[Hk' H]]%lookup_insert_Some.
      * split; [done|]. left. exists fd. split; [done|]. apply lookup_insert_eq.
      * apply (conn_ok_ext s); [cbn; congruence|done|by apply P4].
Qed.

Lemma fork_keeps r s s' :
  procs_inv s -> fork_step sockfd r s = Ok s' -> keeps s s' (EvFork r).
Proof.
  intros Hi. unfold fork_step, keeps, reports, loop_errno.
  destruct (ps_handler s) eqn:Eh; [done|]. destruct (ps_pos s) as [|fd|] eqn:Ep; [done| |done].
  pose proof (pi_parent s Hi) as Hp. unfold parent_ok in Hp. rewrite Ep in Hp.
  destruct Hp as (k & c & Hfd & Hf & Hk & Hw & Hnh).
  assert (Hno : forall pid x, ps_children s !! pid = Some x -> ~ holds x k)
    by (intros pid x ? ?; apply Hnh; by exists pid, x).
  destruct r as [pid|e].
  - case_decide as Hd; [|done]. destruct Hd as (Hpid & Hfree & Hz). intros [= <-]. cbn.
    rewrite !app_nil_r. split; [|done].
    set (new := Child (ps_fds s) (after_fork sockfd fd ForkChild)).
    assert (Hst : stage fd k Waiting new) by (unfold new; rewrite Hf; constructor).
    assert (Hup : forall k', child_holds s k' ->
      child_holds (set_pos (set_child s pid new) (Doing (after_fork sockfd fd ForkParent))) k').
    { intros k' (p & x & Hx & Hh). exists p, x. split; [|done]. cbn.
      rewrite lookup_insert_ne; [done|congruence]. }
    assert (Hdown : forall k',
      child_holds (set_pos (set_child s pid new) (Doing (after_fork sockfd fd ForkParent))) k' ->
      k' = k \/ child_holds s k').
    { intros k' (p & x & Hx & Hh). cbn in Hx. apply lookup_insert_Some in Hx as [[<- <-]|[_ Hx]].
      - left. by apply (stage_holds fd k Waiting new).
      - right. by exists p, x. }
    destruct Hi as [P1 P2 P3 P4 P5 P6]. split; try done.
    + exists k. done.
    + intros p x. cbn. intros [[<- <-]|[Hne H]]%lookup_insert_Some; [|by apply P2].
      split; [done|]. split; [done|]. exists fd, k, c. by rewrite Hw.
    + intros p p' x x' k'. cbn.
      intros [[<- <-]|[Hne H]]%lookup_insert_Some [[<- <-]|[Hne' H']]%lookup_insert_Some Hh Hh'.
      * done.
      * apply (stage_holds _ _ _ _ _ Hst) in Hh as ->. by destruct (Hno p' x').
      * apply (stage_holds _ _ _ _ _ Hst) in Hh' as ->. by destruct (Hno p x).
      * by apply (P3 p p' x x' k').
    + intros k' c' Hk'. specialize (P4 k' c' Hk'). unfold conn_ok in *.
      destruct (k_fate c') eqn:Ef; [|destruct P4 as [? Hn]; split; [done|]| |rename P4 into Hn];
        try done; try (intros [->|]%Hdown; [cbn in Hk'; congruence|done]).
      destruct P4 as [? [(fd' & Hpos & Hl)|]]; (split; [done|]); right; [|by apply Hup].
      rewrite Ep in Hpos. injection Hpos as <-. rewrite Hf in Hl.
      apply insert_fds_conn in Hl as [_ ->]. exists pid, new. split; [apply lookup_insert_eq|].
      by apply (stage_waiting fd).
  - rewrite Hf, lookup_insert_eq, Hk. intros [= <-]. cbn. rewrite Eh, app_nil_r. split; [|done].
    destruct Hi as [P1 P2 P3 P4 P5 P6]. split; try done.
    + exists k. done.
    + intros pid x Hx. destruct (P2 pid x Hx) as (? & ? & Hc). split; [done|]. split; [done|].
      eapply child_ok_other; [exact Hk|exact Hw| |by apply (Hno pid)|exact Hc].
      intros k' Hne. cbn. by rewrite lookup_insert_ne.
    + intros k' c'. cbn. intros [[<- <-]|[Hne H]]%lookup_insert_Some.
      * split; [|done]. specialize (P4 k c Hk). unfold conn_ok in P4. rewrite Hw in P4. apply P4.
      * specialize (P4 k' c' H). unfold conn_ok in *. destruct (k_fate c'); [|done..].
        destruct P4 as [? [(fd' & Hpos & Hl)|]]; (split; [done|]); [|by right].
        rewrite Ep in Hpos. injection Hpos as <-. rewrite Hf in Hl.
        apply insert_fds_conn in Hl as [_ ->]. done.
Qed.

Lemma parent_keeps s s' : procs_inv s -> parent_step s = Ok s' -> keeps s s' EvParent.
Proof.
  intros Hi. unfold parent_step, keeps, reports, loop_errno.
  destruct (ps_handler s) eqn:Eh; [done|].
  pose proof (pi_parent s Hi) as Hp. unfold parent_ok in Hp.
  pose proof (pi_zombies s Hi) as Hz.
  destruct (ps_pos s) as [[|[fd| |] acts]| |c acts] eqn:Ep; try done.
  - intros [= <-]. cbn. rewrite !app_nil_r. split; [|done].
    destruct acts; [|done]. destruct Hp as (k & Hne & Hf).
    apply (inv_parent s); try done; [cbn; congruence|].
    cbn. rewrite Hf. unfold own_fds, parent_ok. cbn.
    rewrite delete_insert_id; [done|]. by rewrite lookup_singleton_ne.
  - intros [= <-]. rewrite app_nil_r.
    set (quiet := match c with CAccept => ps_errno s =? EINTR | CFork => false end).
    assert (Hlog : ps_log (if quiet then s else perror s c) =
      ps_log s ++ match c with CAccept => accept_report (ps_errno s) | CFork => [(CFork, ps_errno s)] end).
    { unfold quiet, accept_report. destruct c; [destruct (ps_errno s =? EINTR)|];
        by rewrite ?app_nil_r. }
    split; [|cbn; rewrite Hlog, app_nil_r; by destruct c].
    apply (inv_parent s); unfold parent_ok; cbn; destruct quiet; try done.
    all: destruct c, acts as [|[] []]; try done.
    all: intros; congruence.
Qed.

Lemma signal_keeps s s' : procs_inv s -> sigchld_handler s = Ok s' -> keeps s s' EvSignal.
Proof.
  intros Hi. unfold sigchld_handler, keeps, reports, loop_errno.
  destruct (ps_handler s) eqn:Eh; [done|]. destruct (ps_pending s); [|done]. intros [= <-]. cbn.
  rewrite app_nil_r. split; [|done]. apply (inv_parent s); try done; [apply Hi|auto].
Qed.

Lemma wait_keeps pid s s' : procs_inv s -> handler_turn pid s = Ok s' -> keeps s s' (EvWait pid).
Proof.
  intros Hi. unfold handler_turn.
  destruct (ps_handler s) as [e|] eqn:Eh; [|done]. unfold waitpid.
  pose proof (pi_parent s Hi) as Hp.
  assert (Hq : forall t, procs_inv t -> ps_log t = ps_log s -> ps_pos t = ps_pos s ->
    loop_errno t = e -> keeps s t (EvWait pid)).
  { intros t Ht H1 H2 H3. split; [done|]. unfold reports. rewrite H1, H2, H3.
    unfold loop_errno. by rewrite Eh, app_nil_r. }
  case_decide as Hz; [|case_decide as Hin; [|done]]; cbn [mbind res_bind].
  - case_decide; cbn; intros [= <-]; apply Hq; try done; by apply (inv_parent s).
  - assert (0 < pid)%nat by (by apply (pi_pid s Hi)).
    destruct (Z.gtb_spec (Z.of_nat pid) 0); [|lia]. intros [= <-].
    apply Hq; [|done|done|unfold loop_errno; cbn; by rewrite Eh].
    apply (inv_parent s); try done; cbn; [set_solver|]. rewrite Eh. auto.
Qed.

(** The connection that a child closes, chats on or leaves is its own. *)
Lemma child_stage s pid c :
  procs_inv s -> ps_children s !! pid = Some c ->
  exists fd k conn, fd <> sockfd /\ ps_conns s !! k = Some conn /\ stage fd k (k_fate conn) c /\
    conn_ok s k conn.
Proof.
  intros Hi (_ & _ & fd & k & conn & H1 & H2 & H3)%(pi_child s Hi).
  exists fd, k, conn. split; [done|]. split; [done|]. split; [done|]. by apply Hi.
Qed.

Lemma conn_ok_served s s' k c : k_fate c = Served -> conn_ok s k c -> conn_ok s' k c.
Proof. unfold conn_ok. by intros ->. Qed.

(** A child closes a descriptor. *)
Lemma child_close_inv s pid fds fd acts :
  procs_inv s -> ps_children s !! pid = Some (Child fds (Close fd :: acts)) ->
  procs_inv (set_child s pid (Child (delete fd fds) acts)).
Proof.
  intros Hi Hc. destruct (child_stage s pid _ Hi Hc) as (fd0 & k & conn & Hne & Hk & Hst & Hck).
  assert (Hnew : stage fd0 k (k_fate conn) (Child (delete fd fds) acts) /\
    (k_fate conn = Waiting -> delete fd fds !! fd0 = Some (Conn k))).
  { inversion Hst; subst.
    - unfold own_fds. rewrite delete_insert_ne, delete_singleton_eq, insert_empty by done.
      split; [constructor|]. by rewrite lookup_singleton_eq.
    - replace (delete fd fds) with (∅ : gmap Z file); [split; [constructor|done]|].
      symmetry. apply map_empty. intros i. apply eq_None_not_Some. intros [f Hf].
      apply lookup_delete_Some in Hf as [Hi' Hf]. eapply lookup_weaken in Hf; [|done].
      by apply lookup_singleton_Some in Hf as [-> _]. }
  apply (inv_child s _ pid fd0 k (Child fds (Close fd :: acts)) conn conn (Some (Child (delete fd fds) acts))); try done.
  - cbn. by rewrite insert_id.
  - intros c' [= <-]. split; [apply Hnew|]. intros k' [fd' Hh]. exists fd'. cbn in *.
    by apply lookup_delete_Some in Hh as [_ ?].
  - auto.
  - cbn. by rewrite (left_id_L ∅ (∪)).
  - destruct (k_fate conn) eqn:Ef; [|by inversion Hst| |by inversion Hst].
    + unfold conn_ok in *. rewrite Ef in *. destruct Hck as [? _]. split; [done|]. right.
      exists pid. eexists. split; [apply lookup_insert_eq|]. exists fd0. by apply Hnew.
    + by apply (conn_ok_served s).
Qed.

(** A child has its conversation. *)
Lemma chat_inv s pid fds fd acts k conn err connect cb sb r client server :
  procs_inv s -> ps_children s !! pid = Some (Child fds (Chat fd :: acts)) ->
  fds !! fd = Some (Conn k) -> ps_conns s !! k = Some conn ->
  chat_with_client err connect (k_now conn) cb sb = Ok (r, client, server) ->
  procs_inv (set_child (set_conn s k (Connection (k_from conn) client Served)) pid
    (Child (if s_closed client then delete fd fds else fds) acts)).
Proof.
  intros Hi Hc Hfd Hk Hchat.
  destruct (child_stage s pid _ Hi Hc) as (fd0 & k0 & conn0 & Hne & Hk0 & Hst & Hck).
  assert (k = k0) as <- by (eapply stage_holds; [exact Hst|by exists fd]).
  rewrite Hk in Hk0. injection Hk0 as <-. inversion Hst as [|Hw| |]; subst.
  rewrite <-Hw in *. symmetry in Hw. unfold conn_ok in Hck. rewrite Hw in Hck.
  destruct Hck as [Hnow _]. rewrite Hnow in Hchat.
  set (fds' := if s_closed client then delete fd {[fd := Conn k]} else {[fd := Conn k]}).
  assert (Hsub : fds' ⊆ {[fd := Conn k]}) by (unfold fds'; case_match; [apply delete_subseteq|done]).
  apply (inv_child s _ pid fd k (Child {[fd := Conn k]} [Chat fd; Close fd; Exit]) conn
    (Connection (k_from conn) client Served) (Some (Child fds' [Close fd; Exit]))); try done.
  - rewrite Hw. constructor.
  - intros c' [= <-]. split; [by constructor|]. intros k' [fd' Hh]. exists fd'. cbn in *.
    by eapply lookup_weaken.
  - auto.
  - cbn. by rewrite (left_id_L ∅ (∪)).
  - by exists err, connect, cb, sb, r, server.
Qed.

(** A child ends, and leaves its connection as [conn']. *)
Lemma end_inv s pid c fd k conn conn' :
  procs_inv s -> ps_children s !! pid = Some c -> ps_conns s !! k = Some conn ->
  fd <> sockfd -> stage fd k (k_fate conn) c ->
  (conn' = conn /\ k_fate conn = Served) \/ (k_fate conn = Waiting /\ k_fate conn' = Crashed) ->
  procs_inv (end_child (set_conn s k conn') pid).
Proof.
  intros Hi Hc Hk Hne Hst Hf.
  apply (inv_child s _ pid fd k c conn conn' None); try done.
  - intuition.
  - destruct Hf as [[-> Hf]|[Hf Hf']].
    + apply (conn_ok_served s); [done|]. by apply Hi.
    + unfold conn_ok. rewrite Hf'. intros (p & x & Hx & Hh).
      cbn in Hx. apply lookup_delete_Some in Hx as [Hp Hx]. apply Hp. rewrite Hf in Hst.
      apply (pi_unique s Hi pid p c x k Hc Hx); [by apply (stage_waiting fd)|done].
Qed.

Lemma child_keeps pid err connect cb sb s s' :
  procs_inv s -> child_step pid err connect cb sb s = Ok s' ->
  keeps s s' (EvChild pid err connect cb sb).
Proof.
  intros Hi. unfold child_step, keeps. cbn [failures]. rewrite app_nil_r.
  destruct (ps_children s !! pid) as [[fds [|[fd|fd|] acts]]|] eqn:Hc; try done.
  - intros [= <-]. split; [by apply child_close_inv|done].
  - destruct (fds !! fd) as [[|k]|] eqn:Hfd; [done| |done].
    destruct (ps_conns s !! k) as [conn|] eqn:Hk; [|done].
    destruct (chat_with_client _ _ _ _ _) as [[[r client] server]|] eqn:Hchat; [|done].
    cbn. intros [= <-]. split; [by eapply chat_inv|done].
  - intros [= <-]. destruct (child_stage s pid _ Hi Hc) as (fd & k & conn & Hne & Hk & Hst & _).
    split; [|done].
    replace (end_child s pid) with (end_child (set_conn s k conn) pid)
      by (unfold end_child, set_conn; cbn; by rewrite insert_id).
    eapply end_inv; try done. left. split; [done|]. by inversion Hst.
Qed.

Lemma crash_keeps pid now s s' :
  procs_inv s -> crash_step pid now s = Ok s' -> keeps s s' (EvCrash pid now).
Proof.
  intros Hi. unfold crash_step, keeps. cbn [failures]. rewrite app_nil_r.
  destruct (ps_children s !! pid) as [[fds [|[fd|fd|] acts]]|] eqn:Hc; try done.
  destruct (fds !! fd) as [[|k]|] eqn:Hfd; [done| |done].
  destruct (ps_conns s !! k) as [conn|] eqn:Hk; [|done]. intros [= <-]. split; [|done].
  destruct (child_stage s pid _ Hi Hc) as (fd0 & k0 & conn0 & Hne & Hk0 & Hst & _).
  assert (k = k0) as <- by (eapply stage_holds; [exact Hst|by exists fd]).
  rewrite Hk in Hk0. injection Hk0 as <-. eapply end_inv; try done. right.
  split; [by inversion Hst|done].
Qed.

Lemma step_keeps e s s' : procs_inv s -> step sockfd e s = Ok s' -> keeps s s' e.
Proof.
  destruct e; intros Hi H; [by apply accept_keeps|by apply fork_keeps|by apply parent_keeps
    |by apply child_keeps|by apply crash_keeps|by apply signal_keeps|by apply wait_keeps].
Qed.

Lemma run_keeps es : forall s s', procs_inv s -> run sockfd es s = Ok s' ->
  procs_inv s' /\ reports s' = reports s ++ concat (map failures es).
Proof.
  induction es as [|e es IH]; cbn; intros s s' Hi.
  - intros [= <-]. by rewrite app_nil_r.
  - destruct (step sockfd e s) as [t|] eqn:He; [|done]. intros H.
    destruct (step_keeps e s t Hi He) as [Ht Hr]. destruct (IH t s' Ht H) as [? ->].
    by rewrite Hr, app_assoc.
Qed.
End invariant.

(** * What holds whatever happens *)

Lemma main_start argv getaddrinfo listen sigaction sockfd s0 :
  main argv getaddrinfo listen sigaction = inr (sockfd, s0) ->
  procs_inv sockfd s0 /\ s0 = Procs (Doing []) (own_fds sockfd) 0 None [] false ∅ ∅ ∅.
Proof.
  unfold main, proxy. destruct argv as [|? [|port []]]; try done.
  destruct (proxy_server_socket_setup _ _) as [fd closed]. destruct (fd <? 0); [done|].
  destruct sigaction; [|done]. intros [= <- <-]. by split.
Qed.

Lemma reached_inv argv getaddrinfo listen sigaction sockfd s0 es s :
  main argv getaddrinfo listen sigaction = inr (sockfd, s0) -> run sockfd es s0 = Ok s ->
  procs_inv sockfd s /\ reports s = concat (map failures es).
Proof.
  intros [Hi ->]%main_start Hr. by destruct (run_keeps sockfd es _ s Hi Hr) as [? ->].
Qed.

Lemma parent_size sockfd s : procs_inv sockfd s -> (size (ps_fds s) <= 2)%nat.
Proof.
  intros [Hp _ _ _ _ _]. unfold parent_ok, own_fds in Hp.
  assert (H2 : forall fd f, (size (<[fd := f]> {[sockfd := Listening]} : gmap Z file) <= 2)%nat).
  { intros fd f. rewrite map_size_insert, map_size_singleton. destruct (_ !! _); cbn; repeat constructor. }
  assert (H1 : (size ({[sockfd := Listening]} : gmap Z file) <= 2)%nat)
    by (rewrite map_size_singleton; lia).
  destruct (ps_pos s) as [[|[] []]| |[] [|[] []]]; try done; try (destruct Hp as (k & c & _ & Hp & _) || destruct Hp as (k & _ & Hp));
    rewrite Hp; first [exact H1|apply H2].
Qed.

(** C7: However the parent, its children, the signal and the kernel are
    interleaved: the parent never holds more than the listening socket and one
    connection, and whenever it is back at [accept] just the former; no two
    children hold the same connection; a connection waits untouched for its
    child, or [fork] failed and it was closed untouched, or it has had exactly
    the conversation that [chat_with_client] has on its own, or its child died in it,
    after whatever bytes, and no child holds it; a child that has ended is waited for, for the handler is
    running or about to; and the failures of [accept] and [fork] are reported as
    they were, none lost or changed by the handler, which has [errno] restored. *)
Theorem proxy_processes argv getaddrinfo listen sigaction sockfd s0 es s :
  main argv getaddrinfo listen sigaction = inr (sockfd, s0) -> run sockfd es s0 = Ok s ->
  (size (ps_fds s) <= 2)%nat /\
  (ps_pos s = Doing [] -> ps_fds s = {[sockfd := Listening]}) /\
  (forall pid pid' c c' k, ps_children s !! pid = Some c -> ps_children s !! pid' = Some c' ->
    holds c k -> holds c' k -> pid = pid') /\
  (forall k c, ps_conns s !! k = Some c -> conn_ok s k c) /\
  (ps_zombies s <> ∅ -> ps_pending s = true \/ ps_handler s <> None) /\
  (ps_pos s = Doing [] -> ps_log s = concat (map failures es)).
Proof.
  intros Hm Hr. destruct (reached_inv _ _ _ _ _ _ _ _ Hm Hr) as [Hi Hrep].
  pose proof (pi_parent _ s Hi) as Hp. unfold parent_ok in Hp.
  split; [by apply (parent_size sockfd)|]. split; [intros Hd; by rewrite Hd in Hp|].
  split; [by apply Hi|]. split; [by apply Hi|]. split; [by apply Hi|].
  intros Hd. unfold reports in Hrep. by rewrite Hd, app_nil_r in Hrep.
Qed.

(** * The handler ends, and everything is served in the end *)

Section live.
Context (sockfd : Z).

(** The turns of the handler that can still come: one for each child, ended or
    not, and the last. *)
Definition turns_left (s : procs) : nat :=
  match ps_handler s with
  | Some _ => S (size (ps_zombies s) + size (ps_children s))
  | None => 0
  end.
Definition is_wait (e : event) : nat := match e with EvWait _ => 1 | _ => 0 end.
Definition is_signal (e : event) : bool := match e with EvSignal => true | _ => false end.

Lemma end_child_turns s pid c :
  procs_inv sockfd s -> ps_children s !! pid = Some c ->
  turns_left (end_child s pid) = turns_left s.
Proof.
  intros Hi Hc. unfold turns_left. cbn. destruct (ps_handler s); [|done].
  destruct (pi_child _ s Hi pid c Hc) as (_ & Hz & _).
  rewrite size_union, size_singleton, map_size_delete, Hc by set_solver.
  assert (size (ps_children s) <> 0%nat).
  { intros Hn%map_size_empty_inv. by rewrite Hn in Hc. }
  f_equal. lia.
Qed.

Lemma step_turns e s s' :
  procs_inv sockfd s -> is_signal e = false -> step sockfd e s = Ok s' ->
  (turns_left s' + is_wait e <= turns_left s)%nat.
Proof.
  intros Hi Hs. unfold turns_left at 2.
  destruct e as [r k sk|r| |pid err co cb sb|pid now| |pid]; cbn; [| | | | |done|].
  1-3: unfold accept_step, fork_step, parent_step, turns_left.
  - destruct (ps_handler s) eqn:Eh; [done|]. destruct (ps_pos s) as [[|]| |]; [|done..].
    destruct r; [|case_decide; [|done]]; intros [= <-]; cbn; by rewrite Eh.
  - destruct (ps_handler s) eqn:Eh; [done|]. destruct (ps_pos s) as [|fd|]; [done| |done].
    destruct r.
    + case_decide; [|done]. intros [= <-]. cbn. by rewrite Eh.
    + destruct (ps_fds s !! fd) as [[]|]; [done| |done].
      destruct (ps_conns s !! k); [|done]. intros [= <-]. cbn. by rewrite Eh.
  - destruct (ps_handler s) eqn:Eh; [done|]. destruct (ps_pos s) as [[|[]]| |c]; try done.
    + intros [= <-]. cbn. by rewrite Eh.
    + intros [= <-]. cbn. destruct (match c with CAccept => ps_errno s =? EINTR | CFork => false end); cbn; by rewrite Eh.
  - fold (turns_left s). rewrite Nat.add_0_r. unfold child_step.
    assert (Hset : forall t c0 c, ps_handler t = ps_handler s -> ps_zombies t = ps_zombies s ->
      ps_children t = ps_children s -> ps_children s !! pid = Some c0 ->
      (turns_left (set_child t pid c) <= turns_left s)%nat).
    { intros t c0 c H1 H2 H3 H4. unfold turns_left. cbn. rewrite H1, H2, H3, map_size_insert, H4.
      by case_match. }
    destruct (ps_children s !! pid) as [[fds [|[fd|fd|] acts]]|] eqn:Hc; try done.
    + intros [= <-]. by eapply Hset.
    + destruct (fds !! fd) as [[|k]|]; [done| |done]. destruct (ps_conns s !! k); [|done].
      destruct (chat_with_client _ _ _ _ _) as [[[r client] server]|]; [|done].
      cbn. intros [= <-]. by eapply Hset.
    + intros [= <-]. by erewrite end_child_turns.
  - fold (turns_left s). rewrite Nat.add_0_r. unfold crash_step.
    destruct (ps_children s !! pid) as [[fds [|[fd|fd|] acts]]|] eqn:Hc; try done.
    destruct (fds !! fd) as [[|k]|]; [done| |done]. destruct (ps_conns s !! k) as [conn|]; [|done].
    intros [= <-]. rewrite <-(end_child_turns s pid _ Hi Hc). done.
  - unfold handler_turn, waitpid, turns_left.
    destruct (ps_handler s) as [e|] eqn:Eh; [|done].
    case_decide; [case_decide; cbn; intros [= <-]; cbn; lia|]. case_decide as Hin; [|done].
    cbn [mbind res_bind].
    assert (size (ps_zombies s ∖ {[pid]}) + 1 = size (ps_zombies s))%nat.
    { rewrite size_difference, size_singleton by set_solver.
      assert (size (ps_zombies s) <> 0%nat) by (intros ?%size_empty_inv; set_solver). lia. }
    case_match; intros [= <-]; cbn; rewrite ?Eh; lia.
Qed.

(** Until the next signal is delivered, the handler takes at most one turn for
    each child there is, and one. *)
Lemma handler_terminates es : forall s s',
  procs_inv sockfd s -> forallb (fun e => negb (is_signal e)) es = true ->
  run sockfd es s = Ok s' ->
  (sum_list_with is_wait es <= S (size (ps_zombies s) + size (ps_children s)))%nat.
Proof.
  assert (H : forall es s s', procs_inv sockfd s ->
    forallb (fun e => negb (is_signal e)) es = true -> run sockfd es s = Ok s' ->
    (sum_list_with is_wait es <= turns_left s)%nat).
  { clear es. induction es as [|e es IH]; cbn; intros s s' Hi Hs; [lia|].
    apply andb_true_iff in Hs as [Hs1%negb_true_iff Hs2].
    destruct (step sockfd e s) as [t|] eqn:He; [|done]. intros Hr.
    destruct (step_keeps sockfd e s t Hi He) as [Ht _].
    pose proof (IH t s' Ht Hs2 Hr). pose proof (step_turns e s t Hi Hs1 He). lia. }
  intros s s' Hi Hs Hr. etrans; [by eapply H|]. unfold turns_left. case_match; lia.
Qed.

(** ** A run to the end *)

Lemma run_app es es' s t s' :
  run sockfd es s = Ok t -> run sockfd es' t = Ok s' -> run sockfd (es ++ es') s = Ok s'.
Proof.
  revert s. induction es as [|e es IH]; cbn; intros s; [by intros [= ->]|].
  destruct (step sockfd e s); [|done]. intros. by apply IH.
Qed.

(** The handler reaps every child that has ended and gives [errno] back. *)
Lemma handler_reaps s e :
  procs_inv sockfd s -> ps_handler s = Some e ->
  exists es s', run sockfd es s = Ok s' /\ ps_zombies s' = ∅ /\ ps_handler s' = None /\
    ps_pos s' = ps_pos s /\ ps_fds s' = ps_fds s /\ ps_children s' = ps_children s /\
    ps_conns s' = ps_conns s /\ ps_pending s' = ps_pending s /\ ps_errno s' = e.
Proof.
  remember (size (ps_zombies s)) as n eqn:Hn. revert s Hn.
  induction n as [n IH] using lt_wf_ind; intros s -> Hi He.
  destruct (decide (ps_zombies s = ∅)) as [Hz|Hz].
  - exists [EvWait 0]. cbn. unfold handler_turn, waitpid. rewrite He, decide_True by done.
    case_decide; cbn; eexists; (split; [done|]); done.
  - destruct (set_choose_L _ Hz) as [pid Hin].
    assert (Hpos : (0 < pid)%nat) by (by apply (pi_pid _ s Hi)).
    set (t := set_zombies s (ps_zombies s ∖ {[pid]})).
    assert (Hst : step sockfd (EvWait pid) s = Ok t).
    { cbn. unfold handler_turn, waitpid. rewrite He, decide_False, decide_True by done.
      cbn [mbind res_bind]. by destruct (Z.gtb_spec (Z.of_nat pid) 0); [|lia]. }
    destruct (step_keeps sockfd _ s t Hi Hst) as [Ht _].
    destruct (IH (size (ps_zombies t))) with (s := t) as (es & s' & Hr & Hrest); try done.
    { apply subset_size. cbn. set_solver. }
    exists (EvWait pid :: es), s'. split; [|exact Hrest].
    cbn [run]. by rewrite Hst.
Qed.

(** Every connection that waits for its child can be served: none of the calls of
    the conversation blocks for good, or does what C leaves undefined. *)
Definition servable (s : procs) : Prop :=
  forall k conn, ps_conns s !! k = Some conn -> k_fate conn = Waiting ->
    exists err connect cb sb x, chat_with_client err connect (k_from conn) cb sb = Ok x.

(** From [s] to [s'] connections have at most been served, in the conversation with
    the child; none is new, refused or broken off, and the others are as they were. *)
Definition served_on (s s' : procs) : Prop :=
  forall k,
    ps_conns s' !! k = ps_conns s !! k \/
    exists c c', ps_conns s !! k = Some c /\ ps_conns s' !! k = Some c' /\
      k_fate c = Waiting /\ k_fate c' = Served /\ k_from c' = k_from c.

Lemma served_refl s s' : ps_conns s' = ps_conns s -> served_on s s'.
Proof. intros E k. left. by rewrite E. Qed.

Lemma served_trans s1 s2 s3 : served_on s1 s2 -> served_on s2 s3 -> served_on s1 s3.
Proof.
  intros H1 H2 k.
  destruct (H1 k) as [E1|(c & c' & A1 & A2 & A3 & A4 & A5)],
    (H2 k) as [E2|(d & d' & B1 & B2 & B3 & B4 & B5)].
  - left. congruence.
  - right. exists d, d'. by rewrite <-E1.
  - right. exists c, c'. by rewrite E2.
  - congruence.
Qed.

(** A child goes on to its end. *)
Lemma child_ends n : forall s pid c,
  procs_inv sockfd s -> servable s -> ps_children s !! pid = Some c ->
  length (c_todo c) = n ->
  exists es s', run sockfd es s = Ok s' /\ procs_inv sockfd s' /\ servable s' /\
    ps_children s' = delete pid (ps_children s) /\ ps_pos s' = ps_pos s /\
    ps_handler s' = ps_handler s /\ served_on s s'.
Proof.
  induction n as [n IH] using lt_wf_ind; intros s pid c Hi Hs Hc Hn.
  assert (Hgo : forall e t c', step sockfd e s = Ok t -> servable t -> served_on s t ->
    ps_children t = <[pid := c']> (ps_children s) -> (length (c_todo c') < n)%nat ->
    ps_pos t = ps_pos s -> ps_handler t = ps_handler s ->
    exists es s', run sockfd es s = Ok s' /\ procs_inv sockfd s' /\ servable s' /\
      ps_children s' = delete pid (ps_children s) /\ ps_pos s' = ps_pos s /\
      ps_handler s' = ps_handler s /\ served_on s s').
  { intros e t c' He Hst Hso Hct Hlt Hpt Hht.
    destruct (step_keeps sockfd e s t Hi He) as [Hti _].
    destruct (IH _ Hlt t pid c' Hti Hst) as (es & s' & H1 & H2 & H3 & H4 & H5 & H6 & H7);
      [rewrite Hct; apply lookup_insert_eq|done|].
    exists (e :: es), s'. split; [cbn [run]; by rewrite He|]. split; [done|]. split; [done|].
    rewrite H4, H5, H6, Hct, delete_insert_eq. split; [done|]. split; [done|].
    split; [done|]. by eapply served_trans. }
  destruct (child_stage sockfd s pid c Hi Hc) as (fd & k & conn & Hne & Hk & Hst & Hck).
  assert (Hclose : forall f acts, c_todo c = Close f :: acts -> exists t,
    step sockfd (EvChild pid 0 (fun _ _ => None) [] []) s = Ok t /\
    (servable t /\ served_on s t) /\ ps_children t = <[pid := Child (delete f (c_fds c)) acts]> (ps_children s) /\
    ps_pos t = ps_pos s /\ ps_handler t = ps_handler s).
  { intros f acts Ht. exists (set_child s pid (Child (delete f (c_fds c)) acts)).
    split; [|split; [split; [exact Hs|by apply served_refl]|done]].
    cbn. unfold child_step. rewrite Hc. destruct c as [fds todo]. cbn in Ht. by subst todo. }
  remember (k_fate conn) as f eqn:Hf. destruct Hst as [| |fds Hsub|]; cbn in Hn.
  - destruct (Hclose _ _ eq_refl) as (t & H1 & [H2 H6] & H3 & H4 & H5).
    apply (Hgo _ t _ H1 H2 H6 H3); [cbn; lia|done|done].
  - destruct (Hs k conn Hk (eq_sym Hf))
      as (err & connect & cb & sb & [[r client] server] & Hchat).
    unfold conn_ok in Hck. rewrite <-Hf in Hck. destruct Hck as [Hnow _].
    eapply (Hgo (EvChild pid err connect cb sb)).
    + cbn. unfold child_step. rewrite Hc, lookup_singleton_eq, Hk, Hnow, Hchat. done.
    + intros k' conn' Hk'. cbn in Hk'.
      apply lookup_insert_Some in Hk' as [[<- <-]|[_ ?]]; [done|by apply (Hs k')].
    + intros k'. cbn. destruct (decide (k = k')) as [<-|Hk']; [right|left].
      * eexists conn, _. rewrite lookup_insert_eq. done.
      * by rewrite lookup_insert_ne.
    + done.
    + cbn. lia.
    + done.
    + done.
  - destruct (Hclose _ _ eq_refl) as (t & H1 & [H2 H6] & H3 & H4 & H5).
    apply (Hgo _ t _ H1 H2 H6 H3); [cbn; lia|done|done].
  - exists [EvChild pid 0 (fun _ _ => None) [] []], (end_child s pid).
    assert (Hst : step sockfd (EvChild pid 0 (fun _ _ => None) [] []) s = Ok (end_child s pid))
      by (cbn; unfold child_step; by rewrite Hc).
    split; [cbn [run]; by rewrite Hst|].
    split; [by apply (step_keeps sockfd _ _ _ Hi Hst)|]. split; [exact Hs|].
    split; [done|]. split; [done|]. split; [done|]. by apply served_refl.
Qed.

Lemma children_end n : forall s,
  procs_inv sockfd s -> servable s -> size (ps_children s) = n ->
  exists es s', run sockfd es s = Ok s' /\ procs_inv sockfd s' /\
    ps_children s' = ∅ /\ ps_pos s' = ps_pos s /\ ps_handler s' = ps_handler s /\
    served_on s s'.
Proof.
  induction n as [|n IH]; intros s Hi Hs Hn.
  - exists [], s. apply map_size_empty_inv in Hn.
    do 5 (split; [done|]). by apply served_refl.
  - destruct (map_choose (ps_children s)) as (pid & c & Hc).
    { intros E. by rewrite E, map_size_empty in Hn. }
    destruct (child_ends _ s pid c Hi Hs Hc eq_refl) as (es & t & H1 & H2 & H3 & H4 & H5 & H6 & H7).
    destruct (IH t H2 H3) as (es' & s' & K1 & K2 & K3 & K4 & K5 & K6).
    { by rewrite H4, map_size_delete, Hc, Hn. }
    exists (es ++ es'), s'. split; [by eapply run_app|]. rewrite K4, K5, H5, H6.
    do 4 (split; [done|]). by eapply served_trans.
Qed.

(** The parent comes back to [accept], when a call of [fork] it is at succeeds. *)
Lemma parent_returns s :
  procs_inv sockfd s -> ps_handler s = None ->
  exists es s', run sockfd es s = Ok s' /\ ps_pos s' = Doing [] /\ ps_handler s' = None /\
    ps_conns s' = ps_conns s.
Proof.
  intros Hi Hh.
  assert (Hclose : forall s fd, ps_handler s = None -> ps_pos s = Doing [Close fd] ->
    step sockfd EvParent s = Ok (set_pos (set_fds s (delete fd (ps_fds s))) (Doing []))).
  { intros t fd H1 H2. cbn. unfold parent_step. by rewrite H1, H2. }
  pose proof (pi_parent _ s Hi) as Hp. unfold parent_ok in Hp.
  destruct (ps_pos s) as [[|[fd| |] []]|fd|c acts] eqn:Ep; try done.
  - by exists [], s.
  - exists [EvParent]. cbn [run]. rewrite (Hclose s fd) by done. by eexists.
  - set (pid := fresh ({[0%nat]} ∪ dom (ps_children s) ∪ ps_zombies s)).
    assert (Hpid : pid ∉ {[0%nat]} ∪ dom (ps_children s) ∪ ps_zombies s) by apply is_fresh.
    clearbody pid. set (t := set_pos (set_child s pid (Child (ps_fds s) (after_fork sockfd fd ForkChild)))
      (Doing (after_fork sockfd fd ForkParent))).
    assert (Ht : step sockfd (EvFork (inl pid)) s = Ok t).
    { cbn. unfold fork_step. rewrite Hh, Ep, decide_True; [done|].
      split; [set_unfold; destruct pid; [tauto|lia]|].
      split; [apply not_elem_of_dom; set_solver|set_solver]. }
    exists [EvFork (inl pid); EvParent]. cbn [run]. rewrite Ht. cbn [mbind res_bind].
    rewrite (Hclose t fd) by done. by eexists.
  - assert (Hrep : exists t, step sockfd EvParent s = Ok t /\ ps_pos t = Doing acts /\
      ps_handler t = None /\ ps_conns t = ps_conns s).
    { cbn. unfold parent_step. rewrite Hh, Ep. eexists. split; [done|].
      by destruct (match c with CAccept => ps_errno s =? EINTR | CFork => false end). }
    destruct Hrep as (t & H1 & H2 & H3 & H4).
    destruct acts as [|[fd| |] acts]; [|destruct c, acts; try done|by destruct c..].
    + exists [EvParent], t. split; [cbn [run]; by rewrite H1|done].
    + exists [EvParent; EvParent]. cbn [run]. rewrite H1. cbn [mbind res_bind].
      rewrite (Hclose t fd) by done. by eexists.
Qed.

(** The signal that is pending, if any, is delivered and handled. *)
Lemma all_reaped s :
  procs_inv sockfd s -> ps_handler s = None -> ps_children s = ∅ ->
  exists es s', run sockfd es s = Ok s' /\ ps_zombies s' = ∅ /\ ps_handler s' = None /\
    ps_pending s' = false /\ ps_children s' = ∅ /\ ps_pos s' = ps_pos s /\
    ps_conns s' = ps_conns s.
Proof.
  intros Hi Hh Hc. destruct (ps_pending s) eqn:Hp.
  - set (t := set_handler s (Some (ps_errno s)) false).
    assert (Hst : step sockfd EvSignal s = Ok t) by (cbn; unfold sigchld_handler; by rewrite Hh, Hp).
    destruct (step_keeps sockfd _ s t Hi Hst) as [Ht _].
    destruct (handler_reaps t (ps_errno s) Ht eq_refl) as (es & s' & H1 & H2 & H3 & H4 & _ & H5 & H7 & H6 & _).
    exists (EvSignal :: es), s'. split; [cbn [run]; by rewrite Hst|]. by rewrite H5, H6, H7.
  - exists [], s. split; [done|]. split; [|done].
    destruct (decide (ps_zombies s = ∅)) as [|Hz]; [done|]. destruct (pi_zombies _ s Hi Hz); congruence.
Qed.

(** C29: The proxy gets through its work: from any state it can reach, if the
    conversation of every connection that waits for its child can go through (its calls
    return and do nothing undefined), then the parent, the children and the handler
    can go on, a [fork] that is due succeeding, to where the parent is at [accept],
    every child has ended and been waited for, no signal is pending, and no
    connection is held by anybody: each one that was waiting has been served, in a
    conversation of the code on the socket as it was accepted, and the others, those
    that were refused or whose child has died included, are as they were. Meanwhile
    the handler cannot hold the parent up: however children end while it runs, it
    takes at most one turn for each child there is and one more. *)
Theorem proxy_drains argv getaddrinfo listen sigaction s0 es s :
  main argv getaddrinfo listen sigaction = inr (sockfd, s0) -> run sockfd es s0 = Ok s ->
  (servable s ->
   exists es' s', run sockfd es' s = Ok s' /\ ps_pos s' = Doing [] /\ ps_handler s' = None /\
     ps_children s' = ∅ /\ ps_zombies s' = ∅ /\ ps_pending s' = false /\
     (forall k, ~ parent_holds s' k) /\
     forall k,
       match ps_conns s !! k with
       | Some (Connection from now Waiting) => exists now' err connect cb sb r server,
           ps_conns s' !! k = Some (Connection from now' Served) /\
           chat_with_client err connect from cb sb = Ok (r, now', server)
       | settled => ps_conns s' !! k = settled
       end) /\
  (forall es' s', forallb (fun e => negb (is_signal e)) es' = true -> run sockfd es' s = Ok s' ->
   (sum_list_with is_wait es' <= S (size (ps_zombies s) + size (ps_children s)))%nat).
Proof.
  intros Hm Hr. destruct (reached_inv _ _ _ _ _ _ _ _ Hm Hr) as [Hi _].
  split; [|intros ? ?; by apply handler_terminates]. intros Hs.
  assert (exists es1 s1, run sockfd es1 s = Ok s1 /\ ps_handler s1 = None /\
    ps_pos s1 = ps_pos s /\ ps_conns s1 = ps_conns s) as (es1 & s1 & R1 & H1 & H2 & H3).
  { destruct (ps_handler s) as [e|] eqn:Eh; [|by exists [], s].
    destruct (handler_reaps s e Hi Eh) as (es1 & s1 & ? & ? & ? & ? & ? & ? & ? & ?).
    by exists es1, s1. }
  destruct (run_keeps sockfd es1 s s1 Hi R1) as [Hi1 _].
  destruct (parent_returns s1 Hi1 H1) as (es2 & s2 & R2 & K1 & K2 & K4).
  destruct (run_keeps sockfd es2 s1 s2 Hi1 R2) as [Hi2 _].
  destruct (children_end (size (ps_children s2)) s2 Hi2) as (es3 & s3 & R3 & Hi3 & L1 & L2 & L3 & L4); [|done|].
  { intros k c. rewrite K4, H3. apply (Hs k). }
  destruct (all_reaped s3 Hi3) as (es4 & s4 & R4 & M1 & M2 & M3 & M4 & M5 & M6); [congruence|done|].
  destruct (run_keeps sockfd es4 s3 s4 Hi3 R4) as [Hi4 _].
  exists (es1 ++ es2 ++ es3 ++ es4), s4.
  split; [by repeat (eapply run_app; [eassumption|])|].
  assert (Hd : ps_pos s4 = Doing []) by congruence.
  split; [done|]. split; [done|]. split; [done|]. split; [done|]. split; [done|].
  split.
  { intros k. pose proof (pi_parent _ s4 Hi4) as Hp. unfold parent_ok in Hp. rewrite Hd in Hp.
    unfold parent_holds. rewrite Hp. by intros [fd ?%own_fds_conn]. }
  intros k. pose proof (pi_conn _ s4 Hi4 k) as Hck. specialize (L4 k).
  rewrite <-M6, K4, H3 in L4.
  assert (Hw : forall from now, ps_conns s4 !! k <> Some (Connection from now Waiting)).
  { intros from now Hk. apply Hck in Hk as [_ [(fd & ? & _)|(pid & x & Hx & _)]]; [congruence|].
    by rewrite M4 in Hx. }
  destruct L4 as [E|([from1 now1 f1] & [from2 now2 f2] & A1 & A2 & A3 & A4 & A5)].
  - rewrite <-E. destruct (ps_conns s4 !! k) as [[from now []]|]; try done.
    by destruct (Hw from now).
  - cbn in A3, A4, A5. subst f1 f2 from2. rewrite A1.
    destruct (Hck _ A2) as (err & connect & cb & sb & r & server & Hchat).
    by exists now2, err, connect, cb, sb, r, server.
Qed.
End live.

(** * At concrete inputs *)

(** The system gives the listening socket descriptor 3. *)
Definition demo_lookup (port : buffer) : option (list addrinfo) :=
  Some [Addrinfo (Some 3) true true true].
Definition demo_start : procs := Procs (Doing []) {[3 := Listening]} 0 None [] false ∅ ∅ ∅.
Definition after (es : list event) : procs :=
  match run 3 es demo_start with Ok s => s | Fault _ => demo_start end.
Definition demo_chat (pid : nat) : event :=
  EvChild pid 0 (fun _ _ => Some example_server) (replicate RECV_BUFFER_SIZE 0)
    (replicate RECV_BUFFER_SIZE 0).

(** A client whose child is still to run. *)
Definition demo_one : list event :=
  [EvAccept (Accepted 4) 0 example_client; EvFork (inl 7%nat); EvParent].

(** Then a second one, for which [fork] fails; the first one's child ends just
    when [accept] has failed with an error of its own. *)
Definition demo_two : list event :=
  demo_one ++
  [EvAccept (Accepted 4) 1 example_client; EvChild 7 0 (fun _ _ => None) [] []; demo_chat 7;
   EvFork (inr 11); EvParent; EvChild 7 0 (fun _ _ => None) [] []; EvParent;
   EvAccept (AcceptErr 24) 0 example_client; EvChild 7 0 (fun _ _ => None) [] []; EvSignal;
   EvWait 7; EvWait 0; EvParent].

Lemma proxy_processes_witness :
  run 3 demo_two demo_start = Ok (after demo_two) /\ ps_pos (after demo_two) = Doing [] /\
  ps_fds (after demo_two) = {[3 := Listening]} /\ ps_children (after demo_two) = ∅ /\
  ps_zombies (after demo_two) = ∅ /\
  ps_log (after demo_two) = [(CFork, 11); (CAccept, 24)] /\
  match ps_conns (after demo_two) !! 0%nat with
  | Some c => k_fate c = Served /\ s_out (k_now c) = example_reply
  | None => False
  end.
Proof.
  assert (Hr : run 3 demo_two demo_start = Ok (after demo_two)) by (vm_compute; reflexivity).
  assert (Hp : ps_pos (after demo_two) = Doing []) by (vm_compute; reflexivity).
  destruct (proxy_processes [str "proxy"; str "80"] demo_lookup true true 3 demo_start demo_two
    (after demo_two)) as (_ & H1 & _ & _ & _ & H2).
  - reflexivity.
  - exact Hr.
  - split; [exact Hr|]. split; [exact Hp|]. split; [exact (H1 Hp)|].
    split; [vm_compute; reflexivity|]. split; [vm_compute; reflexivity|].
    split; [exact (H2 Hp)|]. vm_compute. split; reflexivity.
Defined.

Lemma proxy_drains_witness :
  (0 < size (ps_children (after demo_one)))%nat /\
  exists es s, run 3 es (after demo_one) = Ok s /\ ps_children s = ∅ /\ ps_zombies s = ∅.
Proof.
  split; [apply Nat.ltb_lt; vm_compute; reflexivity|].
  destruct (proxy_drains 3 [str "proxy"; str "80"] demo_lookup true true demo_start demo_one
    (after demo_one)) as [H _].
  - reflexivity.
  - vm_compute. reflexivity.
  - destruct H as (es & s & H1 & _ & _ & H2 & H3 & _); [|by exists es, s].
    intros k conn Hk _. destruct k as [|k].
    + assert (Hc : ps_conns (after demo_one) !! 0%nat =
          Some (Connection example_client example_client Waiting)) by (vm_compute; reflexivity).
        rewrite Hc in Hk. injection Hk as <-.
        exists 0, (fun _ _ => Some example_server), (replicate RECV_BUFFER_SIZE 0),
          (replicate RECV_BUFFER_SIZE 0). eexists. vm_compute. reflexivity.
    + assert (Hc : ps_conns (after demo_one) =
          {[0%nat := Connection example_client example_client Waiting]})
          by (vm_compute; reflexivity).
        rewrite Hc in Hk. rewrite lookup_singleton_ne in Hk; [|discriminate]. discriminate Hk.
Defined.
