(* ===== verification/Mysock.v ===== *)
(** Mysockets: the descriptor table and the contexts of
    transport-layer/src/mysock.c and mysock_impl.h. A context is known by its
    descriptor; the threads that serve it appear by whether they run. The
    listening queues of connection_demux.c, which these operations reach through
    [stcp_unblock_application], are part of the state and are worked on in
    Demux. *)
From S2P Require Import Prelude Mem Sockets PacketQueue NetTcp HashTable.

(** * Addresses *)

(** [struct sockaddr], seen as a [sockaddr_in] where its family is [AF_INET]. *)
Definition sizeof_sockaddr : nat := 16.
Definition sa_family : field := Field 0 2.
Definition sin_port : field := Field 2 2.
Definition sin_addr : field := Field 4 4.
Definition AF_INET : Z := 2.

Definition no_addr : buffer := replicate sizeof_sockaddr 0.

(** * Contexts *)

(** [network_context_t]; whether the peer's address is valid is kept with the
    socket. *)
Record network_context := NetworkContext {
  nc_local_addr : buffer;
  nc_peer_addr : buffer;
  nc_peer_addr_len : Z;
  nc_tcp : tcp_context }.

(** A thread: not created or joined, running, or ended and not yet joined. *)
Inductive thread := TNone | TRunning | TDone.

#[export] Instance thread_eq_dec : EqDecision thread.
Proof. solve_decision. Defined.

(** [mysock_context_t] *)
Record mysock_context := MysockContext {
  mc_is_active : bool;
  mc_net : network_context;
  mc_bound : bool;
  mc_listening : bool;
  mc_my_sd : nat;
  mc_listen_sd : option nat;       (* [None]: -1 *)
  mc_blocking : bool;
  mc_stcp_errno : Z;
  mc_transport : thread;
  mc_receiver : bool;              (* recv_thread_started *)
  mc_app : app_side;
  mc_network_recv_queue : packet_queue }.

Definition set_net (c : mysock_context) (n : network_context) : mysock_context :=
  MysockContext (mc_is_active c) n (mc_bound c) (mc_listening c) (mc_my_sd c)
    (mc_listen_sd c) (mc_blocking c) (mc_stcp_errno c) (mc_transport c) (mc_receiver c)
    (mc_app c) (mc_network_recv_queue c).
Definition set_bound (c : mysock_context) : mysock_context :=
  MysockContext (mc_is_active c) (mc_net c) true (mc_listening c) (mc_my_sd c)
    (mc_listen_sd c) (mc_blocking c) (mc_stcp_errno c) (mc_transport c) (mc_receiver c)
    (mc_app c) (mc_network_recv_queue c).
Definition set_listening (c : mysock_context) : mysock_context :=
  MysockContext (mc_is_active c) (mc_net c) (mc_bound c) true (mc_my_sd c)
    (mc_listen_sd c) (mc_blocking c) (mc_stcp_errno c) (mc_transport c) (mc_receiver c)
    (mc_app c) (mc_network_recv_queue c).
Definition set_my_sd (c : mysock_context) (sd : nat) : mysock_context :=
  MysockContext (mc_is_active c) (mc_net c) (mc_bound c) (mc_listening c) sd
    (mc_listen_sd c) (mc_blocking c) (mc_stcp_errno c) (mc_transport c) (mc_receiver c)
    (mc_app c) (mc_network_recv_queue c).
Definition set_listen_sd (c : mysock_context) (sd : nat) : mysock_context :=
  MysockContext (mc_is_active c) (mc_net c) (mc_bound c) (mc_listening c) (mc_my_sd c)
    (Some sd) (mc_blocking c) (mc_stcp_errno c) (mc_transport c) (mc_receiver c)
    (mc_app c) (mc_network_recv_queue c).
Definition set_unblocked (c : mysock_context) (err : Z) : mysock_context :=
  MysockContext (mc_is_active c) (mc_net c) (mc_bound c) (mc_listening c) (mc_my_sd c)
    (mc_listen_sd c) false err (mc_transport c) (mc_receiver c)
    (mc_app c) (mc_network_recv_queue c).
Definition set_transport (c : mysock_context) (t : thread) : mysock_context :=
  MysockContext (mc_is_active c) (mc_net c) (mc_bound c) (mc_listening c) (mc_my_sd c)
    (mc_listen_sd c) (mc_blocking c) (mc_stcp_errno c) t (mc_receiver c)
    (mc_app c) (mc_network_recv_queue c).
Definition set_active (c : mysock_context) (b : bool) : mysock_context :=
  MysockContext b (mc_net c) (mc_bound c) (mc_listening c) (mc_my_sd c)
    (mc_listen_sd c) (mc_blocking c) (mc_stcp_errno c) (mc_transport c) (mc_receiver c)
    (mc_app c) (mc_network_recv_queue c).
Definition set_receiver (c : mysock_context) (b : bool) : mysock_context :=
  MysockContext (mc_is_active c) (mc_net c) (mc_bound c) (mc_listening c) (mc_my_sd c)
    (mc_listen_sd c) (mc_blocking c) (mc_stcp_errno c) (mc_transport c) b
    (mc_app c) (mc_network_recv_queue c).
Definition set_app (c : mysock_context) (a : app_side) : mysock_context :=
  MysockContext (mc_is_active c) (mc_net c) (mc_bound c) (mc_listening c) (mc_my_sd c)
    (mc_listen_sd c) (mc_blocking c) (mc_stcp_errno c) (mc_transport c) (mc_receiver c)
    a (mc_network_recv_queue c).
Definition set_network_recv (c : mysock_context) (q : packet_queue) : mysock_context :=
  MysockContext (mc_is_active c) (mc_net c) (mc_bound c) (mc_listening c) (mc_my_sd c)
    (mc_listen_sd c) (mc_blocking c) (mc_stcp_errno c) (mc_transport c) (mc_receiver c)
    (mc_app c) q.

(** The address of the peer, recorded as valid. *)
Definition set_peer (c : mysock_context) (addr : buffer) (len : Z) : mysock_context :=
  let t := nc_tcp (mc_net c) in
  set_net c (NetworkContext (nc_local_addr (mc_net c)) addr len
    (TcpContext (tc_socket t) (tc_new_socket t) (tc_connected t) true)).
Definition set_tcp (c : mysock_context) (t : tcp_context) : mysock_context :=
  set_net c (NetworkContext (nc_local_addr (mc_net c)) (nc_peer_addr (mc_net c))
    (nc_peer_addr_len (mc_net c)) t).

(** * Listening queues (connection_demux.c) *)

(** [connect_request_t]; [user_data], which is always null over TCP, is left out. *)
Record connect_request := ConnectRequest {
  cr_peer_addr : buffer; cr_peer_addr_len : Z; cr_sd : option nat }.

(** [INVALIDATE_CONNECT_REQUEST] *)
Definition invalid_request : connect_request := ConnectRequest no_addr 0 None.

(** [listen_queue_t]. The entries of [completed_queue] are pointers into the
    array [connection_queue]; each is the array's incarnation, which [realloc]
    changes, and an index. *)
Record listen_queue := ListenQueue {
  lq_local_port : Z;
  lq_max_len : Z;
  lq_cur_len : Z;
  lq_requests : list connect_request;      (* connection_queue *)
  lq_incarnation : nat;
  lq_completed : list (nat * nat) }.       (* completed_queue *)

(** * The state *)

(** maximum number of mysockets per process *)
Definition MAX_NUM_CONNECTIONS : nat := 64.

Record mysocks := Mysocks {
  global_ctx : list (option mysock_context);
  listen_table : list (list (nat * nat));  (* descriptor to queue *)
  ms_queues : gmap nat listen_queue;       (* the queues allocated *)
  ms_next : nat;                           (* the next address of [calloc] *)
  ms_wrlocked : bool;                      (* [listen_lock] held for writing *)
  ms_closed : list sock;                   (* what has been closed *)
  ms_errno : Z }.

Definition set_table (s : mysocks) (t : list (option mysock_context)) : mysocks :=
  Mysocks t (listen_table s) (ms_queues s) (ms_next s) (ms_wrlocked s) (ms_closed s)
    (ms_errno s).
Definition set_queues (s : mysocks) (q : gmap nat listen_queue) : mysocks :=
  Mysocks (global_ctx s) (listen_table s) q (ms_next s) (ms_wrlocked s) (ms_closed s)
    (ms_errno s).
Definition set_wrlocked (s : mysocks) (b : bool) : mysocks :=
  Mysocks (global_ctx s) (listen_table s) (ms_queues s) (ms_next s) b (ms_closed s)
    (ms_errno s).
Definition set_closed (s : mysocks) (l : list sock) : mysocks :=
  Mysocks (global_ctx s) (listen_table s) (ms_queues s) (ms_next s) (ms_wrlocked s) l
    (ms_errno s).
Definition set_errno (s : mysocks) (e : Z) : mysocks :=
  Mysocks (global_ctx s) (listen_table s) (ms_queues s) (ms_next s) (ms_wrlocked s)
    (ms_closed s) e.

(** The state in which the process starts. *)
Definition init_mysocks : mysocks :=
  Mysocks (replicate MAX_NUM_CONNECTIONS None) (hash_empty MAX_NUM_CONNECTIONS) ∅ 0 false
    [] 0.

Abbreviation MM := (M mysocks).

Definition EBADF : Z := 9.
Definition EINVAL : Z := 22.
Definition EMFILE : Z := 24.
Definition EADDRNOTAVAIL : Z := 99.
Definition ECONNABORTED : Z := 103.
Definition EISCONN : Z := 106.
Definition ENOTCONN : Z := 107.
Definition ECONNREFUSED : Z := 111.

(** [MYSOCK_ERROR_EXIT] *)
Definition error_exit (err : Z) : MM Z := modify (fun s => set_errno s err);; mret (-1).

(** * Descriptors *)

(** [_mysock_get_context], with the assertions of [verify_mysocket_descriptor]:
    a descriptor that is not in use ends the process. *)
Definition mysock_get_context (sd : nat) : MM mysock_context :=
  s ← get;
  match global_ctx s !! sd with
  | Some (Some c) => assertM (mc_my_sd c =? sd)%nat;; mret c
  | _ => fail AssertFail
  end.

(** A change of the context of a descriptor. *)
Definition upd_context (sd : nat) (f : mysock_context -> mysock_context) : MM unit :=
  modify (fun s => set_table s (alter (option_map f) sd (global_ctx s))).

(** [_mysock_allocate_context] with the socket that [socket] gives; without one
    an assertion fails. *)
Definition mysock_allocate_context (socket : option sock) : MM mysock_context :=
  match socket with
  | None => fail AssertFail
  | Some s =>
      mret (MysockContext false (NetworkContext no_addr no_addr 0 (network_init s))
        false false 0 None true 0 TNone false (AppSide [] [] false false) [])
  end.

(** The search for a free descriptor. *)
Fixpoint free_descriptor (t : list (option mysock_context)) : option nat :=
  match t with
  | [] => None
  | None :: _ => Some 0%nat
  | Some _ :: t => option_map S (free_descriptor t)
  end.

(** Closing the sockets of a context: [_network_close]. *)
Definition close_network (c : mysock_context) : MM unit :=
  modify (fun s => set_closed s (ms_closed s ++ network_close (nc_tcp (mc_net c)))).

(** [_mysock_new_mysocket] *)
Definition mysock_new_mysocket (socket : option sock) : MM (option nat) :=
  c ← mysock_allocate_context socket;
  s ← get;
  match free_descriptor (global_ctx s) with
  | Some k => put (set_table s (<[k := Some (set_my_sd c k)]> (global_ctx s)));; mret (Some k)
  | None =>
      close_network c;;
      modify (fun s => set_errno s EMFILE);;
      mret None
  end.

(** [_mysock_free_context]: the queues are freed with the context. *)
Definition mysock_free_context (sd : nat) : MM unit :=
  c ← mysock_get_context sd;
  close_network c;;
  modify (fun s => set_table s (<[sd := None]> (global_ctx s))).

(** [_mysock_transport_init]: the two threads are started. *)
Definition mysock_transport_init (sd : nat) (is_active : bool) : MM unit :=
  c ← mysock_get_context sd;
  assertM (negb (mc_listening c));;
  upd_context sd (fun c => set_transport (set_receiver (set_active c is_active) true) TRunning).

(** [_mysock_wait_for_connection]: -1 and [errno] when the connection failed. *)
Definition mysock_wait_for_connection (sd : nat) : MM Z :=
  c ← mysock_get_context sd;
  if mc_blocking c then fail Blocked
  else
    modify (fun s => set_errno s (mc_stcp_errno c));;
    mret (if mc_stcp_errno c =? 0 then 0 else -1).

(** [_mysock_bind_ephemeral]; [rc] is the result of [bind]. *)
Definition mysock_bind_ephemeral (sd : nat) (rc : Z) : MM Z :=
  c ← mysock_get_context sd;
  assertM (negb (mc_bound c));;
  if rc <? 0 then fail AssertFail
  else upd_context sd set_bound;; mret 0.
