(* ===== verification/Demux.v ===== *)
(** Listening mysockets: transport-layer/src/connection_demux.c, with what ends
    in it, [stcp_unblock_application] (stcp_api.c), the end of a transport thread
    (mysock.c) and the receive thread of a listening socket
    (network_io_socket.c). *)
From S2P Require Import Prelude Mem Sockets TcpSum PacketQueue NetTcp HashTable Mysock.

(** * The listening table *)

(** [HASH_TABLE_DECLARE (listen_table, ...)]: the default hash function on
    descriptors, which are not negative. *)
Definition listen_hash (sd : nat) : nat := (sd mod MAX_NUM_CONNECTIONS)%nat.
Definition listen_lookup (s : mysocks) (sd : nat) : res (option nat) :=
  hash_lookup_ptr listen_hash MAX_NUM_CONNECTIONS (listen_table s) sd.
Definition set_listen_table (s : mysocks) (t : list (list (nat * nat))) : mysocks :=
  Mysocks (global_ctx s) t (ms_queues s) (ms_next s) (ms_wrlocked s) (ms_closed s)
    (ms_errno s).

(** [listen_lock] for reading: waits while a writer holds it. *)
Definition rdlock : MM unit := s ← get; if ms_wrlocked s then fail Blocked else mret tt.
(** For writing. *)
Definition wrlock : MM unit :=
  s ← get; if ms_wrlocked s then fail Blocked else put (set_wrlocked s true).
Definition wrunlock : MM unit := modify (fun s => set_wrlocked s false).

(** [_get_connection_queue] *)
Definition get_connection_queue (sd : nat) : MM (option nat) :=
  c ← mysock_get_context sd;
  assertM (mc_listening c && mc_bound c);;
  s ← get;
  lift (listen_lookup s sd).

(** The queue a pointer leads to, and a write to it. *)
Definition deref_queue (p : nat) : MM listen_queue :=
  s ← get;
  match ms_queues s !! p with Some q => mret q | None => fail UseAfterFree end.
Definition put_queue (p : nat) (q : listen_queue) : MM unit :=
  modify (fun s => set_queues s (<[p := q]> (ms_queues s))).

(** The slots in use by the loops, the first [max_len]. *)
Definition slots (q : listen_queue) : res (list connect_request) :=
  let n := Z.to_nat (lq_max_len q) in
  if (n <=? length (lq_requests q))%nat then Ok (take n (lq_requests q))
  else Fault OutOfBounds.

Definition set_requests (q : listen_queue) (rs : list connect_request) : listen_queue :=
  ListenQueue (lq_local_port q) (lq_max_len q) (lq_cur_len q) rs (lq_incarnation q)
    (lq_completed q).
Definition set_cur_len (q : listen_queue) (n : Z) : listen_queue :=
  ListenQueue (lq_local_port q) (lq_max_len q) n (lq_requests q) (lq_incarnation q)
    (lq_completed q).
Definition set_completed (q : listen_queue) (l : list (nat * nat)) : listen_queue :=
  ListenQueue (lq_local_port q) (lq_max_len q) (lq_cur_len q) (lq_requests q)
    (lq_incarnation q) l.

(** The first slot that satisfies a test. *)
Fixpoint find_slot (f : connect_request -> bool) (rs : list connect_request) : option nat :=
  match rs with
  | [] => None
  | r :: rs => if f r then Some 0%nat else option_map S (find_slot f rs)
  end.

(** * New connections *)

(** [_mysock_set_backlog]; [port] is what [_network_get_port] answers, in network
    byte order. Growing the array with [realloc] gives it a new incarnation. *)
Definition grow_queue (q : listen_queue) (max_len : Z) : listen_queue :=
  if max_len >? lq_max_len q then
    ListenQueue (lq_local_port q) max_len (lq_cur_len q)
      (take (Z.to_nat (lq_max_len q)) (lq_requests q) ++
       replicate (Z.to_nat (max_len - lq_max_len q)) invalid_request)
      (S (lq_incarnation q)) (lq_completed q)
  else
    ListenQueue (lq_local_port q) max_len (lq_cur_len q) (lq_requests q)
      (lq_incarnation q) (lq_completed q).

Definition mysock_set_backlog (sd : nat) (port backlog : Z) : MM unit :=
  let max_len := u32 (backlog + 1) in
  c ← mysock_get_context sd;
  assertM (mc_listening c && mc_bound c);;
  let local_port := ntohs port in
  assertM (0 <? local_port);;
  wrlock;;
  found ← get_connection_queue sd;
  p ← match found with
      | Some p => mret p
      | None =>
          s ← get;
          let p := ms_next s in
          t ← lift (hash_insert listen_hash MAX_NUM_CONNECTIONS (listen_table s)
                      (mc_my_sd c) p);
          put (Mysocks (global_ctx s) t
                 (<[p := ListenQueue local_port 0 0 [] 0 []]> (ms_queues s))
                 (S p) (ms_wrlocked s) (ms_closed s) (ms_errno s));;
          mret p
      end;
  q ← deref_queue p;
  assertM (lq_local_port q =? local_port);;
  put_queue p (grow_queue q max_len);;
  wrunlock.

(** The loop that looks for a retransmission of a queued request. *)
Fixpoint retransmission (rs : list connect_request) (addr : buffer) (len : Z) : res bool :=
  match rs with
  | [] => Ok false
  | r :: rs =>
      if match cr_sd r with None => true | Some _ => len =? cr_peer_addr_len r end then
        a ← rd 0 (Z.to_nat len) (cr_peer_addr r);
        b ← rd 0 (Z.to_nat len) addr;
        if decide (a = b) then Ok true else retransmission rs addr len
      else Fault AssertFail
  end.

Definition is_free (r : connect_request) : bool :=
  match cr_sd r with None => true | Some _ => false end.

(** What [_network_update_passive_state] does to the two contexts. *)
Definition update_passive_state (new sd : nat) : MM unit :=
  n ← mysock_get_context new;
  c ← mysock_get_context sd;
  '(tn, tc) ← lift (network_update_passive_state (mc_listening n) (mc_is_active n)
                      (nc_tcp (mc_net n)) (nc_tcp (mc_net c)));
  modify (fun s => set_closed s (ms_closed s ++ [close (tc_socket (nc_tcp (mc_net n)))]));;
  upd_context new (fun n => set_tcp n tn);;
  upd_context sd (fun c => set_tcp c tc).

(** The connection of a request that found a slot. *)
Definition establish (sd p k : nat) (q : listen_queue) (packet peer_addr : buffer)
  (peer_addr_len : Z) (socket : option sock) : MM bool :=
  new ← mysock_new_mysocket socket;
  match new with
  | None =>
      put_queue p (set_cur_len (set_requests q (<[k := invalid_request]> (lq_requests q)))
                     (u32 (lq_cur_len q - 1)));;
      mret false
  | Some new =>
      upd_context new (fun n => set_peer (set_listen_sd n sd) peer_addr peer_addr_len);;
      put_queue p (set_requests q
        (<[k := ConnectRequest peer_addr peer_addr_len (Some new)]> (lq_requests q)));;
      update_passive_state new sd;;
      mysock_transport_init new false;;
      upd_context new (fun n =>
        set_network_recv n (mysock_enqueue_buffer (mc_network_recv_queue n) packet));;
      mret true
  end.

(** [_mysock_enqueue_connection]: whether the connection has been queued. The
    contexts' sockets for new mysockets come from [socket]. *)
Definition mysock_enqueue_connection (sd : nat) (packet peer_addr : buffer)
  (peer_addr_len : Z) (socket : option sock) : MM bool :=
  c ← mysock_get_context sd;
  assertM (mc_listening c && mc_bound c);;
  assertM (0 <? peer_addr_len);;
  rdlock;;
  if (length packet <? sizeof_tcphdr)%nat then mret false
  else
    flags ← lift (ld th_flags 0 packet);
    if Z.land flags TH_SYN =? 0 then mret false
    else
      found ← get_connection_queue sd;
      match found with
      | None => mret false
      | Some p =>
          q ← deref_queue p;
          rs ← lift (slots q);
          again ← lift (retransmission rs peer_addr peer_addr_len);
          if (again : bool) then mret false
          else if lq_cur_len q <? lq_max_len q then
            match find_slot is_free rs with
            | None => fail AssertFail
            | Some k =>
                let q := set_cur_len q (u32 (lq_cur_len q + 1)) in
                put_queue p q;;
                establish sd p k q packet peer_addr peer_addr_len socket
            end
          else mret false
      end.

(** * Completed connections *)

(** [_mysock_passive_connection_complete] *)
Definition mysock_passive_connection_complete (sd : nat) : MM unit :=
  c ← mysock_get_context sd;
  rdlock;;
  match mc_listen_sd c with
  | None => fail AssertFail
  | Some lsd =>
      found ← get_connection_queue lsd;
      match found with
      | None => mret tt
      | Some p =>
          q ← deref_queue p;
          rs ← lift (slots q);
          match find_slot (fun r => bool_decide (cr_sd r = Some (mc_my_sd c))) rs with
          | None => fail AssertFail
          | Some k => put_queue p (set_completed q (lq_completed q ++ [(lq_incarnation q, k)]))
          end
      end
  end.

(** [stcp_unblock_application], with [err] in [errno]. *)
Definition EINTR : Z := 4.
Definition unblock_application (sd : nat) (err : Z) : MM unit :=
  c ← mysock_get_context sd;
  assertM (mc_blocking c);;
  upd_context sd (fun c => set_unblocked c (if err =? EINTR then 0 else err));;
  if mc_is_active c then mret tt else mysock_passive_connection_complete sd.

(** What is left of [transport_thread_func] when [transport_init] has returned
    with [err] in [errno]. *)
Definition transport_thread_exit (sd : nat) (err : Z) : MM unit :=
  c ← mysock_get_context sd;
  (if mc_blocking c then
     unblock_application sd
       (if (err =? 0) || (err =? EINTR)
        then if mc_is_active c then ECONNREFUSED else ECONNABORTED
        else err)
   else mret tt);;
  upd_context sd (fun c =>
    let a := mc_app c in
    set_transport (set_app c (AppSide (as_recv_queue a)
      (mysock_enqueue_buffer (as_send_queue a) []) (as_close_requested a) (as_eof a))) TDone).

(** A pointer to a slot, valid in the incarnation of the array it was made in. *)
Definition deref_request (q : listen_queue) (r : nat * nat) : res connect_request :=
  if decide (fst r = lq_incarnation q) then
    match lq_requests q !! snd r with Some x => Ok x | None => Fault OutOfBounds end
  else Fault UseAfterFree.

(** [_mysock_dequeue_connection]: waits until a connection has completed. *)
Definition mysock_dequeue_connection (sd : nat) : MM nat :=
  c ← mysock_get_context sd;
  assertM (mc_listening c && mc_bound c);;
  rdlock;;
  found ← get_connection_queue sd;
  match found with
  | None => fail AssertFail
  | Some p =>
      q ← deref_queue p;
      match lq_completed q with
      | [] => fail Blocked
      | r :: next =>
          let q := set_completed q next in
          x ← lift (deref_request q r);
          match cr_sd x with
          | None => fail AssertFail
          | Some new =>
              n ← mysock_get_context new;
              assertM (0 <? lq_cur_len q);;
              put_queue p (set_cur_len
                (set_requests q (<[snd r := invalid_request]> (lq_requests q)))
                (u32 (lq_cur_len q - 1)));;
              mret (mc_my_sd n)
          end
      end
  end.

(** [_mysock_close_passive_socket]; [myclose] closes one socket. *)
Definition mysock_close_passive_socket (myclose : nat -> MM unit) (sd : nat) : MM unit :=
  c ← mysock_get_context sd;
  assertM (mc_listening c && mc_bound c);;
  wrlock;;
  found ← get_connection_queue sd;
  match found with
  | None => mret tt
  | Some p =>
      q ← deref_queue p;
      rs ← lift (slots q);
      for_each (fun r => match cr_sd r with Some n => myclose n | None => mret tt end) rs;;
      s ← get;
      t ← lift (hash_delete listen_hash MAX_NUM_CONNECTIONS (listen_table s) (mc_my_sd c));
      put (set_queues (set_listen_table s t) (delete p (ms_queues s)))
  end;;
  wrunlock.

(** * The receive thread of a listening socket *)

(** One turn of [network_recv_thread_func] when the socket is ready: [accepts] is
    the socket and the peer's address that [accept] gives, [socket] the socket
    for a new mysocket. Whether the thread goes on. *)
Definition listen_turn (sd : nat) (accepts : option (sock * buffer)) (socket : option sock)
  : MM bool :=
  c ← mysock_get_context sd;
  let net := mc_net c in
  '(r, data, t) ← lift (network_recv_packet (mc_is_active c) (mc_listening c) true
                          (option_map fst accepts) (nc_tcp net) MAX_IP_PAYLOAD_LEN);
  let peer := match accepts with Some (_, a) => a | None => nc_peer_addr net end in
  upd_context sd (fun c => set_net c
    (NetworkContext (nc_local_addr net) peer (Z.of_nat sizeof_sockaddr) t));;
  if r <=? 0 then
    upd_context sd (fun c =>
      set_network_recv c (mysock_enqueue_buffer (mc_network_recv_queue c) []));;
    mret false
  else
    assertM (r <=? Z.of_nat MAX_IP_PAYLOAD_LEN);;
    mysock_enqueue_connection sd data peer (Z.of_nat sizeof_sockaddr) socket;;
    mret true.
