(* ===== verification/MysockApi.v ===== *)
(** The application's interface to mysockets: transport-layer/src/mysock_api.c.
    The results of the system calls below it, and what the transport layer of a
    connection comes to, are arguments. *)
From S2P Require Import Prelude Mem Sockets PacketQueue NetTcp HashTable Mysock Demux.

(** [mysocket] *)
Definition mysocket (socket : option sock) : MM (option nat) := mysock_new_mysocket socket.

(** [mybind]; [rc] is the result of [bind]. *)
Definition mybind (sd : nat) (addr : buffer) (rc : Z) : MM Z :=
  c ← mysock_get_context sd;
  family ← lift (ld sa_family 0 addr);
  if negb (family =? AF_INET) then error_exit EADDRNOTAVAIL
  else
    assertM (negb (mc_listening c));;
    upd_context sd (fun c => set_bound (set_net c
      (NetworkContext addr (nc_peer_addr (mc_net c)) (nc_peer_addr_len (mc_net c))
         (nc_tcp (mc_net c)))));;
    mret rc.

(** [myconnect]; [bind_rc] is the result of [bind], and [outcome] the [errno]
    with which the transport layer unblocks the application, if it ever does. *)
Definition myconnect (sd : nat) (name : buffer) (namelen bind_rc : Z) (outcome : option Z)
  : MM Z :=
  c ← mysock_get_context sd;
  if negb (nc_peer_addr_len (mc_net c) =? 0) then error_exit EISCONN
  else
    upd_context sd (fun c => set_peer c name (u32 namelen));;
    rc ← (if mc_bound c then mret 0 else mysock_bind_ephemeral sd bind_rc);
    if rc <? 0 then mret rc
    else
      mysock_transport_init sd true;;
      match outcome with
      | Some err => unblock_application sd err
      | None => fail Blocked
      end;;
      mysock_wait_for_connection sd.

(** [myaccept], with room for the peer's address: the descriptor, or -1 as
    [None], and the address when it is filled in. *)
Definition myaccept (sd : nat) : MM (option nat * option buffer) :=
  a ← mysock_get_context sd;
  if negb (mc_listening a) then error_exit EINVAL;; mret (None, None)
  else
    new ← mysock_dequeue_connection sd;
    c ← mysock_get_context new;
    addr ← (if mc_stcp_errno c =? 0 then
              assertM (0 <? nc_peer_addr_len (mc_net c));;
              mret (Some (nc_peer_addr (mc_net c)))
            else mret None);
    assertM (bool_decide (mc_listen_sd c = Some sd));;
    modify (fun s => set_errno s (mc_stcp_errno c));;
    mret (if mc_stcp_errno c =? 0 then Some (mc_my_sd c) else None, addr).

(** [mylisten]; [port] is the socket's port, [rc] the result of [listen]. *)
Definition mylisten (sd : nat) (backlog port rc : Z) : MM Z :=
  c ← mysock_get_context sd;
  assertM (mc_bound c);;
  upd_context sd set_listening;;
  mysock_set_backlog sd port (u32 backlog);;
  if rc <? 0 then mret (-1)
  else
    upd_context sd (fun c => set_receiver c true);;
    mret 0.

(** [myclose]. While it waits for the transport thread, the thread's
    [transport_init] returns with the [errno] that [returns] gives for its
    descriptor, if it ever does, and the thread ends. A listening socket closes
    its queued connections in turn. *)
Definition join_transport (returns : nat -> option Z) (sd : nat) : MM unit :=
  c ← mysock_get_context sd;
  match mc_transport c with
  | TNone => mret tt
  | t =>
      assertM (negb (mc_listening c));;
      assertM (mc_is_active c || bool_decide (mc_listen_sd c <> None));;
      (if decide (t = TRunning) then
         match returns sd with
         | Some err => transport_thread_exit sd err
         | None => fail Blocked
         end
       else mret tt);;
      upd_context sd (fun c => set_transport c TNone)
  end.
Definition request_close (sd : nat) : MM unit :=
  upd_context sd (fun c => set_app c
    (AppSide (as_recv_queue (mc_app c)) (as_send_queue (mc_app c)) true (as_eof (mc_app c)))).

Fixpoint myclose (fuel : nat) (returns : nat -> option Z) (sd : nat) : MM Z :=
  match fuel with
  | O => fail OutOfFuel
  | S fuel =>
      c ← mysock_get_context sd;
      request_close sd;;
      join_transport returns sd;;
      upd_context sd (fun c => set_receiver c false);;
      (if mc_listening c then
         mysock_close_passive_socket (fun n => _ ← myclose fuel returns n; mret tt) sd
       else mret tt);;
      mysock_free_context sd;;
      mret 0
  end.

(** [mywrite] and [myread] on a descriptor; -1 as [None]. *)
Definition mywrite_on (sd : nat) (buf : buffer) : MM (option nat) :=
  c ← mysock_get_context sd;
  if mc_listening c then error_exit EINVAL;; mret None
  else
    '(n, a) ← lift (mywrite (mc_app c) buf);
    upd_context sd (fun c => set_app c a);;
    mret (Some n).
Definition myread_on {memcpy : Memcpy} (sd buf_len : nat) : MM (option (buffer * nat)) :=
  c ← mysock_get_context sd;
  if mc_listening c then error_exit EINVAL;; mret None
  else
    '(d, n, a) ← lift (myread (mc_app c) buf_len);
    upd_context sd (fun c => set_app c a);;
    mret (Some (d, n)).

(** [_network_get_local_addr] (network_io.c); [interface_ip] is what
    [_network_get_interface_ip] finds for the peer's address. *)
Definition network_get_local_addr (interface_ip : Z -> Z) (n : network_context) : res Z :=
  if negb (tc_peer_valid (nc_tcp n)) || negb (0 <? nc_peer_addr_len n) then Fault AssertFail
  else
    family ← ld sa_family 0 (nc_peer_addr n);
    if negb (family =? AF_INET) then Fault AssertFail
    else addr ← ld sin_addr 0 (nc_peer_addr n); Ok (interface_ip addr).

(** [mygetsockname]: the address stored; [port] is what [_network_get_port]
    answers. *)
Definition mygetsockname (interface_ip : Z -> Z) (sd : nat) (port : Z) : MM buffer :=
  c ← mysock_get_context sd;
  let addr := nc_local_addr (mc_net c) in
  family ← lift (ld sa_family 0 addr);
  assertM ((family =? 0) || (family =? AF_INET));;
  addr ← lift (st sa_family 0 AF_INET addr);
  addr ← lift (st sin_port 0 port addr);
  if tc_peer_valid (nc_tcp (mc_net c)) then
    local ← lift (network_get_local_addr interface_ip (mc_net c));
    lift (st sin_addr 0 local addr)
  else mret addr.

(** [mygetpeername] into a buffer with room for [namelen] bytes: the result, the
    bytes copied and the length stored. *)
Definition mygetpeername (sd : nat) (namelen : Z) : MM (Z * buffer * Z) :=
  c ← mysock_get_context sd;
  let len := nc_peer_addr_len (mc_net c) in
  name ← lift (rd 0 (Z.to_nat (Z.min namelen len)) (nc_peer_addr (mc_net c)));
  if 0 <? len then mret (0, name, len)
  else rc ← error_exit ENOTCONN; mret (rc, name, len).
