(* ===== verification/DemuxRep.v ===== *)
(** The backlog of a listening mysocket, abstractly, and how the listening queue
    and the descriptor table of connection_demux.c and mysock.c represent it: a
    request takes a slot, a completed one is pointed to, an accepted one frees its
    slot. *)
From S2P Require Import Prelude Mem Sockets TcpSum PacketQueue NetTcp HashTable Mysock Demux.

(** * The abstract backlog *)

(** How many connections may be outstanding, how many descriptors are free, the
    peers whose handshake is not over, and the completed connections with their
    errors, the oldest first. *)
Record backlog := Backlog {
  bl_max : nat; bl_free : nat; bl_pending : gset buffer; bl_ready : list (buffer * Z) }.

Definition outstanding (b : backlog) : nat := (size (bl_pending b) + length (bl_ready b))%nat.

(** A request from an address that has one outstanding is dropped, as is one for
    which there is no room or no descriptor. *)
Definition known (b : backlog) (a : buffer) : bool :=
  bool_decide (a ∈ bl_pending b) || bool_decide (a ∈ (bl_ready b).*1).
Definition admits (b : backlog) (a : buffer) : bool :=
  negb (known b a) && (outstanding b <? bl_max b)%nat && (0 <? bl_free b)%nat.
Definition spec_syn (b : backlog) (a : buffer) : backlog :=
  if admits b a
  then Backlog (bl_max b) (bl_free b - 1) ({[a]} ∪ bl_pending b) (bl_ready b)
  else b.
Definition spec_complete (b : backlog) (a : buffer) (err : Z) : backlog :=
  Backlog (bl_max b) (bl_free b) (bl_pending b ∖ {[a]})
    (bl_ready b ++ [(a, if err =? EINTR then 0 else err)]).
Definition spec_accept (b : backlog) : backlog :=
  Backlog (bl_max b) (bl_free b) (bl_pending b) (tail (bl_ready b)).

(** * Counting *)

Definition count {A} (f : A -> bool) (l : list A) : nat := length (List.filter f l).

Lemma count_le_length {A} (f : A -> bool) l : (count f l <= length l)%nat.
Proof.
  unfold count. induction l as [|x l IH]; [done|]. cbn. destruct (f x); cbn; lia.
Qed.

Lemma count_insert {A} (f : A -> bool) l k x y :
  l !! k = Some x ->
  (count f (<[k := y]> l) + Nat.b2n (f x) = count f l + Nat.b2n (f y))%nat.
Proof.
  unfold count. revert k. induction l as [|z l IH]; intros k; [done|].
  destruct k as [|k]; cbn.
  - intros [= ->]. change (<[0%nat:=y]> (x :: l)) with (y :: l). simpl. destruct (f x), (f y); simpl; lia.
  - intros H. pose proof (IH k H) as E. change (<[S k:=y]> (z :: l)) with (z :: <[k:=y]> l).
    cbn [List.filter]. destruct (f z); [|exact E]. cbn [length].
    rewrite !Nat.add_succ_l. f_equal. exact E.
Qed.

Definition used (r : connect_request) : bool := negb (is_free r).
Definition unused (o : option mysock_context) : bool :=
  match o with None => true | Some _ => false end.

Lemma find_slot_some f rs k :
  find_slot f rs = Some k -> exists r, rs !! k = Some r /\ f r = true.
Proof.
  revert k. induction rs as [|r rs IH]; intros k; [done|]. cbn [find_slot].
  destruct (f r) eqn:Ef.
  - intros [= <-]. by exists r.
  - destruct (find_slot f rs) as [j|]; [|done]. intros [= <-]. by apply IH.
Qed.

Lemma find_slot_exists f rs k r :
  rs !! k = Some r -> f r = true -> exists j, find_slot f rs = Some j.
Proof.
  revert k. induction rs as [|x rs IH]; intros k; [done|]. cbn [find_slot].
  destruct (f x) eqn:Ef; [by eexists|]. destruct k as [|k].
  - intros [= ->]. congruence.
  - intros Hk Hf. destruct (IH k Hk Hf) as [j ->]. by eexists.
Qed.

Lemma find_slot_free rs :
  (count used rs < length rs)%nat ->
  exists k r, find_slot is_free rs = Some k /\ rs !! k = Some r /\ cr_sd r = None.
Proof.
  intros H. destruct (find_slot is_free rs) as [k|] eqn:Ef.
  - destruct (find_slot_some _ _ _ Ef) as (r & Hr & Hf). exists k, r. split; [done|].
    split; [done|]. unfold is_free in Hf. by destruct (cr_sd r).
  - exfalso. revert H Ef. unfold count. induction rs as [|r rs IH]; [simpl; lia|].
    cbn [find_slot List.filter length]. unfold used at 1.
    destruct (is_free r) eqn:E; [done|]. cbn. destruct (find_slot is_free rs); [done|].
    intros. apply IH; [lia|done].
Qed.

Lemma free_descriptor_ok t :
  match free_descriptor t with
  | Some k => t !! k = Some None
  | None => count unused t = 0%nat
  end.
Proof.
  unfold count. induction t as [|[c|] t IH]; cbn; [done| |done].
  by destruct (free_descriptor t).
Qed.

(** * Contexts *)

Definition context_of (s : mysocks) (sd : nat) : option mysock_context :=
  mjoin (global_ctx s !! sd).

Definition table_wf (s : mysocks) : Prop :=
  forall sd c, context_of s sd = Some c -> mc_my_sd c = sd.

Lemma get_context_ok s sd c :
  table_wf s -> context_of s sd = Some c -> mysock_get_context sd s = Ok (c, s).
Proof.
  intros Hw Hc. unfold mysock_get_context. exec. pose proof (Hw _ _ Hc) as Hs.
  unfold context_of in Hc. destruct (global_ctx s !! sd) as [[c'|]|]; try done.
  injection Hc as ->. by rewrite Hs, Nat.eqb_refl.
Qed.

Lemma get_context_none s sd :
  context_of s sd = None -> mysock_get_context sd s = Fault AssertFail.
Proof.
  unfold context_of, mysock_get_context. exec.
  by destruct (global_ctx s !! sd) as [[]|].
Qed.

(** The state after a change of a context. *)
Definition with_context (s : mysocks) (sd : nat) (f : mysock_context -> mysock_context)
  : mysocks := set_table s (alter (option_map f) sd (global_ctx s)).

Lemma upd_context_eq sd f s : upd_context sd f s = Ok (tt, with_context s sd f).
Proof. done. Qed.

Lemma context_of_with s sd f k :
  context_of (with_context s sd f) k =
    if decide (k = sd) then f <$> context_of s sd else context_of s k.
Proof.
  unfold context_of, with_context. cbn [global_ctx set_table]. case_decide as Hk.
  - subst k. rewrite list_lookup_alter_eq. by destruct (global_ctx s !! sd) as [[]|].
  - by rewrite list_lookup_alter_ne.
Qed.

Lemma with_context_wf s sd f :
  table_wf s -> (forall c, mc_my_sd (f c) = mc_my_sd c) -> table_wf (with_context s sd f).
Proof.
  intros Hw Hf k c. rewrite context_of_with. case_decide as Hk.
  - subst k. destruct (context_of s sd) as [c'|] eqn:Hc; [|done]. intros [= <-].
    rewrite Hf. by apply Hw.
  - apply Hw.
Qed.

Lemma count_with s sd f :
  count unused (global_ctx (with_context s sd f)) = count unused (global_ctx s).
Proof.
  cbn [global_ctx with_context set_table]. unfold count.
  generalize (global_ctx s). intros t. revert sd. induction t as [|o t IH]; intros sd; [done|].
  destruct sd as [|sd]; [by destruct o|]. cbn. change (list_alter ?g ?i ?l) with (alter g i l).
  destruct (unused o); cbn; by rewrite IH.
Qed.

(** The contexts of connections. *)
Definition conn_of (s : mysocks) (sd : nat) : option mysock_context :=
  match context_of s sd with
  | Some c => if mc_listening c then None else Some c
  | None => None
  end.

(** * The representation *)

Definition inet_addr (a : buffer) : Prop :=
  length a = sizeof_sockaddr /\ fval sa_family 0 a = AF_INET.

(** The context of a connection that arrived at [L] from [a]. *)
Record child (L : nat) (a : buffer) (c : mysock_context) : Prop := {
  ch_listen : mc_listen_sd c = Some L;
  ch_passive : mc_is_active c = false;
  ch_peer : nc_peer_addr (mc_net c) = a;
  ch_len : nc_peer_addr_len (mc_net c) = Z.of_nat sizeof_sockaddr;
  ch_running : mc_blocking c = true -> mc_transport c = TRunning }.

Section queue_representation.
Context (conn : nat -> option mysock_context) (L : nat).

(** Slot [k] is that of connection [c], descriptor [sd], from [a]. *)
Record slot_of (q : listen_queue) (k : nat) (a : buffer) (sd : nat) (c : mysock_context)
  : Prop := {
  so_slot : lq_requests q !! k =
    Some (ConnectRequest a (Z.of_nat sizeof_sockaddr) (Some sd));
  so_conn : conn sd = Some c;
  so_child : child L a c;
  so_addr : inet_addr a }.

(** An entry of the completed queue stands for a connection that is over its
    handshake. *)
Definition completed_as (q : listen_queue) (e : nat * nat) (x : buffer * Z) : Prop :=
  fst e = lq_incarnation q /\
  exists sd c, slot_of q (snd e) (fst x) sd c /\ mc_blocking c = false /\
    mc_stcp_errno c = snd x.

Record queue_rep (q : listen_queue) (b : backlog) : Prop := {
  qr_max : lq_max_len q = Z.of_nat (bl_max b);
  qr_width : lq_max_len q < 4294967296;
  qr_slots : length (lq_requests q) = bl_max b;
  qr_cur : lq_cur_len q = Z.of_nat (count used (lq_requests q));
  qr_count : count used (lq_requests q) = outstanding b;
  qr_each : forall k r, lq_requests q !! k = Some r ->
    r = invalid_request \/ exists a sd c, slot_of q k a sd c;
  qr_addrs : forall k k' a sd sd' c c',
    slot_of q k a sd c -> slot_of q k' a sd' c' -> k = k';
  qr_sds : forall k k' a a' sd c c',
    slot_of q k a sd c -> slot_of q k' a' sd c' -> k = k';
  qr_completed : Forall2 (completed_as q) (lq_completed q) (bl_ready b);
  qr_nodup : NoDup (lq_completed q).*2;
  qr_pending : forall a, a ∈ bl_pending b <->
    exists k sd c, slot_of q k a sd c /\ mc_blocking c = true;
  qr_done : forall k a sd c, slot_of q k a sd c -> mc_blocking c = false ->
    k ∈ (lq_completed q).*2;
  qr_conn : forall sd c, conn sd = Some c -> mc_listen_sd c = Some L ->
    mc_blocking c = true -> exists k a, slot_of q k a sd c }.
End queue_representation.

(** Listener [L] of the process implements the backlog [b]. *)
Record demux_rep (L : nat) (s : mysocks) (b : backlog) : Prop := {
  dr_unlocked : ms_wrlocked s = false;
  dr_wf : table_wf s;
  dr_free : count unused (global_ctx s) = bl_free b;
  dr_listener : exists c, context_of s L = Some c /\ mc_listening c = true /\
    mc_bound c = true;
  dr_queue : exists p q, listen_lookup s L = Ok (Some p) /\ ms_queues s !! p = Some q /\
    queue_rep (conn_of s) L q b;
  dr_passive : forall c, context_of s L = Some c -> mc_is_active c = false }.

(** ** Slots *)

Lemma inet_addr_some a : inet_addr a -> a <> no_addr.
Proof. intros [_ H] ->. discriminate H. Qed.

Section queue_lemmas.
Context (conn : nat -> option mysock_context) (L : nat) (q : listen_queue) (b : backlog).
Hypothesis Hq : queue_rep conn L q b.

Lemma rep_room : (lq_cur_len q <? lq_max_len q) = (outstanding b <? bl_max b)%nat.
Proof.
  rewrite (qr_cur _ _ _ _ Hq), (qr_max _ _ _ _ Hq), (qr_count _ _ _ _ Hq).
  destruct (Nat.ltb_spec (outstanding b) (bl_max b)); [apply Z.ltb_lt|apply Z.ltb_ge]; lia.
Qed.

Lemma rep_slots : slots q = Ok (lq_requests q).
Proof.
  unfold slots. rewrite (qr_max _ _ _ _ Hq), Nat2Z.id, (qr_slots _ _ _ _ Hq).
  rewrite Nat.leb_refl, take_ge; [done|]. by rewrite (qr_slots _ _ _ _ Hq).
Qed.

(** Below the backlog, the search for a slot finds an empty one. *)
Lemma rep_empty_slot :
  (outstanding b < bl_max b)%nat ->
  exists k, find_slot is_free (lq_requests q) = Some k /\
    lq_requests q !! k = Some invalid_request.
Proof.
  intros Hroom. destruct (find_slot_free (lq_requests q)) as (k & r & Hfind & Hk & Hno).
  { rewrite (qr_count _ _ _ _ Hq), (qr_slots _ _ _ _ Hq). lia. }
  assert (Hinv : r = invalid_request).
  { destruct (qr_each _ _ _ _ Hq k r Hk) as [|(a' & sd & c & Hs)]; [done|].
    rewrite (so_slot _ _ _ _ _ _ _ Hs) in Hk. by injection Hk as <-. }
  subst r. by exists k.
Qed.

(** The addresses in use are those of the outstanding connections. *)
Lemma known_slot a :
  known b a = true <-> exists k sd c, slot_of conn L q k a sd c.
Proof.
  unfold known. rewrite orb_true_iff, !bool_decide_eq_true. split.
  - intros [Ha|Ha].
    + apply (qr_pending _ _ _ _ Hq) in Ha as (k & sd & c & Hs & _). eauto.
    + apply list_elem_of_fmap in Ha as (x & -> & Hx).
      apply list_elem_of_lookup in Hx as [i Hi].
      destruct (Forall2_lookup_r _ _ _ _ _ (qr_completed _ _ _ _ Hq) Hi)
        as (e & _ & _ & sd & c & Hs & _). eauto.
  - intros (k & sd & c & Hs). destruct (mc_blocking c) eqn:Eb.
    + left. apply (qr_pending _ _ _ _ Hq). eauto.
    + right. pose proof (qr_done _ _ _ _ Hq _ _ _ _ Hs Eb) as Hk.
      apply list_elem_of_fmap in Hk as (e & -> & He).
      apply list_elem_of_lookup in He as [i Hi].
      destruct (Forall2_lookup_l _ _ _ _ _ (qr_completed _ _ _ _ Hq) Hi)
        as (x & Hx & _ & sd' & c' & Hs' & _).
      pose proof (so_slot _ _ _ _ _ _ _ Hs) as H1.
      rewrite (so_slot _ _ _ _ _ _ _ Hs') in H1. injection H1 as <- _.
      apply list_elem_of_fmap. exists x. split; [done|]. by apply list_elem_of_lookup_2 in Hx.
Qed.

Lemma retransmission_slots rs a :
  inet_addr a ->
  (forall r, r ∈ rs -> r = invalid_request \/
    exists k a' sd c, slot_of conn L q k a' sd c /\
      r = ConnectRequest a' (Z.of_nat sizeof_sockaddr) (Some sd)) ->
  exists again, retransmission rs a (Z.of_nat sizeof_sockaddr) = Ok again /\
    (again = true <-> a ∈ map cr_peer_addr rs).
Proof.
  intros Ha. pose proof (inet_addr_some a Ha) as Hne. destruct Ha as [Hl Hf].
  induction rs as [|r rs IH]; intros Hr.
  { exists false. split; [done|]. split; [done|]. by intros ?%not_elem_of_nil. }
  destruct IH as (again & E & Hag). { intros r' Hr'. apply Hr. set_solver. }
  assert (Ht : match cr_sd r with None => true | Some _ =>
      Z.of_nat sizeof_sockaddr =? cr_peer_addr_len r end = true /\
      length (cr_peer_addr r) = sizeof_sockaddr).
  { destruct (Hr r) as [->|(k & a' & sd & c & Hs & ->)]; [set_solver|done|].
    split; [done|]. apply (so_addr _ _ _ _ _ _ _ Hs). }
  destruct Ht as [Ht Hlr]. cbn [retransmission map]. rewrite Ht, Nat2Z.id.
  rewrite (rd_all _ (cr_peer_addr r)) by done. rewrite (rd_all _ a) by done.
  cbn [mbind res_bind]. case_decide as Hd.
  - exists true. split; [done|]. split; [|done]. intros _. set_solver.
  - exists again. split; [done|]. rewrite Hag. set_solver.
Qed.

Lemma rep_retransmission a :
  inet_addr a ->
  retransmission (lq_requests q) a (Z.of_nat sizeof_sockaddr) = Ok (known b a).
Proof.
  intros Ha. pose proof (inet_addr_some a Ha) as Hne.
  destruct (retransmission_slots (lq_requests q) a Ha) as (again & -> & Hag).
  { intros r [k Hk]%list_elem_of_lookup.
    destruct (qr_each _ _ _ _ Hq k r Hk) as [->|(a' & sd & c & Hs)]; [by left|].
    right. exists k, a', sd, c. split; [done|].
    rewrite (so_slot _ _ _ _ _ _ _ Hs) in Hk. by injection Hk. }
  f_equal. apply eq_true_iff_eq. rewrite Hag, known_slot. split.
  - intros Hin. apply list_elem_of_In, in_map_iff in Hin as (r & Hra & Hr).
    apply list_elem_of_In, list_elem_of_lookup in Hr as [k Hk].
    destruct (qr_each _ _ _ _ Hq k r Hk) as [->|(a' & sd & c & Hs)]; [by destruct Hne|].
    rewrite (so_slot _ _ _ _ _ _ _ Hs) in Hk. injection Hk as <-. cbn in Hra. subst a'.
    eauto.
  - intros (k & sd & c & Hs). pose proof (so_slot _ _ _ _ _ _ _ Hs) as Hk.
    apply list_elem_of_In, in_map_iff. eexists. split; [|eapply list_elem_of_In,
      list_elem_of_lookup_2, Hk]. done.
Qed.

(** An address that is admitted is new, and there is room. *)
Lemma admits_fresh a :
  admits b a = true ->
  (forall j sd c, ~ slot_of conn L q j a sd c) /\ (outstanding b < bl_max b)%nat /\
  size ({[a]} ∪ bl_pending b) = S (size (bl_pending b)).
Proof.
  intros Hadm. unfold admits in Hadm.
  apply andb_true_iff in Hadm as [[Hkn Hroom]%andb_true_iff _].
  apply negb_true_iff in Hkn. apply Nat.ltb_lt in Hroom.
  assert (Hka : forall j sd c, ~ slot_of conn L q j a sd c).
  { intros j sd c Hs. assert (known b a = true) as E; [|congruence].
    apply (known_slot a). eauto. }
  split; [done|]. split; [done|].
  rewrite size_union, size_singleton; [done|]. intros x ->%elem_of_singleton Hx.
  apply (qr_pending _ _ _ _ Hq) in Hx as (j & sd & c & Hs & _). by eapply Hka.
Qed.

(** A request takes a free slot. *)
Section add.
Context (k new : nat) (a : buffer) (n : mysock_context) (conn' : nat -> option mysock_context).
Hypothesis Hadm : admits b a = true.
Hypothesis Hfree : lq_requests q !! k = Some invalid_request.
Hypothesis Hnew : conn new = None.
Hypothesis Hconn' : forall sd, conn' sd = if decide (sd = new) then Some n else conn sd.
Hypothesis Hn : child L a n.
Hypothesis Hblock : mc_blocking n = true.
Hypothesis Ha : inet_addr a.

Definition added : listen_queue :=
  set_requests (set_cur_len q (u32 (lq_cur_len q + 1)))
    (<[k := ConnectRequest a (Z.of_nat sizeof_sockaddr) (Some new)]> (lq_requests q)).

Lemma added_slot j a' sd c :
  slot_of conn' L added j a' sd c <->
  (j = k /\ a' = a /\ sd = new /\ c = n) \/ (j <> k /\ slot_of conn L q j a' sd c).
Proof.
  assert (Hk : (k < length (lq_requests q))%nat) by (by eapply lookup_lt_Some).
  split.
  - intros [H1 H2 H3 H4]. cbn in H1. rewrite Hconn' in H2.
    destruct (decide (j = k)) as [->|Hj].
    + rewrite list_lookup_insert_eq in H1 by done. injection H1 as <- <-.
      rewrite decide_True in H2 by done. injection H2 as <-. by left.
    + rewrite list_lookup_insert_ne in H1 by done. right. split; [done|].
      destruct (decide (sd = new)) as [->|]; [|by split].
      destruct (qr_each _ _ _ _ Hq j _ H1) as [|(a2 & sd2 & c2 & [G1 G2 _ _])]; [done|].
      rewrite H1 in G1. injection G1 as -> ->. congruence.
  - intros [(-> & -> & -> & ->)|[Hj [H1 H2 H3 H4]]].
    + split; [cbn; by rewrite list_lookup_insert_eq|by rewrite Hconn', decide_True|done|done].
    + split; [cbn; by rewrite list_lookup_insert_ne|
        rewrite Hconn', decide_False; congruence|done|done].
Qed.

Lemma add_rep : queue_rep conn' L added (spec_syn b a).
Proof.
  assert (Hk : (k < length (lq_requests q))%nat) by (by eapply lookup_lt_Some).
  assert (Hfk : forall sd c a', ~ slot_of conn L q k a' sd c).
  { intros sd c a' [H _ _ _]. rewrite Hfree in H. discriminate H. }
  pose proof (count_insert used _ _ _ (ConnectRequest a (Z.of_nat sizeof_sockaddr) (Some new))
    Hfree) as Hcnt. cbn in Hcnt.
  destruct (admits_fresh a Hadm) as (Hka & Hroom & Hsz). unfold spec_syn. rewrite Hadm.
  pose proof (qr_cur _ _ _ _ Hq) as Hcur. pose proof (qr_count _ _ _ _ Hq) as Hout.
  pose proof (qr_max _ _ _ _ Hq). pose proof (qr_width _ _ _ _ Hq).
  split; cbn [lq_max_len lq_cur_len lq_requests lq_completed added set_requests set_cur_len
              bl_max bl_pending bl_ready].
  - done.
  - done.
  - rewrite length_insert. apply Hq.
  - rewrite u32_small by lia. lia.
  - unfold outstanding in *. cbn [bl_pending bl_ready]. rewrite Hsz. lia.
  - intros j r Hr. destruct (decide (j = k)) as [->|Hj].
    + right. exists a, new, n. apply added_slot. by left.
    + rewrite list_lookup_insert_ne in Hr by done.
      destruct (qr_each _ _ _ _ Hq j r Hr) as [|(a' & sd & c & Hs)]; [by left|].
      right. exists a', sd, c. apply added_slot. by right.
  - intros j j' a' sd sd' c c' [(-> & -> & _)|[Hj H1]]%added_slot
      [(-> & E & _)|[Hj' H2]]%added_slot; subst; try done; try (by destruct (Hka _ _ _ H2));
      try (by destruct (Hka _ _ _ H1)). by eapply (qr_addrs _ _ _ _ Hq).
  - intros j j' a1 a2 sd c c' [(-> & -> & -> & ->)|[Hj H1]]%added_slot
      [(-> & E & E' & E'')|[Hj' H2]]%added_slot; subst; try done.
    + destruct H2 as [_ G _ _]. congruence.
    + destruct H1 as [_ G _ _]. congruence.
    + by eapply (qr_sds _ _ _ _ Hq).
  - eapply Forall2_impl; [apply (qr_completed _ _ _ _ Hq)|].
    intros e x (He & sd & c & Hs & Hc). split; [done|]. exists sd, c. split; [|done].
    apply added_slot. right. split; [|done]. intros E. rewrite E in Hs. by eapply Hfk.
  - apply Hq.
  - intros x. rewrite elem_of_union, elem_of_singleton, (qr_pending _ _ _ _ Hq x). split.
    + intros [->|(j & sd & c & Hs & Hc)].
      * exists k, new, n. split; [|done]. apply added_slot. by left.
      * exists j, sd, c. split; [|done]. apply added_slot. right. split; [|done].
        intros ->. by eapply Hfk.
    + intros (j & sd & c & [(_ & -> & _)|[_ Hs]]%added_slot & Hc); [by left|]. right. eauto.
  - intros j a' sd c [(-> & _ & _ & ->)|[_ Hs]]%added_slot Hc; [congruence|].
    by eapply (qr_done _ _ _ _ Hq).
  - intros sd c. rewrite Hconn'. case_decide as Hsd.
    + intros [= <-] _ _. exists k, a. apply added_slot. left. done.
    + intros Hc Hl Hb. destruct (qr_conn _ _ _ _ Hq sd c Hc Hl Hb) as (j & a' & Hs).
      exists j, a'. apply added_slot. right. split; [|done]. intros ->. by eapply Hfk.
Qed.
End add.

(** A handshake ends. *)
Section complete.
Context (k sd0 : nat) (a : buffer) (c0 : mysock_context) (err : Z)
  (conn' : nat -> option mysock_context).
Hypothesis Hs0 : slot_of conn L q k a sd0 c0.
Hypothesis Hblock : mc_blocking c0 = true.
Hypothesis Hconn' : forall sd,
  conn' sd = if decide (sd = sd0) then Some (set_unblocked c0 err) else conn sd.

Definition finished : listen_queue :=
  set_completed q (lq_completed q ++ [(lq_incarnation q, k)]).

Lemma finished_slot j a' sd c :
  slot_of conn' L finished j a' sd c <->
  (j = k /\ a' = a /\ sd = sd0 /\ c = set_unblocked c0 err) \/
  (j <> k /\ slot_of conn L q j a' sd c).
Proof.
  split.
  - intros [H1 H2 [G1 G2 G3 G4 G5] H4]. cbn in H1. rewrite Hconn' in H2.
    destruct (decide (sd = sd0)) as [->|Hne].
    + injection H2 as <-. assert (j = k) as ->.
      { eapply (qr_sds _ _ _ _ Hq _ _ _ _ sd0 c0 c0); [|exact Hs0].
        split; [exact H1|apply Hs0|split; [done..|apply (so_child _ _ _ _ _ _ _ Hs0)]|done]. }
      rewrite (so_slot _ _ _ _ _ _ _ Hs0) in H1. injection H1 as <-. by left.
    + right. split; [|by split]. intros ->. rewrite (so_slot _ _ _ _ _ _ _ Hs0) in H1.
      by injection H1 as _ ->.
  - intros [(-> & -> & -> & ->)|[Hj Hs]].
    + destruct Hs0 as [H1 H2 [G1 G2 G3 G4 G5] H4].
      split; [exact H1|by rewrite Hconn', decide_True|by split|done].
    + destruct Hs as [H1 H2 H3 H4]. split; [exact H1| |done|done].
      rewrite Hconn', decide_False; [done|]. intros ->. apply Hj.
      by eapply (qr_sds _ _ _ _ Hq _ _ _ _ sd0 c c0).
Qed.

Lemma not_completed : k ∉ (lq_completed q).*2.
Proof.
  intros (e & -> & [i Hi]%list_elem_of_lookup)%list_elem_of_fmap.
  destruct (Forall2_lookup_l _ _ _ _ _ (qr_completed _ _ _ _ Hq) Hi)
    as (x & _ & _ & sd & c & [H1 H2 _ _] & Hb & _).
  rewrite (so_slot _ _ _ _ _ _ _ Hs0) in H1. injection H1 as _ <-.
  rewrite (so_conn _ _ _ _ _ _ _ Hs0) in H2. congruence.
Qed.

Lemma complete_rep :
  queue_rep conn' L finished
    (Backlog (bl_max b) (bl_free b) (bl_pending b ∖ {[a]}) (bl_ready b ++ [(a, err)])).
Proof.
  assert (Hap : a ∈ bl_pending b) by (apply (qr_pending _ _ _ _ Hq); eauto).
  pose proof (qr_count _ _ _ _ Hq) as Hout. unfold outstanding in Hout.
  assert (Hsz : size (bl_pending b) = S (size (bl_pending b ∖ {[a]}))).
  { rewrite (union_difference_singleton_L a (bl_pending b)) at 1 by done.
    rewrite size_union, size_singleton by set_solver. done. }
  split; cbn [lq_max_len lq_cur_len lq_requests lq_completed finished set_completed
              bl_max bl_pending bl_ready];
    try apply Hq.
  - rewrite Hout. unfold outstanding. cbn [bl_pending bl_ready]. rewrite length_app. simpl. lia.
  - intros j r Hr. destruct (qr_each _ _ _ _ Hq j r Hr) as [|(a' & sd & c & Hs)]; [by left|].
    right. destruct (decide (j = k)) as [->|Hj].
    + exists a, sd0, (set_unblocked c0 err). apply finished_slot. by left.
    + exists a', sd, c. apply finished_slot. by right.
  - intros j j' a' sd sd' c c' [(-> & -> & _)|[Hj H1]]%finished_slot
      [(-> & E & _)|[Hj' H2]]%finished_slot; subst; try done; by eapply (qr_addrs _ _ _ _ Hq).
  - intros j j' a1 a2 sd c c' [(-> & _ & -> & _)|[Hj H1]]%finished_slot
      [(-> & _ & E & _)|[Hj' H2]]%finished_slot; subst; try done; by eapply (qr_sds _ _ _ _ Hq).
  - apply Forall2_app.
    + eapply Forall2_impl; [apply (qr_completed _ _ _ _ Hq)|].
      intros e x (He & sd & c & Hs & Hc). split; [done|]. exists sd, c. split; [|done].
      apply finished_slot. right. split; [|done]. intros E. rewrite E in Hs.
      destruct Hs as [H1 H2 _ _]. rewrite (so_slot _ _ _ _ _ _ _ Hs0) in H1.
      injection H1 as _ <-. rewrite (so_conn _ _ _ _ _ _ _ Hs0) in H2.
      destruct Hc. congruence.
    + constructor; [|constructor]. split; [done|]. exists sd0, (set_unblocked c0 err).
      split; [|done]. apply finished_slot. by left.
  - rewrite fmap_app. apply NoDup_app. split; [apply Hq|]. split; [|apply NoDup_singleton].
    intros x Hx ->%list_elem_of_singleton. by apply not_completed.
  - intros x. rewrite elem_of_difference, elem_of_singleton, (qr_pending _ _ _ _ Hq x). split.
    + intros [(j & sd & c & Hs & Hc) Hxa]. exists j, sd, c. split; [|done].
      apply finished_slot. right. split; [|done]. intros ->. apply Hxa.
      destruct Hs as [H1 _ _ _]. rewrite (so_slot _ _ _ _ _ _ _ Hs0) in H1. by injection H1.
    + intros (j & sd & c & [(_ & _ & _ & ->)|[Hj Hs]]%finished_slot & Hc); [done|].
      split; [eauto|]. intros ->. apply Hj. by eapply (qr_addrs _ _ _ _ Hq).
  - intros j a' sd c [(-> & _)|[_ Hs]]%finished_slot Hc; rewrite fmap_app; apply elem_of_app.
    + right. set_solver.
    + left. by eapply (qr_done _ _ _ _ Hq).
  - intros sd c. rewrite Hconn'. case_decide as Hsd; [by intros [= <-]|].
    intros Hc Hl Hb. destruct (qr_conn _ _ _ _ Hq sd c Hc Hl Hb) as (j & a' & Hs).
    exists j, a'. apply finished_slot. right. split; [|done]. intros ->. apply Hsd.
    destruct Hs as [H1 _ _ _]. rewrite (so_slot _ _ _ _ _ _ _ Hs0) in H1. by injection H1.
Qed.
End complete.

(** The oldest completed connection is taken. *)
Section accept.
Context (e : nat * nat) (l : list (nat * nat)) (x : buffer * Z) (r : list (buffer * Z)).
Hypothesis Hl : lq_completed q = e :: l.
Hypothesis Hr : bl_ready b = x :: r.

Definition taken : listen_queue :=
  set_cur_len (set_requests (set_completed q l)
    (<[snd e := invalid_request]> (lq_requests q))) (u32 (lq_cur_len q - 1)).

Lemma taken_slot j a' sd c :
  (snd e < length (lq_requests q))%nat ->
  slot_of conn L taken j a' sd c <-> j <> snd e /\ slot_of conn L q j a' sd c.
Proof.
  intros Hlt. split.
  - intros [H1 H2 H3 H4]. cbn in H1. destruct (decide (j = snd e)) as [->|Hj].
    + by rewrite list_lookup_insert_eq in H1.
    + rewrite list_lookup_insert_ne in H1 by done. split; [done|]. by split.
  - intros [Hj [H1 H2 H3 H4]]. split; [|done|done|done]. cbn.
    by rewrite list_lookup_insert_ne.
Qed.

Lemma accept_rep :
  queue_rep conn L taken (Backlog (bl_max b) (bl_free b) (bl_pending b) r).
Proof.
  pose proof (qr_completed _ _ _ _ Hq) as Hc. rewrite Hl, Hr in Hc.
  apply Forall2_cons_1 in Hc as [(He & sd0 & c0 & Hs0 & Hb0 & Herr) Hc].
  pose proof (so_slot _ _ _ _ _ _ _ Hs0) as Hslot.
  assert (Hk : (snd e < length (lq_requests q))%nat) by (by eapply lookup_lt_Some).
  pose proof (fun j a' sd c => taken_slot j a' sd c Hk) as Hts.
  pose proof (qr_nodup _ _ _ _ Hq) as Hnd. rewrite Hl in Hnd.
  apply NoDup_cons in Hnd as [Hne Hnd].
  pose proof (count_insert used _ _ _ invalid_request Hslot) as Hcnt. cbn in Hcnt.
  pose proof (qr_cur _ _ _ _ Hq) as Hcur. pose proof (qr_max _ _ _ _ Hq) as Hmax.
  pose proof (qr_width _ _ _ _ Hq) as Hwid. pose proof (qr_count _ _ _ _ Hq) as Hout.
  assert (Hbnd : (count used (lq_requests q) <= length (lq_requests q))%nat)
    by (unfold count; apply filter_length_le).
  pose proof (qr_slots _ _ _ _ Hq) as Hlen.
  unfold outstanding in Hout. rewrite Hr in Hout. cbn [length] in Hout.
  split; cbn [lq_max_len lq_cur_len lq_requests lq_completed taken set_completed set_requests
              set_cur_len bl_max bl_pending bl_ready]; try done.
  - by rewrite length_insert.
  - rewrite u32_small by lia. lia.
  - unfold outstanding. cbn [bl_pending bl_ready]. lia.
  - intros j y Hy. destruct (decide (j = snd e)) as [->|Hj].
    + rewrite list_lookup_insert_eq in Hy by done. injection Hy as <-. by left.
    + rewrite list_lookup_insert_ne in Hy by done.
      destruct (qr_each _ _ _ _ Hq j y Hy) as [|(a' & sd & c & Hs)]; [by left|].
      right. exists a', sd, c. by apply Hts.
  - intros j j' a' sd sd' c c' [_ H1]%Hts [_ H2]%Hts. by eapply (qr_addrs _ _ _ _ Hq).
  - intros j j' a1 a2 sd c c' [_ H1]%Hts [_ H2]%Hts. by eapply (qr_sds _ _ _ _ Hq).
  - apply Forall2_same_length_lookup. split; [by eapply Forall2_length|].
    intros i e' x' He' Hx'.
    destruct (Forall2_lookup_lr _ _ _ _ _ _ Hc He' Hx') as (Hi & sd & c & Hs & Hrest).
    split; [done|]. exists sd, c. split; [|done]. apply Hts. split; [|done].
    intros E. apply Hne, list_elem_of_fmap. exists e'. split; [done|].
    by eapply list_elem_of_lookup_2.
  - intros y. rewrite (qr_pending _ _ _ _ Hq y). split.
    + intros (j & sd & c & Hs & Hb). exists j, sd, c. split; [|done]. apply Hts.
      split; [|done]. intros ->. destruct Hs as [H1 H2 _ _]. rewrite Hslot in H1.
      injection H1 as _ <-. rewrite (so_conn _ _ _ _ _ _ _ Hs0) in H2. congruence.
    + intros (j & sd & c & [_ Hs]%Hts & Hb). eauto.
  - intros j a' sd c [Hj Hs]%Hts Hb. pose proof (qr_done _ _ _ _ Hq _ _ _ _ Hs Hb) as Hin.
    rewrite Hl in Hin. set_solver.
  - intros sd c Hcn Hli Hb. destruct (qr_conn _ _ _ _ Hq sd c Hcn Hli Hb) as (j & a' & Hs).
    exists j, a'. apply Hts. split; [|done]. intros ->. destruct Hs as [H1 _ _ _].
    rewrite Hslot in H1. injection H1 as _ <-.
    rewrite (so_conn _ _ _ _ _ _ _ Hs0) in Hcn. congruence.
Qed.
End accept.

End queue_lemmas.
