(* ===== verification/DemuxProps.v ===== *)
(** What a listening mysocket promises: its backlog is a bounded set of pending
    connections and a queue of completed ones, which [connection_demux.c]
    implements by an array of slots, a list of pointers into it and the descriptor
    table. Every run of a listener is a run of the abstract backlog. *)
From S2P Require Import Prelude Mem Sockets TcpSum PacketQueue NetTcp HashTable.
From S2P Require Import Mysock Demux MysockApi DemuxRep.

(** * The operations *)

Lemma conn_of_some s sd c :
  conn_of s sd = Some c -> context_of s sd = Some c /\ mc_listening c = false.
Proof.
  unfold conn_of. destruct (context_of s sd) as [c'|]; [|done].
  destruct (mc_listening c') eqn:E; [done|]. by intros [= <-].
Qed.

Lemma conn_of_with s sd f k c :
  conn_of s sd = Some c -> mc_listening (f c) = false ->
  conn_of (with_context s sd f) k = if decide (k = sd) then Some (f c) else conn_of s k.
Proof.
  intros [Hc Hl]%conn_of_some Hf. unfold conn_of. rewrite context_of_with.
  case_decide; [|done]. rewrite Hc. cbn. by rewrite Hf.
Qed.

Lemma rdlock_ok s : ms_wrlocked s = false -> rdlock s = Ok (tt, s).
Proof. intros H. unfold rdlock. exec. by rewrite H. Qed.

Lemma connection_queue_ok s L c o :
  table_wf s -> context_of s L = Some c -> mc_listening c = true -> mc_bound c = true ->
  listen_lookup s L = Ok o -> get_connection_queue L s = Ok (o, s).
Proof.
  intros Hw Hc Hl Hb Ho. unfold get_connection_queue.
  rewrite (bind_ok _ _ _ _ _ (get_context_ok _ _ _ Hw Hc)), Hl, Hb. cbn. exec. by rewrite Ho.
Qed.

Lemma deref_queue_ok s p q : ms_queues s !! p = Some q -> deref_queue p s = Ok (q, s).
Proof. intros H. unfold deref_queue. exec. by rewrite H. Qed.

Lemma find_descriptor conn L q b k a sd c :
  queue_rep conn L q b -> slot_of conn L q k a sd c ->
  find_slot (fun r => bool_decide (cr_sd r = Some sd)) (lq_requests q) = Some k.
Proof.
  intros Hq Hs. pose proof (so_slot _ _ _ _ _ _ _ Hs) as Hk.
  destruct (find_slot_exists (fun r => bool_decide (cr_sd r = Some sd)) _ _ _ Hk) as [j Hj];
    [by apply bool_decide_eq_true|].
  destruct (find_slot_some _ _ _ Hj) as (r & Hr & Hf). apply bool_decide_eq_true in Hf.
  destruct (qr_each _ _ _ _ Hq j r Hr) as [->|(a' & sd' & c' & Hs')]; [done|].
  rewrite (so_slot _ _ _ _ _ _ _ Hs') in Hr. injection Hr as <-. injection Hf as ->.
  rewrite Hj. f_equal. by eapply (qr_sds _ _ _ _ Hq).
Qed.

(** A connection that the listener's queue has a slot for. *)
Definition queued (s : mysocks) (L sd : nat) (a : buffer) : Prop :=
  exists p q k c, listen_lookup s L = Ok (Some p) /\ ms_queues s !! p = Some q /\
    slot_of (conn_of s) L q k a sd c.

(** No two connections from one address. *)
Lemma queued_unique L s b sd sd' a :
  demux_rep L s b -> queued s L sd a -> queued s L sd' a -> sd = sd'.
Proof.
  intros [_ _ _ _ (p & q & Hlook & Hp & Hq) _] (p1 & q1 & k1 & c1 & L1 & P1 & S1)
    (p2 & q2 & k2 & c2 & L2 & P2 & S2).
  assert (p1 = p /\ p2 = p) as [-> ->] by (split; congruence).
  assert (q1 = q /\ q2 = q) as [-> ->] by (split; congruence).
  pose proof (qr_addrs _ _ _ _ Hq _ _ _ _ _ _ _ S1 S2) as <-.
  pose proof (so_slot _ _ _ _ _ _ _ S1) as E1. rewrite (so_slot _ _ _ _ _ _ _ S2) in E1.
  by injection E1.
Qed.

(** The end of a handshake moves its connection to the completed ones. *)
Lemma unblock_simulates L s b sd c err :
  demux_rep L s b -> conn_of s sd = Some c -> mc_listen_sd c = Some L ->
  mc_blocking c = true ->
  exists s', unblock_application sd err s = Ok (tt, s') /\
    demux_rep L s' (spec_complete b (nc_peer_addr (mc_net c)) err) /\
    nc_peer_addr (mc_net c) ∈ bl_pending b /\ queued s' L sd (nc_peer_addr (mc_net c)) /\
    forall k, conn_of s' k =
      if decide (k = sd) then Some (set_unblocked c (if err =? EINTR then 0 else err))
      else conn_of s k.
Proof.
  intros [Hul Hw Hfr (lc & Hlc & Hll & Hlb) (p & q & Hlook & Hp & Hq) Hpas] Hc Hl Hb.
  destruct (qr_conn _ _ _ _ Hq sd c Hc Hl Hb) as (k & a & Hs).
  pose proof (so_child _ _ _ _ _ _ _ Hs) as Hch. destruct (conn_of_some _ _ _ Hc) as [Hcx Hcl].
  rewrite (ch_peer _ _ _ Hch). unfold unblock_application.
  rewrite (bind_ok _ _ _ _ _ (get_context_ok _ _ _ Hw Hcx)), Hb. exec.
  rewrite (ch_passive _ _ _ Hch). set (err' := if err =? EINTR then 0 else err).
  rewrite (bind_ok _ _ _ _ _ (upd_context_eq _ _ _)).
  set (f := fun c => set_unblocked c err'). set (s1 := with_context s sd f).
  assert (Hw1 : table_wf s1) by (by apply with_context_wf).
  assert (HLs : L <> sd) by (intros <-; congruence).
  assert (Hc1 : context_of s1 sd = Some (f c))
    by (unfold s1; rewrite context_of_with, decide_True, Hcx; done).
  assert (HL1 : context_of s1 L = Some lc)
    by (unfold s1; rewrite context_of_with, decide_False; done).
  unfold mysock_passive_connection_complete.
  rewrite (bind_ok _ _ _ _ _ (get_context_ok _ _ _ Hw1 Hc1)).
  rewrite (bind_ok _ _ _ _ _ (rdlock_ok s1 Hul)). cbn [mc_listen_sd f set_unblocked].
  rewrite Hl. rewrite (bind_ok _ _ _ _ _ (connection_queue_ok _ _ _ _ Hw1 HL1 Hll Hlb Hlook)).
  rewrite (bind_ok _ _ _ _ _ (deref_queue_ok s1 p q Hp)), (rep_slots _ _ _ _ Hq). exec.
  cbn [mc_my_sd f set_unblocked]. rewrite (Hw _ _ Hcx).
  rewrite (find_descriptor _ _ _ _ _ _ _ _ Hq Hs).
  assert (Hconn : forall sd', conn_of s1 sd' = if decide (sd' = sd) then Some (f c) else conn_of s sd')
    by (intros sd'; by apply conn_of_with).
  eexists. split; [reflexivity|].
  split; [|split; [apply (qr_pending _ _ _ _ Hq); eauto|split; [|exact Hconn]]].
  2: { exists p, (finished q k), k, (f c). split; [done|]. split; [apply lookup_insert_eq|].
       destruct Hs as [S1 S2 [C1 C2 C3 C4 C5] S4]. split; [exact S1| |by split|exact S4].
       change (conn_of s1 sd = Some (f c)). by rewrite Hconn, decide_True. }
  split; try done.
  - cbn [global_ctx set_queues]. unfold s1. rewrite count_with. done.
  - exists lc. done.
  - exists p, (finished q k). split; [done|]. split; [apply lookup_insert_eq|].
    by apply (complete_rep (conn_of s) L q b Hq k sd a c err').
  - intros c'. change (context_of s1 L = Some c' -> mc_is_active c' = false). rewrite HL1.
    intros [= <-]. by apply Hpas.
Qed.

(** The wait for a completed connection. *)
Lemma dequeue_ok L s b x r :
  demux_rep L s b -> bl_ready b = x :: r ->
  exists sd c s', mysock_dequeue_connection L s = Ok (sd, s') /\
    demux_rep L s' (spec_accept b) /\ global_ctx s' = global_ctx s /\
    conn_of s sd = Some c /\ child L (fst x) c /\ mc_stcp_errno c = snd x /\
    queued s L sd (fst x).
Proof.
  intros [Hul Hw Hfr (lc & Hlc & Hll & Hlb) (p & q & Hlook & Hp & Hq) Hpas] Hr.
  pose proof (qr_completed _ _ _ _ Hq) as Hf. rewrite Hr in Hf.
  destruct (lq_completed q) as [|e l] eqn:El; [by apply Forall2_nil_cons_inv in Hf|].
  apply Forall2_cons_1 in Hf as [(He & sd & c & [Hslot Hc Hch Ha] & Hb & Herr) _].
  destruct (conn_of_some _ _ _ Hc) as [Hcx Hcl].
  pose proof (accept_rep _ _ _ _ Hq e l x r El Hr) as Hrep.
  pose proof (qr_cur _ _ _ _ Hq) as Hcur.
  pose proof (count_insert used _ _ _ invalid_request Hslot) as Hcnt. cbn in Hcnt.
  unfold mysock_dequeue_connection.
  rewrite (bind_ok _ _ _ _ _ (get_context_ok _ _ _ Hw Hlc)), Hll, Hlb. cbn [andb]. exec.
  rewrite (bind_ok _ _ _ _ _ (rdlock_ok s Hul)).
  rewrite (bind_ok _ _ _ _ _ (connection_queue_ok _ _ _ _ Hw Hlc Hll Hlb Hlook)).
  rewrite (bind_ok _ _ _ _ _ (deref_queue_ok s p q Hp)), El. unfold deref_request.
  cbn [lq_incarnation set_completed lq_requests lq_cur_len]. rewrite decide_True, Hslot by done.
  exec. cbn [cr_sd]. rewrite (bind_ok _ _ _ _ _ (get_context_ok _ _ _ Hw Hcx)).
  rewrite (proj2 (Z.ltb_lt _ _)) by lia. exec. rewrite (Hw _ _ Hcx).
  exists sd, c. eexists. split; [reflexivity|].
  split; [|do 4 (split; [done|]); exists p, q, (snd e), c; by split].
  unfold spec_accept. rewrite Hr. split; try done; [by exists lc|].
  exists p, (taken q e l). split; [done|]. split; [apply lookup_insert_eq|exact Hrep].
Qed.

Lemma dequeue_waits L s b :
  demux_rep L s b -> bl_ready b = [] -> mysock_dequeue_connection L s = Fault Blocked.
Proof.
  intros [Hul Hw Hfr (lc & Hlc & Hll & Hlb) (p & q & Hlook & Hp & Hq) Hpas] Hr.
  pose proof (qr_completed _ _ _ _ Hq) as Hf. rewrite Hr in Hf.
  apply Forall2_nil_inv_r in Hf. unfold mysock_dequeue_connection.
  rewrite (bind_ok _ _ _ _ _ (get_context_ok _ _ _ Hw Hlc)), Hll, Hlb. cbn [andb]. exec.
  rewrite (bind_ok _ _ _ _ _ (rdlock_ok s Hul)).
  rewrite (bind_ok _ _ _ _ _ (connection_queue_ok _ _ _ _ Hw Hlc Hll Hlb Hlook)).
  rewrite (bind_ok _ _ _ _ _ (deref_queue_ok s p q Hp)), Hf. done.
Qed.

(** [myaccept] takes the connection that completed first; one that failed costs
    the caller an error. *)
Lemma accept_simulates L s b a err r :
  demux_rep L s b -> bl_ready b = (a, err) :: r ->
  exists sd c s', conn_of s sd = Some c /\ nc_peer_addr (mc_net c) = a /\
    myaccept L s = Ok (if err =? 0 then (Some sd, Some a) else (None, None), s') /\
    demux_rep L s' (spec_accept b) /\ queued s L sd a /\ global_ctx s' = global_ctx s.
Proof.
  intros Hrep Hr. destruct (dequeue_ok _ _ _ _ _ Hrep Hr)
    as (sd & c & s1 & Hd & Hrep1 & Hg & Hc & [Hch1 Hch2 Hch3 Hch4 _] & Herr & Hqd).
  cbn [fst snd] in *. pose proof (dr_wf _ _ _ Hrep) as Hw.
  destruct (dr_listener _ _ _ Hrep) as (lc & Hlc & Hll & Hlb).
  destruct (conn_of_some _ _ _ Hc) as [Hcx Hcl].
  assert (Hcx1 : context_of s1 sd = Some c) by (unfold context_of; by rewrite Hg).
  exists sd, c. eexists. split; [done|]. split; [done|]. unfold myaccept.
  rewrite (bind_ok _ _ _ _ _ (get_context_ok _ _ _ Hw Hlc)), Hll. cbn [negb].
  rewrite (bind_ok _ _ _ _ _ Hd).
  rewrite (bind_ok _ _ _ _ _ (get_context_ok _ _ _ (dr_wf _ _ _ Hrep1) Hcx1)).
  rewrite Herr, Hch1, Hch3, Hch4, (Hw _ _ Hcx). rewrite bool_decide_eq_true_2 by done.
  destruct (err =? 0); exec; (split; [reflexivity|]); (split; [|done]); destruct Hrep1; by split.
Qed.

(** ** New connections *)

(** What the representation depends on. *)
Lemma demux_rep_same L s s' b :
  demux_rep L s b -> ms_wrlocked s' = ms_wrlocked s -> global_ctx s' = global_ctx s ->
  listen_table s' = listen_table s -> ms_queues s' = ms_queues s -> demux_rep L s' b.
Proof.
  intros [Hul Hw Hfr Hlis (p & q & Hlook & Hp & Hq) Hpas] H1 H2 H3 H4.
  assert (Hcx : forall sd, context_of s' sd = context_of s sd)
    by (intros sd; unfold context_of; by rewrite H2).
  split.
  - by rewrite H1.
  - intros sd c. rewrite Hcx. apply Hw.
  - by rewrite H2.
  - by setoid_rewrite Hcx.
  - exists p, q. unfold listen_lookup in *. rewrite H3, H4. split; [done|]. split; [done|].
    assert (E : conn_of s' = conn_of s) by (unfold conn_of, context_of; by rewrite H2).
    by rewrite E.
  - intros c. rewrite Hcx. apply Hpas.
Qed.

Lemma new_mysocket_ok s sk k :
  free_descriptor (global_ctx s) = Some k -> table_wf s ->
  exists c, mysock_new_mysocket (Some sk) s =
      Ok (Some k, set_table s (<[k := Some c]> (global_ctx s))) /\
    mc_my_sd c = k /\ mc_listening c = false /\ mc_is_active c = false /\
    mc_blocking c = true /\
    (mc_network_recv_queue c = [] /\ mc_app c = AppSide [] [] false false) /\
    context_of s k = None /\
    table_wf (set_table s (<[k := Some c]> (global_ctx s))) /\
    (forall sd, context_of (set_table s (<[k := Some c]> (global_ctx s))) sd =
       if decide (sd = k) then Some c else context_of s sd) /\
    S (count unused (<[k := Some c]> (global_ctx s))) = count unused (global_ctx s).
Proof.
  intros Hk Hw. pose proof (free_descriptor_ok (global_ctx s)) as Hf. rewrite Hk in Hf.
  unfold mysock_new_mysocket, mysock_allocate_context. exec. rewrite Hk. exec.
  set (c := set_my_sd _ k). exists c.
  assert (Hcx : forall sd, context_of (set_table s (<[k := Some c]> (global_ctx s))) sd =
       if decide (sd = k) then Some c else context_of s sd).
  { intros sd. unfold context_of. cbn [global_ctx set_table]. case_decide as E.
    - rewrite E, list_lookup_insert_eq; [done|by eapply lookup_lt_Some].
    - by rewrite list_lookup_insert_ne. }
  do 5 (split; [done|]). split; [done|]. split; [unfold context_of; by rewrite Hf|].
  split; [|split; [done|]].
  - intros sd c'. rewrite Hcx. case_decide as E; [|apply Hw]. intros [= <-]. by rewrite E.
  - pose proof (count_insert unused _ _ _ (Some c) Hf) as H. simpl in H. lia.
Qed.

(** A connection that waits in the backlog for its handshake: its first packet is
    there, and its application has done nothing. *)
Record newborn (packet : buffer) (n : mysock_context) : Prop := {
  nb_listening : mc_listening n = false;
  nb_blocking : mc_blocking n = true;
  nb_packets : mc_network_recv_queue n = [packet];
  nb_app : mc_app n = AppSide [] [] false false;
  nb_peer : tc_peer_valid (nc_tcp (mc_net n)) = true }.

(** The context of a connection that has just been set up. *)
Definition established (n : mysock_context) (L : nat) (a packet : buffer) (t : sock)
  : mysock_context :=
  let n := set_peer (set_listen_sd n L) a (Z.of_nat sizeof_sockaddr) in
  let n := set_tcp n (TcpContext t (tc_new_socket (nc_tcp (mc_net n))) true true) in
  let n := set_transport (set_receiver (set_active n false) true) TRunning in
  set_network_recv n (mc_network_recv_queue n ++ [packet]).
Definition handed_on (c : mysock_context) : mysock_context :=
  let t := nc_tcp (mc_net c) in
  set_tcp c (TcpContext (tc_socket t) None (tc_connected t) (tc_peer_valid t)).

(** The new connection takes the socket that was accepted. *)
Lemma update_passive_ok new L s n lc t :
  table_wf s -> context_of s new = Some n -> context_of s L = Some lc -> L <> new ->
  mc_listening n = false -> mc_is_active n = false ->
  tc_new_socket (nc_tcp (mc_net lc)) = Some t ->
  exists s', update_passive_state new L s = Ok (tt, s') /\ table_wf s' /\
    (forall sd, context_of s' sd =
      if decide (sd = new) then
        Some (set_tcp n (TcpContext t (tc_new_socket (nc_tcp (mc_net n))) true
                           (tc_peer_valid (nc_tcp (mc_net n)))))
      else if decide (sd = L) then Some (handed_on lc) else context_of s sd) /\
    count unused (global_ctx s') = count unused (global_ctx s) /\
    ms_wrlocked s' = ms_wrlocked s /\ listen_table s' = listen_table s /\
    ms_queues s' = ms_queues s.
Proof.
  intros Hw Hn Hlc HnL Hl Hact Ht. unfold update_passive_state.
  rewrite (bind_ok _ _ _ _ _ (get_context_ok _ _ _ Hw Hn)).
  rewrite (bind_ok _ _ _ _ _ (get_context_ok _ _ _ Hw Hlc)).
  unfold network_update_passive_state. rewrite Hl, Hact, Ht. cbn [orb]. exec.
  set (s3 := set_closed _ _). rewrite (bind_ok _ _ _ _ _ (upd_context_eq _ _ _)).
  rewrite upd_context_eq. set (f2 := fun n => set_tcp n _). set (g := fun c => set_tcp c _).
  eexists. split; [reflexivity|]. split.
  { apply with_context_wf; [|done]. apply with_context_wf; [exact Hw|done]. }
  split; [|split; [by rewrite !count_with|done]].
  intros sd. rewrite !context_of_with. change (context_of s3) with (context_of s).
  rewrite (decide_False (P := L = new)), Hlc, Hn by done.
  destruct (decide (sd = new)) as [->|]; [|done].
  by rewrite (decide_False (P := new = L)) by congruence.
Qed.

Lemma establish_ok L p k q s lc t a packet sk new :
  table_wf s -> context_of s L = Some lc -> tc_new_socket (nc_tcp (mc_net lc)) = Some t ->
  free_descriptor (global_ctx s) = Some new ->
  exists n s', establish L p k q packet a (Z.of_nat sizeof_sockaddr) (Some sk) s = Ok (true, s') /\
    mc_listening n = false /\ mc_blocking n = true /\ child L a n /\
    context_of s new = None /\ table_wf s' /\
    (forall sd, context_of s' sd = if decide (sd = new) then Some n else
                 if decide (sd = L) then Some (handed_on lc) else context_of s sd) /\
    S (count unused (global_ctx s')) = count unused (global_ctx s) /\
    ms_wrlocked s' = ms_wrlocked s /\ listen_table s' = listen_table s /\
    ms_queues s' = <[p := set_requests q
        (<[k := ConnectRequest a (Z.of_nat sizeof_sockaddr) (Some new)]> (lq_requests q))]>
      (ms_queues s) /\
    newborn packet n.
Proof.
  intros Hw Hlc Ht Hfree.
  destruct (new_mysocket_ok s sk new Hfree Hw)
    as (c & Hnew & Hsd & Hl & Hact & Hblk & [Hnq Hap] & Hnone & Hw1 & Hcx1 & Hcnt).
  assert (HnL : L <> new) by congruence.
  exists (established c L a packet t). unfold establish. rewrite (bind_ok _ _ _ _ _ Hnew).
  set (s1 := set_table s _) in *.
  rewrite (bind_ok _ _ _ _ _ (upd_context_eq _ _ _)). set (f1 := fun n => set_peer _ _ _).
  unfold put_queue. exec. set (s2 := set_queues _ _).
  assert (Hcx2 : forall sd, context_of s2 sd =
    if decide (sd = new) then Some (f1 c) else context_of s sd).
  { intros sd. change (context_of s2 sd) with (context_of (with_context s1 new f1) sd).
    rewrite context_of_with, !Hcx1, (decide_True (P := new = new)) by done.
    by case_decide. }
  assert (Hw2 : table_wf s2) by (by apply (with_context_wf s1)).
  assert (E1 : context_of s2 new = Some (f1 c)) by (by rewrite Hcx2, decide_True).
  assert (E2 : context_of s2 L = Some lc) by (by rewrite Hcx2, decide_False).
  destruct (update_passive_ok new L s2 (f1 c) lc t Hw2 E1 E2 HnL Hl Hact Ht)
    as (s5 & Hup & Hw5 & Hcx5 & Hcnt5 & F1 & F2 & F3).
  rewrite (bind_ok _ _ _ _ _ Hup).
  unfold mysock_transport_init. exec.
  assert (E5 : context_of s5 new = Some (set_tcp (f1 c)
    (TcpContext t (tc_new_socket (nc_tcp (mc_net (f1 c)))) true true)))
    by (rewrite Hcx5; by rewrite decide_True).
  rewrite (bind_ok _ _ _ _ _ (get_context_ok _ _ _ Hw5 E5)).
  cbn [mc_listening f1 set_tcp set_peer set_net set_listen_sd]. rewrite Hl. exec.
  rewrite (bind_ok _ _ _ _ _ (upd_context_eq _ _ _)).
  rewrite (bind_ok _ _ _ _ _ (upd_context_eq _ _ _)).
  set (f3 := fun c => set_transport _ _). set (f4 := fun n => set_network_recv _ _).
  eexists. split; [reflexivity|]. split; [exact Hl|]. split; [exact Hblk|].
  split; [by split|]. split; [done|]. split.
  { apply with_context_wf; [|done]. by apply with_context_wf. }
  split.
  { intros sd. rewrite !context_of_with, !Hcx5.
    destruct (decide (sd = new)) as [->|Hne].
    - by rewrite !decide_True by done.
    - case_decide; [done|]. by rewrite Hcx2, decide_False. }
  split. { rewrite !count_with, Hcnt5. cbn [global_ctx s2 set_queues]. by rewrite count_with. }
  split; [exact F1|]. split; [exact F2|]. split; [exact F3|].
  split; try done. cbn. by rewrite Hnq.
Qed.

(** A segment that asks for a connection. *)
Definition syn_packet (p : buffer) : Prop :=
  (sizeof_tcphdr <= length p)%nat /\ Z.land (fval th_flags 0 p) TH_SYN <> 0.

(** The listener holds an accepted socket. *)
Definition holds (s : mysocks) (L : nat) (t : sock) : Prop :=
  exists c, context_of s L = Some c /\ tc_new_socket (nc_tcp (mc_net c)) = Some t.

Lemma establish_full L p k q s packet a sk :
  free_descriptor (global_ctx s) = None ->
  exists s', establish L p k q packet a (Z.of_nat sizeof_sockaddr) (Some sk) s = Ok (false, s') /\
    ms_wrlocked s' = ms_wrlocked s /\ global_ctx s' = global_ctx s /\
    listen_table s' = listen_table s /\
    ms_queues s' = <[p := set_cur_len (set_requests q (<[k := invalid_request]> (lq_requests q)))
                            (u32 (lq_cur_len q - 1))]> (ms_queues s).
Proof.
  intros Hfree. unfold establish, mysock_new_mysocket, mysock_allocate_context. exec.
  rewrite Hfree. unfold close_network, put_queue. exec. eexists. by split.
Qed.

Section free_slot.
Context (L : nat) (s : mysocks) (b : backlog) (a packet : buffer) (t sk : sock).
Context (lc : mysock_context) (p : nat) (q : listen_queue) (k : nat).
Hypothesis Hrep : demux_rep L s b.
Hypothesis Hlc : context_of s L = Some lc.
Hypothesis Ht : tc_new_socket (nc_tcp (mc_net lc)) = Some t.
Hypothesis Hlook : listen_lookup s L = Ok (Some p).
Hypothesis Hp : ms_queues s !! p = Some q.
Hypothesis Hq : queue_rep (conn_of s) L q b.
Hypothesis Hk : lq_requests q !! k = Some invalid_request.
Hypothesis Hadm : admits b a = (0 <? bl_free b)%nat.

(** The queue once the request has been counted. *)
Let q1 := set_cur_len q (u32 (lq_cur_len q + 1)).
Let s1 := set_queues s (<[p := q1]> (ms_queues s)).

(** With a descriptor to give, the connection is added to the backlog. *)
Lemma syn_admitted new :
  inet_addr a -> free_descriptor (global_ctx s) = Some new ->
  exists s', establish L p k q1 packet a (Z.of_nat sizeof_sockaddr) (Some sk) s1 =
      Ok (admits b a, s') /\ demux_rep L s' (spec_syn b a) /\ admits b a = true /\
      exists new n, conn_of s' new = Some n /\ newborn packet n /\ child L a n.
Proof.
  destruct Hrep as [Hul Hw Hfr (lc' & Hlc' & Hll & Hlb) _ Hpas].
  rewrite Hlc in Hlc'. injection Hlc' as <-. intros Ha Hfree.
  destruct (establish_ok L p k q1 s1 lc t a packet sk new)
    as (n & s' & E & Hnl & Hnb & Hch & Hnone' & Hw' & Hcx & Hcnt & F1 & F2 & F3 & Hnb'); [done..|].
  change (global_ctx s1) with (global_ctx s) in Hcnt.
  change (context_of s1) with (context_of s) in Hnone', Hcx.
  pose proof Hadm as Hyes. rewrite (proj2 (Nat.ltb_lt _ _)) in Hyes by (rewrite <-Hfr; lia).
  pose proof (add_rep (conn_of s) L q b Hq k new a n (conn_of s') Hyes Hk) as Hadd.
  unfold spec_syn in *. rewrite Hyes in *. exists s'. split; [exact E|].
  split; [|split; [done|exists new, n; unfold conn_of; by rewrite Hcx, decide_True, Hnl by done]].
  assert (HnL : L <> new) by congruence. split; cbn [bl_free].
  - by rewrite F1.
  - done.
  - lia.
  - exists (handed_on lc). by rewrite Hcx, decide_False, decide_True.
  - exists p, (added q k new a). unfold listen_lookup in *. rewrite F2, F3.
    split; [done|]. split; [apply lookup_insert_eq|]. apply Hadd; try done.
    + unfold conn_of. by rewrite Hnone'.
    + intros sd. unfold conn_of. rewrite Hcx. destruct (decide (sd = new)); [by rewrite Hnl|].
      case_decide; [|done]. subst sd. rewrite Hlc. cbn. by rewrite Hll.
  - intros c. rewrite Hcx, decide_False, decide_True by done. intros [= <-].
    exact (Hpas _ Hlc).
Qed.

(** With none left, everything is as it was. *)
Lemma syn_refused :
  free_descriptor (global_ctx s) = None ->
  exists s', establish L p k q1 packet a (Z.of_nat sizeof_sockaddr) (Some sk) s1 =
      Ok (admits b a, s') /\ demux_rep L s' b /\ admits b a = false /\ holds s' L t.
Proof.
  intros Hfree. destruct (establish_full L p k q1 s1 packet a sk Hfree)
    as (s' & E & F1 & F2 & F3 & F4).
  pose proof (free_descriptor_ok (global_ctx s)) as Hfd. rewrite Hfree in Hfd.
  pose proof Hadm as Hno. rewrite <-(dr_free _ _ _ Hrep), Hfd in Hno.
  change ((0 <? 0)%nat) with false in Hno. rewrite Hno. exists s'. split; [exact E|].
  split; [|split; [done|exists lc; unfold context_of in *; by rewrite F2]].
  eapply demux_rep_same; try done. rewrite F4. cbn [s1 set_queues ms_queues].
  rewrite insert_insert_eq. apply insert_id. rewrite Hp. f_equal.
  assert (Hcur : 0 <= lq_cur_len q < 4294967296).
  { pose proof (count_le_length used (lq_requests q)). pose proof (qr_width _ _ _ _ Hq) as Hw.
    rewrite (qr_max _ _ _ _ Hq) in Hw. rewrite (qr_slots _ _ _ _ Hq) in *.
    rewrite (qr_cur _ _ _ _ Hq). lia. }
  unfold q1, set_cur_len, set_requests. cbn. rewrite list_insert_id, u32_sub_l by done.
  replace (lq_cur_len q + 1 - 1) with (lq_cur_len q) by lia.
  rewrite u32_small by lia. by destruct q.
Qed.
End free_slot.

(** A connection request at a listener is queued exactly when the backlog admits
    it; the accepted socket goes to the new connection, or stays. *)
Lemma syn_simulates L s b a packet t sk :
  demux_rep L s b -> inet_addr a -> syn_packet packet -> holds s L t ->
  exists s', mysock_enqueue_connection L packet a (Z.of_nat sizeof_sockaddr) (Some sk) s =
      Ok (admits b a, s') /\ demux_rep L s' (spec_syn b a) /\
    (admits b a = false -> holds s' L t) /\
    (admits b a = true ->
       exists new n, conn_of s' new = Some n /\ newborn packet n /\ child L a n).
Proof.
  intros Hrep Ha [Hlen Hflag] (lc & Hlc & Ht).
  pose proof Hrep as [Hul Hw Hfr (lc' & Hlc' & Hll & Hlb) (p & q & Hlook & Hp & Hq) _].
  rewrite Hlc in Hlc'. injection Hlc' as <-. unfold mysock_enqueue_connection.
  rewrite (bind_ok _ _ _ _ _ (get_context_ok _ _ _ Hw Hlc)), Hll, Hlb. cbn [andb]. exec.
  change (0 <? Z.of_nat sizeof_sockaddr) with true. exec.
  rewrite (bind_ok _ _ _ _ _ (rdlock_ok s Hul)).
  rewrite (proj2 (Nat.ltb_ge _ _)) by lia.
  rewrite ld_ok by (unfold in_field; cbn in *; unfold sizeof_tcphdr in Hlen; lia). exec.
  rewrite (proj2 (Z.eqb_neq _ _)) by done.
  rewrite (bind_ok _ _ _ _ _ (connection_queue_ok _ _ _ _ Hw Hlc Hll Hlb Hlook)).
  rewrite (bind_ok _ _ _ _ _ (deref_queue_ok s p q Hp)), (rep_slots _ _ _ _ Hq). exec.
  rewrite (rep_retransmission _ _ _ _ Hq a Ha). exec.
  assert (Hdrop : admits b a = false -> exists s', Ok (false, s) = Ok (admits b a, s') /\
    demux_rep L s' (spec_syn b a) /\ (admits b a = false -> holds s' L t) /\
    (admits b a = true ->
       exists new n, conn_of s' new = Some n /\ newborn packet n /\ child L a n)).
  { intros E. unfold spec_syn. rewrite E. exists s. split; [done|]. split; [done|].
    split; [|done]. intros _. by exists lc. }
  destruct (known b a) eqn:Hkn; [apply Hdrop; unfold admits; by rewrite Hkn|].
  rewrite (rep_room _ _ _ _ Hq). destruct (Nat.ltb_spec (outstanding b) (bl_max b)) as [Hroom|Hroom];
    [|apply Hdrop; unfold admits; rewrite Hkn, (proj2 (Nat.ltb_ge _ _)) by lia; done].
  clear Hdrop. destruct (rep_empty_slot _ _ _ _ Hq Hroom) as (k & Hfind & Hk).
  rewrite Hfind. unfold put_queue at 1. exec.
  assert (Hadm : admits b a = (0 <? bl_free b)%nat)
    by (unfold admits; by rewrite Hkn, (proj2 (Nat.ltb_lt _ _)) by lia).
  destruct (free_descriptor (global_ctx s)) as [new|] eqn:Hfree.
  - destruct (syn_admitted L s b a packet t sk lc p q k Hrep Hlc Ht Hlook Hq Hk Hadm new Ha Hfree)
      as (s' & E & Hr & Hy & Hn). exists s'. split; [exact E|]. split; [exact Hr|].
    split; [congruence|done].
  - destruct (syn_refused L s b a packet t sk lc p q k Hrep Hlc Ht Hp Hq Hk Hadm Hfree)
      as (s' & E & Hr & Hn & Hh). exists s'. split; [exact E|].
    unfold spec_syn. rewrite Hn. split; [done|]. by split.
Qed.

(** ** A turn of the receive thread *)

(** An accepted socket on which a packet is coming in, in whatever pieces. *)
Definition carries (t : sock) (p : buffer) : Prop :=
  exists pieces post rest, s_in t = pieces ++ post /\ pieces_ok pieces /\
    stream pieces = frame p ++ rest.

(** The representation does not depend on the listener's own connection state. *)
Lemma with_listener_rep L s b f :
  demux_rep L s b ->
  (forall c, mc_my_sd (f c) = mc_my_sd c /\ mc_listening (f c) = mc_listening c /\
     mc_bound (f c) = mc_bound c /\ mc_is_active (f c) = mc_is_active c) ->
  demux_rep L (with_context s L f) b.
Proof.
  intros [Hul Hw Hfr (lc & Hlc & Hll & Hlb) (p & q & Hlook & Hp & Hq) Hpas] Hf.
  assert (HL : context_of (with_context s L f) L = Some (f lc))
    by (rewrite context_of_with, decide_True, Hlc; done).
  destruct (Hf lc) as (F1 & F2 & F3 & F4). split.
  - done.
  - apply with_context_wf; [done|]. intros c. apply Hf.
  - by rewrite count_with.
  - exists (f lc). rewrite F2, F3. done.
  - exists p, q. split; [done|]. split; [done|].
    assert (E : forall sd, conn_of (with_context s L f) sd = conn_of s sd).
    { intros sd. unfold conn_of. rewrite context_of_with. case_decide; [|done]. subst sd.
      rewrite Hlc. cbn. by rewrite F2, Hll. }
    destruct Hq as [Q1 Q2 Q3 Q4 Q5 Q6 Q7 Q8 Q9 Q10 Q11 Q12 Q13].
    assert (Es : forall k a sd c, slot_of (conn_of (with_context s L f)) L q k a sd c <->
      slot_of (conn_of s) L q k a sd c).
    { intros k a sd c. split; intros [S1 S2 S3 S4]; split; try done; by rewrite ?E in *. }
    split; try done.
    + intros k r Hr. destruct (Q6 k r Hr) as [|(a & sd & c & Hs)]; [by left|].
      right. exists a, sd, c. by apply Es.
    + intros k k' a sd sd' c c' H1%Es H2%Es. by eapply Q7.
    + intros k k' a a' sd c c' H1%Es H2%Es. by eapply Q8.
    + eapply Forall2_impl; [exact Q9|]. intros e x (He & sd & c & Hs & Hr).
      split; [done|]. exists sd, c. split; [by apply Es|done].
    + intros a. rewrite Q11. by setoid_rewrite Es.
    + intros k a sd c H%Es. by eapply Q12.
    + intros sd c. rewrite E. intros H1 H2 H3. destruct (Q13 sd c H1 H2 H3) as (k & a & Hs).
      exists k, a. by apply Es.
  - intros c. rewrite HL. intros [= <-]. rewrite F4. by apply Hpas.
Qed.

(** With no accepted socket left over, a turn takes the next connection and
    queues it exactly when the backlog admits it. *)
Lemma listen_turn_simulates L s b t a p sk lc :
  demux_rep L s b -> context_of s L = Some lc -> tc_new_socket (nc_tcp (mc_net lc)) = None ->
  inet_addr a -> carries t p -> carried p -> syn_packet p ->
  exists s', listen_turn L (Some (t, a)) (Some sk) s = Ok (true, s') /\
    demux_rep L s' (spec_syn b a) /\ (admits b a = false -> exists t', holds s' L t') /\
    (admits b a = true -> exists new n, conn_of s' new = Some n /\ newborn p n /\ child L a n).
Proof.
  intros Hrep Hlc Hnone Ha (pieces & post & rest & Hin & Hpo & Hst) Hca Hsyn.
  destruct (recv_packet_ok p rest pieces post t Hin Hpo Hca Hst) as (t' & Er & _).
  pose proof (dr_passive _ _ _ Hrep _ Hlc) as Hact.
  destruct (dr_listener _ _ _ Hrep) as (lc' & Hlc' & Hll & Hlb).
  rewrite Hlc in Hlc'. injection Hlc' as <-. unfold listen_turn.
  rewrite (bind_ok _ _ _ _ _ (get_context_ok _ _ _ (dr_wf _ _ _ Hrep) Hlc)).
  unfold network_recv_packet. rewrite Hact, Hll. cbn [option_map fst].
  rewrite res_bind_ok. change (0 <? 0) with false. cbn iota. rewrite Hnone, Er, res_bind_ok.
  exec. rewrite (bind_ok _ _ _ _ _ (upd_context_eq _ _ _)). set (f := fun c => set_net c _).
  unfold carried in Hca. rewrite (proj2 (Z.leb_gt _ _)) by lia.
  rewrite (proj2 (Z.leb_le (Z.of_nat (length p)) _)) by lia. exec.
  destruct (syn_simulates L (with_context s L f) b a p t' sk) as (s' & E & Hrep' & Hh & Hnew);
    [by apply with_listener_rep|done|done| |].
  { eexists. split; [by rewrite context_of_with, decide_True, Hlc|]. done. }
  rewrite (bind_ok _ _ _ _ _ E). exists s'. split; [done|]. split; [done|]. eauto.
Qed.

(** While an accepted socket is left over, no turn returns. *)
Lemma listen_turn_wedged L s b t a t' sk :
  demux_rep L s b -> holds s L t -> listen_turn L (Some (t', a)) sk s = Fault AssertFail.
Proof.
  intros Hrep (lc & Hlc & Ht). pose proof (dr_passive _ _ _ Hrep _ Hlc) as Hact.
  destruct (dr_listener _ _ _ Hrep) as (lc' & Hlc' & Hll & _).
  rewrite Hlc in Hlc'. injection Hlc' as <-. unfold listen_turn.
  rewrite (bind_ok _ _ _ _ _ (get_context_ok _ _ _ (dr_wf _ _ _ Hrep) Hlc)).
  unfold network_recv_packet. rewrite Hact, Hll. cbn [option_map fst].
  rewrite res_bind_ok. change (0 <? 0) with false. cbn iota. by rewrite Ht.
Qed.

(** ** The start *)

(** A bound socket that does not listen yet, and that no connection came from. *)
Record fresh_listener (s : mysocks) (L : nat) : Prop := {
  fl_unlocked : ms_wrlocked s = false;
  fl_wf : table_wf s;
  fl_socket : exists c, context_of s L = Some c /\ mc_bound c = true /\
    mc_is_active c = false /\ tc_new_socket (nc_tcp (mc_net c)) = None;
  fl_table : exists m, represents listen_hash MAX_NUM_CONNECTIONS (listen_table s) m /\
    m !! L = None;
  fl_children : forall sd c, context_of s sd = Some c -> mc_listen_sd c <> Some L }.

Lemma listen_hash_range sd : (listen_hash sd < MAX_NUM_CONNECTIONS)%nat.
Proof. apply Nat.mod_upper_bound. discriminate. Qed.

Lemma grow_new_queue port n :
  0 < n < 4294967296 ->
  grow_queue (ListenQueue port 0 0 [] 0 []) n =
    ListenQueue port n 0 (replicate (Z.to_nat n) invalid_request) 1 [].
Proof.
  intros Hn. unfold grow_queue. cbn [lq_max_len]. destruct (Z.gtb_spec n 0); [|lia].
  by rewrite Z.sub_0_r.
Qed.

Lemma empty_queue_rep conn L port n free :
  0 < n < 4294967296 -> (forall sd c, conn sd = Some c -> mc_listen_sd c <> Some L) ->
  queue_rep conn L (ListenQueue port n 0 (replicate (Z.to_nat n) invalid_request) 1 [])
    (Backlog (Z.to_nat n) free ∅ []).
Proof.
  intros Hn Hc.
  assert (Hcnt : count used (replicate (Z.to_nat n) invalid_request) = 0%nat).
  { unfold count. generalize (Z.to_nat n). intros m. by induction m. }
  assert (Hs : forall q k a sd c, lq_requests q = replicate (Z.to_nat n) invalid_request ->
    ~ slot_of conn L q k a sd c).
  { intros q k a sd c E [H _ _ _]. rewrite E in H. by apply lookup_replicate in H as [H _]. }
  split; cbn [lq_max_len lq_cur_len lq_requests lq_completed bl_max bl_pending bl_ready].
  - lia.
  - lia.
  - by rewrite length_replicate.
  - by rewrite Hcnt.
  - by rewrite Hcnt.
  - intros k r [-> _]%lookup_replicate. by left.
  - intros k k' a sd sd' c c' H. by apply Hs in H.
  - intros k k' a a' sd c c' H. by apply Hs in H.
  - constructor.
  - constructor.
  - intros a. split; [by intros ?%elem_of_empty|]. intros (k & sd & c & H & _).
    by apply Hs in H.
  - intros k a sd c H. by apply Hs in H.
  - intros sd c H1 H2. by apply Hc in H1.
Qed.

Lemma mylisten_starts s L backlog port :
  fresh_listener s L -> 0 <= backlog < 4294967295 -> 0 < ntohs port ->
  exists s' c, mylisten L backlog port 0 s = Ok (0, s') /\
    demux_rep L s' (Backlog (Z.to_nat (backlog + 1)) (count unused (global_ctx s)) ∅ []) /\
    context_of s' L = Some c /\ tc_new_socket (nc_tcp (mc_net c)) = None /\
    (forall c0, context_of s L = Some c0 -> c = set_receiver (set_listening c0) true).
Proof.
  intros [Hul Hw (c & Hc & Hb & Hact & Hnone) (m & Hm & HmL) Hch] Hbl Hport.
  unfold mylisten. rewrite (bind_ok _ _ _ _ _ (get_context_ok _ _ _ Hw Hc)), Hb. exec.
  rewrite (bind_ok _ _ _ _ _ (upd_context_eq _ _ _)). set (s1 := with_context s L set_listening).
  assert (Hw1 : table_wf s1) by (by apply with_context_wf).
  assert (Hc1 : context_of s1 L = Some (set_listening c))
    by (unfold s1; by rewrite context_of_with, decide_True, Hc by done).
  unfold mysock_set_backlog. rewrite (u32_small backlog), u32_small by lia.
  rewrite bind_assoc, (bind_ok _ _ _ _ _ (get_context_ok _ _ _ Hw1 Hc1)).
  cbn [mc_listening mc_bound set_listening]. rewrite Hb. exec.
  rewrite (proj2 (Z.ltb_lt 0 (ntohs port)) Hport). exec.
  unfold wrlock. exec. change (ms_wrlocked s1) with (ms_wrlocked s). rewrite Hul. exec.
  assert (Hlook : listen_lookup (set_wrlocked s1 true) L = Ok None).
  { unfold listen_lookup, hash_lookup_ptr. cbn [listen_table set_wrlocked s1 with_context set_table].
    rewrite (get_entry_ok listen_hash MAX_NUM_CONNECTIONS listen_hash_range _ m L Hm).
    by rewrite HmL. }
  rewrite (bind_ok _ _ _ _ _ (connection_queue_ok (set_wrlocked s1 true) L _ _ Hw1 Hc1
    eq_refl Hb Hlook)). exec.
  cbn [mc_my_sd set_listening]. rewrite (Hw _ _ Hc).
  destruct (insert_represents listen_hash MAX_NUM_CONNECTIONS listen_hash_range
    (listen_table s) m L (ms_next s) Hm HmL) as (t & Ht & Hmt).
  cbn [listen_table set_wrlocked s1 with_context set_table ms_next]. rewrite Ht. exec.
  cbn [ms_queues set_wrlocked set_table ms_wrlocked global_ctx ms_closed ms_errno].
  set (s2 := Mysocks _ _ _ _ _ _ _).
  assert (Hp : ms_queues s2 !! ms_next s = Some (ListenQueue (ntohs port) 0 0 [] 0 []))
    by apply lookup_insert_eq.
  rewrite (bind_ok _ _ _ _ _ (deref_queue_ok _ _ _ Hp)). cbn [lq_local_port].
  rewrite Z.eqb_refl, grow_new_queue by lia. unfold put_queue, wrunlock. exec.
  change (0 <? 0) with false. cbn iota. rewrite (bind_ok _ _ _ _ _ (upd_context_eq _ _ _)).
  exec. eexists _, (set_receiver (set_listening c) true). split; [reflexivity|].
  set (s3 := set_wrlocked _ false).
  assert (Hcx : forall sd, context_of s3 sd = context_of s1 sd) by done.
  split; [|split; [by rewrite context_of_with, decide_True, Hcx, Hc1|]].
  2:{ split; [exact Hnone|]. intros c0 H0. congruence. }
  apply with_listener_rep; [|done].
  split; [done|done| | | |].
  - change (count unused (global_ctx s1) = count unused (global_ctx s)). apply count_with.
  - exists (set_listening c). done.
  - exists (ms_next s). eexists. split; [|split; [apply lookup_insert_eq|]].
    + unfold listen_lookup, hash_lookup_ptr. cbn [listen_table s3 s2 set_wrlocked set_queues].
      rewrite (get_entry_ok listen_hash MAX_NUM_CONNECTIONS listen_hash_range _ _ L Hmt).
      by rewrite lookup_insert_eq.
    + apply empty_queue_rep; [lia|]. intros sd c' [Hc' _]%conn_of_some.
      rewrite Hcx in Hc'. unfold s1 in Hc'. rewrite context_of_with in Hc'.
      destruct (decide (sd = L)); [|by eapply Hch].
      rewrite Hc in Hc'. injection Hc' as <-. exact (Hch _ _ Hc).
  - intros c'. rewrite Hcx, Hc1. intros [= <-]. done.
Qed.

(** * Runs *)

(** What happens at a listener, as its peers and its application see it: a
    request comes from an address; the handshake with an address ends; [myaccept]
    returns, with an address or an error. *)
Inductive demux_event :=
| ESyn (a : buffer)
| EDone (a : buffer) (err : Z)
| EAccept (a : option buffer).

Inductive demux_step (L : nat) : mysocks -> demux_event -> mysocks -> Prop :=
| step_syn s s' t a p sk :
    inet_addr a -> carries t p -> carried p -> syn_packet p ->
    listen_turn L (Some (t, a)) (Some sk) s = Ok (true, s') ->
    demux_step L s (ESyn a) s'
| step_done s s' sd c err :
    conn_of s sd = Some c -> mc_listen_sd c = Some L -> mc_blocking c = true ->
    unblock_application sd err s = Ok (tt, s') ->
    demux_step L s (EDone (nc_peer_addr (mc_net c)) err) s'
| step_accept s s' r a :
    myaccept L s = Ok ((r, a), s') -> demux_step L s (EAccept a) s'.

Inductive demux_run (L : nat) : mysocks -> list demux_event -> mysocks -> Prop :=
| run_nil s : demux_run L s [] s
| run_cons s e s1 es s' :
    demux_step L s e s1 -> demux_run L s1 es s' -> demux_run L s (e :: es) s'.

Inductive spec_step : backlog -> demux_event -> backlog -> Prop :=
| spec_step_syn b a : spec_step b (ESyn a) (spec_syn b a)
| spec_step_done b a err :
    a ∈ bl_pending b -> spec_step b (EDone a err) (spec_complete b a err)
| spec_step_accept b a err r :
    bl_ready b = (a, err) :: r ->
    spec_step b (EAccept (if err =? 0 then Some a else None)) (spec_accept b).

Inductive spec_run : backlog -> list demux_event -> backlog -> Prop :=
| spec_nil b : spec_run b [] b
| spec_cons b e b1 es b' :
    spec_step b e b1 -> spec_run b1 es b' -> spec_run b (e :: es) b'.

Lemma myaccept_waits L s b :
  demux_rep L s b -> bl_ready b = [] -> myaccept L s = Fault Blocked.
Proof.
  intros Hrep Hr. destruct (dr_listener _ _ _ Hrep) as (lc & Hlc & Hll & _). unfold myaccept.
  rewrite (bind_ok _ _ _ _ _ (get_context_ok _ _ _ (dr_wf _ _ _ Hrep) Hlc)), Hll. cbn [negb].
  by rewrite (bind_fault _ _ _ _ (dequeue_waits _ _ _ Hrep Hr)).
Qed.

Lemma step_simulated L s e s' b :
  demux_rep L s b -> demux_step L s e s' -> exists b', spec_step b e b' /\ demux_rep L s' b'.
Proof.
  intros Hrep Hst. destruct Hst as [s s' t a p sk Ha Ht Hp Hs Hrun|s s' sd c err Hc Hl Hb Hrun
    |s s' r a Hrun].
  - destruct (dr_listener _ _ _ Hrep) as (lc & Hlc & _).
    destruct (tc_new_socket (nc_tcp (mc_net lc))) as [t'|] eqn:Hnew.
    + rewrite (listen_turn_wedged L s b t' a t (Some sk) Hrep) in Hrun; [done|by exists lc].
    + destruct (listen_turn_simulates L s b t a p sk lc Hrep Hlc Hnew Ha Ht Hp Hs)
        as (s1 & E & Hrep' & _).
      rewrite Hrun in E. injection E as <-. eexists. split; [constructor|done].
  - destruct (unblock_simulates L s b sd c err Hrep Hc Hl Hb) as (s1 & E & Hrep' & Hin & _).
    rewrite Hrun in E. injection E as <-. eexists. split; [by constructor|done].
  - destruct (bl_ready b) as [|[x err] l] eqn:Er.
    + rewrite (myaccept_waits L s b Hrep Er) in Hrun. done.
    + destruct (accept_simulates L s b x err l Hrep Er) as (sd & c & s1 & _ & _ & E & Hrep' & _).
      rewrite Hrun in E.
      assert (Ea : a = (if err =? 0 then Some x else None) /\ s' = s1)
        by (by destruct (err =? 0); injection E as _ -> ->).
      destruct Ea as [-> ->]. eexists. split; [by econstructor|done].
Qed.

Lemma run_simulated L s es s' b :
  demux_run L s es s' -> demux_rep L s b -> exists b', spec_run b es b' /\ demux_rep L s' b'.
Proof.
  intros Hrun. revert b. induction Hrun as [s|s e s1 es s' Hst Hrun IH]; intros b Hrep.
  - exists b. split; [constructor|done].
  - destruct (step_simulated _ _ _ _ _ Hrep Hst) as (b1 & Hb1 & Hrep1).
    destruct (IH b1 Hrep1) as (b' & Hb' & Hrep'). exists b'. split; [by econstructor|done].
Qed.

Lemma outstanding_bound L s b : demux_rep L s b -> (outstanding b <= bl_max b)%nat.
Proof.
  intros [_ _ _ _ (p & q & _ & _ & Hq) _]. rewrite <-(qr_count _ _ _ _ Hq),
    <-(qr_slots _ _ _ _ Hq). unfold count. apply filter_length_le.
Qed.

(** C21: A listening mysocket is a bounded first-come first-served queue: every
    run of its operations is a run of the abstract backlog. Requests from new
    addresses are admitted while fewer than [backlog + 1] are outstanding,
    finished handshakes are accepted in the order in which they finished, each
    once, with the peer's address or its error; and in every state reached the
    end of any handshake, and [myaccept], do what the backlog says without a
    fault. *)
Theorem demux_refines s0 s L backlog port es s' :
  fresh_listener s0 L -> 0 <= backlog < 4294967295 -> 0 < ntohs port ->
  mylisten L backlog port 0 s0 = Ok (0, s) -> demux_run L s es s' ->
  exists b, spec_run (Backlog (Z.to_nat (backlog + 1)) (count unused (global_ctx s0)) ∅ []) es b /\
    (outstanding b <= Z.to_nat (backlog + 1))%nat /\
    (forall sd c err, conn_of s' sd = Some c -> mc_listen_sd c = Some L ->
       mc_blocking c = true -> exists s'', unblock_application sd err s' = Ok (tt, s'')) /\
    match bl_ready b with
    | [] => myaccept L s' = Fault Blocked
    | (a, err) :: _ => exists r s'', myaccept L s' =
        Ok ((r, if err =? 0 then Some a else None), s'')
    end.
Proof.
  intros Hfresh Hbl Hport Hlis Hrun.
  destruct (mylisten_starts s0 L backlog port Hfresh Hbl Hport) as (s1 & c & E & Hrep & _).
  rewrite Hlis in E. injection E as <-.
  destruct (run_simulated _ _ _ _ _ Hrun Hrep) as (b & Hspec & Hrep').
  exists b. split; [done|]. split.
  - assert (Hmax : bl_max b = Z.to_nat (backlog + 1)).
    { clear -Hspec. change (Z.to_nat (backlog + 1)) with
        (bl_max (Backlog (Z.to_nat (backlog + 1)) (count unused (global_ctx s0)) ∅ [])).
      induction Hspec as [|b1 e b2 es b3 Hst _ IH]; [done|]. rewrite IH.
      destruct Hst; [|done|done]. unfold spec_syn. by destruct (admits b a). }
    rewrite <-Hmax. by eapply outstanding_bound.
  - split.
    + intros sd c' err Hc Hl Hb.
      destruct (unblock_simulates L s' b sd c' err Hrep' Hc Hl Hb) as (s2 & E & _). eauto.
    + destruct (bl_ready b) as [|[a err] r] eqn:Er; [by eapply myaccept_waits|].
      destruct (accept_simulates L s' b a err r Hrep' Er) as (sd & c' & s2 & _ & _ & E & _).
      rewrite E. destruct (err =? 0); eauto.
Qed.
