(* ===== verification/DemuxHazards.v ===== *)
(** Where a listening mysocket goes wrong: a refused request stops the listener
    for good, listening again leaves the completed connections' pointers dangling,
    and closing the listener deadlocks with a handshake in progress. With a small
    listener to which these, and the refinement of the backlog, are applied. *)
From S2P Require Import Prelude Mem Sockets TcpSum PacketQueue NetTcp HashTable.
From S2P Require Import Mysock Demux MysockApi DemuxRep DemuxProps.

(** A request the backlog has no room for stops the listener: the accepted
    socket of the refused connection is never given up, and the next connection
    that is accepted fails the assertion that there is none. *)
Theorem refused_syn_wedges L s b lc t a p sk :
  demux_rep L s b -> context_of s L = Some lc -> tc_new_socket (nc_tcp (mc_net lc)) = None ->
  inet_addr a -> carries t p -> carried p -> syn_packet p -> admits b a = false ->
  exists s', listen_turn L (Some (t, a)) (Some sk) s = Ok (true, s') /\ demux_rep L s' b /\
    forall t' a' sk', listen_turn L (Some (t', a')) sk' s' = Fault AssertFail.
Proof.
  intros Hrep Hlc Hnew Ha Ht Hp Hs Hadm.
  destruct (listen_turn_simulates L s b t a p sk lc Hrep Hlc Hnew Ha Ht Hp Hs)
    as (s' & E & Hrep' & Hh).
  unfold spec_syn in Hrep'. rewrite Hadm in Hrep'. exists s'. split; [done|]. split; [done|].
  intros t' a' sk'. destruct (proj1 Hh Hadm) as [t1 Ht1]. by eapply listen_turn_wedged.
Qed.

(** What a second [mylisten] leaves. *)
Lemma relisten_state L s b backlog port rc r s' :
  demux_rep L s b -> mylisten L backlog port rc s = Ok (r, s') ->
  exists p q lc, ms_wrlocked s' = false /\ table_wf s' /\ context_of s' L = Some lc /\
    mc_listening lc = true /\ mc_bound lc = true /\ listen_lookup s' L = Ok (Some p) /\
    ms_queues s' !! p = Some (grow_queue q (u32 (u32 backlog + 1))) /\
    queue_rep (conn_of s) L q b.
Proof.
  intros [Hul Hw Hfr (lc & Hlc & Hll & Hlb) (p & q & Hlook & Hp & Hq) Hpas].
  unfold mylisten. rewrite (bind_ok _ _ _ _ _ (get_context_ok _ _ _ Hw Hlc)), Hlb. exec.
  rewrite (bind_ok _ _ _ _ _ (upd_context_eq _ _ _)). set (s1 := with_context s L set_listening).
  assert (Hw1 : table_wf s1) by (by apply with_context_wf).
  assert (Hc1 : context_of s1 L = Some (set_listening lc))
    by (unfold s1; by rewrite context_of_with, decide_True, Hlc by done).
  unfold mysock_set_backlog. rewrite bind_assoc, (bind_ok _ _ _ _ _ (get_context_ok _ _ _ Hw1 Hc1)).
  cbn [mc_listening mc_bound set_listening]. rewrite Hlb. exec.
  destruct (0 <? ntohs port); [|done]. exec.
  unfold wrlock. exec. change (ms_wrlocked s1) with (ms_wrlocked s). rewrite Hul. exec.
  rewrite (bind_ok _ _ _ _ _ (connection_queue_ok (set_wrlocked s1 true) L _ _ Hw1 Hc1
    eq_refl Hlb Hlook)). exec.
  rewrite (bind_ok _ _ _ _ _ (deref_queue_ok (set_wrlocked s1 true) p q Hp)).
  destruct (lq_local_port q =? ntohs port); [|done]. unfold put_queue, wrunlock. exec.
  set (s2 := set_wrlocked _ false).
  assert (Hs2 : context_of s2 L = Some (set_listening lc)) by exact Hc1.
  assert (Hw2 : table_wf s2) by exact Hw1.
  destruct (rc <? 0).
  - intros [= _ <-]. exists p, q, (set_listening lc). do 5 (split; [done|]). split; [done|].
    split; [apply lookup_insert_eq|done].
  - rewrite (bind_ok _ _ _ _ _ (upd_context_eq _ _ _)). intros [= _ <-].
    exists p, q, (set_receiver (set_listening lc) true). split; [done|].
    split; [by apply with_context_wf|].
    split; [by rewrite context_of_with, decide_True, Hs2|]. do 3 (split; [done|]).
    split; [apply lookup_insert_eq|done].
Qed.

(** Calling [mylisten] again with a larger backlog moves the array of
    requests, but not the pointers of the connections that have completed: the
    next [myaccept] reads freed memory. *)
Theorem relisten_dangles L s b backlog port rc r s' :
  demux_rep L s b -> bl_ready b <> [] -> Z.of_nat (bl_max b) <= backlog < 4294967295 ->
  mylisten L backlog port rc s = Ok (r, s') -> myaccept L s' = Fault UseAfterFree.
Proof.
  intros Hrep Hr Hbl Hlis. destruct (relisten_state _ _ _ _ _ _ _ _ Hrep Hlis)
    as (p & q & lc & Hul & Hw & Hlc & Hll & Hlb & Hlook & Hp & Hq).
  pose proof (qr_completed _ _ _ _ Hq) as Hf. pose proof (qr_max _ _ _ _ Hq) as Hmax.
  destruct (lq_completed q) as [|e l] eqn:El; [by apply Forall2_nil_inv_l in Hf|].
  destruct (bl_ready b) as [|x ready]; [done|].
  apply Forall2_cons_1 in Hf as [(He & _) _]. unfold myaccept.
  rewrite (bind_ok _ _ _ _ _ (get_context_ok _ _ _ Hw Hlc)), Hll. cbn [negb].
  apply bind_fault. unfold mysock_dequeue_connection.
  rewrite (bind_ok _ _ _ _ _ (get_context_ok _ _ _ Hw Hlc)), Hll, Hlb. cbn [andb]. exec.
  rewrite (bind_ok _ _ _ _ _ (rdlock_ok _ Hul)).
  rewrite (bind_ok _ _ _ _ _ (connection_queue_ok _ _ _ _ Hw Hlc Hll Hlb Hlook)).
  rewrite (bind_ok _ _ _ _ _ (deref_queue_ok _ _ _ Hp)). unfold grow_queue.
  rewrite (u32_small backlog), u32_small by lia. destruct (Z.gtb_spec (backlog + 1) (lq_max_len q)); [|lia].
  cbn [lq_completed]. rewrite El. unfold deref_request. cbn [lq_incarnation set_completed].
  rewrite decide_False by lia. done.
Qed.

(** ** Closing a listener *)

Definition closing (c : mysock_context) : mysock_context :=
  set_app c (AppSide (as_recv_queue (mc_app c)) (as_send_queue (mc_app c)) true
    (as_eof (mc_app c))).

Lemma with_context_some s sd f c :
  table_wf s -> context_of s sd = Some c -> mc_my_sd (f c) = mc_my_sd c ->
  table_wf (with_context s sd f) /\ context_of (with_context s sd f) sd = Some (f c) /\
  forall k, k <> sd -> context_of (with_context s sd f) k = context_of s k.
Proof.
  intros Hw Hc Hf. split; [|split].
  - intros k c'. rewrite context_of_with. case_decide; [|apply Hw]. subst k.
    rewrite Hc. intros [= <-]. rewrite Hf. by apply Hw.
  - by rewrite context_of_with, decide_True, Hc.
  - intros k Hk. by rewrite context_of_with, decide_False.
Qed.

(** A transport thread that ends before its handshake does needs the lock. *)
Lemma exit_blocks s sd L a c err :
  table_wf s -> ms_wrlocked s = true -> context_of s sd = Some c -> child L a c ->
  mc_blocking c = true -> transport_thread_exit sd err s = Fault Blocked.
Proof.
  intros Hw Hlock Hc Hch Hb. unfold transport_thread_exit.
  rewrite (bind_ok _ _ _ _ _ (get_context_ok _ _ _ Hw Hc)), Hb. apply bind_fault.
  unfold unblock_application.
  rewrite (bind_ok _ _ _ _ _ (get_context_ok _ _ _ Hw Hc)), Hb. exec.
  rewrite (bind_ok _ _ _ _ _ (upd_context_eq _ _ _)), (ch_passive _ _ _ Hch).
  set (f := fun c => set_unblocked c _).
  destruct (with_context_some s sd f c Hw Hc eq_refl) as (Hw1 & Hc1 & _).
  unfold mysock_passive_connection_complete.
  rewrite (bind_ok _ _ _ _ _ (get_context_ok _ _ _ Hw1 Hc1)). apply bind_fault.
  unfold rdlock. exec. change (ms_wrlocked (with_context s sd f)) with (ms_wrlocked s).
  by rewrite Hlock.
Qed.

(** The first two actions of [myclose] on a connection. *)
Lemma join_step returns s sd L a c :
  table_wf s -> context_of s sd = Some c -> child L a c -> mc_listening c = false ->
  join_transport returns sd s =
    match mc_transport c with
    | TNone => Ok (tt, s)
    | TRunning =>
        match returns sd with
        | Some err => (transport_thread_exit sd err;;
                       upd_context sd (fun c => set_transport c TNone)) s
        | None => Fault Blocked
        end
    | TDone => Ok (tt, with_context s sd (fun c => set_transport c TNone))
    end.
Proof.
  intros Hw Hc Hch Hl. unfold join_transport.
  rewrite (bind_ok _ _ _ _ _ (get_context_ok _ _ _ Hw Hc)).
  assert (Hg : forall b, (mc_is_active c || bool_decide (mc_listen_sd c <> None)) = b -> b = true).
  { intros b <-. rewrite (ch_listen _ _ _ Hch). by rewrite orb_true_r. }
  rewrite Hl, (Hg _ eq_refl). destruct (mc_transport c); [done| |done]. cbn. exec.
  by destruct (returns sd).
Qed.

Lemma child_closing L a c : child L a c -> child L a (closing c).
Proof. by intros [H1 H2 H3 H4 H5]. Qed.

Lemma close_pending fuel returns s sd L a c :
  table_wf s -> ms_wrlocked s = true -> context_of s sd = Some c -> child L a c ->
  mc_listening c = false -> mc_blocking c = true ->
  myclose (S fuel) returns sd s = Fault Blocked.
Proof.
  intros Hw Hlock Hc Hch Hl Hb. cbn [myclose].
  rewrite (bind_ok _ _ _ _ _ (get_context_ok _ _ _ Hw Hc)). unfold request_close.
  rewrite (bind_ok _ _ _ _ _ (upd_context_eq _ _ _)).
  change (fun c => set_app c _) with closing.
  destruct (with_context_some s sd closing c Hw Hc eq_refl) as (Hw1 & Hc1 & _).
  apply bind_fault. rewrite (join_step _ _ _ _ _ _ Hw1 Hc1 (child_closing _ _ _ Hch) Hl).
  cbn [mc_transport closing set_app]. rewrite (ch_running _ _ _ Hch Hb).
  destruct (returns sd) as [err|]; [|done]. apply bind_fault.
  apply (exit_blocks _ _ L a (closing c)); [done..|by apply child_closing|done].
Qed.

(** Freeing a context empties its entry of the table. *)
Lemma free_context_ok s sd c :
  table_wf s -> context_of s sd = Some c ->
  exists s', mysock_free_context sd s = Ok (tt, s') /\ table_wf s' /\
    ms_wrlocked s' = ms_wrlocked s /\
    (forall k, k <> sd -> context_of s' k = context_of s k).
Proof.
  intros Hw Hc. unfold mysock_free_context.
  rewrite (bind_ok _ _ _ _ _ (get_context_ok _ _ _ Hw Hc)). unfold close_network. exec.
  eexists. split; [reflexivity|]. set (s' := set_table _ _).
  assert (Ho : forall k, context_of s' k = if decide (k = sd) then None else context_of s k).
  { intros k. unfold context_of, s'. cbn [global_ctx set_table set_closed].
    case_decide as Hk; [|by rewrite list_lookup_insert_ne]. subst k.
    destruct (decide (sd < length (global_ctx s))%nat); [by rewrite list_lookup_insert_eq|].
    by rewrite lookup_ge_None_2 by (rewrite length_insert; lia). }
  split; [|split; [done|]].
  - intros k c'. rewrite Ho. case_decide; [done|]. apply Hw.
  - intros k Hk. by rewrite Ho, decide_False.
Qed.

(** What [join_transport] leaves of a connection whose handshake is over. *)
Lemma join_completed returns s sd L a c :
  table_wf s -> context_of s sd = Some c -> child L a c ->
  mc_listening c = false -> mc_blocking c = false ->
  join_transport returns sd s = Fault Blocked \/
  exists c' s', join_transport returns sd s = Ok (tt, s') /\ table_wf s' /\
    ms_wrlocked s' = ms_wrlocked s /\ context_of s' sd = Some c' /\
    forall k, k <> sd -> context_of s' k = context_of s k.
Proof.
  intros Hw Hc Hch Hl Hb. rewrite (join_step _ _ _ _ _ _ Hw Hc Hch Hl).
  set (f := fun c => set_transport c TNone). destruct (mc_transport c).
  - right. exists c, s. done.
  - destruct (returns sd) as [err|]; [right|by left]. unfold transport_thread_exit. exec.
    rewrite (bind_ok _ _ _ _ _ (get_context_ok _ _ _ Hw Hc)), Hb. exec.
    rewrite (bind_ok _ _ _ _ _ (upd_context_eq _ _ _)). set (g := fun c => set_transport _ TDone).
    destruct (with_context_some s sd g c Hw Hc eq_refl) as (Hw1 & Hc1 & Ho1).
    destruct (with_context_some _ sd f _ Hw1 Hc1 eq_refl) as (Hw2 & Hc2 & Ho2).
    eexists _, _. split; [reflexivity|]. split; [done|]. split; [done|]. split; [exact Hc2|].
    intros k Hk. rewrite Ho2 by done. by apply Ho1.
  - right. destruct (with_context_some s sd f c Hw Hc eq_refl) as (Hw1 & Hc1 & Ho1).
    eexists _, _. split; [reflexivity|]. done.
Qed.

(** Closing a connection whose handshake is over waits for its thread, or frees it
    without touching the others. *)
Lemma close_completed fuel returns s sd L a c :
  table_wf s -> context_of s sd = Some c -> child L a c ->
  mc_listening c = false -> mc_blocking c = false ->
  myclose (S fuel) returns sd s = Fault Blocked \/
  exists s', myclose (S fuel) returns sd s = Ok (0, s') /\ table_wf s' /\
    ms_wrlocked s' = ms_wrlocked s /\
    forall k, k <> sd -> context_of s' k = context_of s k.
Proof.
  intros Hw Hc Hch Hl Hb. cbn [myclose].
  rewrite (bind_ok _ _ _ _ _ (get_context_ok _ _ _ Hw Hc)). unfold request_close.
  rewrite (bind_ok _ _ _ _ _ (upd_context_eq _ _ _)).
  change (fun c => set_app c _) with closing.
  destruct (with_context_some s sd closing c Hw Hc eq_refl) as (Hw1 & Hc1 & Ho1).
  destruct (join_completed returns _ sd L a _ Hw1 Hc1 (child_closing _ _ _ Hch) Hl Hb)
    as [Hj|(c2 & s2 & Hj & Hw2 & Hk2 & Hc2 & Ho2)].
  - left. by apply bind_fault.
  - right. rewrite (bind_ok _ _ _ _ _ Hj), (bind_ok _ _ _ _ _ (upd_context_eq _ _ _)), Hl.
    destruct (with_context_some s2 sd (fun c => set_receiver c false) c2 Hw2 Hc2 eq_refl)
      as (Hw3 & Hc3 & Ho3).
    destruct (free_context_ok _ _ _ Hw3 Hc3) as (s4 & E & Hw4 & Hk4 & Ho4).
    exec. rewrite (bind_ok _ _ _ _ _ E). exists s4. split; [done|]. split; [done|].
    split; [by rewrite Hk4|]. intros k Hk. rewrite Ho4, Ho3, Ho2 by done. by apply Ho1.
Qed.

(** Closing the connections of the slots one after the other, with the lock held. *)
Lemma close_slots_block fuel returns L rs s :
  table_wf s -> ms_wrlocked s = true ->
  (forall j r sd, rs !! j = Some r -> cr_sd r = Some sd ->
     exists a c, context_of s sd = Some c /\ child L a c /\ mc_listening c = false) ->
  (forall j j' r r' sd, rs !! j = Some r -> rs !! j' = Some r' -> cr_sd r = Some sd ->
     cr_sd r' = Some sd -> j = j') ->
  (exists j r sd c, rs !! j = Some r /\ cr_sd r = Some sd /\ context_of s sd = Some c /\
     mc_blocking c = true) ->
  for_each (fun r => match cr_sd r with
                     | Some n => _ ← myclose (S fuel) returns n; mret tt
                     | None => mret tt end) rs s = Fault Blocked.
Proof.
  revert s. induction rs as [|r rs IH]; intros s Hw Hlock Hall Hnd (j & r0 & sd0 & c0 & Hj & Hs0 & Hc0 & Hb0).
  { done. }
  cbn [for_each].
  assert (Hpending : r <> r0 -> exists i, rs !! i = Some r0).
  { intros Hne. destruct j as [|j]; [by injection Hj|]. by exists j. }
  assert (Hnd' : forall j j' x x' sd, rs !! j = Some x -> rs !! j' = Some x' ->
    cr_sd x = Some sd -> cr_sd x' = Some sd -> j = j').
  { intros i i' x x' sd H1 H2 H3 H4. pose proof (Hnd (S i) (S i') x x' sd H1 H2 H3 H4). lia. }
  destruct (cr_sd r) as [sd|] eqn:Er.
  - destruct (Hall 0%nat r sd eq_refl Er) as (a & c & Hc & Hch & Hl).
    destruct (mc_blocking c) eqn:Eb.
    { do 2 apply bind_fault. by eapply close_pending. }
    destruct (close_completed fuel returns s sd L a c Hw Hc Hch Hl Eb)
      as [E|(s' & E & Hw' & Hk' & Ho')]; [by do 2 apply bind_fault|].
    rewrite bind_assoc, (bind_ok _ _ _ _ _ E), bind_ret_l.
    assert (Hother : forall i x n, rs !! i = Some x -> cr_sd x = Some n -> n <> sd).
    { intros i x n Hi Hn ->. by specialize (Hnd 0%nat (S i) r x sd eq_refl Hi Er Hn). }
    destruct Hpending as [i Hi]; [intros ->; congruence|]. apply IH; try done.
    + by rewrite Hk'.
    + intros i' x n Hx Hn. rewrite Ho' by (by eapply Hother). by apply (Hall (S i') x n).
    + exists i, r0, sd0, c0. split; [done|]. split; [done|]. split; [|done].
      rewrite Ho' by (by eapply Hother). done.
  - rewrite bind_ret_l. destruct Hpending as [i Hi]; [intros ->; congruence|].
    apply IH; try done.
    + intros i' x n Hx Hn. by apply (Hall (S i') x n).
    + by exists i, r0, sd0, c0.
Qed.

(** Closing a listener while a handshake is in progress deadlocks: [myclose]
    holds the lock of the listening table while it waits for the connection's
    transport thread, which cannot end, whatever it does, without taking the
    lock to report the end of the handshake. *)
Theorem close_listener_deadlocks L s b lc fuel returns :
  demux_rep L s b -> bl_pending b <> ∅ -> context_of s L = Some lc ->
  mc_transport lc = TNone -> myclose (S (S fuel)) returns L s = Fault Blocked.
Proof.
  intros [Hul Hw Hfr (lc' & Hlc' & Hll & Hlb) (p & q & Hlook & Hp & Hq) Hpas] Hne Hlc Ht.
  rewrite Hlc in Hlc'. injection Hlc' as <-.
  destruct (set_choose_L _ Hne) as [a0 Ha0].
  apply (qr_pending _ _ _ _ Hq) in Ha0 as (k0 & sd0 & c0 & Hs0 & Hb0). cbn [myclose].
  rewrite (bind_ok _ _ _ _ _ (get_context_ok _ _ _ Hw Hlc)). unfold request_close.
  rewrite (bind_ok _ _ _ _ _ (upd_context_eq _ _ _)). change (fun c => set_app c _) with closing.
  destruct (with_context_some s L closing lc Hw Hlc eq_refl) as (Hw1 & Hc1 & Ho1).
  unfold join_transport. exec. rewrite (bind_ok _ _ _ _ _ (get_context_ok _ _ _ Hw1 Hc1)).
  cbn [mc_transport closing set_app]. rewrite Ht, bind_ret_l, Hll.
  rewrite (bind_ok _ _ _ _ _ (upd_context_eq _ _ _)). set (f := fun c => set_receiver c false).
  destruct (with_context_some _ L f _ Hw1 Hc1 eq_refl) as (Hw2 & Hc2 & Ho2).
  set (s2 := with_context _ L f) in *. apply bind_fault. unfold mysock_close_passive_socket.
  rewrite (bind_ok _ _ _ _ _ (get_context_ok _ _ _ Hw2 Hc2)).
  change (mc_listening (f (closing lc))) with (mc_listening lc).
  change (mc_bound (f (closing lc))) with (mc_bound lc). rewrite Hll, Hlb. cbn [andb]. exec.
  unfold wrlock. exec. change (ms_wrlocked s2) with (ms_wrlocked s). rewrite Hul. exec.
  rewrite (bind_ok _ _ _ _ _ (connection_queue_ok (set_wrlocked s2 true) L _ _ Hw2 Hc2
    Hll Hlb Hlook)). exec.
  rewrite (bind_ok _ _ _ _ _ (deref_queue_ok (set_wrlocked s2 true) p q Hp)).
  rewrite (rep_slots _ _ _ _ Hq). exec. apply bind_fault.
  assert (Hconn : forall j r sd, lq_requests q !! j = Some r -> cr_sd r = Some sd ->
    exists a c, slot_of (conn_of s) L q j a sd c /\ sd <> L).
  { intros j r sd Hr Hsd. destruct (qr_each _ _ _ _ Hq j r Hr) as [->|(a & sd' & c & Hs)]; [done|].
    rewrite (so_slot _ _ _ _ _ _ _ Hs) in Hr. injection Hr as <-. injection Hsd as ->.
    exists a, c. split; [done|]. intros ->.
    destruct (conn_of_some _ _ _ (so_conn _ _ _ _ _ _ _ Hs)) as [H1 H2]. congruence. }
  assert (Hcx : forall sd, sd <> L -> context_of (set_wrlocked s2 true) sd = context_of s sd).
  { intros sd Hsd. change (context_of s2 sd = context_of s sd). by rewrite Ho2, Ho1. }
  apply (close_slots_block fuel returns L); [exact Hw2|done| | |].
  - intros j r sd Hr Hsd. destruct (Hconn j r sd Hr Hsd) as (a & c & Hs & HsL).
    destruct (conn_of_some _ _ _ (so_conn _ _ _ _ _ _ _ Hs)) as [H1 H2].
    exists a, c. rewrite Hcx by done. split; [done|]. split; [apply Hs|done].
  - intros j j' r r' sd H1 H2 H3 H4. destruct (Hconn j r sd H1 H3) as (a & c & Hs & _).
    destruct (Hconn j' r' sd H2 H4) as (a' & c' & Hs' & _). by eapply (qr_sds _ _ _ _ Hq).
  - destruct (conn_of_some _ _ _ (so_conn _ _ _ _ _ _ _ Hs0)) as [H1 H2].
    exists k0, (ConnectRequest a0 (Z.of_nat sizeof_sockaddr) (Some sd0)), sd0, c0.
    split; [apply Hs0|]. split; [done|]. split; [|done]. rewrite Hcx; [done|].
    intros ->. congruence.
Qed.

(** * A small listener *)

(** Descriptor 0, bound to port 80; two peers, the SYN they send, and the sockets
    they arrive on, one of them in pieces. *)
Definition demo_addr (host : Z) : buffer := [2; 0; 0; 9; 10; 0; 0; host] ++ replicate 8 0.
Definition demo_syn : buffer := replicate 13 0 ++ [TH_SYN] ++ replicate 6 0.
Definition demo_whole : sock := Sock [RData (frame demo_syn)] [] [] false.
Definition demo_pieces : sock :=
  Sock [RData (take 1 (frame demo_syn)); RData (drop 1 (frame demo_syn))] [] [] false.
Definition demo_sock : sock := Sock [] [] [] false.

Definition run_to {A} (m : MM A) (s : mysocks) : mysocks :=
  match m s with Ok (_, s') => s' | Fault _ => s end.

Definition demo0 : mysocks :=
  run_to (_ ← mysocket (Some demo_sock); mybind 0 (demo_addr 1) 0) init_mysocks.
Definition demo_listen : MM Z := mylisten 0 1 (htons 80) 0.
Definition demo1 : mysocks := run_to demo_listen demo0.
Definition demo_turn (t : sock) (host : Z) : MM bool :=
  listen_turn 0 (Some (t, demo_addr host)) (Some demo_sock).
Definition demo2 : mysocks := run_to (demo_turn demo_whole 7) demo1.
Definition demo3 : mysocks := run_to (demo_turn demo_pieces 8) demo2.
Definition demo4 : mysocks := run_to (unblock_application 2 0) demo3.
Definition demo5 : mysocks := run_to (unblock_application 1 111) demo4.
Definition demo6 : mysocks := run_to (myaccept 0) demo5.

Definition demo_events : list demux_event :=
  [ESyn (demo_addr 7); ESyn (demo_addr 8); EDone (demo_addr 8) 0; EDone (demo_addr 7) 111;
   EAccept (Some (demo_addr 8))].

Lemma demo_fresh : fresh_listener demo0 0.
Proof.
  assert (Hcx : forall sd c, context_of demo0 sd = Some c ->
    sd = 0%nat /\ mc_my_sd c = 0%nat /\ mc_listen_sd c = None).
  { intros sd c. unfold context_of. destruct sd as [|sd].
    - intros [= <-]. done.
    - change (global_ctx demo0 !! S sd) with (replicate 63 (@None mysock_context) !! sd).
      destruct (replicate 63 None !! sd) as [x|] eqn:E; [|done].
      by apply lookup_replicate in E as [-> _]. }
  split.
  - done.
  - intros sd c H. by destruct (Hcx sd c H) as (-> & -> & _).
  - eexists. split; [reflexivity|]. done.
  - exists ∅. split; [apply empty_represents|done].
  - intros sd c H. by destruct (Hcx sd c H) as (_ & _ & ->).
Qed.

Lemma demo_carried : carried demo_syn.
Proof. split; apply Nat.leb_le; reflexivity. Qed.
Lemma demo_syn_packet : syn_packet demo_syn.
Proof. split; [apply Nat.leb_le; reflexivity|discriminate]. Qed.
Lemma demo_inet host : inet_addr (demo_addr host).
Proof. done. Qed.
Lemma demo_whole_carries : carries demo_whole demo_syn.
Proof.
  exists (s_in demo_whole), [], []. split; [done|]. split; [|done]. by constructor.
Qed.
Lemma demo_pieces_carries : carries demo_pieces demo_syn.
Proof.
  exists (s_in demo_pieces), [], []. split; [done|]. split; [|done]. by repeat constructor.
Qed.
#[local] Hint Resolve demo_carried demo_syn_packet demo_inet demo_whole_carries
  demo_pieces_carries : core.

Lemma demo_done s s' sd a err :
  (exists c, conn_of s sd = Some c /\ nc_peer_addr (mc_net c) = a /\
     mc_listen_sd c = Some 0%nat /\ mc_blocking c = true) ->
  unblock_application sd err s = Ok (tt, s') -> demux_step 0 s (EDone a err) s'.
Proof. intros (c & Hc & <- & Hl & Hb) E. by eapply step_done. Qed.

Lemma demo_run : demux_run 0 demo1 demo_events demo6.
Proof.
  apply (run_cons 0 _ _ demo2).
  { apply (step_syn 0 _ _ demo_whole _ demo_syn demo_sock); [auto..|vm_compute; reflexivity]. }
  apply (run_cons 0 _ _ demo3).
  { apply (step_syn 0 _ _ demo_pieces _ demo_syn demo_sock); [auto..|vm_compute; reflexivity]. }
  apply (run_cons 0 _ _ demo4).
  { apply (demo_done _ _ 2); [|vm_compute; reflexivity].
    eexists. split; [vm_compute; reflexivity|]. done. }
  apply (run_cons 0 _ _ demo5).
  { apply (demo_done _ _ 1); [|vm_compute; reflexivity].
    eexists. split; [vm_compute; reflexivity|]. done. }
  apply (run_cons 0 _ _ demo6).
  { eapply (step_accept 0 _ _ (Some 2%nat)). vm_compute. reflexivity. }
  constructor.
Qed.

Lemma same_result {A} (r : res (A * mysocks)) a s a' s' :
  r = Ok (a, s) -> r = Ok (a', s') -> s = s'.
Proof. intros -> [= _ <-]. done. Qed.

(** The backlogs of its states. *)
Definition backlog1 : backlog := Backlog 2 63 ∅ [].
Definition backlog3 : backlog := spec_syn (spec_syn backlog1 (demo_addr 7)) (demo_addr 8).
Definition backlog4 : backlog := spec_complete backlog3 (demo_addr 8) 0.

Lemma demo1_rep : demux_rep 0 demo1 backlog1.
Proof.
  destruct (mylisten_starts demo0 0 1 (htons 80) demo_fresh) as (s & c & E & H & _);
    [lia|by apply Z.ltb_lt|].
  assert (Es : demo_listen demo0 = Ok (0, demo1)) by (vm_compute; reflexivity).
  unfold demo_listen in Es. rewrite E in Es. injection Es as ->. exact H.
Qed.

Lemma demo_turn_rep s b t host s' lc :
  demux_rep 0 s b -> context_of s 0 = Some lc -> tc_new_socket (nc_tcp (mc_net lc)) = None ->
  carries t demo_syn -> demo_turn t host s = Ok (true, s') ->
  demux_rep 0 s' (spec_syn b (demo_addr host)).
Proof.
  intros Hrep Hlc Hnew Ht E.
  destruct (listen_turn_simulates 0 s b t (demo_addr host) demo_syn demo_sock lc)
    as (s1 & E1 & H1 & _); [auto..|].
  unfold demo_turn in E. rewrite E in E1. by injection E1 as ->.
Qed.

Lemma demo3_rep : demux_rep 0 demo3 backlog3.
Proof.
  eapply (demo_turn_rep demo2 _ demo_pieces 8);
    [|vm_compute; reflexivity|reflexivity|auto|vm_compute; reflexivity].
  eapply (demo_turn_rep demo1 _ demo_whole 7);
    [apply demo1_rep|vm_compute; reflexivity|reflexivity|auto|vm_compute; reflexivity].
Qed.

Lemma demo4_rep : demux_rep 0 demo4 backlog4.
Proof.
  assert (exists c, conn_of demo3 2 = Some c /\ nc_peer_addr (mc_net c) = demo_addr 8 /\
    mc_listen_sd c = Some 0%nat /\ mc_blocking c = true) as (c & Hc & Ha & Hl & Hb)
    by (eexists; split; [vm_compute; reflexivity|done]).
  destruct (unblock_simulates 0 demo3 backlog3 2 c 0 demo3_rep Hc Hl Hb) as (s & E & H & _).
  assert (Es : unblock_application 2 0 demo3 = Ok (tt, demo4)) by (vm_compute; reflexivity).
  rewrite <-(same_result _ _ _ _ _ Es E), Ha in H. exact H.
Qed.

Lemma demux_refines_witness :
  exists b, spec_run (Backlog 2 63 ∅ []) demo_events b /\ (outstanding b <= 2)%nat.
Proof.
  destruct (demux_refines demo0 demo1 0 1 (htons 80) demo_events demo6)
    as (b & H1 & H2 & _);
    [apply demo_fresh|lia|by apply Z.ltb_lt|vm_compute; reflexivity|apply demo_run|].
  exists b. exact (conj H1 H2).
Defined.

Lemma refused_syn_wedges_witness :
  exists s', listen_turn 0 (Some (demo_whole, demo_addr 9)) (Some demo_sock) demo3 =
      Ok (true, s') /\ demux_rep 0 s' backlog3 /\
    forall t' a' sk', listen_turn 0 (Some (t', a')) sk' s' = Fault AssertFail.
Proof.
  eapply (refused_syn_wedges 0 demo3 backlog3 _ demo_whole (demo_addr 9) demo_syn demo_sock);
    [apply demo3_rep|vm_compute; reflexivity|reflexivity|apply demo_inet|auto|auto|auto|
     vm_compute; reflexivity].
Defined.

Lemma relisten_dangles_witness :
  myaccept 0 (run_to (mylisten 0 4 (htons 80) 0) demo4) = Fault UseAfterFree.
Proof.
  apply (relisten_dangles 0 demo4 backlog4 4 (htons 80) 0 0);
    [apply demo4_rep|by vm_compute|split; [by apply Z.leb_le|by apply Z.ltb_lt]|].
  vm_compute. reflexivity.
Defined.

Lemma close_listener_deadlocks_witness :
  myclose 2 (fun _ => Some 0) 0 demo3 = Fault Blocked.
Proof.
  eapply (close_listener_deadlocks 0 demo3 backlog3 _ 0);
    [apply demo3_rep|by vm_compute|vm_compute; reflexivity|reflexivity].
Defined.
