(* ===== verification/FileTransfer.v ===== *)
(** The file transfer over mysockets: transport-layer/src/client.c and server.c.
    The client sends the name of a file in a line; the server answers with a line
    that holds the file's length, and the file. Both programs are written against
    the class [Conn] of connections; a mysocket's application side
    (PacketQueue), and a descriptor of the process (MysockApi), are instances. *)
From S2P Require Import Prelude Mem Sockets CString CStdio PacketQueue Mysock MysockApi.

(** * Connections *)

(** [myread], [mywrite] and [myclose] as an application calls them; [None] and
    [false] stand for the result -1. *)
Class Conn (S : Type) := {
  conn_read : S -> nat -> res (option buffer * S);
  conn_write : S -> buffer -> res (bool * S);
  conn_close : S -> res S }.

#[export] Instance app_conn {memcpy : Memcpy} : Conn app_side := {|
  conn_read a n := '(d, _, a) ← myread a n; mret (Some d, a);
  conn_write a b := '(_, a) ← mywrite a b; mret (true, a);
  conn_close a := mret (AppSide (as_recv_queue a) (as_send_queue a) true (as_eof a)) |}.

(** The connection behind descriptor [sd]. While [myclose] waits, the transport
    thread of descriptor [n] ends with the [errno] that [returns n] gives. *)
Definition descriptor_conn {memcpy : Memcpy} (sd : nat) (returns : nat -> option Z) : Conn mysocks := {|
  conn_read s n := '(r, s) ← myread_on sd n s; mret (option_map fst r, s);
  conn_write s b :=
    '(r, s) ← mywrite_on sd b s; mret (match r with Some _ => true | None => false end, s);
  conn_close s := '(_, s) ← myclose 2 returns sd s; mret s |}.

Definition CR : Z := 13.
Definition LF : Z := 10.
Definition COMMA : Z := 44.

Section programs.
Context {S : Type} `{Conn S}.

(** [get_nvt_line], which both programs have, into an array of [cap] bytes: the
    string stored, or [None] for -1. The carriage return in front of the line
    feed is overwritten by the NUL; a stream that ends gives what there is. *)
Fixpoint nvt_line (fuel cap : nat) (s : S) (line : buffer) (last_char : Z)
  : res (option buffer * S) :=
  match fuel with
  | O => Fault OutOfFuel
  | Datatypes.S fuel =>
      '(r, s) ← conn_read s 1;
      match r with
      | None => Ok (None, s)
      | Some [] => if (length line <? cap)%nat then Ok (Some line, s) else Fault OutOfBounds
      | Some (this_char :: _) =>
          if (last_char =? CR) && (this_char =? LF) then Ok (Some (removelast line), s)
          else if (length line <? cap)%nat
               then nvt_line fuel cap s (line ++ [this_char]) this_char
               else Fault OutOfBounds
      end
  end.
Definition get_nvt_line (cap : nat) (s : S) : res (option buffer * S) :=
  '(r, s) ← nvt_line (Datatypes.S cap) cap s [] 0;
  match r with
  | None => mret (None, s)
  | Some line => line ← c_str (line ++ [0]); mret (Some line, s)
  end.

(** * The server *)

(** What the system knows of files: an open file's end, as [lseek] reports it,
    and what reading it meets; which names [access] lets read, and what [open]
    gives. *)
Record file := File { f_end : Z; f_reads : sock }.
Record filesystem := Filesystem {
  fs_access : buffer -> bool; fs_open : buffer -> option file }.

Definition SERVER_LINE : nat := 256.
Definition RESP_SIZE : nat := 5000.

(** The answer to a request, and the file that is open when there is one. *)
Definition response (fs : filesystem) (line : buffer) : buffer * option file :=
  if bool_decide (line = []) || negb (fs_access fs line) then
    (line ++ str ",-1,File does not exist or access denied" ++ [CR; LF], None)
  else
    match fs_open fs line with
    | None => (line ++ str ",-1,File could not be opened" ++ [CR; LF], None)
    | Some f => (line ++ [COMMA] ++ dec (u64 (f_end f)) ++ str ",Ok" ++ [CR; LF], Some f)
    end.

(** The loop of [process_line] that sends the file: [false] for -1. *)
Fixpoint send_file (fuel : nat) (s : S) (fd : sock) : res (bool * S) :=
  match fuel with
  | O => Fault OutOfFuel
  | Datatypes.S fuel =>
      '(r, fd) ← recv fd RESP_SIZE;
      match r with
      | IoOk [] => Ok (true, s)
      | IoErr _ => Ok (false, s)
      | IoOk data =>
          '(ok, s) ← conn_write s data;
          if (ok : bool) then send_file fuel s fd else Ok (false, s)
      end
  end.
Definition file_work (fd : sock) : nat :=
  Datatypes.S (length (stream (s_in fd)) + length (s_in fd)).

(** [process_line]: [false] for -1. *)
Definition process_line (fs : filesystem) (s : S) (line : buffer) : res (bool * S) :=
  let '(resp, fd) := response fs line in
  if negb (length resp <? RESP_SIZE)%nat then Fault OutOfBounds
  else
    '(ok, s) ← conn_write s resp;
    if negb (ok : bool) then Ok (false, s)
    else match fd with
    | None => Ok (true, s)
    | Some f => send_file (file_work (f_reads f)) s (f_reads f)
    end.

(** A turn of the loop of [do_connection]: whether it goes on. The stream has
    ended, a line is empty, or something has failed, when it does not. *)
Definition do_request (fs : filesystem) (s : S) : res (bool * S) :=
  '(r, s) ← get_nvt_line SERVER_LINE s;
  match r with
  | None | Some [] => Ok (false, s)
  | Some line => process_line fs s line
  end.

(** [do_connection] *)
Fixpoint do_requests (fuel : nat) (fs : filesystem) (s : S) : res S :=
  match fuel with
  | O => Fault OutOfFuel
  | Datatypes.S fuel =>
      '(go_on, s) ← do_request fs s;
      if (go_on : bool) then do_requests fuel fs s else Ok s
  end.
Definition do_connection (fuel : nat) (fs : filesystem) (s : S) : res S :=
  s ← do_requests fuel fs s; conn_close s.

(** * The client *)

(** What a call of [fwrite] meets: it takes at least one byte, or none, with this
    [errno]. When no more is listed, everything is taken. *)
Inductive fwrite_event := FWrote (more : nat) | FErr (err : Z).

(** The client: the connection, the rest of standard input, what the calls of
    [fopen] meet (when no more is listed, they succeed and everything is
    written), the file [RCVD_FILENAME] once it has been written anew, and the
    variable [length] of [loop_until_end], which starts unset. *)
Record client := Client {
  cl_conn : S; cl_stdin : buffer; cl_fopens : list (option (list fwrite_event));
  cl_rcvd : option buffer; cl_length : option Z }.

Definition with_conn (c : client) (s : S) : client :=
  Client s (cl_stdin c) (cl_fopens c) (cl_rcvd c) (cl_length c).
Definition with_stdin (c : client) (input : buffer) : client :=
  Client (cl_conn c) input (cl_fopens c) (cl_rcvd c) (cl_length c).
Definition with_fopens (c : client) (l : list (option (list fwrite_event))) : client :=
  Client (cl_conn c) (cl_stdin c) l (cl_rcvd c) (cl_length c).
Definition with_rcvd (c : client) (b : buffer) : client :=
  Client (cl_conn c) (cl_stdin c) (cl_fopens c) (Some b) (cl_length c).
Definition with_length (c : client) (n : Z) : client :=
  Client (cl_conn c) (cl_stdin c) (cl_fopens c) (cl_rcvd c) (Some n).

Definition CLIENT_LINE : nat := 1000.

(** A request as it is written to the array [line], its CRLF and NUL included. *)
Definition end_line (line : buffer) : res buffer :=
  if (length line + 2 <? CLIENT_LINE)%nat then Ok (line ++ [CR; LF]) else Fault OutOfBounds.

(** The next request, from the prompt or from the option: [None] at the end of
    standard input, [Some None] when there is nothing to ask for. *)
Definition next_request (filename : option buffer) (c : client)
  : res (option (option buffer) * client) :=
  match filename with
  | None =>
      match fgets CLIENT_LINE (cl_stdin c) with
      | None => Ok (None, c)
      | Some (line, input) =>
          line ← c_str (line ++ [0]);
          let line := strip_end line in
          let c := with_stdin c input in
          if (length line <=? 1)%nat then Ok (Some None, c)
          else line ← end_line line; mret (Some (Some line), c)
      end
  | Some name =>
      if negb (length name <? CLIENT_LINE)%nat then Fault OutOfBounds
      else line ← end_line name; mret (Some (Some line), c)
  end.

(** The answer's length field: the text between its last two commas; [None] when
    it has fewer. *)
Definition length_field (line : buffer) : option buffer :=
  match strrchr line COMMA with
  | None => None
  | Some (line, _) => match strrchr line COMMA with None => None | Some (_, lenstr) => Some lenstr end
  end.

(** The loop around [fwrite]: the bytes that got to the file, whether [errcnd] is
    set, and what further calls meet. *)
Fixpoint fwrite_loop (events : list fwrite_event) (data : buffer)
  : buffer * bool * list fwrite_event :=
  match events with
  | [] => (data, false, [])
  | FWrote more :: events => (take (Datatypes.S more) data, false, events)
  | FErr err :: events => if err =? EINTR then fwrite_loop events data else ([], true, events)
  end.

(** The loop that retrieves the file: what is left of [length], [errcnd], the
    connection and the file's contents. A negative length asks [myread] for an
    unlimited amount, and [fwrite] to write one. *)
Fixpoint receive_file (fuel : nat) (quiet : bool) (s : S) (events : list fwrite_event)
  (contents : buffer) (errcnd : bool) (len : Z) : res (Z * bool * S * buffer) :=
  match fuel with
  | O => Fault OutOfFuel
  | Datatypes.S fuel =>
      if len =? 0 then Ok (len, errcnd, s, contents)
      else
        let to_read := Z.min len (Z.of_nat CLIENT_LINE) in
        '(r, s) ← conn_read s (Z.to_nat (u64 to_read));
        match r with
        | None => Ok (len, true, s, contents)
        | Some [] => Ok (len, errcnd, s, contents)
        | Some data =>
            if (CLIENT_LINE <? length data)%nat then Fault OutOfBounds
            else
              let got := Z.of_nat (length data) in
              let to_read := if got <? to_read then got else to_read in
              '(written, err, events) ←
                (if quiet then Ok ([], false, events)
                 else if to_read <? 0 then Fault OutOfBounds
                 else Ok (fwrite_loop events (take (Z.to_nat to_read) data)));
              receive_file fuel quiet s events (contents ++ written) (errcnd || err)
                (i32 (len - to_read))
        end
  end.
Definition receive_fuel (len : Z) : nat := Datatypes.S (Datatypes.S (Z.to_nat len)).

(** How [loop_until_end] ends: it returns, with [errcnd] in its local variable,
    or the program exits with an error. *)
Inductive client_end := Returned (errcnd : bool) | Exited.

(** From the answer on: [None] when the loop goes on. *)
Definition handle_answer (quiet : bool) (filename : option buffer) (line : buffer) (c : client)
  : res (option client_end * client) :=
  match length_field line with
  | None => Ok (Some (Returned true), c)
  | Some lenstr =>
      let c := match scan_d lenstr with Some n => with_length c n | None => c end in
      match cl_length c with
      | None => Fault Uninit
      | Some len =>
          if len =? -1 then
            Ok (match filename with None => None | Some _ => Some (Returned true) end, c)
          else
            let '(opened, fopens) :=
              match cl_fopens c with [] => (Some [], []) | o :: l => (o, l) end in
            let c := with_fopens c fopens in
            match opened with
            | None => Ok (Some (Returned true), c)
            | Some events =>
                '(missing, errcnd, s, contents) ←
                  receive_file (receive_fuel len) quiet (cl_conn c) events [] false len;
                let c := with_length (with_rcvd (with_conn c s) contents) missing in
                if negb (missing =? 0) then
                  s ← conn_close s; mret (Some Exited, with_conn c s)
                else
                  mret (match filename with
                        | Some _ => Some (Returned errcnd)
                        | None => None
                        end, c)
            end
      end
  end.

(** [loop_until_end], on what is left of standard input. *)
Fixpoint loop_until_end (fuel : nat) (quiet : bool) (filename : option buffer) (c : client)
  : res (client_end * client) :=
  match fuel with
  | O => Fault OutOfFuel
  | Datatypes.S fuel =>
      '(request, c) ← next_request filename c;
      match request with
      | None => Ok (Returned false, c)
      | Some None => loop_until_end fuel quiet filename c
      | Some (Some line) =>
          '(ok, s) ← conn_write (cl_conn c) line;
          let c := with_conn c s in
          if negb (ok : bool) then Ok (Returned true, c)
          else
            '(r, s) ← get_nvt_line CLIENT_LINE (cl_conn c);
            let c := with_conn c s in
            match r with
            | None => Ok (Returned true, c)
            | Some answer =>
                '(e, c) ← handle_answer quiet filename answer c;
                match e with
                | Some e => Ok (e, c)
                | None => loop_until_end fuel quiet filename c
                end
            end
      end
  end.
Definition prompts (c : client) : nat := Datatypes.S (length (cl_stdin c)).

(** [main] once connected: the exit status, 0 however the loop returned, and the
    state left. *)
Definition client_run (quiet : bool) (filename : option buffer) (c : client)
  : res (Z * client) :=
  '(e, c) ← loop_until_end (prompts c) quiet filename c;
  match e with
  | Exited => mret (-1, c)
  | Returned _ => s ← conn_close (cl_conn c); mret (0, with_conn c s)
  end.

End programs.
Arguments client S : clear implicits.

(** * Start-up *)

Definition INADDR_NONE : Z := 4294967295.
Definition sockaddr_len : Z := Z.of_nat sizeof_sockaddr.

(** [parse_address]: the address, or [None] for -1. [inet_addr] and
    [gethostbyname] are the resolver's; the latter gives an address's type,
    length and first four bytes. *)
Definition parse_address (inet_addr : buffer -> Z) (gethostbyname : buffer -> option (Z * Z * Z))
  (address : buffer) : res (option buffer) :=
  sin ← st sa_family 0 AF_INET no_addr;
  let port :=
    match index address 58 with
    | None => Some (0, address)
    | Some (host, rest) =>
        match scan_u (tail rest) with
        | None => None
        | Some h_port => Some (htons (u16 h_port), host)
        end
    end in
  match port with
  | None => Ok None
  | Some (sport, host) =>
      sin ← st sin_port 0 sport sin;
      if negb (inet_addr host =? INADDR_NONE) then
        sin ← st sin_addr 0 (inet_addr host) sin; mret (Some sin)
      else
        match gethostbyname host with
        | Some (addrtype, len, addr) =>
            if negb (addrtype =? AF_INET) || negb (len =? 4) then Ok None
            else sin ← st sin_addr 0 addr sin; mret (Some sin)
        | None => Ok None
        end
  end.

Definition EXIT_FAILURE : Z := 1.

(** What the client's calls of the system give: the socket, the result of
    [bind], and what becomes of the connection and of its threads. *)
Record client_env := ClientEnv {
  ce_socket : option sock; ce_bind : Z; ce_outcome : option Z; ce_returns : nat -> option Z }.

(** The client's [main], its options read: the exit status, and the client's
    state when it got that far. The result of [myconnect] takes the place of the
    descriptor. *)
Definition client_main {memcpy : Memcpy} (inet_addr : buffer -> Z) (gethostbyname : buffer -> option (Z * Z * Z))
  (env : client_env) (quiet : bool) (filename : option buffer) (address : buffer)
  (stdin : buffer) (fopens : list (option (list fwrite_event)))
  : MM (Z * option (option buffer)) :=
  sin ← lift (parse_address inet_addr gethostbyname address);
  match sin with
  | None => mret (EXIT_FAILURE, None)
  | Some sin =>
      sport ← lift (ld sin_port 0 sin);
      if sport =? 0 then mret (EXIT_FAILURE, None)
      else
        r ← mysocket (ce_socket env);
        match r with
        | None => mret (EXIT_FAILURE, None)
        | Some sd =>
            rc ← myconnect sd sin sockaddr_len (ce_bind env) (ce_outcome env);
            if rc <? 0 then mret (EXIT_FAILURE, None)
            else
              s ← get;
              let H := descriptor_conn (Z.to_nat rc) (ce_returns env) in
              '(status, c) ← lift (client_run quiet filename (Client s stdin fopens None None));
              put (cl_conn c);;
              mret (status, Some (cl_rcvd c))
        end
  end.

(** [local_name] into an array of 256 bytes, with the name [gethostname] finds and
    the port of the socket; a failure ends the process. *)
Definition local_name (hostname : option buffer) (interface_ip : Z -> Z) (sd : nat) (port : Z)
  : MM buffer :=
  sin ← mygetsockname interface_ip sd port;
  match hostname with
  | None => fail AssertFail
  | Some host =>
      sport ← lift (ld sin_port 0 sin);
      let name := host ++ [58] ++ dec (ntohs sport) in
      if (length name <? 256)%nat then mret name else fail OutOfBounds
  end.

(** What the server's calls of the system give: the socket, the results of [bind]
    and [listen], the port the socket gets, the host's name and addresses. *)
Record server_env := ServerEnv {
  se_socket : option sock; se_bind : Z; se_listen : Z; se_port : Z;
  se_hostname : option buffer; se_interface_ip : Z -> Z; se_returns : nat -> option Z }.

(** The server's [main] up to the wait for a connection: the descriptor it
    listens at and its printed name, or [None] when it exits. *)
Definition server_start (env : server_env) (arg : buffer) : MM (option (nat * buffer)) :=
  r ← mysocket (se_socket env);
  match r with
  | None => mret None
  | Some bindsd =>
      sin ← lift (st sa_family 0 AF_INET no_addr);
      sin ← lift (st sin_port 0 (htons (u16 (atoi arg))) sin);
      rc ← mybind bindsd sin (se_bind env);
      if rc <? 0 then mret None
      else
        rc ← mylisten bindsd 5 (se_port env) (se_listen env);
        if rc <? 0 then mret None
        else
          name ← local_name (se_hostname env) (se_interface_ip env) bindsd (se_port env);
          mret (Some (bindsd, name))
  end.

(** The rest of it: one connection is served, and the listening socket closed;
    the exit status. *)
Definition server_serve {memcpy : Memcpy} (env : server_env) (fuel : nat) (fs : filesystem) (bindsd : nat) : MM Z :=
  '(r, sin) ← myaccept bindsd;
  match r with
  | None => mret EXIT_FAILURE
  | Some sd =>
      family ← match sin with None => mret AF_INET | Some sin => lift (ld sa_family 0 sin) end;
      assertM (family =? AF_INET);;
      s ← get;
      let H := descriptor_conn sd (se_returns env) in
      s ← lift (do_connection fuel fs s);
      put s;;
      myclose 2 (se_returns env) bindsd;;
      mret 0
  end.
