(* ===== verification/FileTransferProps.v ===== *)
(** What the file transfer's programs do on any connection that keeps the
    promises of [ConnSpec], and that a mysocket's application side keeps them. *)
From S2P Require Import Prelude Sockets CString CStdio PacketQueue FileTransfer.

(** * What a connection promises *)

(** The bytes that will still come in, whether the stream then ends (otherwise a
    read waits), and what has been written. *)
Class ConnSpec (S : Type) `{Conn S} := {
  conn_open : S -> Prop;
  conn_in : S -> buffer;
  conn_ended : S -> bool;
  conn_out : S -> buffer;
  conn_read_spec : forall s n, conn_open s -> (0 < n)%nat ->
    (exists d s', conn_read s n = Ok (Some d, s') /\
       (conn_open s' /\ conn_ended s' = conn_ended s /\ conn_out s' = conn_out s) /\
       (length d <= n)%nat /\ conn_in s = d ++ conn_in s' /\
       (d = [] -> conn_in s = [] /\ conn_ended s = true)) \/
    (conn_read s n = Fault Blocked /\ conn_in s = [] /\ conn_ended s = false);
  conn_write_spec : forall s b, conn_open s ->
    exists s', conn_write s b = Ok (true, s') /\ conn_open s' /\
      conn_ended s' = conn_ended s /\ conn_in s' = conn_in s /\ conn_out s' = conn_out s ++ b;
  conn_close_spec : forall s, conn_open s -> exists s', conn_close s = Ok s' }.

(** ** Mysockets keep the promises *)

(** A line is read byte by byte, so that the rest of what has come is copied over
    itself each time: the promises are kept where the library's [memcpy] moves such
    bytes, and not otherwise (FileHazards). *)
Section app.
Context {memcpy : Memcpy}.

(** What a queue of nodes will give: an empty node is the end of the stream. *)
Fixpoint flow (q : packet_queue) : buffer :=
  match q with
  | [] => []
  | node :: q => match node with [] => [] | _ => node ++ flow q end
  end.
Fixpoint flow_ended (q : packet_queue) : bool :=
  match q with
  | [] => false
  | node :: q => match node with [] => true | _ => flow_ended q end
  end.
Definition app_in (a : app_side) : buffer := if as_eof a then [] else flow (as_send_queue a).
Definition app_ended (a : app_side) : bool := as_eof a || flow_ended (as_send_queue a).

Lemma flow_prefix q : flow q `prefix_of` concat q.
Proof.
  induction q as [|node q IH]; [done|]. cbn [flow concat]. destruct node as [|b node].
  - apply prefix_nil.
  - by apply prefix_app.
Qed.

Lemma flow_cons node q : node <> [] -> flow (node :: q) = node ++ flow q.
Proof. by destruct node. Qed.
Lemma flow_ended_cons node q : node <> [] -> flow_ended (node :: q) = flow_ended q.
Proof. by destruct node. Qed.

Lemma app_read_spec a n :
  memcpy_overlaps = true -> as_close_requested a = false -> (0 < n)%nat ->
  (exists d a', conn_read a n = Ok (Some d, a') /\
     (as_close_requested a' = false /\ app_ended a' = app_ended a /\
      concat (as_recv_queue a') = concat (as_recv_queue a)) /\
     (length d <= n)%nat /\ app_in a = d ++ app_in a' /\
     (d = [] -> app_in a = [] /\ app_ended a = true)) \/
  (conn_read a n = Fault Blocked /\ app_in a = [] /\ app_ended a = false).
Proof.
  intros Hm Hc Hn. cbn [conn_read app_conn]. unfold myread, app_in, app_ended. rewrite Hc.
  destruct (as_eof a) eqn:He.
  - left. exists [], a. rewrite He. cbn. repeat split; (done || lia).
  - destruct (as_send_queue a) as [|node q] eqn:Eq; [by right|left].
    unfold mysock_dequeue_buffer. rewrite Hm, andb_true_r, andb_false_r.
    destruct node as [|b node].
    { eexists [], _. split; [cbn; by destruct n|]. cbn. repeat split; (done || lia). }
    rewrite (flow_cons (b :: node)), (flow_ended_cons (b :: node)) by done.
    destruct (Nat.ltb_spec n (length (b :: node))) as [Hlt|Hge]; cbn [mbind res_bind mret res_ret].
    + assert (Hd : drop n (b :: node) <> []).
      { intros E%(f_equal length). rewrite length_drop in E. simpl in *. lia. }
      eexists _, _. split; [done|]. cbn [as_close_requested as_eof as_send_queue as_recv_queue].
      rewrite (proj2 (Nat.eqb_neq _ _)) by lia. rewrite flow_cons, flow_ended_cons by done.
      rewrite app_assoc, take_drop, length_take. split; [done|]. split; [lia|].
      split; [done|]. by destruct n; [lia|].
    + rewrite Nat.min_r, take_ge by lia. eexists _, _. split; [done|].
      cbn [as_close_requested as_eof as_send_queue as_recv_queue]. done.
Qed.

Lemma app_write_spec a b :
  as_close_requested a = false ->
  exists a', conn_write a b = Ok (true, a') /\ as_close_requested a' = false /\
    app_ended a' = app_ended a /\ app_in a' = app_in a /\
    concat (as_recv_queue a') = concat (as_recv_queue a) ++ b.
Proof.
  intros Hc. cbn. unfold mywrite. rewrite Hc. eexists. split; [done|]. cbn.
  split; [done|]. split; [done|]. split; [done|]. apply enqueue_stream.
Qed.

Lemma app_close_spec (a : app_side) :
  as_close_requested a = false -> exists a', conn_close a = Ok a'.
Proof. intros Hc. by eexists. Qed.

Definition app_spec (Hm : memcpy_overlaps = true) : ConnSpec app_side := {|
  conn_open a := as_close_requested a = false;
  conn_in := app_in;
  conn_ended := app_ended;
  conn_out a := concat (as_recv_queue a);
  conn_read_spec a n := app_read_spec a n Hm;
  conn_write_spec := app_write_spec;
  conn_close_spec := app_close_spec |}.

(** Reads are not disturbed by what arrives later: reading and then receiving is
    receiving and then reading. So what a program makes of a whole stream is what
    it makes of it as it arrives. *)
Lemma app_read_later a n d a' more :
  conn_read a n = Ok (d, a') ->
  let grown a := AppSide (as_recv_queue a) (as_send_queue a ++ more)
    (as_close_requested a) (as_eof a) in
  conn_read (grown a) n = Ok (d, grown a').
Proof.
  cbn [conn_read app_conn]. unfold myread. cbn [as_close_requested as_eof as_send_queue].
  destruct (as_close_requested a) eqn:Ec; [done|]. destruct (as_eof a) eqn:Ee.
  { cbn. intros [= <- <-]. by rewrite Ec, Ee. }
  destruct (as_send_queue a) as [|node q]; [done|]. cbn [app].
  unfold mysock_dequeue_buffer. destruct ((n <? length node)%nat && true);
    [destruct (_ && _); [done|]|]; cbn; intros [= <- <-]; done.
Qed.
End app.

(** * Lines *)

(** A text in which no line feed follows a carriage return. *)
Fixpoint no_crlf (last : Z) (l : buffer) : bool :=
  match l with
  | [] => true
  | c :: l => negb ((last =? CR) && (c =? LF)) && no_crlf c l
  end.

Lemma no_lf_no_crlf last l : LF ∉ l -> no_crlf last l = true.
Proof.
  revert last. induction l as [|c l IH]; intros last Hl; [done|].
  apply not_elem_of_cons in Hl as [Hc Hl]. cbn. rewrite IH by done.
  rewrite (proj2 (Z.eqb_neq c LF)) by congruence. by rewrite andb_false_r.
Qed.

Lemma no_crlf_snoc last l : no_crlf last l = true -> no_crlf last (l ++ [CR]) = true.
Proof.
  revert last. induction l as [|c l IH]; intros last; cbn.
  - intros _. by rewrite andb_false_r.
  - intros [-> H]%andb_true_iff. by apply IH.
Qed.

(** A line that a program can ask for or answer, in an array of [cap] bytes. *)
Definition line_ok (cap : nat) (l : buffer) : Prop :=
  c_string l /\ no_crlf 0 l = true /\ (length l + 2 <= cap)%nat.

#[export] Instance line_ok_dec cap l : Decision (line_ok cap l).
Proof. unfold line_ok, c_string. apply _. Defined.

Definition crlf (l : buffer) : buffer := l ++ [CR; LF].

Section programs.
Context {S : Type} `{ConnSpec S}.

(** A connection after reads that took nothing but input. *)
Definition read_from (s s' : S) : Prop :=
  conn_open s' /\ conn_ended s' = conn_ended s /\ conn_out s' = conn_out s.

Lemma read_from_trans s s1 s2 : read_from s s1 -> read_from s1 s2 -> read_from s s2.
Proof. intros (_ & A1 & A2) (B0 & B1 & B2). unfold read_from. by rewrite B1, B2. Qed.

(** What reading up to an end of line comes to when the input is part of
    [text ++ LF :: rest]: the line; a wait; or, at the end of the stream, what
    there was of it. *)
Lemma nvt_line_spec text rest fuel cap s line last_char :
  conn_open s -> no_crlf last_char text = true ->
  List.last (last_char :: text) 0 = CR ->
  (length line + length text < cap)%nat -> (cap < fuel + length line)%nat ->
  conn_in s `prefix_of` text ++ LF :: rest ->
  (exists s', nvt_line fuel cap s line last_char = Ok (Some (removelast (line ++ text)), s') /\
     read_from s s' /\ conn_in s = text ++ LF :: conn_in s') \/
  (nvt_line fuel cap s line last_char = Fault Blocked /\ conn_ended s = false /\
     (length (conn_in s) <= length text)%nat) \/
  (exists s', nvt_line fuel cap s line last_char = Ok (Some (line ++ conn_in s), s') /\
     read_from s s' /\ conn_in s' = [] /\ conn_ended s = true /\
     (length (conn_in s) <= length text)%nat).
Proof.
  revert fuel s line last_char. induction text as [|c text IH];
    intros fuel s line last_char Ho Hcr Hlast Hcap Hfuel Hpre.
  all: destruct fuel as [|fuel]; [cbn in *; lia|]; cbn [nvt_line].
  all: destruct (conn_read_spec s 1 Ho ltac:(lia))
    as [(d & s1 & E & Hs1 & Hd & Hin & Hend)|(E & Hin & Hend)]; rewrite E;
    [|right; left; rewrite Hin; cbn; repeat split; (done || lia)].
  all: cbn [mbind res_bind]; destruct d as [|x [|? ?]]; [|clear Hend|simpl in Hd; lia].
  all: try (destruct (Hend eq_refl) as [Hi He]; right; right; exists s1;
    rewrite (proj2 (Nat.ltb_lt _ _)) by (cbn in Hcap; lia);
    rewrite Hi in *; cbn [app] in Hin; rewrite app_nil_r; repeat split; try done;
    try apply Hs1; cbn; lia).
  - destruct Hpre as [k Hk]. rewrite Hin in Hk. injection Hk as <- _.
    left. exists s1. cbn [List.last] in Hlast. rewrite Hlast, app_nil_r, !Z.eqb_refl. done.
  - pose proof Hpre as [k Hk]. rewrite Hin in Hk. injection Hk as <- Hk.
    cbn in Hcr. apply andb_true_iff in Hcr as [Hc Hcr]. apply negb_true_iff in Hc. rewrite Hc.
    cbn in Hcap. rewrite (proj2 (Nat.ltb_lt _ _)) by lia.
    destruct (IH fuel s1 (line ++ [c]) c) as [(s' & E' & Hr & Hi)|[(E' & He & Hl)|(s' & E' & Hr & Hi & He & Hl)]].
    + apply Hs1.
    + done.
    + exact Hlast.
    + rewrite length_app. simpl. lia.
    + rewrite length_app. simpl. lia.
    + by exists k.
    + left. exists s'. rewrite <-app_assoc in E'. split; [exact E'|].
      split; [by apply (read_from_trans s s1)|]. by rewrite Hin, Hi.
    + right; left. rewrite Hin. destruct Hs1 as (_ & <- & _). cbn. split; [done|]. split; [done|lia].
    + right; right. exists s'. rewrite <-app_assoc in E'. rewrite Hin. split; [exact E'|].
      split; [by apply (read_from_trans s s1)|]. destruct Hs1 as (_ & <- & _).
      cbn. split; [done|]. split; [done|lia].
Qed.

(** The same for the string that a program gets. *)
Lemma get_nvt_line_spec l rest cap s :
  conn_open s -> line_ok cap l -> conn_in s `prefix_of` crlf l ++ rest ->
  (exists s', get_nvt_line cap s = Ok (Some l, s') /\ read_from s s' /\
     conn_in s = crlf l ++ conn_in s') \/
  (get_nvt_line cap s = Fault Blocked /\ conn_ended s = false /\
     (length (conn_in s) < length (crlf l))%nat) \/
  (exists s', get_nvt_line cap s = Ok (Some (conn_in s), s') /\ read_from s s' /\
     conn_in s' = [] /\ conn_ended s = true /\ (length (conn_in s) < length (crlf l))%nat).
Proof.
  intros Ho (Hl & Hcr & Hcap) Hpre. unfold get_nvt_line, crlf in *. rewrite length_app. cbn [length].
  assert (E : forall r, (l ++ [CR; LF]) ++ r = (l ++ [CR]) ++ LF :: r)
    by (intros r; by rewrite <-!app_assoc). rewrite E in Hpre.
  destruct (nvt_line_spec (l ++ [CR]) rest (Datatypes.S cap) cap s [] 0)
    as [(s' & R & Hr & Hi)|[(R & He & Hlen)|(s' & R & Hr & Hi & He & Hlen)]].
  - done.
  - by apply no_crlf_snoc.
  - change (0 :: l ++ [CR]) with ((0 :: l) ++ [CR]). apply last_last.
  - rewrite length_app. cbn. lia.
  - cbn. lia.
  - done.
  - left. exists s'. rewrite R. cbn [app mbind res_bind]. rewrite removelast_last.
    rewrite (c_str_app l []) by done. by rewrite E.
  - right; left. rewrite R. rewrite length_app in Hlen. cbn in Hlen. split; [done|]. split; [done|lia].
  - right; right. exists s'. rewrite R. cbn [app mbind res_bind].
    rewrite length_app in Hlen. cbn in Hlen. rewrite (c_str_app _ []).
    + split; [done|]. split; [done|]. split; [done|]. split; [done|lia].
    + assert (Hc : c_string (l ++ [CR; LF])) by (apply Forall_app; by repeat constructor).
      destruct Hpre as [k Hk]. rewrite <-E in Hk.
      apply (f_equal (take (length (conn_in s)))) in Hk. rewrite take_app_length in Hk.
      rewrite <-Hk, take_app_le by (rewrite length_app; cbn; lia). by apply Forall_take.
Qed.

(** * The server *)

(** A file that can be read to its end. *)
Definition file_ok (f : file) : Prop :=
  exists pieces, s_in (f_reads f) = pieces ++ [REof] /\ pieces_ok pieces.
Definition contents (f : file) : buffer := stream (s_in (f_reads f)).

(** What a request is answered. *)
Definition answer (fs : filesystem) (line : buffer) : buffer :=
  let '(resp, fd) := response fs line in
  resp ++ match fd with None => [] | Some f => contents f end.

Lemma send_file_ok fuel s fd pieces :
  conn_open s -> s_in fd = pieces ++ [REof] -> pieces_ok pieces ->
  (length (stream pieces) + length pieces < fuel)%nat ->
  exists s', send_file fuel s fd = Ok (true, s') /\ conn_open s' /\
    conn_ended s' = conn_ended s /\ conn_in s' = conn_in s /\
    conn_out s' = conn_out s ++ stream pieces.
Proof.
  revert s fd pieces. induction fuel as [|fuel IH]; intros s fd pieces Ho Hin Hp Hf; [lia|].
  cbn [send_file]. destruct pieces as [|e pieces].
  { unfold recv. rewrite Hin. cbn. exists s. by rewrite app_nil_r. }
  destruct (recv_piece fd RESP_SIZE (e :: pieces) [REof]) as (d & p' & E & Hd & _ & Hp' & Hs & Hl);
    [done|done|done|unfold RESP_SIZE; lia|].
  rewrite E. cbn [mbind res_bind]. destruct d as [|x d]; [done|].
  destruct (conn_write_spec s (x :: d) Ho) as (s1 & W & O1 & E1 & I1 & W1). rewrite W.
  cbn [mbind res_bind]. set (fd1 := Sock _ _ _ _).
  destruct (IH s1 fd1 p') as (s' & R & O2 & E2 & I2 & W2); [done|done|done|lia|].
  exists s'. rewrite R, E2, I2, W2, W1, Hs, <-app_assoc. done.
Qed.

Lemma response_length fs line :
  (length line <= 254)%nat -> (length (response fs line).1 < RESP_SIZE)%nat.
Proof.
  intros Hl. unfold response, RESP_SIZE. case_match; [|destruct (fs_open fs line) as [f|]].
  - cbn [fst]. rewrite !length_app. cbn. lia.
  - cbn [fst]. rewrite !length_app. cbn [length].
    assert (length (dec (u64 (f_end f))) <= 20)%nat.
    { apply length_dec; [|lia]. unfold u64.
      pose proof (Z.mod_pos_bound (f_end f) 18446744073709551616 ltac:(lia)).
      change (10 ^ Z.of_nat 20) with 100000000000000000000. lia. }
    change (length (str ",Ok")) with 3%nat. lia.
  - cbn [fst]. rewrite !length_app. cbn. lia.
Qed.

Lemma response_open fs line f : (response fs line).2 = Some f -> fs_open fs line = Some f.
Proof.
  unfold response. destruct (bool_decide (line = []) || negb (fs_access fs line)); [done|].
  destruct (fs_open fs line) as [g|]; [|done]. by intros [= ->].
Qed.

Lemma process_line_ok fs s line :
  conn_open s -> (length line <= 254)%nat ->
  (forall f, fs_open fs line = Some f -> file_ok f) ->
  exists s', process_line fs s line = Ok (true, s') /\ conn_open s' /\
    conn_ended s' = conn_ended s /\ conn_in s' = conn_in s /\
    conn_out s' = conn_out s ++ answer fs line.
Proof.
  intros Ho Hl Hf. unfold process_line, answer. pose proof (response_length fs line Hl) as Hr.
  destruct (response fs line) as [resp fd] eqn:Er. cbn [fst] in Hr.
  rewrite (proj2 (Nat.ltb_lt _ _)) by done. cbn [negb].
  destruct (conn_write_spec s resp Ho) as (s1 & W & O1 & E1 & I1 & W1). rewrite W.
  cbn [mbind res_bind negb]. destruct fd as [f|].
  - assert (Hfd : fs_open fs line = Some f) by (apply response_open; by rewrite Er).
    destruct (Hf f Hfd) as (pieces & Hin & Hp).
    destruct (send_file_ok (file_work (f_reads f)) s1 (f_reads f) pieces) as (s' & R & O2 & E2 & I2 & W2).
    + done.
    + done.
    + done.
    + unfold file_work. rewrite Hin, stream_app, !length_app. cbn. lia.
    + exists s'. unfold contents. rewrite R, E2, I2, W2, W1, Hin, stream_app. cbn.
      by rewrite app_nil_r, <-app_assoc.
  - exists s1. by rewrite app_nil_r.
Qed.

(** The requests that the server answers. *)
Definition request_ok (fs : filesystem) (line : buffer) : Prop :=
  line_ok SERVER_LINE line /\ line <> [] /\
  forall f, fs_open fs line = Some f -> file_ok f.

(** One turn of the server on a request that is there, or part of it. *)
Lemma do_request_ok fs s line rest :
  conn_open s -> request_ok fs line -> conn_in s = crlf line ++ rest ->
  exists s', do_request fs s = Ok (true, s') /\ conn_open s' /\
    conn_ended s' = conn_ended s /\ conn_in s' = rest /\
    conn_out s' = conn_out s ++ answer fs line.
Proof.
  intros Ho (Hl & Hne & Hf) Hin. unfold do_request.
  destruct (get_nvt_line_spec line rest SERVER_LINE s Ho Hl)
    as [(s1 & R & (O1 & E1 & W1) & Hi)|[(_ & _ & Hlen)|(s1 & _ & _ & _ & _ & Hlen)]].
  - by rewrite Hin.
  - rewrite R. cbn [mbind res_bind]. rewrite Hin in Hi. apply app_inv_head in Hi.
    destruct Hl as (_ & _ & Hcap). unfold SERVER_LINE in Hcap.
    destruct (process_line_ok fs s1 line O1) as (s' & P & O2 & E2 & I2 & W2); [lia|done|].
    destruct line as [|c line]; [done|]. exists s'. by rewrite P, E2, I2, W2, W1, Hi.
  - rewrite Hin, length_app in Hlen. lia.
  - rewrite Hin, length_app in Hlen. lia.
Qed.

(** Every request of a stream is answered, in order. *)
Lemma do_requests_ok fs s lines :
  conn_open s -> Forall (request_ok fs) lines -> conn_ended s = true ->
  conn_in s = concat (map crlf lines) ->
  exists s', do_requests (Datatypes.S (length lines)) fs s = Ok s' /\ conn_open s' /\
    conn_out s' = conn_out s ++ concat (map (answer fs) lines).
Proof.
  revert s. induction lines as [|line lines IH]; intros s Ho Hl He Hin.
  - cbn [length do_requests]. unfold do_request.
    destruct (get_nvt_line_spec [] [] SERVER_LINE s Ho)
      as [(s1 & R & _ & Hi)|[(_ & Hf & _)|(s1 & R & (O1 & _ & W1) & _)]].
    + split; [constructor|]. split; [done|]. unfold SERVER_LINE. cbn. lia.
    + rewrite Hin. apply prefix_nil.
    + rewrite Hin in Hi. done.
    + congruence.
    + rewrite R, Hin. cbn. exists s1. by rewrite W1, app_nil_r.
  - apply Forall_cons in Hl as [Hline Hl].
    destruct (do_request_ok fs s line (concat (map crlf lines)) Ho Hline Hin)
      as (s1 & R & O1 & E1 & I1 & W1).
    destruct (IH s1 O1 Hl) as (s' & R' & O2 & W2); [congruence|done|].
    exists s'. cbn [length do_requests] in *. rewrite R. cbn [mbind res_bind].
    rewrite R'. cbn [map concat]. by rewrite W2, W1, <-app_assoc.
Qed.

End programs.
