(* ===== verification/FileFetch.v ===== *)
(** The client of the file transfer: what it stores when it gets the server's
    answer, or a part of it, over any connection that keeps [ConnSpec]. *)
From S2P Require Import Prelude Sockets CString CStdio PacketQueue FileTransfer FileTransferProps.

(** An answer line: the name asked for, a field, and a remark. *)
Definition answer_line (name field remark : buffer) : buffer :=
  name ++ COMMA :: field ++ COMMA :: remark.

Lemma length_field_line name field remark :
  COMMA ∉ field -> COMMA ∉ remark -> length_field (answer_line name field remark) = Some field.
Proof.
  intros Hf Hr. unfold length_field, answer_line.
  change (name ++ COMMA :: field ++ COMMA :: remark)
    with (name ++ (COMMA :: field) ++ COMMA :: remark).
  rewrite app_assoc, strrchr_last, strrchr_last by done. done.
Qed.

(** With fewer than two commas there is no field. *)
Lemma length_field_one a b : COMMA ∉ a -> COMMA ∉ b -> length_field (a ++ COMMA :: b) = None.
Proof.
  intros Ha Hb. unfold length_field. rewrite strrchr_last by done.
  by rewrite (proj2 (strrchr_none a COMMA)).
Qed.
Lemma length_field_none a : COMMA ∉ a -> length_field a = None.
Proof. intros Ha. unfold length_field. by rewrite (proj2 (strrchr_none a COMMA)). Qed.

Lemma prefix_app_cases {A} (p l k : list A) :
  p `prefix_of` l ++ k -> p `prefix_of` l \/ exists r, p = l ++ r /\ r `prefix_of` k.
Proof.
  intros H. destruct (decide (length p <= length l)%nat) as [Hl|Hl].
  - left. destruct H as [r H]. exists (drop (length p) l).
    rewrite <-(take_drop (length p) l) at 1. f_equal.
    apply (f_equal (take (length p))) in H. by rewrite take_app_le, take_app_length in H.
  - right. destruct H as [r H]. exists (drop (length l) p). split.
    + rewrite <-(take_drop (length l) p) at 1. f_equal.
      apply (f_equal (take (length l))) in H. by rewrite take_app_length, take_app_le in H by lia.
    + exists r. apply (f_equal (drop (length l))) in H.
      by rewrite drop_app_length, drop_app_le in H by lia.
Qed.

Lemma prefix_not_in {A} (p l : list A) x : p `prefix_of` l -> x ∉ l -> x ∉ p.
Proof. intros [k ->] H Hx. apply H, elem_of_app. by left. Qed.

(** Part of an answer line, its end included, has no field, or the whole one. *)
Lemma length_field_partial name field remark p :
  COMMA ∉ name -> COMMA ∉ field -> COMMA ∉ remark ->
  p `prefix_of` crlf (answer_line name field remark) ->
  length_field p = None \/ length_field p = Some field.
Proof.
  intros Hn Hf Hr Hp. unfold crlf, answer_line in Hp.
  assert (E : (name ++ COMMA :: field ++ COMMA :: remark) ++ [CR; LF] =
    (name ++ [COMMA]) ++ (field ++ [COMMA]) ++ (remark ++ [CR; LF])).
  { by simplify_list_eq. }
  rewrite E in Hp.
  assert (Hone : forall l q, COMMA ∉ l -> q `prefix_of` l ++ [COMMA] ->
    COMMA ∉ q \/ q = l ++ [COMMA]).
  { intros l q Hl Hq. apply prefix_app_cases in Hq as [Hq|(r & -> & Hq)].
    - left. by eapply prefix_not_in.
    - destruct r as [|c r]; [left; by rewrite app_nil_r|right].
      apply prefix_cons_inv_1 in Hq as Hc. apply prefix_cons_inv_2, prefix_nil_inv in Hq.
      by subst. }
  apply prefix_app_cases in Hp as [Hp|(q & -> & Hq)].
  { left. destruct (Hone _ _ Hn Hp) as [Hc| ->]; [by apply length_field_none|].
    apply length_field_one; [done|apply not_elem_of_nil]. }
  apply prefix_app_cases in Hq as [Hq|(r & -> & Hr')].
  - rewrite <-app_assoc. cbn [app]. destruct (Hone _ _ Hf Hq) as [Hc| ->].
    + left. by apply length_field_one.
    + right. apply (length_field_line name field []); [done|apply not_elem_of_nil].
  - right. rewrite <-!app_assoc. cbn [app]. apply length_field_line; [done|].
    eapply prefix_not_in; [done|]. rewrite not_elem_of_app. split; [done|].
    rewrite !not_elem_of_cons. repeat split; try done. apply not_elem_of_nil.
Qed.

Section client.
Context {S : Type} `{ConnSpec S}.

Lemma fwrite_none data : fwrite_loop [] data = (data, false, []).
Proof. done. Qed.

(** Retrieving a file of which the input holds all, or a part. *)
Lemma receive_file_spec rest fuel quiet s data acc errcnd :
  conn_open s -> Z.of_nat (length data) < 2 ^ 31 -> (length data < fuel)%nat ->
  conn_in s `prefix_of` data ++ rest ->
  (exists s', receive_file fuel quiet s [] acc errcnd (Z.of_nat (length data)) =
       Ok (0, errcnd, s', acc ++ if quiet then [] else data) /\
     read_from s s' /\ conn_in s = data ++ conn_in s') \/
  (receive_file fuel quiet s [] acc errcnd (Z.of_nat (length data)) = Fault Blocked /\
     conn_ended s = false /\ (length (conn_in s) < length data)%nat) \/
  (exists k s' got, receive_file fuel quiet s [] acc errcnd (Z.of_nat (length data)) =
       Ok (k, errcnd, s', got) /\ 0 < k /\ read_from s s' /\ conn_in s' = [] /\
     conn_ended s = true /\ (length (conn_in s) < length data)%nat).
Proof.
  revert s data acc. induction fuel as [|fuel IH]; intros s data acc Ho Hl Hf Hpre; [lia|].
  cbn [receive_file]. destruct (Z.eqb_spec (Z.of_nat (length data)) 0) as [Hz|Hz].
  { left. exists s. destruct data; [|simpl in Hz; lia]. split; [|done].
    rewrite Hz. destruct quiet; by rewrite app_nil_r. }
  set (n := Z.to_nat (u64 (Z.min (Z.of_nat (length data)) (Z.of_nat CLIENT_LINE)))).
  assert (Hn : n = Nat.min (length data) CLIENT_LINE).
  { unfold n, CLIENT_LINE. rewrite u64_small by lia. lia. }
  assert (Hcl : (0 < CLIENT_LINE)%nat) by (unfold CLIENT_LINE; lia).
  destruct (conn_read_spec s n Ho) as [(d & s1 & E & Hs1 & Hd & Hin & Hend)|(E & Hin & Hend)];
    [lia| |]; rewrite E; cbn [mbind res_bind].
  2:{ right; left. rewrite Hin. simpl. split; [done|]. split; [done|lia]. }
  destruct d as [|x d].
  { destruct (Hend eq_refl) as [Hi He]. right; right. exists (Z.of_nat (length data)), s1, acc.
    assert (Hi1 : conn_in s1 = []) by (cbn in Hin; congruence). rewrite Hi.
    split; [done|]. split; [lia|]. split; [done|]. split; [done|]. split; [done|simpl; lia]. }
  clear Hend. set (got := x :: d) in *. assert (Hg : (0 < length got)%nat) by (unfold got; simpl; lia).
  rewrite (proj2 (Nat.ltb_ge _ _)) by lia.
  assert (Hpg : got `prefix_of` data ++ rest) by (rewrite Hin in Hpre; by eapply prefix_app_l).
  assert (Hdata : data = got ++ drop (length got) data).
  { destruct (prefix_app_cases _ _ _ Hpg) as [[k ->]|(r & Hr & _)].
    - by rewrite drop_app_length.
    - rewrite Hr, length_app in Hd. assert (r = []) as -> by (apply nil_length_inv; lia).
      rewrite app_nil_r in Hr. rewrite Hr. rewrite drop_all. by rewrite app_nil_r. }
  set (data' := drop (length got) data) in *.
  assert (Hlen : length data = (length got + length data')%nat)
    by (rewrite Hdata at 1; apply length_app).
  assert (Hto : (if Z.of_nat (length got) <? Z.min (Z.of_nat (length data)) (Z.of_nat CLIENT_LINE)
    then Z.of_nat (length got) else Z.min (Z.of_nat (length data)) (Z.of_nat CLIENT_LINE))
      = Z.of_nat (length got)) by (case_test; lia).
  rewrite Hto.
  assert (Hw : (if quiet then Ok ([], false, []) else
     if Z.of_nat (length got) <? 0 then Fault OutOfBounds
     else Ok (fwrite_loop [] (take (Z.to_nat (Z.of_nat (length got))) got))) =
     Ok (if quiet then [] else got, false, [] : list fwrite_event)).
  { destruct quiet; [done|]. rewrite (proj2 (Z.ltb_ge _ _)), Nat2Z.id, firstn_all by lia. done. }
  rewrite Hw. cbn [mbind res_bind]. rewrite orb_false_r.
  assert (Hi32 : i32 (Z.of_nat (length data) - Z.of_nat (length got)) = Z.of_nat (length data')).
  { unfold i32. rewrite u32_small by lia. case_test; lia. }
  rewrite Hi32.
  assert (Hpre' : conn_in s1 `prefix_of` data' ++ rest).
  { rewrite Hin, Hdata, <-app_assoc in Hpre. by apply prefix_app_inv in Hpre. }
  destruct (IH s1 data' (acc ++ if quiet then [] else got))
    as [(s' & R & Hr & Hi)|[(R & He & Hs)|(k & s' & g & R & Hk & Hr & Hi & He & Hs)]];
    [apply Hs1|lia|lia|done| | |]; rewrite R.
  - left. exists s'. split.
    + rewrite <-app_assoc. f_equal. f_equal. f_equal. destruct quiet; [done|by rewrite <-Hdata].
    + split; [by apply (read_from_trans s s1)|]. by rewrite Hdata, Hin, Hi, <-app_assoc.
  - right; left. rewrite Hin, length_app. destruct Hs1 as (_ & <- & _).
    split; [done|]. split; [done|lia].
  - right; right. exists k, s', g. rewrite Hin, length_app.
    split; [done|]. split; [done|]. split; [by apply (read_from_trans s s1)|].
    destruct Hs1 as (_ & <- & _). split; [done|]. split; [done|lia].
Qed.

End client.

(** ** The answer *)

(** A file whose size is the number of its bytes, and fits the client's [int]. *)
Definition sized (f : file) : Prop :=
  f_end f = Z.of_nat (length (contents f)) /\ f_end f < 2 ^ 31.

Definition answer_field (fs : filesystem) (name : buffer) : buffer :=
  match (response fs name).2 with None => str "-1" | Some f => dec (f_end f) end.
Definition answer_data (fs : filesystem) (name : buffer) : buffer :=
  match (response fs name).2 with None => [] | Some f => contents f end.

Lemma answer_shape fs name :
  (forall f, fs_open fs name = Some f -> sized f) ->
  exists remark, answer fs name =
      crlf (answer_line name (answer_field fs name) remark) ++ answer_data fs name /\
    (COMMA ∉ answer_field fs name) /\ (COMMA ∉ remark) /\
    Forall (fun c => 32 <= c < 127) (answer_field fs name ++ remark) /\
    (length (answer_field fs name) + length remark <= 40)%nat.
Proof.
  intros Hf. unfold answer, answer_field, answer_data, response, crlf, answer_line.
  destruct (bool_decide (name = []) || negb (fs_access fs name));
    [|destruct (fs_open fs name) as [f|] eqn:Ef]; cbn [snd].
  - exists (str "File does not exist or access denied"). split; [by simplify_list_eq|].
    repeat split; apply (bool_decide_unpack _); vm_compute; exact I.
  - destruct (Hf f eq_refl) as [Hsz Hmax]. exists (str "Ok").
    rewrite u64_small by lia. split; [by simplify_list_eq|].
    pose proof (dec_digits (f_end f) ltac:(lia)) as [Hd _].
    assert (Hr : Forall (fun c => 48 <= c <= 57) (dec (f_end f))).
    { eapply Forall_impl; [exact Hd|]. intros c Hc. unfold is_digit in Hc.
      apply andb_true_iff in Hc as [H1 H2]. lia. }
    assert (Hlen : (length (dec (f_end f)) <= 10)%nat).
    { apply length_dec; [|lia]. change (10 ^ Z.of_nat 10) with 10000000000. lia. }
    split; [|split; [|split]].
    + intros Hin. apply (proj1 (Forall_forall _ _) Hr) in Hin. unfold COMMA in Hin. lia.
    + apply (bool_decide_unpack _). vm_compute. exact I.
    + apply Forall_app. split; [eapply Forall_impl; [exact Hr|]; cbn; intros; lia|].
      apply (bool_decide_unpack _). vm_compute. exact I.
    + change (length (str "Ok")) with 2%nat. lia.
  - exists (str "File could not be opened"). split; [by simplify_list_eq|].
    repeat split; apply (bool_decide_unpack _); vm_compute; exact I.
Qed.

(** A name that can be asked for and answered. *)
Definition name_ok (fs : filesystem) (name : buffer) : Prop :=
  line_ok SERVER_LINE name /\ forall f, fs_open fs name = Some f -> sized f.

Lemma no_crlf_app last l k : no_crlf last l = true -> LF ∉ k -> no_crlf last (l ++ k) = true.
Proof.
  revert last. induction l as [|c l IH]; intros last; cbn; [intros _; apply no_lf_no_crlf|].
  intros [-> H']%andb_true_iff Hk. by apply IH.
Qed.

Lemma answer_line_ok fs name remark :
  name_ok fs name -> Forall (fun c => 32 <= c < 127) (answer_field fs name ++ remark) ->
  (length (answer_field fs name) + length remark <= 40)%nat ->
  line_ok CLIENT_LINE (answer_line name (answer_field fs name) remark).
Proof.
  intros ((Hc & Hcr & Hl) & _) Hp Hlen. unfold answer_line, SERVER_LINE, CLIENT_LINE in *.
  set (k := COMMA :: answer_field fs name ++ COMMA :: remark).
  assert (Hk : Forall (fun c => 32 <= c < 127) k).
  { apply Forall_app in Hp as [H1 H2]. unfold k, COMMA. constructor; [lia|].
    apply Forall_app. split; [done|]. constructor; [lia|done]. }
  split; [|split].
  - apply Forall_app. split; [done|]. eapply Forall_impl; [exact Hk|]. cbn. intros. lia.
  - apply no_crlf_app; [done|]. intros Hin. apply (proj1 (Forall_forall _ _) Hk) in Hin.
    unfold LF in Hin. lia.
  - unfold k. rewrite length_app. cbn [length]. rewrite length_app. cbn [length]. lia.
Qed.

Lemma scan_field fs name :
  (forall f, fs_open fs name = Some f -> sized f) ->
  scan_d (answer_field fs name) =
    Some (match (response fs name).2 with
          | None => -1
          | Some f => Z.of_nat (length (contents f))
          end).
Proof.
  intros Hf. unfold answer_field.
  destruct ((response fs name).2) as [f|] eqn:Er; [|reflexivity].
  destruct (Hf f (response_open fs name f Er)) as [Hs Hm]. rewrite <-Hs, <-(app_nil_r (dec (f_end f))).
  apply scan_d_dec; [lia|done].
Qed.

(** ** What is stored *)

(** The file the client writes: none when the request is refused. *)
Definition stored (quiet : bool) (fs : filesystem) (name : buffer) (old : option buffer)
  : option buffer :=
  match (response fs name).2 with
  | None => old
  | Some f => Some (if quiet then [] else contents f)
  end.

Section client.
Context {S : Type} `{ConnSpec S}.

(** From a field on: the file is retrieved when all of it comes in. *)
Lemma handle_answer_field quiet filename fs name line (c : client S) rest :
  (forall f, fs_open fs name = Some f -> sized f) ->
  length_field line = Some (answer_field fs name) -> conn_open (cl_conn c) ->
  cl_fopens c = [] -> conn_in (cl_conn c) `prefix_of` answer_data fs name ++ rest ->
  (exists e c', handle_answer quiet filename line c = Ok (e, c') /\
     e = match filename with
         | None => None
         | Some _ => Some (Returned (match (response fs name).2 with None => true | _ => false end))
         end /\
     cl_rcvd c' = stored quiet fs name (cl_rcvd c) /\ cl_stdin c' = cl_stdin c /\
     cl_fopens c' = [] /\ read_from (cl_conn c) (cl_conn c') /\
     conn_in (cl_conn c) = answer_data fs name ++ conn_in (cl_conn c')) \/
  (handle_answer quiet filename line c = Fault Blocked /\ conn_ended (cl_conn c) = false /\
     (length (conn_in (cl_conn c)) < length (answer_data fs name))%nat) \/
  (exists c', handle_answer quiet filename line c = Ok (Some Exited, c') /\
     conn_ended (cl_conn c) = true /\
     (length (conn_in (cl_conn c)) < length (answer_data fs name))%nat).
Proof.
  intros Hf Hline Ho Hfo Hpre. unfold handle_answer. rewrite Hline, scan_field by done.
  unfold stored, answer_data in *. destruct ((response fs name).2) as [f|] eqn:Er; cbn [cl_length with_length].
  2:{ left. change (-1 =? -1) with true. cbn iota. eexists _, _. split; [done|].
      destruct c; cbn in *. by destruct filename. }
  destruct (Hf f (response_open fs name f Er)) as [Hs Hm]. rewrite (proj2 (Z.eqb_neq _ _)) by lia.
  cbn [cl_fopens with_length]. rewrite Hfo. cbn [cl_conn with_fopens with_length].
  destruct (receive_file_spec rest (receive_fuel (Z.of_nat (length (contents f)))) quiet
    (cl_conn c) (contents f) [] false)
    as [(s' & R & Hr & Hi)|[(R & He & Hl)|(k & s' & g & R & Hk & (Ho' & _) & Hi & He & Hl)]].
  - done.
  - lia.
  - unfold receive_fuel. lia.
  - done.
  - left. rewrite R. cbn [mbind res_bind]. change (negb (0 =? 0)) with false. cbn iota.
    eexists _, _. split; [done|]. cbn. by destruct filename.
  - right; left. by rewrite R.
  - right; right. rewrite R. cbn [mbind res_bind].
    rewrite (proj2 (Z.eqb_neq _ _)) by lia. cbn [negb].
    destruct (conn_close_spec s' Ho') as [s2 E]. cbn. rewrite E. cbn. by eexists.
Qed.

(** Asking for one file by the option: when the whole answer comes in, the file is
    stored and the request was written; otherwise the client waits, or the
    stream ends too soon, and then no file counts as received that is not the
    whole of it. *)
Lemma fetch_cases quiet fs name (c : client S) rest :
  name_ok fs name -> conn_open (cl_conn c) -> cl_fopens c = [] ->
  conn_in (cl_conn c) `prefix_of` answer fs name ++ rest ->
  let short := (length (conn_in (cl_conn c)) < length (answer fs name))%nat in
  (exists e c', loop_until_end (prompts c) quiet (Some name) c = Ok (Returned e, c') /\
     e = (match (response fs name).2 with None => true | _ => false end) /\
     cl_rcvd c' = stored quiet fs name (cl_rcvd c) /\
     conn_open (cl_conn c') /\ conn_out (cl_conn c') = conn_out (cl_conn c) ++ crlf name /\
     conn_in (cl_conn c) = answer fs name ++ conn_in (cl_conn c')) \/
  (loop_until_end (prompts c) quiet (Some name) c = Fault Blocked /\
     conn_ended (cl_conn c) = false /\ short) \/
  (conn_ended (cl_conn c) = true /\ short /\
     (COMMA ∉ name -> exists e c', loop_until_end (prompts c) quiet (Some name) c = Ok (e, c') /\
        (conn_open (cl_conn c') \/ e = Exited) /\
        (e = Exited \/ cl_rcvd c' = cl_rcvd c \/ cl_rcvd c' = stored quiet fs name (cl_rcvd c)))).
Proof.
  intros [Hname Hf] Ho Hfo Hpre short. destruct (answer_shape fs name Hf) as (remark & Ha & Hfc & Hrc & Hp & Hl).
  unfold prompts. cbn [loop_until_end next_request].
  pose proof Hname as (_ & _ & Hlen). unfold SERVER_LINE in Hlen.
  rewrite (proj2 (Nat.ltb_lt (length name) CLIENT_LINE)) by (unfold CLIENT_LINE; lia). cbn [negb].
  unfold end_line. rewrite (proj2 (Nat.ltb_lt (length name + 2) CLIENT_LINE)) by (unfold CLIENT_LINE; lia).
  cbn [mbind res_bind mret res_ret]. fold (crlf name).
  destruct (conn_write_spec (cl_conn c) (crlf name) Ho) as (s1 & W & O1 & E1 & I1 & W1).
  rewrite W. cbn [mbind res_bind negb with_conn cl_conn].
  rewrite Ha, <-app_assoc, <-I1 in Hpre. unfold short. rewrite Ha, length_app, <-I1, <-E1.
  pose proof (answer_line_ok fs name remark (conj Hname Hf) Hp Hl) as Hok.
  destruct (get_nvt_line_spec _ _ CLIENT_LINE s1 O1 Hok Hpre)
    as [(s2 & R & Hr & Hi)|[(R & He & Hs)|(s2 & R & Hr & Hi & He & Hs)]]; rewrite R; cbn [mbind res_bind].
  - rewrite Hi in Hpre. apply prefix_app_inv in Hpre. set (c2 := with_conn _ s2).
    destruct (handle_answer_field quiet (Some name) fs name _ c2 rest Hf
      (length_field_line name _ remark Hfc Hrc)) as [(e & c' & E & He & Hrc' & _ & _ & Hr' & Hi')|[(E & He & Hs)|(c' & E & He & Hs)]].
    + apply Hr.
    + done.
    + done.
    + left. rewrite E, He. cbn [mbind res_bind]. eexists _, c'. split; [done|]. split; [done|].
      split; [done|]. split; [apply Hr'|]. destruct Hr as (_ & _ & H2), Hr' as (_ & _ & H3).
      split; [by rewrite H3; cbn; rewrite H2, W1|].
      rewrite Hi. cbn in Hi'. by rewrite Hi', <-app_assoc.
    + right; left. rewrite E. destruct Hr as (_ & H1 & _). cbn in He, Hs.
      split; [done|]. split; [congruence|]. rewrite Hi, length_app. lia.
    + right; right. destruct Hr as (_ & H1 & _). cbn in He, Hs.
      split; [congruence|]. split; [rewrite Hi, length_app; lia|]. intros _.
      rewrite E. cbn [mbind res_bind]. eexists _, _. split; [done|]. split; [by right|by left].
  - right; left. split; [done|]. split; [done|lia].
  - right; right. split; [done|]. split; [lia|]. intros Hcomma.
    assert (Hpart : conn_in s1 `prefix_of` crlf (answer_line name (answer_field fs name) remark)).
    { destruct (prefix_app_cases _ _ _ Hpre) as [Hq|(r & Hq & _)]; [done|].
      rewrite Hq, length_app in Hs. lia. }
    destruct (length_field_partial name _ remark _ Hcomma Hfc Hrc Hpart) as [Hn|Hn].
    { unfold handle_answer. rewrite Hn. cbn. eexists _, _. split; [done|]. cbn.
      split; [left; apply Hr|]. by right; left. }
    set (c2 := with_conn _ s2).
    destruct (handle_answer_field quiet (Some name) fs name _ c2 [] Hf Hn)
      as [(e & c' & E & He' & Hrc' & _ & _ & Hr' & Hi')|[(E & He' & Hs')|(c' & E & He' & Hs')]].
    + apply Hr.
    + done.
    + cbn. rewrite Hi. apply prefix_nil.
    + rewrite E, He'. cbn. eexists _, _. split; [done|]. split; [left; apply Hr'|]. by right; right.
    + destruct Hr as (_ & H1 & _). cbn in He'. congruence.
    + rewrite E. cbn. eexists _, _. split; [done|]. split; [by right|by left].
Qed.

End client.
