(* ===== verification/FileNet.v ===== *)
(** The file transfer end to end: the two programs together, over an orderly
    stream and over STCP connections on a network that loses, duplicates and
    reorders. *)
From S2P Require Import Prelude Sockets CString CStdio PacketQueue TcpSum Stcp StcpProps StcpNet FileTransfer FileTransferProps FileFetch.

(** The theorems of this file are about a [memcpy] that moves bytes over themselves:
    both programs read a line byte by byte, which copies what is left of a node over
    itself, and C leaves that undefined ([lines_overlap] of FileHazards). *)
Section transfers.
Context {memcpy : Memcpy}.

(** * The server *)

(** C36: The server answers every request of a stream, in order, however the stream
    is cut into reads: with the file's length and the file, whatever the sizes in
    which reading it gives its bytes, or with the reason why not. When the stream
    ends it closes the connection. The requests are those of the protocol that fit
    the server's array: of 1 to 254 bytes, without a NUL or a line's end in them, for
    files that can be read to their end; and [memcpy] is one that moves overlapping
    bytes. *)
Theorem server_answers fs a lines :
  memcpy_overlaps = true ->
  as_close_requested a = false -> Forall (request_ok fs) lines ->
  app_ended a = true -> app_in a = concat (map crlf lines) ->
  exists a', do_connection (S (length lines)) fs a = Ok a' /\
    as_close_requested a' = true /\
    concat (as_recv_queue a') = concat (as_recv_queue a) ++ concat (map (answer fs) lines).
Proof.
  intros Hm Hc Hl He Hin.
  destruct (do_requests_ok (S := app_side) (H0 := app_spec Hm) fs a lines Hc Hl He Hin) as (a' & R & _ & Ho).
  unfold do_connection. rewrite R. cbn. eexists. split; [done|]. split; [done|]. exact Ho.
Qed.

(** * Both programs *)

(** How the client's program ends, from how its loop does. *)
Lemma client_run_returned quiet filename (c c' : client app_side) e :
  loop_until_end (prompts c) quiet filename c = Ok (Returned e, c') ->
  as_close_requested (cl_conn c') = false ->
  exists c2, client_run quiet filename c = Ok (0, c2) /\ cl_rcvd c2 = cl_rcvd c' /\
    as_recv_queue (cl_conn c2) = as_recv_queue (cl_conn c').
Proof. intros E _. unfold client_run. rewrite E. cbn. by eexists. Qed.

(** C13: Both programs together: the client asks for a file and the server answers
    its request; from the answer, however it is cut on the way, the client stores
    exactly the file, whatever its bytes, or with the option -q an empty one, and
    exits with status 0. When the server refuses, no file is written. The client has
    written its request and nothing else. The name may have commas or carriage
    returns in it, but no NUL and no line's end, and has 1 to 254 bytes; the file can
    be read to its end, its length is the one [lseek] reports and is below 2^31; the
    client's calls of [fopen] and [fwrite] succeed; and [memcpy] moves overlapping
    bytes. *)
Theorem file_round_trip quiet fs name server client stdin rcvd rest :
  memcpy_overlaps = true ->
  request_ok fs name -> (forall f, fs_open fs name = Some f -> sized f) ->
  as_close_requested server = false -> app_in server = crlf name ++ rest ->
  as_recv_queue server = [] ->
  as_close_requested client = false -> as_recv_queue client = [] ->
  (forall server', do_request fs server = Ok (true, server') ->
     app_in client = concat (as_recv_queue server')) ->
  exists c, client_run quiet (Some name) (Client client stdin [] rcvd None) = Ok (0, c) /\
    cl_rcvd c = stored quiet fs name rcvd /\ concat (as_recv_queue (cl_conn c)) = crlf name.
Proof.
  intros Hm Hreq Hsz Hs Hin Hout Hc Hcout Hlink.
  destruct (do_request_ok (S := app_side) (H0 := app_spec Hm) fs server name rest Hs Hreq Hin) as (s' & R & _ & _ & _ & W).
  specialize (Hlink s' R). cbn in W. rewrite Hout in W. cbn in W. rewrite W in Hlink.
  destruct Hreq as (Hline & _).
  destruct (fetch_cases (H0 := app_spec Hm) quiet fs name (Client client stdin [] rcvd None) [])
    as [(e & c' & E & _ & Hr & Ho & Hw & _)|[(_ & _ & Hshort)|(_ & Hshort & _)]].
  - by split.
  - done.
  - done.
  - cbn. rewrite Hlink, app_nil_r. done.
  - destruct (client_run_returned _ _ _ _ _ E Ho) as (c2 & E2 & Hr2 & Hq2).
    exists c2. split; [done|]. rewrite Hr2, Hq2. split; [done|].
    cbn in Hw. rewrite Hcout in Hw. exact Hw.
  - exfalso. cbn in Hshort. rewrite Hlink in Hshort. lia.
  - exfalso. cbn in Hshort. rewrite Hlink in Hshort. lia.
Qed.

(** * Over STCP *)

Lemma open_not_requested p q :
  conn_reachable (p, q) -> p_closed q = false -> close_requested (p_end q) = false.
Proof.
  intros Hr Hc. destruct (reachable_inv _ Hr) as (_ & Hq & _).
  destruct (close_requested (p_end q)) eqn:E; [|done].
  pose proof (ei_close _ _ Hq E) as H. cbn in H. congruence.
Qed.

Lemma app_in_prefix a : app_in a `prefix_of` concat (as_send_queue a).
Proof. unfold app_in. destruct (as_eof a); [apply prefix_nil|apply flow_prefix]. Qed.

(** C4: A file transfer over STCP never stores a wrong file and calls it right.
    Whatever the network loses, duplicates and reorders, and wherever a FIN that
    overtook data cuts the stream: when the server's application has written some
    of its answer to the client's request, the client that reads what its
    connection has for it waits, or exits with an error, or has stored nothing,
    or has stored exactly the file (with the option -q, an empty one). When all of
    the answer is there, it has stored the file and exits with status 0. The name
    asked for has at most 254 bytes and no comma, NUL or line's end in it, the file's
    length is the one [lseek] reports and is below 2^31, the client's calls of
    [fopen] and [fwrite] succeed ([transfer_silent_errors] of FileHazards says what
    becomes of it otherwise), and [memcpy] moves overlapping bytes. *)
Theorem transfer_over_stcp quiet fs name stdin p q :
  memcpy_overlaps = true ->
  conn_reachable (p, q) -> p_closed q = false -> p_read q = [] ->
  name_ok fs name -> (COMMA ∉ name) -> p_written p `prefix_of` answer fs name ->
  match client_run quiet (Some name) (Client (app_of q) stdin [] None None) with
  | Ok (status, c) =>
      (cl_rcvd c = None \/ status = -1 \/ cl_rcvd c = stored quiet fs name None) /\
      (app_in (app_of q) = answer fs name -> status = 0 /\ cl_rcvd c = stored quiet fs name None)
  | Fault e => e = Blocked /\ app_in (app_of q) <> answer fs name
  end.
Proof.
  intros Hm Hreach Hcl Hrd Hname Hcomma Hw. destruct (stcp_stream p q Hreach) as [Hp _].
  rewrite Hrd in Hp. cbn [app] in Hp.
  assert (Hin : app_in (app_of q) `prefix_of` answer fs name ++ []).
  { rewrite app_nil_r. etrans; [apply app_in_prefix|]. by etrans. }
  destruct (fetch_cases (H0 := app_spec Hm) quiet fs name (Client (app_of q) stdin [] None None) [])
    as [(e & c' & E & _ & Hr & Ho & _)|[(E & _ & Hs)|(_ & Hs & Hres)]].
  - done.
  - exact (open_not_requested p q Hreach Hcl).
  - done.
  - exact Hin.
  - destruct (client_run_returned _ _ _ _ _ E Ho) as (c2 & E2 & Hr2 & _). rewrite E2, Hr2.
    split; [by right; right|done].
  - unfold client_run. rewrite E. cbn. split; [done|]. intros Heq. cbn in Hs. rewrite Heq in Hs. lia.
  - destruct (Hres Hcomma) as (e & c' & E & _ & Hcase). cbn in Hs, Hcase.
    assert (Hne : app_in (app_of q) <> answer fs name) by (intros Heq; rewrite Heq in Hs; lia).
    unfold client_run. rewrite E. cbn. destruct e as [e|]; cbn.
    + split; [|done]. destruct Hcase as [?|[?|?]]; [done|by left|by right; right].
    + split; [by right; left|done].
Qed.

End transfers.

(** * Runs *)

#[local] Existing Instance moving_memcpy.

(** A directory with one file of three bytes, which is read in two pieces. *)
Definition demo_file : file := File 3 (Sock [RData (str "h"); RData (str "i!"); REof] [] [] false).
Definition demo_fs : filesystem :=
  Filesystem (fun name => bool_decide (name = str "f"))
    (fun name => if decide (name = str "f") then Some demo_file else None).

Lemma demo_open name f : fs_open demo_fs name = Some f -> f = demo_file.
Proof. cbn [fs_open demo_fs]. destruct (decide (name = str "f")); congruence. Qed.

Lemma demo_file_ok : file_ok demo_file.
Proof. exists [RData (str "h"); RData (str "i!")]. split; [done|]. by repeat constructor. Qed.

Lemma demo_request name :
  bool_decide (line_ok SERVER_LINE name /\ name <> []) = true -> request_ok demo_fs name.
Proof.
  intros [H1 H2]%bool_decide_eq_true. split; [done|]. split; [done|].
  intros f ->%demo_open. apply demo_file_ok.
Qed.

Lemma demo_sized name f : fs_open demo_fs name = Some f -> sized f.
Proof. intros ->%demo_open. split; [reflexivity|by vm_compute]. Qed.

Lemma server_answers_witness :
  exists a', do_connection 3 demo_fs
      (AppSide [] [str "f"; [CR]; LF :: str "g"; [CR; LF]; []] false false) = Ok a' /\
    as_close_requested a' = true /\
    concat (as_recv_queue a') =
      crlf (str "f,3,Ok") ++ str "hi!" ++
      crlf (str "g,-1,File does not exist or access denied").
Proof.
  destruct (server_answers demo_fs (AppSide [] [str "f"; [CR]; LF :: str "g"; [CR; LF]; []] false false)
    [str "f"; str "g"]) as (a' & E & Hc & Ho).
  - reflexivity.
  - reflexivity.
  - apply Forall_cons. split; [apply demo_request; vm_compute; reflexivity|].
    apply Forall_singleton, demo_request. vm_compute. reflexivity.
  - reflexivity.
  - reflexivity.
  - exists a'. split; [exact E|]. split; [exact Hc|]. rewrite Ho. vm_compute. reflexivity.
Defined.

Definition demo_server : app_side := AppSide [] [str "f"; [CR]; [LF]] false false.
Definition demo_client : app_side :=
  AppSide [] [str "f,3,"; str "Ok" ++ [CR; LF]; str "hi"; str "!"] false false.

Lemma file_round_trip_witness :
  exists c, client_run false (Some (str "f")) (Client demo_client [] [] None None) = Ok (0, c) /\
    cl_rcvd c = Some (str "hi!") /\ concat (as_recv_queue (cl_conn c)) = crlf (str "f").
Proof.
  apply (file_round_trip false demo_fs (str "f") demo_server demo_client [] None []).
  - reflexivity.
  - apply demo_request. vm_compute. reflexivity.
  - apply demo_sized.
  - reflexivity.
  - reflexivity.
  - reflexivity.
  - reflexivity.
  - reflexivity.
  - intros s'. vm_compute. intros [= <-]. reflexivity.
Defined.

(** The server writes its answer in one piece; the segment arrives, and the client
    reads. *)
Definition demo_answer : buffer := answer demo_fs (str "f").
Definition demo_p1 : party :=
  Party (set_from_app (p_end run_p0) [demo_answer]) 1 demo_answer [] false false.
Definition demo_p : party := with_end demo_p1 (turn (p_end demo_p1)).
Definition demo_seg : buffer := List.last (ep_sent (p_end demo_p)) [].
Definition demo_q1 : party := arrive demo_seg run_q0.
Definition demo_q : party := with_end demo_q1 (turn (p_end demo_q1)).

Lemma demo_reachable : conn_reachable (demo_p, demo_q).
Proof.
  apply (reach_step (demo_p, demo_q1)); [apply (reach_step (demo_p, run_q0))|].
  - apply (reach_step (demo_p1, run_q0)).
    + apply (reach_step (run_p0, run_q0)); [apply run_reachable0|apply step_left].
      apply (step_write _ run_p0 demo_answer 11 (AppSide [demo_answer] [] false false));
        [reflexivity|apply (bool_decide_unpack _); vm_compute; exact I|by vm_compute|by vm_compute].
    + apply step_left, turn_step. vm_compute. reflexivity.
  - apply step_right, step_arrival. left. apply (bool_decide_unpack _). vm_compute. exact I.
  - apply step_right, turn_step. vm_compute. reflexivity.
Qed.

Lemma transfer_over_stcp_witness :
  exists c, client_run false (Some (str "f")) (Client (app_of demo_q) [] [] None None) = Ok (0, c) /\
    cl_rcvd c = Some (str "hi!").
Proof.
  pose proof (transfer_over_stcp false demo_fs (str "f") [] demo_p demo_q eq_refl demo_reachable
    ltac:(vm_compute; reflexivity) ltac:(vm_compute; reflexivity)) as H.
  destruct (client_run false (Some (str "f")) (Client (app_of demo_q) [] [] None None))
    as [[status c]|e] eqn:E.
  - destruct H as [_ H].
    + split; [apply (bool_decide_unpack _); vm_compute; exact I|apply demo_sized].
    + apply (bool_decide_unpack _). vm_compute. exact I.
    + vm_compute. by exists [].
    + destruct H as [-> Hr]; [vm_compute; reflexivity|]. exists c. split; [reflexivity|exact Hr].
  - exfalso. destruct H as [_ H].
    + split; [apply (bool_decide_unpack _); vm_compute; exact I|apply demo_sized].
    + apply (bool_decide_unpack _). vm_compute. exact I.
    + vm_compute. by exists [].
    + apply H. vm_compute. reflexivity.
Defined.
