(* ===== verification/FileStart.v ===== *)
(** The file transfer's programs on the mysockets of a process: a descriptor keeps
    the promises of [ConnSpec], and the programs' start-up. *)
From S2P Require Import Prelude Mem Sockets CString CStdio PacketQueue NetTcp HashTable Mysock Demux MysockApi DemuxRep DemuxProps FileTransfer FileTransferProps FileFetch FileNet.

(** * Descriptors are connections *)

Section descriptor.
Context {memcpy : Memcpy} (Hm : memcpy_overlaps = true).
Context (sd : nat) (returns : nat -> option Z) (err : Z).
Hypothesis Hreturns : returns sd = Some err.

#[local] Instance sd_conn : Conn mysocks := descriptor_conn sd returns.

(** A connection whose handshake has succeeded and that the application has not
    closed. *)
Record connected (c : mysock_context) : Prop := {
  cn_listening : mc_listening c = false;
  cn_closing : as_close_requested (mc_app c) = false;
  cn_blocking : mc_blocking c = false;
  cn_thread : mc_transport c = TRunning;
  cn_kind : mc_is_active c || bool_decide (mc_listen_sd c <> None) = true }.

Definition sd_open (s : mysocks) : Prop :=
  table_wf s /\ exists c, context_of s sd = Some c /\ connected c.
Definition sd_app (s : mysocks) : app_side :=
  match context_of s sd with Some c => mc_app c | None => AppSide [] [] true true end.

Lemma sd_step s c a :
  table_wf s -> context_of s sd = Some c -> connected c -> as_close_requested a = false ->
  sd_open (with_context s sd (fun c => set_app c a)) /\
  sd_app (with_context s sd (fun c => set_app c a)) = a.
Proof.
  intros Hw Hc [] Ha. unfold sd_open, sd_app.
  rewrite context_of_with, decide_True, Hc by done. cbn. split; [|done].
  split; [by apply with_context_wf|]. by eexists.
Qed.

(** A call on the descriptor is the call on its application side. *)
Lemma sd_read_eq s n c :
  table_wf s -> context_of s sd = Some c -> connected c ->
  conn_read s n =
    match conn_read (mc_app c) n with
    | Ok (d, a) => Ok (d, with_context s sd (fun c => set_app c a))
    | Fault e => Fault e
    end.
Proof.
  intros Hw Hc Hcn. cbn [conn_read sd_conn descriptor_conn app_conn]. unfold myread_on.
  rewrite (bind_ok _ _ _ _ _ (get_context_ok _ _ _ Hw Hc)), (cn_listening _ Hcn).
  destruct (myread (mc_app c) n) as [[[d k] a]|e] eqn:E.
  - exec. rewrite (bind_ok _ _ _ _ _ (upd_context_eq _ _ _)). done.
  - rewrite bind_lift_fault. done.
Qed.

Lemma sd_read_spec s n :
  sd_open s -> (0 < n)%nat ->
  (exists d s', conn_read s n = Ok (Some d, s') /\
     (sd_open s' /\ app_ended (sd_app s') = app_ended (sd_app s) /\
      concat (as_recv_queue (sd_app s')) = concat (as_recv_queue (sd_app s))) /\
     (length d <= n)%nat /\ app_in (sd_app s) = d ++ app_in (sd_app s') /\
     (d = [] -> app_in (sd_app s) = [] /\ app_ended (sd_app s) = true)) \/
  (conn_read s n = Fault Blocked /\ app_in (sd_app s) = [] /\ app_ended (sd_app s) = false).
Proof.
  intros (Hw & c & Hc & Hcn) Hn. rewrite (sd_read_eq s n c Hw Hc Hcn).
  assert (Ha : sd_app s = mc_app c) by (unfold sd_app; by rewrite Hc). rewrite Ha.
  destruct (app_read_spec (mc_app c) n Hm (cn_closing _ Hcn) Hn)
    as [(d & a & E & (O & Hen & Hout) & Hl & Hi & Hd)|(E & Hi & He)]; rewrite E; [left|by right].
  destruct (sd_step s c a Hw Hc Hcn O) as [Ho Happ].
  eexists d, _. split; [reflexivity|]. rewrite Happ. done.
Qed.

Lemma sd_write_spec s b :
  sd_open s -> exists s', conn_write s b = Ok (true, s') /\ sd_open s' /\
    app_ended (sd_app s') = app_ended (sd_app s) /\ app_in (sd_app s') = app_in (sd_app s) /\
    concat (as_recv_queue (sd_app s')) = concat (as_recv_queue (sd_app s)) ++ b.
Proof.
  intros (Hw & c & Hc & Hcn).
  assert (Ha : sd_app s = mc_app c) by (unfold sd_app; by rewrite Hc). rewrite Ha.
  destruct (app_write_spec (mc_app c) b (cn_closing _ Hcn)) as (a & E & O & He & Hi & Hout).
  destruct (sd_step s c a Hw Hc Hcn O) as [Ho Happ].
  exists (with_context s sd (fun c => set_app c a)). rewrite Happ. split; [|done].
  cbn [conn_write sd_conn descriptor_conn]. unfold mywrite_on.
  rewrite (bind_ok _ _ _ _ _ (get_context_ok _ _ _ Hw Hc)), (cn_listening _ Hcn).
  cbn [conn_write app_conn] in E. destruct (mywrite (mc_app c) b) as [[k a']|]; [|done].
  injection E as ->. reflexivity.
Qed.

Lemma sd_close_spec s : sd_open s -> exists s', conn_close s = Ok s'.
Proof.
  intros (Hw & c & Hc & []). cbn [conn_close sd_conn descriptor_conn].
  unfold myclose; fold myclose.
  rewrite (bind_ok _ _ _ _ _ (get_context_ok _ _ _ Hw Hc)). unfold request_close.
  rewrite (bind_ok _ _ _ _ _ (upd_context_eq _ _ _)). set (f1 := fun c => set_app c _).
  set (s1 := with_context s sd f1).
  assert (Hw1 : table_wf s1) by (by apply with_context_wf).
  assert (Hc1 : context_of s1 sd = Some (f1 c))
    by (unfold s1; by rewrite context_of_with, decide_True, Hc).
  assert (Hj : exists s2 c2, join_transport returns sd s1 = Ok (tt, s2) /\ table_wf s2 /\
    context_of s2 sd = Some c2).
  { unfold join_transport. rewrite (bind_ok _ _ _ _ _ (get_context_ok _ _ _ Hw1 Hc1)).
    cbn [mc_transport f1 set_app mc_listening mc_is_active mc_listen_sd].
    rewrite cn_thread0, cn_listening0, cn_kind0. cbn [negb]. exec. rewrite decide_True, Hreturns by done.
    unfold transport_thread_exit. rewrite bind_assoc, (bind_ok _ _ _ _ _ (get_context_ok _ _ _ Hw1 Hc1)).
    cbn [mc_blocking f1 set_app]. rewrite cn_blocking0. exec.
    rewrite (bind_ok _ _ _ _ _ (upd_context_eq _ _ _)), upd_context_eq.
    set (f2 := fun c => set_transport _ TDone). set (f3 := fun c => set_transport c TNone).
    eexists _, (f3 (f2 (f1 c))). split; [reflexivity|]. split.
    - apply with_context_wf; [|done]. by apply with_context_wf.
    - by rewrite !context_of_with, !decide_True, Hc1 by done. }
  destruct Hj as (s2 & c2 & Hj & Hw2 & Hc2). rewrite (bind_ok _ _ _ _ _ Hj).
  rewrite (bind_ok _ _ _ _ _ (upd_context_eq _ _ _)), cn_listening0. exec.
  set (f4 := fun c => set_receiver c false). set (s3 := with_context s2 sd f4).
  assert (Hw3 : table_wf s3) by (by apply with_context_wf).
  assert (Hc3 : context_of s3 sd = Some (f4 c2))
    by (unfold s3; by rewrite context_of_with, decide_True, Hc2).
  unfold mysock_free_context, close_network.
  rewrite bind_assoc, (bind_ok _ _ _ _ _ (get_context_ok _ _ _ Hw3 Hc3)). exec. by eexists.
Qed.

#[local] Instance sd_spec : ConnSpec mysocks := {|
  conn_open := sd_open;
  conn_in s := app_in (sd_app s);
  conn_ended s := app_ended (sd_app s);
  conn_out s := concat (as_recv_queue (sd_app s));
  conn_read_spec := sd_read_spec;
  conn_write_spec := sd_write_spec;
  conn_close_spec := sd_close_spec |}.

End descriptor.

(** * The server *)

(** The address [main] binds: any interface, and the port of the argument. *)
Definition listen_addr (port : Z) : buffer :=
  le_bytes 2 AF_INET ++ le_bytes 2 port ++ replicate 12 0.

Definition listen_context (sk : sock) (port : Z) : mysock_context :=
  MysockContext false (NetworkContext (listen_addr port) no_addr 0 (network_init sk)) true false
    0 None true 0 TNone false (AppSide [] [] false false) [].
Definition bound_process (sk : sock) (port : Z) : mysocks :=
  set_table init_mysocks (Some (listen_context sk port) :: replicate 63 None).

Lemma bound_fresh sk port : fresh_listener (bound_process sk port) 0.
Proof.
  assert (Hcx : forall sd c, context_of (bound_process sk port) sd = Some c ->
    sd = 0%nat /\ mc_my_sd c = 0%nat /\ mc_listen_sd c = None).
  { intros sd c. unfold context_of. destruct sd as [|sd].
    - intros [= <-]. done.
    - change (global_ctx (bound_process sk port) !! S sd)
        with (replicate 63 (@None mysock_context) !! sd).
      destruct (replicate 63 (@None mysock_context) !! sd) as [x|] eqn:E; [|done].
      by apply lookup_replicate in E as [-> _]. }
  split.
  - done.
  - intros sd c H. by destruct (Hcx sd c H) as (-> & -> & _).
  - eexists. split; [reflexivity|]. done.
  - exists ∅. split; [apply empty_represents|done].
  - intros sd c H. by destruct (Hcx sd c H) as (_ & _ & ->).
Qed.

(** The server's start-up: from a new process, when the calls of the system
    succeed, [main] comes to wait for a connection at descriptor 0, which is a
    listener with an empty backlog of the six connections that [mylisten] with 5
    keeps room for, of the 63 descriptors left; and it prints the host's name and
    the port the system gave. *)
Theorem server_starts env arg sk host :
  se_socket env = Some sk -> se_hostname env = Some host -> (length host <= 100)%nat ->
  se_bind env = 0 -> se_listen env = 0 ->
  0 < ntohs (se_port env) -> 0 <= se_port env < 65536 ->
  exists s, server_start env arg init_mysocks =
      Ok (Some (0%nat, host ++ [58] ++ dec (ntohs (se_port env))), s) /\
    demux_rep 0 s (Backlog 6 63 ∅ []).
Proof.
  intros Hsk Hhost Hlen Hbind Hlisten Hport Hp. unfold server_start. rewrite Hsk, Hbind, Hlisten.
  destruct (mylisten_starts (bound_process sk (htons (u16 (atoi arg)))) 0 5 (se_port env)
    (bound_fresh sk _) ltac:(lia) ltac:(lia)) as (s & c & E & Hrep & Hc & _ & Hc0).
  specialize (Hc0 _ eq_refl). exists s. split; [|exact Hrep].
  transitivity ((rc ← mylisten 0 5 (se_port env) 0;
    if rc <? 0 then mret None
    else
      name ← local_name (se_hostname env) (se_interface_ip env) 0 (se_port env);
      mret (Some (0%nat, name))) (bound_process sk (htons (u16 (atoi arg))))); [reflexivity|].
  rewrite (bind_ok _ _ _ _ _ E). change (0 <? 0) with false. cbn iota.
  unfold local_name, mygetsockname. rewrite !bind_assoc.
  rewrite (bind_ok _ _ _ _ _ (get_context_ok _ _ _ (dr_wf _ _ _ Hrep) Hc)).
  rewrite Hc0, Hhost. cbn [mc_net set_receiver set_listening listen_context nc_local_addr].
  change (ld sa_family 0 (listen_addr (htons (u16 (atoi arg))))) with (Ok AF_INET : res Z). exec.
  set (a0 := listen_addr _).
  assert (E1 : st sa_family 0 AF_INET a0 = Ok a0) by reflexivity. rewrite E1. exec.
  assert (E2 : st sin_port 0 (se_port env) a0 = Ok (listen_addr (se_port env))) by reflexivity.
  rewrite E2. exec. cbn [nc_tcp network_init tc_peer_valid]. exec.
  assert (E3 : ld sin_port 0 (listen_addr (se_port env)) = Ok (se_port env)).
  { transitivity (Ok (le_val (le_bytes 2 (se_port env))) : res Z); [reflexivity|].
    rewrite le_val_le_bytes, Z.mod_small; [done|]. exact Hp. }
  rewrite E3. exec.
  assert (Hd : (length (dec (ntohs (se_port env))) <= 5)%nat).
  { apply length_dec; [|lia]. pose proof (bswap_range 2 (se_port env)) as Hr.
    change (256 ^ Z.of_nat 2) with 65536 in Hr. change (10 ^ Z.of_nat 5) with 100000. lia. }
  rewrite (proj2 (Nat.ltb_lt _ _)) by (rewrite !length_app; cbn [length]; lia). done.
Qed.

(** The server at a descriptor of the process: what [server_answers] says of a
    mysocket's application side holds of the calls on the descriptor, and closing
    it ends, as long as the transport thread does. *)
Lemma descriptor_answers {memcpy : Memcpy} sd returns err fs s lines :
  memcpy_overlaps = true ->
  returns sd = Some err -> sd_open sd s -> Forall (request_ok fs) lines ->
  app_ended (sd_app sd s) = true -> app_in (sd_app sd s) = concat (map crlf lines) ->
  let H := descriptor_conn sd returns in
  exists s' s'', do_requests (S (length lines)) fs s = Ok s' /\
    concat (as_recv_queue (sd_app sd s')) =
      concat (as_recv_queue (sd_app sd s)) ++ concat (map (answer fs) lines) /\
    do_connection (S (length lines)) fs s = Ok s''.
Proof.
  intros Hm Hret Ho Hl He Hin H. subst H.
  destruct (do_requests_ok (H0 := sd_spec Hm sd returns err Hret) fs s lines Ho Hl He Hin)
    as (s' & R & Ho' & Hout).
  destruct (conn_close_spec (ConnSpec := sd_spec Hm sd returns err Hret) s' Ho') as [s'' Hc].
  unfold sd_conn in *.
  exists s', s''. split; [exact R|]. split; [exact Hout|].
  unfold do_connection. rewrite R. exact Hc.
Qed.

(** * The client's address *)

Definition sockaddr_in (port addr : Z) : buffer :=
  le_bytes 2 AF_INET ++ le_bytes 2 port ++ le_bytes 4 addr ++ replicate 8 0.

(** A host and a port, as they are written, give their socket address; a port that
    does not fit 16 bits is cut to them. *)
Lemma parse_address_ok inet_addr gethostbyname host port :
  58 ∉ host -> 0 <= port < 4294967296 -> inet_addr host <> INADDR_NONE ->
  parse_address inet_addr gethostbyname (host ++ 58 :: dec port) =
    Ok (Some (sockaddr_in (htons (u16 port)) (inet_addr host))).
Proof.
  intros Hh Hp Ha. unfold parse_address. rewrite index_skip by done. cbn [tail].
  assert (Hs : scan_u (dec port) = Some port).
  { pose proof (strtol_dec port [] ltac:(lia) I) as [H1 H2]. rewrite app_nil_r in H1, H2.
    unfold scan_u. rewrite H1, H2. cbn [fst]. by rewrite u32_small by lia. }
  rewrite Hs, (proj2 (Z.eqb_neq _ _) Ha). reflexivity.
Qed.

(** Without a port, or with one that is a multiple of 2^16, the client exits with a
    message before it opens a socket. *)
Lemma client_no_port {memcpy : Memcpy} inet_addr gethostbyname env quiet filename host stdin fopens s :
  58 ∉ host -> inet_addr host <> INADDR_NONE ->
  client_main inet_addr gethostbyname env quiet filename host stdin fopens s =
    Ok ((EXIT_FAILURE, None), s) /\
  forall k, 0 <= k < 65536 ->
    client_main inet_addr gethostbyname env quiet filename (host ++ 58 :: dec (65536 * k))
      stdin fopens s = Ok ((EXIT_FAILURE, None), s).
Proof.
  intros Hh Ha. split.
  - unfold client_main, parse_address. rewrite index_none by done.
    rewrite (proj2 (Z.eqb_neq _ _) Ha). reflexivity.
  - intros k Hk. unfold client_main. rewrite parse_address_ok by (done || lia).
    replace (u16 (65536 * k)) with 0 by (unfold u16; by rewrite Z.mul_comm, Z.mod_mul).
    reflexivity.
Qed.

Lemma server_starts_witness :
  exists s, server_start (ServerEnv (Some (Sock [] [] [] false)) 0 0 (htons 8080)
      (Some (str "host")) (fun _ => 0) (fun _ => None)) (str "8080") init_mysocks =
      Ok (Some (0%nat, str "host:8080"), s) /\
    demux_rep 0 s (Backlog 6 63 ∅ []).
Proof.
  apply (server_starts (ServerEnv (Some (Sock [] [] [] false)) 0 0 (htons 8080)
    (Some (str "host")) (fun _ => 0) (fun _ => None)) (str "8080") (Sock [] [] [] false) (str "host")).
  - reflexivity.
  - reflexivity.
  - cbn. lia.
  - reflexivity.
  - reflexivity.
  - reflexivity.
  - split; [discriminate|reflexivity].
Defined.
