(* ===== verification/FileHazards.v ===== *)
(** Inputs on which the file transfer's programs go wrong. *)
From S2P Require Import Prelude Sockets CString CStdio PacketQueue FileTransfer FileTransferProps FileFetch FileNet.

Section programs.
Context {S : Type} `{ConnSpec S}.

(** A line longer than the array is stored past its end. *)
Lemma nvt_line_overflow text rest fuel cap s line last_char :
  conn_open s -> no_crlf last_char text = true -> (length line <= cap)%nat ->
  (cap < length line + length text)%nat -> (cap < fuel + length line)%nat ->
  conn_in s = text ++ rest ->
  nvt_line fuel cap s line last_char = Fault OutOfBounds.
Proof.
  revert fuel s line last_char. induction text as [|c text IH];
    intros fuel s line last_char Ho Hcr Hle Hcap Hfuel Hin; cbn [length] in Hcap; [lia|].
  cbn [app] in Hin. destruct fuel as [|fuel]; [lia|]. cbn [nvt_line].
  destruct (conn_read_spec s 1 Ho ltac:(lia)) as [(d & s1 & E & Hs1 & Hd & Hi & Hend)|(_ & Hi & _)];
    [|congruence]. rewrite E. cbn [mbind res_bind].
  destruct d as [|x [|? ?]]; [destruct (Hend eq_refl) as [Hn _]; congruence| |simpl in Hd; lia].
  rewrite Hi in Hin. injection Hin as -> Hin.
  cbn in Hcr. apply andb_true_iff in Hcr as [Hc Hcr]. apply negb_true_iff in Hc. rewrite Hc.
  destruct (Nat.ltb_spec (length line) cap); [|done].
  apply (IH fuel s1); [apply Hs1|done|rewrite length_app; simpl; lia..|done].
Qed.

(** A peer that sends 257 bytes before an end of line writes past the server's
    buffer. *)
Lemma server_overflow fs s text rest :
  conn_open s -> no_crlf 0 text = true -> (SERVER_LINE < length text)%nat ->
  conn_in s = text ++ rest -> do_request fs s = Fault OutOfBounds.
Proof.
  intros Ho Hcr Hl Hin. unfold do_request, get_nvt_line.
  rewrite (nvt_line_overflow text rest) by (done || (cbn [length]; lia)). done.
Qed.

(** A stream that ends inside a request: what there was of it is served. *)
Lemma cut_request fs s part :
  conn_open s -> line_ok SERVER_LINE part -> conn_in s = part -> conn_ended s = true ->
  part <> [] -> (forall f, fs_open fs part = Some f -> file_ok f) ->
  exists s', do_request fs s = Ok (true, s') /\ conn_out s' = conn_out s ++ answer fs part.
Proof.
  intros Ho Hl Hin He Hne Hf. unfold do_request.
  destruct (get_nvt_line_spec part [] SERVER_LINE s Ho Hl)
    as [(s1 & _ & _ & Hi)|[(_ & Hn & _)|(s1 & R & (O1 & _ & W1) & _)]].
  - rewrite Hin, app_nil_r. by apply prefix_app_r.
  - rewrite Hin in Hi. apply (f_equal length) in Hi. unfold crlf in Hi.
    rewrite !length_app in Hi. simpl in Hi. lia.
  - congruence.
  - rewrite R, Hin. cbn [mbind res_bind]. destruct Hl as (_ & _ & Hcap). unfold SERVER_LINE in Hcap.
    destruct (process_line_ok fs s1 part O1) as (s' & P & _ & _ & _ & W); [lia|done|].
    destruct part as [|c part]; [done|]. exists s'. by rewrite P, W, W1.
Qed.

(** A negative length that is not -1: the first bytes that come in make the client
    write an enormous amount from its buffer. *)
Lemma negative_length filename line lenstr n (c : client S) b rest :
  length_field line = Some lenstr -> scan_d lenstr = Some n -> -2147483648 <= n < -1 ->
  conn_open (cl_conn c) -> cl_fopens c = [] -> conn_in (cl_conn c) = b :: rest ->
  handle_answer false filename line c = Fault OutOfBounds.
Proof.
  intros Hl Hn Hneg Ho Hfo Hin. unfold handle_answer. rewrite Hl, Hn. cbn [cl_length with_length].
  rewrite (proj2 (Z.eqb_neq n (-1))) by lia. cbn [cl_fopens with_length]. rewrite Hfo.
  cbn [cl_conn with_fopens with_length]. unfold receive_fuel. cbn [receive_file].
  rewrite (proj2 (Z.eqb_neq n 0)) by lia. rewrite Z.min_l by lia.
  set (size := Z.to_nat (u64 n)).
  assert (Hsz : (0 < size)%nat).
  { unfold size. assert (u64 n = n + 18446744073709551616) as ->; [|lia].
    unfold u64. rewrite <-(Z_mod_plus_full n 1), Z.mod_small by lia. lia. }
  clearbody size.
  destruct (conn_read_spec (cl_conn c) size Ho Hsz) as [(d & s1 & E & _ & _ & Hi & Hend)|(_ & Hi & _)];
    [|congruence]. rewrite E. cbn [mbind res_bind].
  destruct d as [|x d]; [destruct (Hend eq_refl); congruence|].
  destruct (CLIENT_LINE <? length (x :: d))%nat; [done|].
  rewrite (proj2 (Z.ltb_ge _ n)) by lia.
  rewrite (proj2 (Z.ltb_lt n 0)) by lia. done.
Qed.

(** A line of 998 characters at the prompt, the longest [fgets] reads with its
    newline, leaves no room for CRLF and NUL. *)
Lemma prompt_overflow (c : client S) l rest :
  Forall (fun x => x <> 0 /\ is_space x = false) l -> length l = 998%nat ->
  cl_stdin c = l ++ 10 :: rest -> next_request None c = Fault OutOfBounds.
Proof.
  intros Hl Hlen Hin. unfold next_request. rewrite Hin, fgets_line.
  - assert (Hc : c_string (l ++ [10])).
    { apply Forall_app. split; [|by repeat constructor]. eapply Forall_impl; [exact Hl|]. by intros x []. }
    rewrite (c_str_app _ []) by done. cbn [mbind res_bind].
    rewrite strip_end_app.
    + rewrite Hlen. cbn [Nat.leb]. unfold end_line. rewrite Hlen. done.
    + by repeat constructor.
    + destruct l as [|x l _] using rev_ind; [done|]. rewrite last_snoc.
      apply Forall_app in Hl as [_ Hl]. by apply Forall_singleton in Hl as [_ Hl].
  - intros Hx. apply (proj1 (Forall_forall _ _) Hl) in Hx as [_ Hx]. done.
  - unfold CLIENT_LINE. lia.
Qed.

(** A name of one character at the prompt is ignored. *)
Lemma one_letter_ignored (c : client S) x rest :
  x <> 0 -> is_space x = false -> cl_stdin c = x :: 10 :: rest ->
  next_request None c = Ok (Some None, with_stdin c rest).
Proof.
  intros Hx Hs Hin. unfold next_request. rewrite Hin.
  change (x :: 10 :: rest) with ([x] ++ 10 :: rest).
  rewrite (fgets_line CLIENT_LINE [x] rest); [| |unfold CLIENT_LINE; simpl; lia].
  - cbn [app c_str]. rewrite (proj2 (Z.eqb_neq x 0)) by done. cbn. rewrite Hs. done.
  - intros Hl%list_elem_of_singleton. subst x. discriminate Hs.
Qed.

End programs.

Section mysockets.
Context {memcpy : Memcpy}.

(** Without a [memcpy] that moves bytes over themselves no line can be read from a
    node of three bytes or more: the first byte leaves two, which are moved by one. *)
Lemma lines_overlap cap a node rest :
  memcpy_overlaps = false -> as_close_requested a = false -> as_eof a = false ->
  as_send_queue a = node :: rest -> (3 <= length node)%nat ->
  get_nvt_line cap a = Fault Overlap.
Proof.
  intros Hm Hc He Hq Hl. unfold get_nvt_line. cbn [nvt_line conn_read app_conn].
  unfold myread. by rewrite Hc, He, Hq, dequeue_overlap by (done || lia).
Qed.

(** C39: Lengths that the programs do not check, on every input of the kind: more than
    256 bytes without an end of line make the server write past its array; a line
    of 998 characters at the prompt leaves no room for CRLF and NUL in the
    client's; a negative length other than -1 in an answer makes the client read
    far past its array, as soon as a byte of the file comes in. The first and the last
    are about a [memcpy] that moves overlapping bytes; the line at the prompt needs
    none. *)
Theorem transfer_overflows :
  (memcpy_overlaps = true -> forall fs a text rest, as_close_requested a = false -> no_crlf 0 text = true ->
     (256 < length text)%nat -> app_in a = text ++ rest ->
     do_request fs a = Fault OutOfBounds) /\
  (forall (c : client app_side) l rest, Forall (fun x => x <> 0 /\ is_space x = false) l ->
     length l = 998%nat -> cl_stdin c = l ++ 10 :: rest ->
     next_request None c = Fault OutOfBounds) /\
  (memcpy_overlaps = true ->
     forall filename name remark n (c : client app_side) b rest, -2147483648 <= n < -1 ->
     (COMMA ∉ remark) -> as_close_requested (cl_conn c) = false -> cl_fopens c = [] ->
     app_in (cl_conn c) = b :: rest ->
     handle_answer false filename (answer_line name (dec_signed n) remark) c = Fault OutOfBounds).
Proof.
  split; [|split].
  - intros Hm fs a text rest. apply (server_overflow (S := app_side) (H0 := app_spec Hm)).
  - intros c l rest. apply prompt_overflow.
  - intros Hm filename name remark n c b rest Hn Hr Hc Hfo Hin.
    unfold dec_signed. rewrite (proj2 (Z.ltb_lt n 0)) by lia.
    destruct (dec_digits (- n) ltac:(lia)) as [Hd Hne].
    apply (negative_length (S := app_side) (H0 := app_spec Hm) filename _ (45 :: dec (- n)) n c b rest); try done.
    + apply length_field_line; [|done]. intros [Hx|Hx]%elem_of_cons; [done|].
      apply (proj1 (Forall_forall _ _) Hd) in Hx. done.
    + pose proof (digits_dec (- n) [] ltac:(lia) I) as Hv. rewrite app_nil_r in Hv.
      unfold scan_d, starts_number, strtol. cbn [skip_space]. change (is_space 45) with false.
      cbn iota. change ((45 =? 45) || (45 =? 43)) with true. change (45 =? 45) with true. cbn iota.
      rewrite Hv. destruct (dec (- n)) as [|d s]; [done|].
      apply Forall_cons in Hd as [-> _]. rewrite Z.opp_involutive.
      rewrite Z.gtb_ltb, (proj2 (Z.ltb_ge _ _)), (proj2 (Z.ltb_ge n _)) by lia. cbn [fst].
      unfold i32, u32. rewrite <-(Z_mod_plus_full n 1), Z.mod_small by lia.
      rewrite (proj2 (Z.ltb_ge _ _)) by lia. f_equal. lia.
Qed.

Lemma scan_wraps m : 0 < m < 2 ^ 30 -> scan_d (dec (4294967296 * m)) = Some 0.
Proof.
  intros Hm. rewrite <-(app_nil_r (dec _)). destruct (strtol_dec (4294967296 * m) []) as [H1 H2];
    [lia|done|]. unfold scan_d. rewrite H2, H1. cbn [fst]. unfold i32, u32.
  by rewrite Z.mul_comm, Z.mod_mul.
Qed.

(** What goes wrong without being noticed, the exit status being 0: a file whose
    length is a multiple of 2^32 arrives as an empty one; what a call of [fwrite]
    does not take of a read, after an error or in part, is missing from the
    stored file; a request that the end of the stream cuts short is served as if
    it were whole; a name of one letter typed at the prompt is ignored. *)
Theorem transfer_silent_errors :
  (forall filename nm remark m (c : client app_side), 0 < m < 2 ^ 30 -> (COMMA ∉ remark) ->
     cl_fopens c = [] ->
     exists c', handle_answer false (Some filename) (answer_line nm (dec (4294967296 * m)) remark) c =
         Ok (Some (Returned false), c') /\ cl_rcvd c' = Some []) /\
  (forall filename nm remark data event (c : client app_side), (COMMA ∉ remark) -> data <> [] ->
     (length data <= 1000)%nat -> cl_fopens c = [Some [event]] ->
     cl_conn c = AppSide [] [data] false false ->
     match event with FErr err => err <> EINTR | FWrote _ => True end ->
     exists c', handle_answer false (Some filename)
         (answer_line nm (dec (Z.of_nat (length data))) remark) c =
         Ok (Some (Returned (match event with FErr _ => true | FWrote _ => false end)), c') /\
       cl_rcvd c' =
         Some (match event with FErr _ => [] | FWrote more => take (S more) data end)) /\
  (memcpy_overlaps = true -> forall fs a part, as_close_requested a = false -> line_ok SERVER_LINE part -> app_in a = part ->
     app_ended a = true -> part <> [] -> (forall f, fs_open fs part = Some f -> file_ok f) ->
     exists a', do_request fs a = Ok (true, a') /\
       concat (as_recv_queue a') = concat (as_recv_queue a) ++ answer fs part) /\
  (forall (c : client app_side) x rest, x <> 0 -> is_space x = false ->
     cl_stdin c = x :: 10 :: rest -> next_request None c = Ok (Some None, with_stdin c rest)).
Proof.
  assert (Hcomma : forall n, 0 <= n -> COMMA ∉ dec n).
  { intros n Hn Hx. destruct (dec_digits n Hn) as [Hd _].
    apply (proj1 (Forall_forall _ _) Hd) in Hx. done. }
  split; [|split; [|split]].
  - intros filename nm remark m c Hm Hr Hfo. unfold handle_answer.
    rewrite length_field_line, scan_wraps by (try apply Hcomma; (done || lia)).
    cbn [cl_length with_length]. change (0 =? -1) with false. cbn iota.
    cbn [cl_fopens with_length]. rewrite Hfo. cbn. by eexists.
  - intros filename nm remark data event c Hr Hne Hl Hfo Hconn Hev. unfold handle_answer.
    destruct (Z.of_nat (length data)) as [|n'|n'] eqn:En; [by destruct data| |lia].
    set (n := Z.pos n') in *. assert (Hn : 0 < n) by done. clearbody n.
    pose proof (scan_d_dec n [] ltac:(lia) I) as Hs. rewrite app_nil_r in Hs.
    rewrite length_field_line, Hs by (try apply Hcomma; (done || lia)).
    cbn [cl_length with_length]. rewrite (proj2 (Z.eqb_neq n (-1))) by lia.
    cbn [cl_fopens with_length]. rewrite Hfo. cbn [cl_conn with_fopens with_length].
    rewrite Hconn. unfold receive_fuel. cbn [receive_file].
    rewrite (proj2 (Z.eqb_neq n 0)) by lia.
    assert (Hread : conn_read (AppSide [] [data] false false)
        (Z.to_nat (u64 (Z.min n (Z.of_nat CLIENT_LINE)))) =
      Ok (Some data, AppSide [] [] false false)).
    { unfold CLIENT_LINE. rewrite u64_small, Z.min_l by lia. rewrite <-En, Nat2Z.id.
      cbn [conn_read app_conn]. unfold myread. cbn [as_close_requested as_eof as_send_queue].
      unfold mysock_dequeue_buffer. rewrite Nat.ltb_irrefl, Nat.min_id, firstn_all.
      cbn [andb mbind res_bind mret res_ret]. destruct data; done. }
    rewrite Hread. cbn [mbind res_bind]. destruct data as [|x d] eqn:Ed; [done|]. rewrite <-Ed in *.
    rewrite (proj2 (Nat.ltb_ge _ _)) by (unfold CLIENT_LINE; lia).
    rewrite Z.min_l, En, Z.ltb_irrefl by (unfold CLIENT_LINE; lia).
    rewrite (proj2 (Z.ltb_ge n 0)), Z.sub_diag by lia. rewrite <-En, Nat2Z.id, firstn_all.
    destruct event as [more|err]; cbn [fwrite_loop].
    + cbn. by eexists.
    + rewrite (proj2 (Z.eqb_neq err EINTR)) by done. cbn. by eexists.
  - intros Hm fs a part. apply (cut_request (S := app_side) (H0 := app_spec Hm)).
  - intros c x rest. apply one_letter_ignored.
Qed.

End mysockets.

#[local] Existing Instance moving_memcpy.

Lemma transfer_overflows_witness :
  do_request demo_fs (AppSide [] [replicate 200 65; replicate 100 65] false false) =
      Fault OutOfBounds /\
  next_request None (Client (AppSide [] [] false false) (replicate 998 65 ++ [10]) [] None None) =
      Fault OutOfBounds /\
  handle_answer false None (answer_line (str "f") (str "-5") (str "Ok"))
    (Client (AppSide [] [str "hi"] false false) [] [] None None) = Fault OutOfBounds.
Proof.
  destruct transfer_overflows as (H1 & H2 & H3). split; [|split].
  - apply (H1 eq_refl _ _ (replicate 300 65) []); [reflexivity|reflexivity|cbn; lia|reflexivity].
  - apply (H2 _ (replicate 998 65) []); [|reflexivity|reflexivity].
    apply (bool_decide_unpack _). vm_compute. exact I.
  - apply (H3 eq_refl None (str "f") (str "Ok") (-5) _ 104 [105]);
      [lia|apply (bool_decide_unpack _); vm_compute; exact I|reflexivity..].
Defined.

Lemma transfer_silent_errors_witness :
  (exists c', handle_answer false (Some (str "f")) (answer_line (str "f") (str "4294967296") (str "Ok"))
       (Client (AppSide [] [] false false) [] [] None None) = Ok (Some (Returned false), c') /\
     cl_rcvd c' = Some []) /\
  (exists c', handle_answer false (Some (str "f")) (answer_line (str "f") (str "3") (str "Ok"))
       (Client (AppSide [] [str "hi!"] false false) [] [Some [FErr 28]] None None) =
       Ok (Some (Returned true), c') /\ cl_rcvd c' = Some []) /\
  (exists a', do_request demo_fs (AppSide [] [str "f"; []] false false) = Ok (true, a') /\
     concat (as_recv_queue a') = crlf (str "f,3,Ok") ++ str "hi!") /\
  next_request None (Client (AppSide [] [] false false) (str "f" ++ [10]) [] None None) =
    Ok (Some None, Client (AppSide [] [] false false) [] [] None None).
Proof.
  destruct transfer_silent_errors as (H1 & H2 & H3 & H4). split; [|split; [|split]].
  - apply (H1 (str "f") (str "f") (str "Ok") 1); [lia| |reflexivity].
    apply (bool_decide_unpack _). vm_compute. exact I.
  - apply (H2 (str "f") (str "f") (str "Ok") (str "hi!") (FErr 28));
      [apply (bool_decide_unpack _); vm_compute; exact I|done|cbn; lia|reflexivity|reflexivity|done].
  - destruct (H3 eq_refl demo_fs (AppSide [] [str "f"; []] false false) (str "f")) as (a' & E & Ho);
      [reflexivity|apply (bool_decide_unpack _); vm_compute; exact I|reflexivity|reflexivity|done| |].
    + intros f ->%demo_open. apply demo_file_ok.
    + exists a'. split; [exact E|]. rewrite Ho. vm_compute. reflexivity.
  - apply (H4 (Client (AppSide [] [] false false) (str "f" ++ [10]) [] None None) 102 []);
      [done|reflexivity|reflexivity].
Defined.

Lemma lines_overlap_witness :
  get_nvt_line (H := app_conn (memcpy := strict_memcpy)) 256 (AppSide [] [str "f" ++ [CR; LF]] false false)
    = Fault Overlap.
Proof.
  apply (lines_overlap (memcpy := strict_memcpy) 256 _ (str "f" ++ [CR; LF]) []);
    [reflexivity..|cbn; lia].
Defined.
