(* ===== verification/FramedNet.v ===== *)
(** STCP connections over the network they really use: each end's segments go into
    a TCP stream as frames (NetTcp), and the other end's receive thread takes
    them out. Such a network is one of those of StcpNet, and an orderly one. *)
From S2P Require Import Prelude PacketQueue NetTcp TcpSum Stcp StcpProps StcpNet Sockets.

Section framed.
Context {memcpy : Memcpy}.

(** * Packets that have not arrived whole *)

Lemma tcp_read_short fuel s count acc :
  pieces_ok (s_in s) -> (length acc + length (stream (s_in s)) < count)%nat ->
  (length (stream (s_in s)) < fuel)%nat -> tcp_read fuel s count acc = Fault Blocked.
Proof.
  revert s acc. induction fuel as [|fuel IH]; intros s acc Hp Hn Hf; [lia|].
  cbn [tcp_read]. rewrite (proj2 (Nat.ltb_lt _ _)) by lia.
  destruct (s_in s) as [|e l] eqn:El; [unfold recv; by rewrite El|].
  destruct (recv_piece s (count - length acc) (e :: l) []) as (d & l' & E & Hd & _ & Hl & Hst & _);
    [by rewrite app_nil_r|done|done|lia|]. rewrite app_nil_r in E. rewrite E. cbn [mbind res_bind].
  destruct d as [|x d]; [done|]. rewrite Hst, length_app in Hn, Hf. cbn [length] in Hn, Hf.
  apply IH; cbn [s_in]; [done|rewrite length_app; cbn [length]; lia|lia].
Qed.

(** Reading a packet of which a part has arrived waits for the rest. *)
Lemma recv_packet_short p s :
  carried p -> pieces_ok (s_in s) -> stream (s_in s) `prefix_of` frame p ->
  (length (stream (s_in s)) < length (frame p))%nat ->
  recv_packet s MAX_IP_PAYLOAD_LEN = Fault Blocked.
Proof.
  intros Hc Hp [rest Hpre] Hl. pose proof Hc as Hc'. unfold carried, MAX_IP_PAYLOAD_LEN in Hc'.
  unfold recv_packet, tcp_io_read. destruct (decide (length (stream (s_in s)) < 2)%nat) as [H2|H2].
  { rewrite tcp_read_short by (done || (cbn [length]; lia)). done. }
  destruct (tcp_read_ok (s_in s) [] 3 s 2 []) as (s1 & E1 & l1 & H1 & O1 & T1 & _);
    [by rewrite app_nil_r|done|cbn; lia|cbn; lia|cbn; lia|]. rewrite app_nil_r in H1.
  cbn [length app Nat.sub] in E1, T1. rewrite E1, res_bind_ok.
  change (Z.of_nat 2 <=? 0) with false. cbn iota.
  set (l2 := be_bytes 2 (Z.of_nat (length p))).
  assert (Hl2 : length l2 = 2%nat) by (unfold l2, be_bytes; by rewrite length_rev, length_le_bytes).
  assert (Ht : take 2 (stream (s_in s)) = l2).
  { apply (f_equal (take 2)) in Hpre. unfold frame in Hpre. fold l2 in Hpre.
    rewrite (take_app_le l2), (take_ge l2), take_app_le in Hpre by lia. done. }
  assert (Hv : ntohs (le_val l2) = Z.of_nat (length p)).
  { unfold l2. rewrite <-le_bytes_bswap, le_val_le_bytes, Z.mod_small by apply (bswap_range 2).
    apply bswap_bswap. change (256 ^ Z.of_nat 2) with 65536. lia. }
  rewrite Ht, Hv, Nat2Z.id, Nat.min_l by (unfold MAX_IP_PAYLOAD_LEN; lia). unfold tcp_io_read.
  assert (Hl1 : length (stream l1) = (length (stream (s_in s)) - 2)%nat)
    by (by rewrite T1, length_drop).
  rewrite length_frame in Hl.
  rewrite tcp_read_short; [done|by rewrite H1|rewrite H1; cbn [length]; lia|rewrite H1; lia].
Qed.

(** What arrived of a stream of frames: a wait, or the first of them. *)
Lemma recv_packet_frames s pending r data s' :
  Forall carried pending -> pieces_ok (s_in s) ->
  stream (s_in s) `prefix_of` concat (map frame pending) ->
  recv_packet s MAX_IP_PAYLOAD_LEN = Ok (r, data, s') ->
  exists rest, pending = data :: rest /\ r = Z.of_nat (length data) /\ pieces_ok (s_in s') /\
    (length (stream (s_in s)) - length (stream (s_in s')) = length (frame data))%nat.
Proof.
  intros Hc Hp Hpre E. destruct pending as [|p pending].
  { apply prefix_nil_inv in Hpre. rewrite recv_packet_short with (p := [0]) in E; [done| |done| |].
    - split; unfold MAX_IP_PAYLOAD_LEN; cbn; lia.
    - rewrite Hpre. apply prefix_nil.
    - rewrite Hpre, length_frame. cbn. lia. }
  apply Forall_cons in Hc as [Hcp Hc]. cbn [map concat] in Hpre.
  destruct (decide (length (stream (s_in s)) < length (frame p))%nat) as [Hl|Hl].
  { rewrite (recv_packet_short p) in E; [done|done|done| |done].
    destruct Hpre as [k Hk]. exists (drop (length (stream (s_in s))) (frame p)).
    apply (f_equal (take (length (frame p)))) in Hk.
    rewrite take_app_length, take_app_ge in Hk by lia. rewrite Hk.
    by rewrite drop_app_length. }
  assert (Hst : stream (s_in s) = frame p ++ drop (length (frame p)) (stream (s_in s))).
  { destruct Hpre as [k Hk]. rewrite <-(take_drop (length (frame p)) (stream (s_in s))) at 1. f_equal.
    apply (f_equal (take (length (frame p)))) in Hk.
    rewrite take_app_length, take_app_le in Hk by lia. done. }
  destruct (recv_packet_ok p (drop (length (frame p)) (stream (s_in s))) (s_in s) [] s) as (s2 & E2 & l & Hl2 & Hp2 & Hst2);
    [by rewrite app_nil_r|done|done|exact Hst|]. rewrite app_nil_r in Hl2.
  rewrite E2 in E. injection E as <- <- <-. exists pending.
  split; [done|]. split; [done|]. rewrite Hl2. split; [done|].
  rewrite Hst2, length_drop. lia.
Qed.

(** * Stations *)

(** An end of a connection with its end of the TCP stream: how many bytes of the
    peer's stream its receive thread has taken, and what packets it has made of
    them. *)
Record station := Station {
  sn_party : party; sn_tcp : tcp_context; sn_taken : nat; sn_got : list buffer }.

Definition sn_end (p : station) : endpoint := p_end (sn_party p).
Definition written_by (p : station) : buffer := s_out (tc_socket (sn_tcp p)).

(** What [p] has written and [q] has not taken. *)
Definition on_wire (p q : station) : buffer := drop (sn_taken q) (written_by p).

(** A packet put into the queue for the transport thread. *)
Definition queue_packet (p : party) (data : buffer) : party :=
  with_end p (set_net (p_end p) (mysock_enqueue_buffer (network_recv_queue (p_end p)) data)).

(** The steps of a station whose peer is [q]: a turn of its transport thread, with
    the segments that it sends written to the stream; its receive thread gets a
    packet out of what has arrived, in whatever pieces; the stream ends; a call
    of the application. *)
Inductive station_step (q p : station) : station -> Prop :=
| turn_sends e' segs connects tcp' :
    done (ep_ctx (sn_end p)) = false -> control_step (sn_end p) = Ok (tt, e') ->
    ep_sent e' = ep_sent (sn_end p) ++ segs ->
    can_send connects (length (concat (map frame segs))) (sn_tcp p) ->
    send_packets connects (sn_tcp p) segs = Ok tcp' ->
    station_step q p (Station (with_end (sn_party p) e') tcp' (sn_taken p) (sn_got p))
| packet_arrives s r data s' :
    pieces_ok (s_in s) -> stream (s_in s) `prefix_of` on_wire q p ->
    recv_packet s MAX_IP_PAYLOAD_LEN = Ok (r, data, s') -> 0 < r ->
    station_step q p (Station (queue_packet (sn_party p) data) (sn_tcp p)
      (sn_taken p + (length (stream (s_in s)) - length (stream (s_in s')))) (sn_got p ++ [data]))
| stream_ends :
    station_step q p (Station (queue_packet (sn_party p) []) (sn_tcp p) (sn_taken p) (sn_got p))
| application p' :
    party_step (sn_party q) (sn_party p) p' -> ep_sent (p_end p') = ep_sent (sn_end p) ->
    network_recv_queue (p_end p') = network_recv_queue (sn_end p) ->
    station_step q p (Station p' (sn_tcp p) (sn_taken p) (sn_got p)).

Inductive stations_step : station * station -> station * station -> Prop :=
| stations_left p p' q : station_step q p p' -> stations_step (p, q) (p', q)
| stations_right p q q' : station_step p q q' -> stations_step (p, q) (p, q').

(** A station at the end of the handshake, whose segments have crossed. *)
Definition station_at (isn : Z) (e peer : endpoint) (tcp : tcp_context) : station :=
  Station (party_at isn e) tcp (length (concat (map frame (ep_sent peer)))) (ep_sent peer).

Inductive stations_reachable : station * station -> Prop :=
| stations_open isn_a isn_b a b a' b' tcp_a tcp_b :
    fresh isn_a a -> fresh isn_b b -> linked a b ->
    app_recv_queue a = [] -> app_send_queue a = [] ->
    app_recv_queue b = [] -> app_send_queue b = [] ->
    open_connection a b = Ok (true, a', b') ->
    s_out (tc_socket tcp_a) = concat (map frame (ep_sent a')) ->
    s_out (tc_socket tcp_b) = concat (map frame (ep_sent b')) ->
    stations_reachable (station_at isn_a a' b' tcp_a, station_at isn_b b' a' tcp_b)
| stations_more c c' : stations_reachable c -> stations_step c c' -> stations_reachable c'.

(** One direction: what has been sent is what has been received and what is on the
    wire, frame by frame. *)
Definition wire_inv (p q : station) : Prop :=
  exists pending, ep_sent (sn_end p) = sn_got q ++ pending /\
    on_wire p q = concat (map frame pending) /\ (sn_taken q <= length (written_by p))%nat.

Definition stations_inv (c : station * station) : Prop :=
  conn_reachable (sn_party c.1, sn_party c.2) /\ wire_inv c.1 c.2 /\ wire_inv c.2 c.1.

(** Everything that the ends of a connection send can be carried. *)
Lemma sent_carried p q :
  conn_reachable (p, q) -> Forall carried (ep_sent (p_end p)) /\ Forall carried (ep_sent (p_end q)).
Proof.
  intros Hr. destruct (reachable_inv _ Hr) as (Hp & Hq & _).
  assert (H : forall g e, end_inv g e -> Forall carried (ep_sent e)).
  { intros g e He. eapply Forall_impl; [apply (ei_sent _ _ He)|].
    intros s (v & [Hl Hm _ _ _ _ _ _ _ _] & _). unfold STCP_MSS in Hm.
    unfold carried, MAX_IP_PAYLOAD_LEN. lia. }
  split; by eapply H.
Qed.

Lemma queue_packet_step q p data :
  data ∈ ep_sent (p_end q) \/ data = [] -> party_step q p (queue_packet p data).
Proof. apply step_arrival. Qed.

(** The packets that arrive next are the ones on the wire. *)
Lemma arrival_next p q s r data s' :
  wire_inv q p -> Forall carried (ep_sent (sn_end q)) ->
  pieces_ok (s_in s) -> stream (s_in s) `prefix_of` on_wire q p ->
  recv_packet s MAX_IP_PAYLOAD_LEN = Ok (r, data, s') ->
  data ∈ ep_sent (sn_end q) /\
  exists pending, ep_sent (sn_end q) = (sn_got p ++ [data]) ++ pending /\
    drop (sn_taken p + (length (stream (s_in s)) - length (stream (s_in s')))) (written_by q) =
      concat (map frame pending) /\
    (sn_taken p + (length (stream (s_in s)) - length (stream (s_in s'))) <=
       length (written_by q))%nat.
Proof.
  intros (pending & Hsent & Hwire & Htaken) Hcar Hp Hpre E. rewrite Hwire in Hpre.
  rewrite Hsent in Hcar. apply Forall_app in Hcar as [_ Hcar].
  destruct (recv_packet_frames s pending r data s' Hcar Hp Hpre E) as (rest & -> & _ & _ & Hlen).
  rewrite Hsent. split; [apply elem_of_app; right; by left|].
  exists rest. split; [by rewrite <-app_assoc|].
  unfold on_wire in Hwire. cbn [map concat] in Hwire. rewrite Hlen. split.
  - rewrite <-drop_drop, Hwire. by rewrite drop_app_length.
  - apply (f_equal length) in Hwire. rewrite length_drop, length_app in Hwire.
    rewrite length_frame in *. lia.
Qed.

Lemma station_step_inv q p p' :
  Forall carried (ep_sent (sn_end q)) -> wire_inv p q -> wire_inv q p -> station_step q p p' ->
  (sn_party p' = sn_party p \/ party_step (sn_party q) (sn_party p) (sn_party p')) /\
  (Forall carried (ep_sent (sn_end p')) -> wire_inv p' q /\ wire_inv q p').
Proof.
  intros Hcar Hpq Hqp.
  destruct 1 as [e' segs connects tcp' Hd E Hs Hcan Hsend|s r data s' Hp Hpre E Hr0| |party' Hst Hs Hn].
  - split; [right; by apply step_turn|]. unfold sn_end. cbn [sn_party with_end p_end]. intros Hc.
    rewrite Hs in Hc. apply Forall_app in Hc as [_ Hc].
    destruct (send_packets_ok connects segs (sn_tcp p) Hcan Hc) as (c2 & E2 & Hout).
    rewrite Hsend in E2. injection E2 as <-. split; [|exact Hqp].
    destruct Hpq as (pending & H1 & H2 & H3). exists (pending ++ segs).
    unfold sn_end, written_by, on_wire, written_by in *. cbn [sn_party with_end p_end sn_tcp].
    rewrite Hs, H1, Hout, <-app_assoc, map_app, concat_app, length_app.
    split; [done|]. split; [by rewrite drop_app_le, H2 by done|lia].
  - destruct (arrival_next p q s r data s' Hqp Hcar Hp Hpre E) as (Hin & pending & H1 & H2 & H3).
    split; [right; apply queue_packet_step; by left|]. intros _. split; [exact Hpq|].
    by exists pending.
  - split; [right; apply queue_packet_step; by right|]. by intros _.
  - split; [by right|]. intros _. unfold wire_inv, sn_end in *. cbn [sn_party].
    by rewrite Hs.
Qed.

Lemma stations_step_inv c c' : stations_inv c -> stations_step c c' -> stations_inv c'.
Proof.
  intros (Hr & H1 & H2). destruct (sent_carried _ _ Hr) as [Hc1 Hc2].
  destruct 1 as [p p' q Hs|p q q' Hs]; cbn [fst snd] in *.
  - destruct (station_step_inv q p p' Hc2 H1 H2 Hs) as [Hp Hw].
    assert (Hr' : conn_reachable (sn_party p', sn_party q)).
    { destruct Hp as [->|Hp]; [done|]. eapply reach_step; [exact Hr|]. by apply step_left. }
    split; [exact Hr'|]. apply Hw, (sent_carried _ _ Hr').
  - destruct (station_step_inv p q q' Hc1 H2 H1 Hs) as [Hq Hw].
    assert (Hr' : conn_reachable (sn_party p, sn_party q')).
    { destruct Hq as [->|Hq]; [done|]. eapply reach_step; [exact Hr|]. by apply step_right. }
    split; [exact Hr'|]. destruct (sent_carried _ _ Hr') as [_ Hc]. by destruct (Hw Hc).
Qed.

Lemma wire_inv_open isn_a isn_b a b tcp_a tcp_b :
  s_out (tc_socket tcp_a) = concat (map frame (ep_sent a)) ->
  wire_inv (station_at isn_a a b tcp_a) (station_at isn_b b a tcp_b).
Proof.
  intros Ha. exists []. unfold on_wire, written_by. cbn. rewrite Ha, app_nil_r.
  by rewrite drop_all.
Qed.

Lemma stations_reachable_inv c : stations_reachable c -> stations_inv c.
Proof.
  induction 1 as [isn_a isn_b a b a' b' tcp_a tcp_b Fa Fb Hl A1 A2 B1 B2 E Ha Hb|c c' _ IH Hs];
    [|by eapply stations_step_inv].
  split; [by eapply reach_open|]. split; by apply wire_inv_open.
Qed.

(** C15: STCP over the frames of a TCP stream, which is how its packets really
    travel: whatever the sizes of the single writes and reads, and however the
    threads take turns, the ends of the connection are ends of a connection
    over the network of [conn_reachable], so that all that holds there holds of
    them. The receive thread of each end has queued exactly the first segments
    that the other end sent, whole and in order; it has queued all of them when
    nothing is left on the wire, and otherwise, once everything that is on the
    wire has arrived, it gets the next one. *)
Theorem framed_refines p q :
  stations_reachable (p, q) ->
  conn_reachable (sn_party p, sn_party q) /\
  sn_got q `prefix_of` ep_sent (sn_end p) /\ sn_got p `prefix_of` ep_sent (sn_end q) /\
  (on_wire p q = [] -> sn_got q = ep_sent (sn_end p)) /\
  (on_wire p q <> [] -> forall s, pieces_ok (s_in s) -> stream (s_in s) = on_wire p q ->
     exists data s', recv_packet s MAX_IP_PAYLOAD_LEN = Ok (Z.of_nat (length data), data, s') /\
       (sn_got q ++ [data]) `prefix_of` ep_sent (sn_end p)).
Proof.
  intros Hr. destruct (stations_reachable_inv _ Hr) as (Hc & (pq & P1 & P2 & _) & qp & Q1 & _).
  cbn [fst snd] in *. split; [exact Hc|]. split; [by exists pq|]. split; [by exists qp|].
  destruct (sent_carried _ _ Hc) as [Hcar _]. fold (sn_end p) in Hcar.
  rewrite P1 in Hcar. apply Forall_app in Hcar as [_ Hcar]. rewrite P1, P2.
  destruct pq as [|data pq]; [by rewrite app_nil_r|]. split.
  - intros E%(f_equal length). cbn [map concat] in E. rewrite length_app, length_frame in E.
    simpl in E. lia.
  - intros _ s Hp Hst. apply Forall_cons in Hcar as [Hd _].
    destruct (recv_packet_ok data (concat (map frame pq)) (s_in s) [] s) as (s' & E & _);
      [by rewrite app_nil_r|done|done|done|].
    exists data, s'. split; [exact E|]. exists pq. by rewrite <-app_assoc.
Qed.

End framed.

#[local] Existing Instance moving_memcpy.

(** ** A run *)

(** One end writes two bytes and sends them, byte by byte; the frame arrives in
    pieces of seven bytes at most. *)
Definition wire_tcp (e : endpoint) : tcp_context :=
  TcpContext (Sock [] (map SSent (replicate 30 1%nat)) (concat (map frame (ep_sent e))) false)
    None true true.
Definition wire_p0 : station := station_at 1 run_open.1 run_open.2 (wire_tcp run_open.1).
Definition wire_q0 : station := station_at 4294967295 run_open.2 run_open.1 (wire_tcp run_open.2).
Definition wire_p1 : station := Station run_p1 (sn_tcp wire_p0) (sn_taken wire_p0) (sn_got wire_p0).
Definition wire_p : station :=
  Station run_p
    (match send_packets true (sn_tcp wire_p1) [run_seg] with Ok c => c | Fault _ => sn_tcp wire_p1 end)
    (sn_taken wire_p0) (sn_got wire_p0).
Definition wire_pieces : list recv_event :=
  [RData (take 1 (frame run_seg)); RData (take 9 (drop 1 (frame run_seg)));
   RData (drop 10 (frame run_seg))].
Definition wire_q : station :=
  Station (arrive run_seg run_q0) (sn_tcp wire_q0) (sn_taken wire_q0 + length (frame run_seg))
    (sn_got wire_q0 ++ [run_seg]).

Lemma wire_reachable_p : stations_reachable (wire_p, wire_q0).
Proof.
  apply (stations_more (wire_p1, wire_q0)).
  - apply (stations_more (wire_p0, wire_q0)).
    + apply (stations_open 1 4294967295 run_a run_b).
      * apply new_fresh; lia.
      * apply new_fresh; lia.
      * by split.
      * reflexivity.
      * reflexivity.
      * reflexivity.
      * reflexivity.
      * vm_compute. reflexivity.
      * reflexivity.
      * reflexivity.
    + apply stations_left.
      apply (application wire_q0 wire_p0 run_p1); [|vm_compute; reflexivity..].
      change (party_step run_q0 run_p0 run_p1).
      apply (step_write _ run_p0 [104; 105] 2 (AppSide [[104; 105]] [] false false));
        [reflexivity|apply (bool_decide_unpack _); vm_compute; exact I|by vm_compute|by vm_compute].
  - apply stations_left.
    assert (E : wire_p = Station (with_end (sn_party wire_p1) (p_end run_p)) (sn_tcp wire_p)
      (sn_taken wire_p1) (sn_got wire_p1)) by (vm_compute; reflexivity).
    rewrite E. apply (turn_sends wire_q0 wire_p1 (p_end run_p) [run_seg] true (sn_tcp wire_p)).
    + vm_compute. reflexivity.
    + vm_compute. reflexivity.
    + vm_compute. reflexivity.
    + split; [reflexivity|reflexivity|]. exists (replicate 30 1%nat). split; [reflexivity|].
      split; [by repeat constructor|]. apply Nat.leb_le. vm_compute. reflexivity.
    + vm_compute. reflexivity.
Qed.

Lemma wire_reachable : stations_reachable (wire_p, wire_q).
Proof.
  apply (stations_more (wire_p, wire_q0)); [apply wire_reachable_p|]. apply stations_right.
  assert (E : wire_q = Station (queue_packet (sn_party wire_q0) run_seg) (sn_tcp wire_q0)
    (sn_taken wire_q0 + (length (stream (s_in (Sock wire_pieces [] [] false))) -
      length (stream (s_in (Sock [] [] [] false))))) (sn_got wire_q0 ++ [run_seg]))
    by (vm_compute; reflexivity).
  rewrite E. apply (packet_arrives wire_p wire_q0 (Sock wire_pieces [] [] false) 22 run_seg
    (Sock [] [] [] false)).
  - repeat (apply Forall_cons; split; [vm_compute; discriminate|]). apply Forall_nil. exact I.
  - exists []. vm_compute. reflexivity.
  - vm_compute. reflexivity.
  - lia.
Qed.

Lemma framed_refines_witness :
  conn_reachable (sn_party wire_p, sn_party wire_q) /\ sn_got wire_q = ep_sent (sn_end wire_p) /\
  exists data s', recv_packet (Sock [RData (on_wire wire_p wire_q0)] [] [] false) MAX_IP_PAYLOAD_LEN =
      Ok (Z.of_nat (length data), data, s') /\
    (sn_got wire_q0 ++ [data]) `prefix_of` ep_sent (sn_end wire_p).
Proof.
  destruct (framed_refines wire_p wire_q wire_reachable) as (H1 & _ & _ & H2 & _).
  destruct (framed_refines wire_p wire_q0 wire_reachable_p) as (_ & _ & _ & _ & H3).
  split; [exact H1|]. split; [apply H2; vm_compute; reflexivity|].
  apply H3; [vm_compute; discriminate|apply Forall_singleton; vm_compute; discriminate|].
  vm_compute. reflexivity.
Defined.
