(* ===== verification/NetIo.v ===== *)
(** The sockets, pipes and threads of the network layer:
    transport-layer/src/network_io_socket.c, and what of network_io_tcp.c opens
    and closes descriptors. A context here is the process's view of it: which
    descriptors it holds. What is read and written through them is in NetTcp. *)
From S2P Require Import Prelude Mem PacketQueue NetTcp FramedNet Mysock Sockets.
#[local] Set Warnings "-clear-no-such-hyp".

(** * Contexts and descriptors *)

(** [network_context_socket_tcp_t]: the descriptors of the socket, of the two ends
    of the exit pipe and of an accepted socket, where [None] is -1; and whether
    the receive thread has been started. *)
Record net_impl := NetImpl {
  ni_socket : option nat; ni_exit_read : option nat; ni_exit_write : option nat;
  ni_new_socket : option nat; ni_started : bool }.

(** The process: its open descriptors, and the contexts by their mysockets. *)
Record netio := Netio { io_fds : gset nat; io_ctx : gmap nat net_impl }.

Abbreviation FM := (M netio).

(** A system call that opens a descriptor gives one that is not in use. *)
Definition open_fd : FM nat :=
  s ← get;
  let fd := fresh (io_fds s) in
  put (Netio ({[fd]} ∪ io_fds s) (io_ctx s));;
  mret fd.
Definition close_fd (fd : option nat) : FM unit :=
  match fd with
  | None => mret tt
  | Some fd => modify (fun s => Netio (io_fds s ∖ {[fd]}) (io_ctx s))
  end.

Definition get_impl (k : nat) : FM net_impl :=
  s ← get; match io_ctx s !! k with Some c => mret c | None => fail AssertFail end.
Definition put_impl (k : nat) (c : net_impl) : FM unit :=
  modify (fun s => Netio (io_fds s) (<[k := c]> (io_ctx s))).

(** [_network_alloc_context_socket]: a failure of [socket] or [pipe] ends the
    process. *)
Definition network_alloc_context_socket (socket_ok pipe_ok : bool) : FM net_impl :=
  assertM socket_ok;;
  fd ← open_fd;
  assertM pipe_ok;;
  r ← open_fd;
  w ← open_fd;
  mret (NetImpl (Some fd) (Some r) (Some w) None false).

(** [_network_init], for a mysocket that has no context yet. *)
Definition network_init_io (k : nat) (socket_ok pipe_ok : bool) : FM unit :=
  c ← network_alloc_context_socket socket_ok pipe_ok;
  put_impl k c.

(** [_network_destroy_context_socket] *)
Definition network_destroy_context_socket (c : net_impl) : FM unit :=
  close_fd (ni_socket c);;
  close_fd (ni_exit_read c);;
  close_fd (ni_exit_write c).

(** [_network_close_socket]: the context is gone afterwards. *)
Definition network_close_socket (k : nat) : FM unit :=
  c ← get_impl k;
  network_destroy_context_socket c;;
  modify (fun s => Netio (io_fds s) (delete k (io_ctx s))).

(** [_network_close] over TCP. *)
Definition network_close_io (k : nat) : FM unit :=
  c ← get_impl k;
  close_fd (ni_new_socket c);;
  network_close_socket k.

(** The call of [accept] in [_network_recv_packet], when it succeeds. *)
Definition accept_io (k : nat) : FM unit :=
  c ← get_impl k;
  fd ← open_fd;
  assertM (bool_decide (ni_new_socket c = None));;
  put_impl k (NetImpl (ni_socket c) (ni_exit_read c) (ni_exit_write c) (Some fd) (ni_started c)).

(** [_network_update_passive_state]: the new context [k] takes over what the
    listener [l] has accepted. *)
Definition hand_over_io (k l : nat) (new_listening new_active : bool) : FM unit :=
  c ← get_impl k;
  a ← get_impl l;
  assertM (negb new_listening);;
  assertM (negb new_active);;
  close_fd (ni_socket c);;
  put_impl k (NetImpl (ni_new_socket a) (ni_exit_read c) (ni_exit_write c) (ni_new_socket c)
    (ni_started c));;
  a ← get_impl l;
  put_impl l (NetImpl (ni_socket a) (ni_exit_read a) (ni_exit_write a) None (ni_started a)).

(** [_network_start_recv_thread] *)
Definition network_start_recv_thread (k : nat) (sigpipe_ignored : bool) : FM unit :=
  c ← get_impl k;
  assertM sigpipe_ignored;;
  put_impl k (NetImpl (ni_socket c) (ni_exit_read c) (ni_exit_write c) (ni_new_socket c) true).

(** [_network_stop_recv_thread] of a connection: a byte in the exit pipe, and a wait
    for the thread, which runs on [tcp] and [q]. [polls] is what [poll] answers
    it before it sees the byte. *)
Definition network_stop_recv_thread (k : nat) (polls : list poll_event) (socket_ready is_active
  connects : bool) (tcp : tcp_context) (q : packet_queue) : FM (tcp_context * packet_queue) :=
  c ← get_impl k;
  if negb (ni_started c) then mret (tcp, q)
  else
    r ← lift (network_recv_thread (polls ++ [PollReady true socket_ready]) is_active connects tcp q);
    put_impl k (NetImpl (ni_socket c) (ni_exit_read c) (ni_exit_write c) (ni_new_socket c) false);;
    mret r.

(** ** Addresses *)

(** [_network_get_port]: the port in the address that [getsockname] finds. *)
Definition network_get_port (k : nat) (getsockname : nat -> option buffer) : FM Z :=
  c ← get_impl k;
  match ni_socket c with
  | None => fail AssertFail
  | Some fd =>
      match getsockname fd with
      | None => fail AssertFail
      | Some sin =>
          family ← lift (ld sa_family 0 sin);
          assertM (family =? AF_INET);;
          lift (ld sin_port 0 sin)
      end
  end.

(** [_network_get_interface_ip]: the first address of the host's own name, for any
    peer. *)
Definition network_get_interface_ip (hostname : option buffer)
  (gethostbyname_r : buffer -> option (list Z)) (peer_addr : Z) : res Z :=
  match hostname with
  | None => Fault AssertFail
  | Some name =>
      match gethostbyname_r name with
      | None => Fault AssertFail
      | Some [] => Fault NullDeref
      | Some (addr :: _) => Ok addr
      end
  end.

(** [_network_bind_socket] and [_network_listen], which pass on the results of
    [bind] and [listen]. *)
Definition network_bind_socket (k : nat) (bind : nat -> buffer -> Z) (addr : buffer) : FM Z :=
  c ← get_impl k;
  match ni_socket c with None => fail AssertFail | Some fd => mret (bind fd addr) end.
Definition network_listen (k : nat) (listen : nat -> Z -> Z) (backlog : Z) : FM Z :=
  c ← get_impl k;
  match ni_socket c with None => fail AssertFail | Some fd => mret (listen fd backlog) end.

(** * Who holds what *)

Definition held (c : net_impl) : list nat :=
  option_list (ni_socket c) ++ option_list (ni_exit_read c) ++ option_list (ni_exit_write c) ++
  option_list (ni_new_socket c).

(** The descriptors of mysocket [k]. *)
Definition holds (s : netio) (k : nat) : list nat :=
  match io_ctx s !! k with Some c => held c | None => [] end.

(** Every descriptor that a context holds is open, and held once; and the
    descriptors that are open, but for those [others] that were open before,
    are held. *)
Record io_wf (others : gset nat) (fds : gset nat) (h : nat -> list nat) : Prop := {
  wf_open : forall k fd, fd ∈ h k -> fd ∈ fds /\ fd ∉ others;
  wf_once : forall k, NoDup (h k);
  wf_one : forall k k' fd, fd ∈ h k -> fd ∈ h k' -> k = k';
  wf_held : forall fd, fd ∈ fds -> fd ∈ others \/ exists k, fd ∈ h k;
  wf_others : others ⊆ fds }.

(** The calls that open and close descriptors. *)
Inductive io_step (s : netio) : netio -> Prop :=
| io_init k s' : io_ctx s !! k = None -> network_init_io k true true s = Ok (tt, s') -> io_step s s'
| io_accept k s' : accept_io k s = Ok (tt, s') -> io_step s s'
| io_hand_over k l s' : k <> l -> hand_over_io k l false false s = Ok (tt, s') -> io_step s s'
| io_start k b s' : network_start_recv_thread k b s = Ok (tt, s') -> io_step s s'
| io_close k s' : network_close_io k s = Ok (tt, s') -> io_step s s'.

Inductive io_reachable (others : gset nat) : netio -> Prop :=
| io_start_up : io_reachable others (Netio others ∅)
| io_more s s' : io_reachable others s -> io_step s s' -> io_reachable others s'.

(** A change of what one mysocket holds: it keeps some, opens some, and closes the
    rest. *)
Lemma io_wf_change others fds fds' h h' k l :
  io_wf others fds h -> h' k = l -> (forall k', k' <> k -> h' k' = h k') -> NoDup l ->
  (forall fd, fd ∈ l -> (fd ∈ h k \/ fd ∉ fds) /\ fd ∈ fds') ->
  (forall fd, fd ∈ fds' <-> (fd ∈ fds /\ fd ∉ h k) \/ fd ∈ l) ->
  io_wf others fds' h'.
Proof.
  intros [Ho Hn H1 Hh Hot] Hk Hk' Hl Hnew Hfds.
  assert (Hothers : forall fd, fd ∈ others -> fd ∉ h k)
    by (intros fd Hfd Hin; by apply (Ho k fd Hin)).
  assert (Hfresh : forall fd k', fd ∈ l -> k' <> k -> fd ∉ h k').
  { intros fd k' Hfd Hne Hin. destruct (Hnew fd Hfd) as [[Hin'|Hout] _].
    - by apply Hne, (H1 k' k fd).
    - apply Hout. by apply (Ho k' fd). }
  assert (Hsplit : forall k' fd, fd ∈ h' k' -> (k' = k /\ fd ∈ l) \/ (k' <> k /\ fd ∈ h k')).
  { intros k' fd. destruct (decide (k' = k)) as [->|Hne]; [rewrite Hk; by left|].
    rewrite Hk' by done. by right. }
  split.
  - intros k' fd [[-> Hin]|[Hne Hin]]%Hsplit.
    + split; [by apply Hnew|]. destruct (Hnew fd Hin) as [[Hin'|Hout] _]; [by apply (Ho k fd)|].
      intros Hx. by apply Hout, Hot.
    + destruct (Ho k' fd Hin) as [Hf Hx]. split; [|done]. apply Hfds. left. split; [done|].
      intros Hin'. by apply Hne, (H1 k' k fd).
  - intros k'. destruct (decide (k' = k)) as [->|Hne]; [by rewrite Hk|]. by rewrite Hk'.
  - intros k1 k2 fd [[-> Hin1]|[Hne1 Hin1]]%Hsplit [[-> Hin2]|[Hne2 Hin2]]%Hsplit.
    + done.
    + by destruct (Hfresh fd k2 Hin1 Hne2).
    + by destruct (Hfresh fd k1 Hin2 Hne1).
    + by apply (H1 k1 k2 fd).
  - intros fd [[Hfd Hnot]|Hin]%Hfds.
    + destruct (Hh fd Hfd) as [?|[k' Hin]]; [by left|right]. exists k'. rewrite Hk'; [done|].
      by intros ->.
    + right. exists k. by rewrite Hk.
  - intros fd Hfd. apply Hfds. left. split; [by apply Hot|]. by apply Hothers.
Qed.

(** Descriptors that one mysocket gives up without closing them, and that another
    takes. *)
Lemma io_wf_lend others fds h h' l m b :
  io_wf others fds h -> h' l = b -> (forall j, j <> l -> h' j = h j) -> NoDup b ->
  (forall x : nat, x ∈ h l <-> x ∈ b \/ x ∈ m) -> (forall x, x ∈ b -> x ∉ m) ->
  io_wf (others ∪ list_to_set m) fds h'.
Proof.
  intros [Ho Hn H1 Hh Hot] Hl Hrest Hb Hsplit Hdisj.
  assert (Hsub : forall j x, x ∈ h' j -> x ∈ h j /\ x ∉ m).
  { intros j x. destruct (decide (j = l)) as [->|Hne].
    - rewrite Hl. intros Hx. split; [apply Hsplit; by left|by apply Hdisj].
    - rewrite Hrest by done. intros Hx. split; [done|]. intros Hm.
      apply Hne, (H1 j l x); [done|]. apply Hsplit. by right. }
  split.
  - intros j x [Hx Hm]%Hsub. destruct (Ho j x Hx). split; [done|].
    rewrite elem_of_union, elem_of_list_to_set. by intros [?|?].
  - intros j. destruct (decide (j = l)) as [->|Hne]; [by rewrite Hl|]. by rewrite Hrest.
  - intros j j' x [Hx _]%Hsub [Hx' _]%Hsub. by apply (H1 j j' x).
  - intros x Hx. destruct (Hh x Hx) as [?|[j Hj]]; [left; by apply elem_of_union_l|].
    destruct (decide (x ∈ m)) as [Hm|Hm].
    + left. by apply elem_of_union_r, elem_of_list_to_set.
    + right. exists j. destruct (decide (j = l)) as [->|Hne]; [|by rewrite Hrest].
      rewrite Hl. apply Hsplit in Hj as [?|?]; [done|done].
  - intros x [?|Hx%elem_of_list_to_set]%elem_of_union; [by apply Hot|].
    apply (Ho l x), Hsplit. by right.
Qed.

Lemma io_wf_take others fds h h' k m a :
  io_wf (others ∪ list_to_set m) fds h -> h' k = a -> (forall j, j <> k -> h' j = h j) ->
  NoDup a -> (forall x : nat, x ∈ a <-> x ∈ h k \/ x ∈ m) -> (forall x, x ∈ m -> x ∉ others) ->
  io_wf others fds h'.
Proof.
  intros [Ho Hn H1 Hh Hot] Hk Hrest Ha Hsplit Hm.
  assert (Hin : forall j x, x ∈ h' j -> x ∈ h j \/ (j = k /\ x ∈ m)).
  { intros j x. destruct (decide (j = k)) as [->|Hne]; [|rewrite Hrest by done; by left].
    rewrite Hk, Hsplit. intros [?|?]; [by left|by right]. }
  assert (Hno : forall j x, x ∈ h j -> x ∉ m).
  { intros j x Hx Hxm. destruct (Ho j x Hx) as [_ Hout]. apply Hout.
    by apply elem_of_union_r, elem_of_list_to_set. }
  split.
  - intros j x [Hx|[_ Hx]]%Hin.
    + destruct (Ho j x Hx) as [? Hout]. split; [done|]. intros ?. apply Hout. by apply elem_of_union_l.
    + split; [|by apply Hm]. apply Hot. by apply elem_of_union_r, elem_of_list_to_set.
  - intros j. destruct (decide (j = k)) as [->|Hne]; [by rewrite Hk|]. by rewrite Hrest.
  - intros j j' x [Hx|[-> Hx]]%Hin [Hx'|[-> Hx']]%Hin.
    + by apply (H1 j j' x).
    + by destruct (Hno j x Hx).
    + by destruct (Hno j' x Hx').
    + done.
  - intros x Hx. destruct (Hh x Hx) as [[?|Hxm%elem_of_list_to_set]%elem_of_union|[j Hj]].
    + by left.
    + right. exists k. rewrite Hk, Hsplit. by right.
    + right. exists j. destruct (decide (j = k)) as [->|Hne]; [|by rewrite Hrest].
      rewrite Hk, Hsplit. by left.
  - intros x Hx. apply Hot. by apply elem_of_union_l.
Qed.

(** ** The calls *)

Lemma holds_insert fds ctx k c j :
  holds (Netio fds (<[k := c]> ctx)) j = if decide (j = k) then held c else holds (Netio fds ctx) j.
Proof.
  unfold holds. cbn. case_decide as Hj; [by rewrite Hj, lookup_insert_eq|]. by rewrite lookup_insert_ne.
Qed.

Lemma holds_delete fds ctx k j :
  holds (Netio fds (delete k ctx)) j = if decide (j = k) then [] else holds (Netio fds ctx) j.
Proof.
  unfold holds. cbn. case_decide as Hj; [by rewrite Hj, lookup_delete_eq|]. by rewrite lookup_delete_ne.
Qed.

(** Closing what a context holds in some order. *)
Definition without (fds : gset nat) (l : list nat) : gset nat := fds ∖ list_to_set l.

Lemma close_fd_eq o s : close_fd o s = Ok (tt, Netio (without (io_fds s) (option_list o)) (io_ctx s)).
Proof.
  assert (E : (match o with Some fd => io_fds s ∖ {[fd]} | None => io_fds s end) =
    without (io_fds s) (option_list o)).
  { apply set_eq. intros x. unfold without. destruct o; cbn; set_solver. }
  rewrite <-E. by destruct s, o.
Qed.

Lemma without_app fds l k : without (without fds l) k = without fds (l ++ k).
Proof. unfold without. rewrite list_to_set_app_L. set_solver. Qed.

Lemma elem_of_without fds l x : x ∈ without fds l <-> x ∈ fds /\ x ∉ l.
Proof. unfold without. by rewrite elem_of_difference, elem_of_list_to_set. Qed.

Definition io_inv (others : gset nat) (s : netio) : Prop := io_wf others (io_fds s) (holds s).

Lemma init_inv others k s s' :
  io_inv others s -> io_ctx s !! k = None -> network_init_io k true true s = Ok (tt, s') ->
  io_inv others s'.
Proof.
  intros Hw Hk. destruct s as [fds ctx]. cbn in Hk.
  set (a := fresh fds). set (r := fresh ({[a]} ∪ fds)). set (w := fresh ({[r]} ∪ ({[a]} ∪ fds))).
  intros [= <-]. fold a r w. unfold io_inv. cbn [io_fds].
  pose proof (is_fresh fds) as Fa. pose proof (is_fresh ({[a]} ∪ fds)) as Fr.
  pose proof (is_fresh ({[r]} ∪ ({[a]} ∪ fds))) as Fw. fold a in Fa. fold r in Fr. fold w in Fw.
  assert (Hold : holds (Netio fds ctx) k = []) by (unfold holds; cbn; by rewrite Hk).
  apply (io_wf_change others fds _ (holds (Netio fds ctx)) _ k [a; r; w]).
  - exact Hw.
  - rewrite holds_insert, decide_True by done. done.
  - intros j Hj. by rewrite holds_insert, decide_False.
  - repeat constructor; set_solver.
  - intros fd Hfd. rewrite Hold. set_solver.
  - intros fd. rewrite Hold. set_solver.
Qed.

Lemma get_impl_inv k s c s' : get_impl k s = Ok (c, s') -> s' = s /\ io_ctx s !! k = Some c.
Proof.
  unfold get_impl. exec. destruct (io_ctx s !! k) as [c0|]; [|done]. by intros [= -> ->].
Qed.

Lemma accept_inv others k s s' : io_inv others s -> accept_io k s = Ok (tt, s') -> io_inv others s'.
Proof.
  intros Hw. destruct s as [fds ctx]. unfold accept_io, get_impl, open_fd, put_impl, assertM. exec.
  cbn [io_ctx]. destruct (ctx !! k) as [c|] eqn:Hk; [|done]. exec.
  cbn [io_fds]. set (fd := fresh fds). pose proof (is_fresh fds) as Hf. fold fd in Hf.
  destruct (bool_decide_reflect (ni_new_socket c = None)) as [Hn|]; [|done]. exec. intros [= <-].
  unfold io_inv. cbn [io_fds io_ctx].
  assert (Hold : holds (Netio fds ctx) k = held c) by (unfold holds; cbn; by rewrite Hk).
  assert (Hheld : held (NetImpl (ni_socket c) (ni_exit_read c) (ni_exit_write c) (Some fd) (ni_started c))
    = held c ++ [fd]).
  { unfold held. cbn. rewrite Hn. cbn. by rewrite app_nil_r, !app_assoc. }
  assert (Hout : fd ∉ held c).
  { intros Hin. apply Hf. rewrite <-Hold in Hin. by apply (wf_open _ _ _ Hw k fd). }
  apply (io_wf_change others fds _ (holds (Netio fds ctx)) _ k (held c ++ [fd])).
  - exact Hw.
  - by rewrite holds_insert, decide_True, Hheld.
  - intros j Hj. by rewrite holds_insert, decide_False.
  - apply NoDup_app. split; [rewrite <-Hold; apply (wf_once _ _ _ Hw)|].
    split; [|apply NoDup_singleton]. by intros x Hx ->%list_elem_of_singleton.
  - intros x. rewrite Hold, elem_of_app, list_elem_of_singleton.
    assert (x ∈ held c -> x ∈ fds) by (rewrite <-Hold; intros; by apply (wf_open _ _ _ Hw k x)).
    intros [Hx| ->]; split; [by left|apply elem_of_union_r; auto|by right|apply elem_of_union_l; by apply elem_of_singleton].
  - intros x. rewrite Hold, elem_of_app, list_elem_of_singleton, elem_of_union, elem_of_singleton.
    assert (x ∈ held c -> x ∈ fds) by (rewrite <-Hold; intros; by apply (wf_open _ _ _ Hw k x)).
    destruct (decide (x ∈ held c)); naive_solver.
Qed.

Lemma start_inv others k b s s' :
  io_inv others s -> network_start_recv_thread k b s = Ok (tt, s') -> io_inv others s'.
Proof.
  intros Hw. destruct s as [fds ctx]. unfold network_start_recv_thread, get_impl, put_impl, assertM. exec.
  cbn [io_ctx]. destruct (ctx !! k) as [c|] eqn:Hk; [|done]. exec. destruct b; [|done]. exec.
  intros [= <-]. unfold io_inv. cbn [io_fds io_ctx].
  assert (Hsame : forall j, holds (Netio fds (<[k:=NetImpl (ni_socket c) (ni_exit_read c)
    (ni_exit_write c) (ni_new_socket c) true]> ctx)) j = holds (Netio fds ctx) j).
  { intros j. rewrite holds_insert. case_decide as Hj; [|done]. subst j.
    unfold holds. cbn. by rewrite Hk. }
  destruct Hw as [Ho Hn H1 Hh Hot]. split; try setoid_rewrite Hsame; auto.
Qed.

Lemma close_inv others k s s' :
  io_inv others s -> network_close_io k s = Ok (tt, s') -> io_inv others s'.
Proof.
  intros Hw. destruct s as [fds ctx]. unfold network_close_io.
  destruct (ctx !! k) as [c|] eqn:Hk.
  2:{ unfold get_impl. exec. cbn [io_ctx]. by rewrite Hk. }
  assert (Hget : forall f, get_impl k (Netio f ctx) = Ok (c, Netio f ctx))
    by (intros f; unfold get_impl; exec; cbn [io_ctx]; by rewrite Hk).
  rewrite (bind_ok _ _ _ _ _ (Hget fds)), (bind_ok _ _ _ _ _ (close_fd_eq _ _)). cbn [io_fds io_ctx].
  unfold network_close_socket. rewrite (bind_ok _ _ _ _ _ (Hget _)).
  unfold network_destroy_context_socket. rewrite !bind_assoc.
  rewrite (bind_ok _ _ _ _ _ (close_fd_eq _ _)), bind_assoc, (bind_ok _ _ _ _ _ (close_fd_eq _ _)).
  rewrite (bind_ok _ _ _ _ _ (close_fd_eq _ _)). cbn [io_fds io_ctx]. rewrite !without_app. exec.
  intros [= <-]. unfold io_inv. cbn [io_fds io_ctx].
  assert (Hold : holds (Netio fds ctx) k = held c) by (unfold holds; cbn; by rewrite Hk).
  apply (io_wf_change others fds _ (holds (Netio fds ctx)) _ k []).
  - exact Hw.
  - by rewrite holds_delete, decide_True.
  - intros j Hj. by rewrite holds_delete, decide_False.
  - constructor.
  - by intros x ?%not_elem_of_nil.
  - intros x. rewrite elem_of_without, Hold. unfold held.
    rewrite !elem_of_app, elem_of_nil. naive_solver.
Qed.

Lemma hand_over_inv others k l s s' :
  io_inv others s -> k <> l -> hand_over_io k l false false s = Ok (tt, s') -> io_inv others s'.
Proof.
  intros Hw Hkl. destruct s as [fds ctx]. unfold hand_over_io.
  destruct (ctx !! k) as [c|] eqn:Hk; [|unfold get_impl; exec; cbn [io_ctx]; by rewrite Hk].
  assert (Hgk : forall f, get_impl k (Netio f ctx) = Ok (c, Netio f ctx))
    by (intros f; unfold get_impl; exec; cbn [io_ctx]; by rewrite Hk).
  rewrite (bind_ok _ _ _ _ _ (Hgk fds)).
  destruct (ctx !! l) as [a|] eqn:Hl; [|unfold get_impl; exec; cbn [io_ctx]; by rewrite Hl].
  assert (Hgl : forall f, get_impl l (Netio f ctx) = Ok (a, Netio f ctx))
    by (intros f; unfold get_impl; exec; cbn [io_ctx]; by rewrite Hl).
  assert (Hn : forall f : netio, assertM (negb false) f = Ok (tt, f)) by done.
  rewrite (bind_ok _ _ _ _ _ (Hgl fds)), !(bind_ok _ _ _ _ _ (Hn _)), (bind_ok _ _ _ _ _ (close_fd_eq _ _)).
  unfold put_impl, get_impl. exec. cbn [io_fds io_ctx]. rewrite lookup_insert_ne, Hl by done. exec.
  intros [= <-]. unfold io_inv. cbn [io_fds io_ctx].
  set (ctx1 := <[k := NetImpl None (ni_exit_read c) (ni_exit_write c) (ni_new_socket c) (ni_started c)]> ctx).
  set (c' := NetImpl (ni_new_socket a) _ _ _ _). set (a' := NetImpl (ni_socket a) _ _ _ _).
  set (fds1 := without fds (option_list (ni_socket c))).
  assert (Hoc : holds (Netio fds ctx) k = held c) by (unfold holds; cbn; by rewrite Hk).
  assert (Hoa : holds (Netio fds ctx) l = held a) by (unfold holds; cbn; by rewrite Hl).
  (* the context closes its own socket, the listener gives up the accepted one,
     and the context takes it *)
  set (rest := option_list (ni_exit_read c) ++ option_list (ni_exit_write c) ++
    option_list (ni_new_socket c)).
  set (kept := option_list (ni_socket a) ++ option_list (ni_exit_read a) ++
    option_list (ni_exit_write a)). set (moved := option_list (ni_new_socket a)).
  assert (Hc : held c = option_list (ni_socket c) ++ rest) by done.
  assert (Ha : held a = kept ++ moved) by (unfold held, kept, moved; by rewrite <-!app_assoc).
  assert (Hc' : held c' = moved ++ rest) by done.
  assert (Ha' : held a' = kept) by (unfold held, kept; cbn; by rewrite app_nil_r).
  pose proof (wf_once _ _ _ Hw k) as Hnk. rewrite Hoc, Hc in Hnk. apply NoDup_app in Hnk as (_ & Hd & Hnr).
  pose proof (wf_once _ _ _ Hw l) as Hnl. rewrite Hoa, Ha in Hnl. apply NoDup_app in Hnl as (Hnkept & Hdl & Hnm).
  assert (Hop : forall x, x ∈ held c -> x ∈ fds) by (rewrite <-Hoc; intros; by apply (wf_open _ _ _ Hw k x)).
  assert (W1 : io_wf others fds1 (holds (Netio fds1 ctx1))).
  { apply (io_wf_change others fds _ (holds (Netio fds ctx)) _ k rest).
    - exact Hw.
    - unfold ctx1. by rewrite holds_insert, decide_True.
    - intros j Hj. unfold ctx1. by rewrite holds_insert, decide_False.
    - done.
    - intros x Hx. assert (Hin : x ∈ held c) by (rewrite Hc; apply elem_of_app; by right).
      rewrite Hoc. split; [by left|]. apply elem_of_without. split; [by apply Hop|].
      intros Hs. by apply (Hd x).
    - intros x. unfold fds1. rewrite elem_of_without, Hoc. specialize (Hd x). specialize (Hop x).
      rewrite Hc, elem_of_app in *. destruct (decide (x ∈ rest)); naive_solver. }
  assert (Hl1 : holds (Netio fds1 ctx1) l = kept ++ moved)
    by (unfold ctx1; rewrite holds_insert, decide_False by done; by rewrite <-Ha, <-Hoa).
  assert (Hk1 : holds (Netio fds1 ctx1) k = rest) by (unfold ctx1; by rewrite holds_insert, decide_True).
  assert (W2 : io_wf (others ∪ list_to_set moved) fds1 (holds (Netio fds1 (<[l := a']> ctx1)))).
  { apply (io_wf_lend others fds1 (holds (Netio fds1 ctx1)) _ l moved kept W1).
    - by rewrite holds_insert, decide_True, Ha'.
    - intros j Hj. by rewrite holds_insert, decide_False.
    - done.
    - intros x. by rewrite Hl1, elem_of_app.
    - exact Hdl. }
  apply (io_wf_take others fds1 (holds (Netio fds1 (<[l := a']> ctx1))) _ k moved (moved ++ rest) W2).
  - rewrite holds_insert, decide_False, holds_insert, decide_True, <-Hc' by done. done.
  - intros j Hj. rewrite !holds_insert. case_decide; [done|]. rewrite decide_False by done.
    unfold ctx1. by rewrite holds_insert, decide_False.
  - apply NoDup_app. split; [done|]. split; [|done]. intros x Hm Hr.
    apply Hkl, (wf_one _ _ _ W1 k l x); [by rewrite Hk1|]. rewrite Hl1. apply elem_of_app. by right.
  - intros x. rewrite holds_insert, decide_False, Hk1, elem_of_app by done. naive_solver.
  - intros x Hm. apply (wf_open _ _ _ W1 l x). rewrite Hl1. apply elem_of_app. by right.
Qed.

(** C22: Descriptors are neither leaked nor closed twice nor shared, whatever
    mysockets are opened, accept, hand connections over, start their threads and
    are closed, in any order: every open descriptor, but those that the process
    had before, is held once by one context, and what contexts hold is open. When
    all mysockets are closed, the process has the descriptors it started with. *)
Theorem descriptors_owned others s :
  io_reachable others s ->
  (forall k c fd, io_ctx s !! k = Some c -> fd ∈ held c -> fd ∈ io_fds s /\ fd ∉ others) /\
  (forall k c, io_ctx s !! k = Some c -> NoDup (held c)) /\
  (forall k k' c c' fd, io_ctx s !! k = Some c -> io_ctx s !! k' = Some c' ->
     fd ∈ held c -> fd ∈ held c' -> k = k') /\
  (io_ctx s = ∅ -> io_fds s = others).
Proof.
  intros Hr. assert (Hw : io_inv others s).
  { induction Hr as [|s s' _ IH Hs].
    - split; cbn; unfold holds; cbn; [by intros k fd ?%not_elem_of_nil|constructor|
        by intros k k' fd ?%not_elem_of_nil|by left|done].
    - destruct Hs as [k s' Hk E|k s' E|k l s' Hkl E|k b s' E|k s' E].
      + by apply (init_inv others k s).
      + by apply (accept_inv others k s).
      + by apply (hand_over_inv others k l s).
      + by apply (start_inv others k b s).
      + by apply (close_inv others k s). }
  assert (Hh : forall k c, io_ctx s !! k = Some c -> holds s k = held c)
    by (intros k c Hk; unfold holds; by rewrite Hk).
  split; [|split; [|split]].
  - intros k c fd Hk Hin. apply (wf_open _ _ _ Hw k). by rewrite (Hh k c Hk).
  - intros k c Hk. rewrite <-(Hh k c Hk). apply (wf_once _ _ _ Hw).
  - intros k k' c c' fd Hk Hk' H1 H2. apply (wf_one _ _ _ Hw k k' fd);
      [by rewrite (Hh k c Hk)|by rewrite (Hh k' c' Hk')].
  - intros He. apply set_eq. intros fd. split; [|apply (wf_others _ _ _ Hw)].
    intros Hfd. destruct (wf_held _ _ _ Hw fd Hfd) as [?|[k Hk]]; [done|].
    unfold holds in Hk. rewrite He, lookup_empty in Hk. by apply not_elem_of_nil in Hk.
Qed.

Lemma descriptors_owned_witness :
  exists s, io_reachable {[0%nat]} s /\ io_ctx s = ∅ /\ io_fds s = {[0%nat]}.
Proof.
  set (s0 := Netio {[0%nat]} ∅).
  pose (run := fun (f : FM unit) s => match f s with Ok (_, s') => s' | Fault _ => s end).
  set (s1 := run (network_init_io 0 true true) s0). set (s2 := run (network_init_io 1 true true) s1).
  set (s3 := run (accept_io 0) s2). set (s4 := run (hand_over_io 1 0 false false) s3).
  set (s5 := run (network_close_io 0) s4). set (s6 := run (network_close_io 1) s5).
  assert (Hr : io_reachable {[0%nat]} s6).
  { apply (io_more _ s5); [|apply (io_close _ 1%nat); vm_compute; reflexivity].
    apply (io_more _ s4); [|apply (io_close _ 0%nat); vm_compute; reflexivity].
    apply (io_more _ s3); [|apply (io_hand_over _ 1%nat 0%nat); [done|vm_compute; reflexivity]].
    apply (io_more _ s2); [|apply (io_accept _ 0%nat); vm_compute; reflexivity].
    apply (io_more _ s1); [|apply (io_init _ 1%nat); [vm_compute; reflexivity|vm_compute; reflexivity]].
    apply (io_more _ s0); [apply io_start_up|].
    apply (io_init _ 0%nat); [vm_compute; reflexivity|vm_compute; reflexivity]. }
  exists s6. split; [exact Hr|].
  assert (E : io_ctx s6 = ∅) by (vm_compute; reflexivity).
  split; [exact E|]. destruct (descriptors_owned {[0%nat]} s6 Hr) as (_ & _ & _ & H). by apply H.
Defined.

(** * Stopping the receive thread *)

Lemma recv_thread_stops part p : forall polls ps ready_too q c pieces,
  Forall no_exit polls -> Forall carried (p :: ps) -> part `prefix_of` frame p ->
  (length part < length (frame p))%nat -> s_in (tc_socket c) = pieces -> pieces_ok pieces ->
  stream pieces = concat (map frame ps) ++ part ->
  exists c', network_recv_thread (polls ++ [PollReady true ready_too]) false true c q =
    if decide (sum_list_with ready polls <= length ps)%nat
    then Ok (c', q ++ take (sum_list_with ready polls) ps) else Fault Blocked.
Proof.
  induction polls as [|e polls IH]; intros ps ready_too q c pieces Hx Hc Hpart Hl Hs Hp Hst.
  { exists c. cbn. by rewrite take_0, app_nil_r, decide_True by lia. }
  apply Forall_cons in Hx as [He Hx]. destruct e as [|[] []]; [|done|done| |].
  1, 3: by apply (IH ps ready_too q c pieces).
  cbn [app network_recv_thread sum_list_with ready]. unfold network_recv_packet. rewrite res_bind_ok.
  change (0 <? 0) with false. cbn iota. destruct ps as [|p1 ps].
  - exists c. rewrite decide_False by (cbn; lia). apply Forall_cons in Hc as [Hc _].
    rewrite (recv_packet_short p); [done|done|by rewrite Hs|rewrite Hs, Hst; done|rewrite Hs, Hst; done].
  - rewrite !Forall_cons in Hc. destruct Hc as (Hcp & Hc1 & Hc). cbn [map concat] in Hst.
    rewrite <-app_assoc in Hst.
    destruct (recv_packet_ok p1 (concat (map frame ps) ++ part) pieces [] (tc_socket c))
      as (s' & E & l & Hl' & Hp' & Hst'); [by rewrite app_nil_r|done|done|done|].
    rewrite app_nil_r in Hl'. rewrite E, !res_bind_ok. cbn [mret res_ret res_bind mbind].
    unfold carried, MAX_IP_PAYLOAD_LEN in Hc1.
    rewrite (proj2 (Z.leb_gt _ _)) by lia. unfold MAX_IP_PAYLOAD_LEN at 1.
    rewrite (proj2 (Z.ltb_ge _ _)) by lia.
    destruct (IH ps ready_too (mysock_enqueue_buffer q p1) (set_socket c s') l) as (c' & E');
      [done|by constructor|done|done|done|done|done|].
    exists c'. rewrite E'. unfold mysock_enqueue_buffer. rewrite <-app_assoc. cbn [length].
    do 2 case_decide; try lia; done.
Qed.

(** Stopping the receive thread of an accepted connection, which closing its
    mysocket waits for. When the thread has been woken for no more than whole
    packets, it stops: those are in the queue, and the descriptors are kept. But
    when it has been woken for a packet that has arrived in part, it waits for
    the rest of it, and so does the caller, whatever it writes into the exit
    pipe. *)
Theorem stop_waits_for_packet k io c tcp q polls ps p part socket_ready :
  io_ctx io !! k = Some c -> ni_started c = true -> Forall no_exit polls ->
  Forall carried (p :: ps) -> part `prefix_of` frame p -> (length part < length (frame p))%nat ->
  pieces_ok (s_in (tc_socket tcp)) ->
  stream (s_in (tc_socket tcp)) = concat (map frame ps) ++ part ->
  let stop := network_stop_recv_thread k polls socket_ready false true tcp q io in
  ((sum_list_with ready polls <= length ps)%nat ->
     exists tcp' io', stop = Ok (tcp', q ++ take (sum_list_with ready polls) ps, io') /\
       io_fds io' = io_fds io /\ forall j, holds io' j = holds io j) /\
  ((length ps < sum_list_with ready polls)%nat -> stop = Fault Blocked).
Proof.
  intros Hk Hc Hx Hps Hpart Hl Hp Hst stop. destruct io as [fds ctx]. cbn in Hk.
  destruct (recv_thread_stops part p polls ps socket_ready q tcp (s_in (tc_socket tcp)))
    as (tcp' & E); try done.
  unfold stop, network_stop_recv_thread, get_impl, put_impl. exec. cbn [io_ctx]. rewrite Hk. exec.
  rewrite Hc. cbn [negb]. exec. split; intros Hn.
  - rewrite decide_True in E by done. rewrite E. exec. do 2 eexists. split; [reflexivity|]. split; [done|].
    intros j. cbn [io_fds io_ctx]. rewrite holds_insert. case_decide as Hj; [|done]. subst j.
    unfold holds. cbn. by rewrite Hk.
  - rewrite decide_False in E by lia. by rewrite E.
Qed.

Lemma stop_waits_for_packet_witness :
  let io := Netio {[0%nat; 1%nat; 2%nat]}
    {[5%nat := NetImpl (Some 0%nat) (Some 1%nat) (Some 2%nat) None true]} in
  let tcp := TcpContext (Sock [RData [0; 1; 7]; RData [0; 2; 8]] [] [] false) None false true in
  network_stop_recv_thread 5 [PollReady false true] true false true tcp [] io <> Fault Blocked /\
  network_stop_recv_thread 5 [PollReady false true; PollReady false true] true false true tcp [] io =
    Fault Blocked.
Proof.
  intros io tcp. assert (Hf : frame [8; 9] = [0; 2; 8; 9]) by (vm_compute; reflexivity).
  assert (H : forall polls, Forall no_exit polls -> _) by (intros polls Hx;
    apply (stop_waits_for_packet 5 io (NetImpl (Some 0%nat) (Some 1%nat) (Some 2%nat) None true) tcp [] polls
      [[7]] [8; 9] [0; 2; 8] true); [reflexivity|reflexivity|exact Hx|
      repeat constructor; apply Nat.leb_le; reflexivity|rewrite Hf; by exists [9]|
      rewrite Hf; apply Nat.ltb_lt; reflexivity|repeat constructor; discriminate|vm_compute; reflexivity]).
  split.
  - destruct (H [PollReady false true]) as [H1 _]; [repeat constructor|].
    destruct H1 as (tcp' & io' & E & _); [apply Nat.leb_le; reflexivity|]. rewrite E. discriminate.
  - destruct (H [PollReady false true; PollReady false true]) as [_ H2]; [repeat constructor|].
    apply H2. apply Nat.ltb_lt. reflexivity.
Defined.
