(* ===== verification/RouterDump.v ===== *)
(** The packet dump file of the router (router/src/router/sr_dumper.c), a file in
    tcpdump's format, and what [sr_log_packet] of sr_vns_comm.c makes of it. *)
From S2P Require Import Prelude Mem Interfaces Instance.

Definition PCAP_VERSION_MAJOR : Z := 2.
Definition PCAP_VERSION_MINOR : Z := 4.
Definition TCPDUMP_MAGIC : Z := 0xa1b2c3d4.
Definition LINKTYPE_ETHERNET : Z := 1.

(** [struct pcap_pkthdr] *)
Record pcap_pkthdr := PcapPkthdr { tv_sec : Z; tv_usec : Z; caplen : Z; pkt_len : Z }.

(** A file open for writing: what is in it, and how many bytes it can still take,
    where [None] is no limit. *)
Record FILE := File { fl_data : buffer; fl_room : option nat }.

(** [fwrite] of one item: what there is room for is written; whether all of it was. *)
Definition fwrite (data : buffer) (f : FILE) : bool * FILE :=
  match fl_room f with
  | None => (true, File (fl_data f ++ data) None)
  | Some n => ((length data <=? n)%nat, File (fl_data f ++ take n data) (Some (n - length data)%nat))
  end.

(** [struct pcap_file_header] and [struct pcap_sf_pkthdr]; [int] and [unsigned] are
    stored alike. *)
Definition pcap_file_header (linktype thiszone snaplen : Z) : buffer :=
  le_bytes 4 TCPDUMP_MAGIC ++ le_bytes 2 PCAP_VERSION_MAJOR ++ le_bytes 2 PCAP_VERSION_MINOR ++
  le_bytes 4 thiszone ++ le_bytes 4 0 ++ le_bytes 4 snaplen ++ le_bytes 4 linktype.
Definition pcap_sf_pkthdr (h : pcap_pkthdr) : buffer :=
  le_bytes 4 (tv_sec h) ++ le_bytes 4 (tv_usec h) ++ le_bytes 4 (caplen h) ++ le_bytes 4 (pkt_len h).

(** [sf_write_header]: whether it reports no error, and the file. *)
Definition sf_write_header (fp : FILE) (linktype thiszone snaplen : Z) : bool * FILE :=
  fwrite (pcap_file_header linktype thiszone snaplen) fp.

(** [sr_dump_open]: the name "-" is the standard output. *)
Definition sr_dump_open (stdout : FILE) (fopen : cstr -> option FILE) (fname : cstr)
  (thiszone snaplen : Z) : option FILE :=
  fp ← (if decide (fname = [45]) then Some stdout else fopen fname);
  Some (sf_write_header fp LINKTYPE_ETHERNET thiszone snaplen).2.

(** [sr_dump], which ignores the results of [fwrite]. *)
Definition sr_dump (fp : FILE) (h : pcap_pkthdr) (sp : buffer) : res FILE :=
  let '(_, fp) := fwrite (pcap_sf_pkthdr h) fp in
  data ← (if caplen h <=? Z.of_nat (length sp) then rd 0 (Z.to_nat (caplen h)) sp
          else Fault OutOfBounds);
  Ok (fwrite data fp).2.

(** [sr_log_packet] over the file; [now] is what [gettimeofday] gives. *)
Definition log_to_file (now : Z * Z) (logfile : option FILE) (buf : buffer) (len : Z)
  : res (option FILE) :=
  match logfile with
  | None => Ok None
  | Some fp =>
      let size := Z.min PACKET_DUMP_SIZE len in
      let h := PcapPkthdr now.1 now.2 (u32 size)
        (u32 (if size <? PACKET_DUMP_SIZE then size else PACKET_DUMP_SIZE)) in
      fp ← sr_dump fp h buf;
      Ok (Some fp)
  end.

(** * Reading a dump file *)

(** A little-endian number at the front of a file. *)
Definition take_int (n : nat) (b : buffer) : option (Z * buffer) :=
  if (n <=? length b)%nat then Some (le_val (take n b), drop n b) else None.

(** A record of the file format: its header, and its bytes. *)
Definition read_record (b : buffer) : option (pcap_pkthdr * buffer * buffer) :=
  '(sec, b) ← take_int 4 b;
  '(usec, b) ← take_int 4 b;
  '(cap, b) ← take_int 4 b;
  '(len, b) ← take_int 4 b;
  if (Z.to_nat cap <=? length b)%nat
  then Some (PcapPkthdr (i32 sec) (i32 usec) cap len, take (Z.to_nat cap) b, drop (Z.to_nat cap) b)
  else None.

(** The records up to the first that is not whole. *)
Fixpoint read_records (fuel : nat) (b : buffer) : list (pcap_pkthdr * buffer) :=
  match fuel with
  | O => []
  | S fuel =>
      match read_record b with
      | Some (h, data, b) => (h, data) :: read_records fuel b
      | None => []
      end
  end.

(** The zone, the maximal length, the link type, and the records. *)
Definition read_pcap (b : buffer) : option (Z * Z * Z * list (pcap_pkthdr * buffer)) :=
  '(magic, b) ← take_int 4 b;
  '(major, b) ← take_int 2 b;
  '(minor, b) ← take_int 2 b;
  '(zone, b) ← take_int 4 b;
  '(_, b) ← take_int 4 b;
  '(snaplen, b) ← take_int 4 b;
  '(linktype, b) ← take_int 4 b;
  if (magic =? TCPDUMP_MAGIC) && (major =? PCAP_VERSION_MAJOR) && (minor =? PCAP_VERSION_MINOR)
  then Some (i32 zone, snaplen, linktype, read_records (S (length b)) b)
  else None.

(** * Dumping and reading *)

Lemma take_le_bytes n z rest : take n (le_bytes n z ++ rest) = le_bytes n z.
Proof. by rewrite take_app_length' by (by rewrite length_le_bytes). Qed.
Lemma drop_le_bytes n z rest : drop n (le_bytes n z ++ rest) = rest.
Proof. by rewrite drop_app_length' by (by rewrite length_le_bytes). Qed.

Lemma take_int_ok n z rest :
  take_int n (le_bytes n z ++ rest) = Some (z mod 256 ^ Z.of_nat n, rest).
Proof.
  unfold take_int. rewrite length_app, length_le_bytes, (proj2 (Nat.leb_le _ _)) by lia.
  by rewrite take_le_bytes, drop_le_bytes, le_val_le_bytes.
Qed.

Lemma i32_stored z : i32 (z mod 256 ^ Z.of_nat 4) = i32 z.
Proof. change (i32 (u32 z) = i32 z). unfold i32. by rewrite u32_idem. Qed.

(** The record of a frame, as it is in the file and as it is read. *)
Definition record_bytes (x : pcap_pkthdr * buffer) : buffer := pcap_sf_pkthdr x.1 ++ x.2.
Definition record_ok (x : pcap_pkthdr * buffer) : Prop :=
  caplen x.1 = Z.of_nat (length x.2) /\ 0 <= caplen x.1 < 4294967296 /\ 0 <= pkt_len x.1 < 4294967296.
Definition as_read (x : pcap_pkthdr * buffer) : pcap_pkthdr * buffer :=
  (PcapPkthdr (i32 (tv_sec x.1)) (i32 (tv_usec x.1)) (caplen x.1) (pkt_len x.1), x.2).

Lemma read_record_ok x rest :
  record_ok x -> read_record (record_bytes x ++ rest) = Some (as_read x, rest).
Proof.
  intros (Hc & Hr & Hp). unfold read_record, record_bytes, pcap_sf_pkthdr. rewrite <-!app_assoc.
  repeat (rewrite take_int_ok; cbn [mbind option_bind]). rewrite !i32_stored.
  change (256 ^ Z.of_nat 4) with 4294967296. rewrite !Z.mod_small by lia.
  rewrite Hc, Nat2Z.id, length_app, (proj2 (Nat.leb_le _ _)) by lia.
  rewrite take_app_length, drop_app_length. unfold as_read. by rewrite Hc.
Qed.

Lemma length_record_bytes x : length (record_bytes x) = (16 + length x.2)%nat.
Proof.
  unfold record_bytes, pcap_sf_pkthdr. rewrite !length_app, !length_le_bytes. lia.
Qed.

(** A file that ends inside a record has no whole one left. *)
Lemma read_record_short x n :
  record_ok x -> (n < length (record_bytes x))%nat -> read_record (take n (record_bytes x)) = None.
Proof.
  intros Hok Hn. destruct (read_record (take n (record_bytes x))) as [[[h data] b]|] eqn:E; [|done].
  exfalso. destruct Hok as (Hc & Hr & Hp). rewrite length_record_bytes in Hn.
  assert (Hlen : forall m b v r, take_int m b = Some (v, r) ->
    v = le_val (take m b) /\ r = drop m b /\ (m <= length b)%nat).
  { intros m b' v r. unfold take_int. destruct (Nat.leb_spec m (length b')); [|done].
    by intros [= <- <-]. }
  unfold read_record in E. set (t := take n (record_bytes x)) in *.
  assert (Ht : length t = n)
    by (unfold t; rewrite length_take, length_record_bytes; lia).
  destruct (take_int 4 t) as [[v1 b1]|] eqn:E1; [|done]. cbn [mbind option_bind] in E.
  destruct (take_int 4 b1) as [[v2 b2]|] eqn:E2; [|done]. cbn [mbind option_bind] in E.
  destruct (take_int 4 b2) as [[v3 b3]|] eqn:E3; [|done]. cbn [mbind option_bind] in E.
  destruct (take_int 4 b3) as [[v4 b4]|] eqn:E4; [|done]. cbn [mbind option_bind] in E.
  apply Hlen in E1 as (_ & -> & L1), E2 as (_ & -> & L2), E3 as (-> & -> & L3), E4 as (_ & -> & L4).
  rewrite !length_drop in *.
  assert (Hcap : le_val (take 4 (drop 4 (drop 4 t))) = caplen x.1).
  { unfold t. rewrite drop_drop, take_drop_commute, take_take, Nat.min_l by lia.
    rewrite <-take_drop_commute. unfold record_bytes, pcap_sf_pkthdr. rewrite <-!app_assoc.
    rewrite <-drop_drop, !drop_le_bytes, take_le_bytes, le_val_le_bytes.
    change (256 ^ Z.of_nat 4) with 4294967296. by rewrite Z.mod_small by lia. }
  rewrite Hcap, Ht in E. destruct (Nat.leb_spec (Z.to_nat (caplen x.1)) (n - 4 - 4 - 4 - 4)); [lia|done].
Qed.

(** What is read of a file that has been cut off is what was read of it before. *)
Lemma read_records_cut xs n fuel :
  Forall record_ok xs -> (n <= length (concat (map record_bytes xs)))%nat -> (n < fuel)%nat ->
  exists k, read_records fuel (take n (concat (map record_bytes xs))) = take k (map as_read xs) /\
    (n = length (concat (map record_bytes xs)) -> k = length xs).
Proof.
  intros Hok. revert n fuel. induction Hok as [|x xs Hx Hok IH]; intros n fuel Hn Hf.
  { exists O. destruct fuel as [|fuel]; [lia|]. cbn in *. by rewrite take_nil. }
  destruct fuel as [|fuel]; [lia|]. cbn [map concat] in *. rewrite length_app in Hn.
  cbn [read_records]. destruct (Nat.lt_ge_cases n (length (record_bytes x))) as [Hlt|Hge].
  - rewrite take_app_le, read_record_short by (done || lia). exists O. split; [done|].
    rewrite length_app. lia.
  - rewrite take_app_ge, read_record_ok by done.
    destruct (IH (n - length (record_bytes x))%nat fuel) as (k & E & Hk);
      [lia|rewrite length_record_bytes in *; lia|].
    exists (S k). cbn [take]. rewrite <-E. split; [done|]. rewrite length_app. intros H.
    cbn [length]. f_equal. apply Hk. lia.
Qed.

Lemma read_pcap_ok zone snaplen xs n :
  0 <= snaplen < 4294967296 -> Forall record_ok xs ->
  (24 <= n <= 24 + length (concat (map record_bytes xs)))%nat ->
  exists k, read_pcap (take n (pcap_file_header LINKTYPE_ETHERNET zone snaplen ++
      concat (map record_bytes xs))) =
    Some (i32 zone, snaplen, LINKTYPE_ETHERNET, take k (map as_read xs)) /\
    (n = (24 + length (concat (map record_bytes xs)))%nat -> k = length xs).
Proof.
  intros Hs Hok Hn. rewrite take_app_ge by (unfold pcap_file_header; rewrite !length_app, !length_le_bytes; lia).
  replace (length (pcap_file_header LINKTYPE_ETHERNET zone snaplen)) with 24%nat
    by (unfold pcap_file_header; by rewrite !length_app, !length_le_bytes).
  set (body := take (n - 24) _).
  destruct (read_records_cut xs (n - 24) (S (length body)) Hok) as (k & E & Hk); [lia| |].
  { unfold body. rewrite length_take. lia. }
  exists k. split; [|intros H; apply Hk; lia].
  unfold read_pcap, pcap_file_header. rewrite <-!app_assoc.
  repeat (rewrite take_int_ok; cbn [mbind option_bind]). rewrite i32_stored.
  change (256 ^ Z.of_nat 4) with 4294967296. rewrite (Z.mod_small snaplen) by done.
  fold body in E. by rewrite E.
Qed.

(** * Logging *)

(** A file with room for [room] bytes to which [all] was to be written. *)
Definition wrote (room : option nat) (all : buffer) (f : FILE) : Prop :=
  f = match room with
      | None => File all None
      | Some n => File (take n all) (Some (n - length all)%nat)
      end.

Lemma fwrite_wrote room all data f :
  wrote room all f -> wrote room (all ++ data) (fwrite data f).2.
Proof.
  intros ->. unfold wrote, fwrite. destruct room as [n|]; cbn; [|done].
  f_equal; [by rewrite take_app|]. rewrite length_app. f_equal. lia.
Qed.

(** A frame that is logged: when, its bytes, and the length given. *)
Definition logged : Type := Z * Z * buffer * Z.
Definition loggable (x : logged) : Prop :=
  let '(_, buf, len) := x in 0 <= len <= Z.of_nat (length buf).
Definition record_of (x : logged) : pcap_pkthdr * buffer :=
  let '(sec, usec, buf, len) := x in
  let n := Z.min PACKET_DUMP_SIZE len in (PcapPkthdr sec usec n n, take (Z.to_nat n) buf).

Lemma record_of_ok x : loggable x -> record_ok (record_of x).
Proof.
  destruct x as [[[sec usec] buf] len]. unfold loggable, record_ok, record_of, PACKET_DUMP_SIZE.
  cbn [caplen pkt_len fst snd]. rewrite length_take. lia.
Qed.

Lemma log_to_file_ok room all f sec usec buf len :
  wrote room all f -> loggable (sec, usec, buf, len) ->
  exists f', log_to_file (sec, usec) (Some f) buf len = Ok (Some f') /\
    wrote room (all ++ record_bytes (record_of (sec, usec, buf, len))) f'.
Proof.
  intros Hf Hl. unfold loggable in Hl. unfold log_to_file, sr_dump, record_of. cbn [fst snd].
  set (n := Z.min PACKET_DUMP_SIZE len).
  assert (Hn : 0 <= n <= 1024 /\ n <= Z.of_nat (length buf)) by (unfold n, PACKET_DUMP_SIZE; lia).
  assert (Hm : (if n <? PACKET_DUMP_SIZE then n else PACKET_DUMP_SIZE) = n)
    by (unfold PACKET_DUMP_SIZE in *; destruct (Z.ltb_spec n 1024); lia).
  rewrite Hm, !u32_small by lia. cbn [caplen].
  set (h := PcapPkthdr sec usec n n).
  pose proof (fwrite_wrote room all (pcap_sf_pkthdr h) f Hf) as H1.
  destruct (fwrite (pcap_sf_pkthdr h) f) as [ok f1]. cbn [snd] in H1.
  rewrite (proj2 (Z.leb_le _ _)), rd_ok by lia. cbn [mbind res_bind]. eexists. split; [reflexivity|].
  unfold record_bytes. cbn [fst snd]. rewrite app_assoc. exact (fwrite_wrote _ _ (take (Z.to_nat n) buf) _ H1).
Qed.

(** The frames that are logged one after the other. *)
Fixpoint log_frames (xs : list logged) (logfile : option FILE) : res (option FILE) :=
  match xs with
  | [] => Ok logfile
  | (sec, usec, buf, len) :: xs => f ← log_to_file (sec, usec) logfile buf len; log_frames xs f
  end.

Lemma log_frames_ok room xs all f :
  wrote room all f -> Forall loggable xs ->
  exists f', log_frames xs (Some f) = Ok (Some f') /\
    wrote room (all ++ concat (map record_bytes (map record_of xs))) f'.
Proof.
  intros Hf Hxs. revert all f Hf. induction Hxs as [|[[[sec usec] buf] len] xs Hx Hxs IH]; intros all f Hf.
  { exists f. split; [done|]. by rewrite app_nil_r. }
  destruct (log_to_file_ok room all f sec usec buf len Hf Hx) as (f1 & E1 & H1).
  destruct (IH _ f1 H1) as (f2 & E2 & H2). exists f2. cbn [log_frames]. rewrite E1. cbn [mbind res_bind].
  split; [exact E2|]. cbn [map concat]. by rewrite app_assoc.
Qed.

(** What the router keeps as its log (Instance) is what goes into the file. *)
Lemma log_same `{Env} s recs f usec buf len :
  in_logfile s = Some recs -> 0 <= len <= Z.of_nat (length buf) ->
  exists r, sr_log_packet buf len s = Ok (tt, set_logfile s (Some (recs ++ [r]))) /\
    record_of (in_clock s, usec, buf, len) = (PcapPkthdr (pc_sec r) usec (pc_caplen r) (pc_len r), pc_data r) /\
    exists f', log_to_file (in_clock s, usec) (Some f) buf len = Ok (Some f').
Proof.
  intros Hlog Hlen. unfold sr_log_packet. exec. rewrite Hlog.
  set (n := Z.min PACKET_DUMP_SIZE len).
  assert (Hn : 0 <= n <= 1024 /\ n <= Z.of_nat (length buf)) by (unfold n, PACKET_DUMP_SIZE; lia).
  assert (Hm : (if n <? PACKET_DUMP_SIZE then n else PACKET_DUMP_SIZE) = n)
    by (unfold PACKET_DUMP_SIZE in *; destruct (Z.ltb_spec n 1024); lia).
  rewrite Hm, !u32_small, (proj2 (Z.leb_le _ _)), rd_ok by lia. exec.
  eexists. split; [reflexivity|]. cbn [pc_sec pc_caplen pc_len pc_data]. split.
  - unfold record_of. fold n. unfold slice. by rewrite drop_0.
  - unfold log_to_file. fold n. rewrite Hm, !u32_small by lia. cbn [fst snd]. unfold sr_dump.
    destruct (fwrite _ _) as [ok f1]. cbn [caplen]. rewrite (proj2 (Z.leb_le _ _)), rd_ok by lia. by eexists.
Qed.

(** C31: The packet dump file. However many frames are logged, the file that
    [sr_dump_open] starts reads back, by the rules of the format, as the zone and
    length it was opened with, Ethernet, and every frame in order: the time as
    far as an [int] holds it, and the first 1024 bytes, whose number is also
    given as the length of the packet. When the disk fills up, no error is
    reported, and what the file has reads back as the first of the frames. *)
Theorem dump_round_trip stdout fopen fname zone snaplen room xs :
  fname <> [45] -> fopen fname = Some (File [] room) -> 0 <= snaplen < 4294967296 ->
  Forall loggable xs ->
  exists fp fp', sr_dump_open stdout fopen fname zone snaplen = Some fp /\
    log_frames xs (Some fp) = Ok (Some fp') /\
    (room = None -> read_pcap (fl_data fp') =
       Some (i32 zone, snaplen, LINKTYPE_ETHERNET, map (fun x => as_read (record_of x)) xs)) /\
    (forall n, room = Some n -> (24 <= n)%nat -> exists k, read_pcap (fl_data fp') =
       Some (i32 zone, snaplen, LINKTYPE_ETHERNET, take k (map (fun x => as_read (record_of x)) xs))).
Proof.
  intros Hn Hf Hs Hxs. unfold sr_dump_open. rewrite decide_False, Hf by done. cbn [mbind option_bind].
  eexists. unfold sf_write_header. set (hdr := pcap_file_header _ _ _).
  assert (H0 : wrote room hdr (fwrite hdr (File [] room)).2).
  { apply (fwrite_wrote room []). unfold wrote. destruct room; cbn; [|done].
    by rewrite take_nil, Nat.sub_0_r. }
  destruct (log_frames_ok room xs hdr _ H0 Hxs) as (fp' & E & H1). exists fp'.
  split; [reflexivity|]. split; [exact E|].
  set (recs := map record_of xs) in *.
  assert (Hrecs : Forall record_ok recs).
  { apply Forall_map. eapply Forall_impl; [exact Hxs|]. intros x. apply record_of_ok. }
  assert (Hh : length hdr = 24%nat) by (unfold hdr, pcap_file_header; by rewrite !length_app, !length_le_bytes).
  rewrite <-(map_map record_of as_read). fold recs.
  pose proof (fun n => read_pcap_ok zone snaplen recs n Hs Hrecs) as Hread. fold hdr in Hread.
  set (all := concat (map record_bytes recs)) in *. split.
  - intros ->. rewrite H1. cbn [fl_data].
    destruct (Hread (24 + length all)%nat ltac:(lia)) as (k & Ek & Hk).
    rewrite (take_ge (hdr ++ all)) in Ek by (rewrite length_app, Hh; lia).
    rewrite Ek, Hk by done. by rewrite take_ge by (by rewrite length_map).
  - intros n -> Hge. rewrite H1. cbn [fl_data].
    destruct (Nat.le_ge_cases n (24 + length all)) as [Hle|Hle].
    + destruct (Hread n ltac:(lia)) as (k & Ek & _). by exists k.
    + destruct (Hread (24 + length all)%nat ltac:(lia)) as (k & Ek & _). exists k.
      rewrite (take_ge (hdr ++ all)) in Ek by (rewrite length_app, Hh; lia).
      by rewrite (take_ge (hdr ++ all)) by (rewrite length_app, Hh; lia).
Qed.

Lemma dump_round_trip_witness :
  let fopen := fun _ : cstr => Some (File [] (Some 50%nat)) in
  exists fp fp', sr_dump_open (File [] None) fopen (str "log") 0 1024 = Some fp /\
    log_frames [(7, 8, [1; 2; 3], 3); (9, 1, [4; 5; 6], 2)] (Some fp) = Ok (Some fp') /\
    exists k, read_pcap (fl_data fp') = Some (0, 1024, 1,
      take k [(PcapPkthdr 7 8 3 3, [1; 2; 3]); (PcapPkthdr 9 1 2 2, [4; 5])]).
Proof.
  intros fopen.
  destruct (dump_round_trip (File [] None) fopen (str "log") 0 1024 (Some 50%nat)
    [(7, 8, [1; 2; 3], 3); (9, 1, [4; 5; 6], 2)]) as (fp & fp' & E1 & E2 & _ & H).
  - discriminate.
  - reflexivity.
  - split; [apply Z.leb_le|apply Z.ltb_lt]; reflexivity.
  - repeat constructor; apply Z.leb_le; reflexivity.
  - exists fp, fp'. split; [exact E1|]. split; [exact E2|].
    destruct (H 50%nat) as [k Hk]; [reflexivity|apply Nat.leb_le; reflexivity|].
    exists k. rewrite Hk. reflexivity.
Defined.
