(* ===== verification/RouterPrint.v ===== *)
(** The printing functions of the router: the headers of a frame
    (router/src/router/sr_utils.c), the routing table ([sr_rt.c]), the
    interfaces ([sr_if.c]) and the ARP cache ([sr_arpcache.c]). What is printed is the state, a text that grows. *)
From S2P Require Import Prelude Mem Protocol Interfaces RoutingTable ArpCache CString CStdio.

Abbreviation PM := (M buffer).

(** [fprintf(stderr, ...)] of a text, and of a label and a number on a line. *)
Definition out (s : buffer) : PM unit := modify (fun o => o ++ s).
Definition line (label : string) (n : Z) : PM unit :=
  out (9 :: str label ++ dec_signed n ++ [10]).

(** * Frames *)

Definition sizeof_icmp : nat := 36.
Definition IP_MF : Z := 0x2000.
Definition IP_RF : Z := 0x8000.
Definition IP_OFFMASK : Z := 0x1fff.

(** [ethertype] and [ip_protocol] *)
Definition ethertype (base : nat) (buf : buffer) : res Z :=
  ty ← ld ether_type base buf; mret (ntohs ty).
Definition ip_protocol (base : nat) (buf : buffer) : res Z := ld ip_p base buf.

(** [print_addr_eth]: pairs of digits with colons between them. *)
Fixpoint print_addr_loop (first : bool) (addr : buffer) : buffer :=
  match addr with
  | [] => []
  | cur :: addr => (if first then [] else [58]) ++ hex2 cur ++ print_addr_loop false addr
  end.
Definition print_addr_eth (addr : buffer) : PM unit := out (print_addr_loop true addr ++ [10]).

(** [print_addr_ip_int] *)
Definition print_addr_ip_int (ip : Z) : PM unit :=
  let curOctet := Z.shiftr ip 24 in
  out (dec_signed curOctet ++ [46]);;
  let curOctet := Z.shiftr (u32 (Z.shiftl ip 8)) 24 in
  out (dec_signed curOctet ++ [46]);;
  let curOctet := Z.shiftr (u32 (Z.shiftl ip 16)) 24 in
  out (dec_signed curOctet ++ [46]);;
  let curOctet := Z.shiftr (u32 (Z.shiftl ip 24)) 24 in
  out (dec_signed curOctet ++ [10]).

(** [print_hdr_eth] *)
Definition print_hdr_eth (base : nat) (buf : buffer) : PM unit :=
  out (str "ETHERNET header:" ++ [10]);;
  out (9 :: str "destination: ");;
  dhost ← lift (ld_arr ether_dhost base buf);
  print_addr_eth dhost;;
  out (9 :: str "source: ");;
  shost ← lift (ld_arr ether_shost base buf);
  print_addr_eth shost;;
  ty ← lift (ld ether_type base buf);
  line "type: " (ntohs ty).

(** [print_hdr_ip] *)
Definition print_hdr_ip (base : nat) (buf : buffer) : PM unit :=
  out (str "IP header:" ++ [10]);;
  v ← lift (ld_ip_v base buf);
  line "version: " v;;
  hl ← lift (ld_ip_hl base buf);
  line "header length: " hl;;
  tos ← lift (ld ip_tos base buf);
  line "type of service: " tos;;
  len ← lift (ld ip_len base buf);
  line "length: " (ntohs len);;
  id ← lift (ld ip_id base buf);
  line "id: " (ntohs id);;
  off ← lift (ld ip_off base buf);
  (if negb (Z.land (ntohs off) IP_DF =? 0) then out (9 :: str "fragment flag: DF" ++ [10])
   else if negb (Z.land (ntohs off) IP_MF =? 0) then out (9 :: str "fragment flag: MF" ++ [10])
   else if negb (Z.land (ntohs off) IP_RF =? 0) then out (9 :: str "fragment flag: R" ++ [10])
   else mret tt);;
  line "fragment offset: " (Z.land (ntohs off) IP_OFFMASK);;
  ttl ← lift (ld ip_ttl base buf);
  line "TTL: " ttl;;
  p ← lift (ld ip_p base buf);
  line "protocol: " p;;
  sum ← lift (ld ip_sum base buf);
  line "checksum: " sum;;
  out (9 :: str "source: ");;
  src ← lift (ld ip_src base buf);
  print_addr_ip_int (ntohl src);;
  out (9 :: str "destination: ");;
  dst ← lift (ld ip_dst base buf);
  print_addr_ip_int (ntohl dst).

(** [print_hdr_icmp] *)
Definition print_hdr_icmp (base : nat) (buf : buffer) : PM unit :=
  out (str "ICMP header:" ++ [10]);;
  ty ← lift (ld icmp_type base buf);
  line "type: " ty;;
  code ← lift (ld icmp_code base buf);
  line "code: " code;;
  sum ← lift (ld icmp_sum base buf);
  line "checksum: " sum.

(** [print_hdr_arp] *)
Definition print_hdr_arp (base : nat) (buf : buffer) : PM unit :=
  out (str "ARP header" ++ [10]);;
  hrd ← lift (ld ar_hrd base buf);
  line "hardware type: " (ntohs hrd);;
  pro ← lift (ld ar_pro base buf);
  line "protocol type: " (ntohs pro);;
  hln ← lift (ld ar_hln base buf);
  line "hardware address length: " hln;;
  pln ← lift (ld ar_pln base buf);
  line "protocol address length: " pln;;
  op ← lift (ld ar_op base buf);
  line "opcode: " (ntohs op);;
  out (9 :: str "sender hardware address: ");;
  sha ← lift (ld_arr ar_sha base buf);
  print_addr_eth sha;;
  out (9 :: str "sender ip address: ");;
  sip ← lift (ld ar_sip base buf);
  print_addr_ip_int (ntohl sip);;
  out (9 :: str "target hardware address: ");;
  tha ← lift (ld_arr ar_tha base buf);
  print_addr_eth tha;;
  out (9 :: str "target ip address: ");;
  tip ← lift (ld ar_tip base buf);
  print_addr_ip_int (ntohl tip).

(** [print_hdrs] *)
Definition insufficient (header : string) : PM unit :=
  out (str "Failed to print " ++ str header ++ str " header, insufficient length" ++ [10]).
(** What follows the Ethernet header; [minlength] is what has been printed. *)
Definition print_payload_hdrs (buf : buffer) (length minlength : nat) (ethtype : Z) : PM unit :=
  if ethtype =? ethertype_ip then
    let minlength := (minlength + sizeof_ip)%nat in
    if (length <? minlength)%nat then insufficient "IP"
    else
      print_hdr_ip sizeof_ether buf;;
      ip_proto ← lift (ip_protocol sizeof_ether buf);
      if ip_proto =? ip_protocol_icmp then
        let minlength := (minlength + sizeof_icmp)%nat in
        if (length <? minlength)%nat then insufficient "ICMP"
        else print_hdr_icmp (sizeof_ether + sizeof_ip) buf
      else mret tt
  else if ethtype =? ethertype_arp then
    let minlength := (minlength + sizeof_arp)%nat in
    if (length <? minlength)%nat then insufficient "ARP"
    else print_hdr_arp sizeof_ether buf
  else out (str "Unrecognized Ethernet Type: " ++ dec_signed ethtype ++ [10]).
Definition print_hdrs (buf : buffer) (length : nat) : PM unit :=
  let minlength := sizeof_ether in
  if (length <? minlength)%nat then insufficient "ETHERNET"
  else
    ethtype ← lift (ethertype 0 buf);
    print_hdr_eth 0 buf;;
    print_payload_hdrs buf length minlength ethtype.

(** * Tables *)

Section tables.
(** [inet_ntoa] of the C library. *)
Context (inet_ntoa : Z -> buffer).

(** [sr_print_routing_entry] and [sr_print_routing_table] *)
Definition sr_print_routing_entry (entry : sr_rt) : PM unit :=
  out (inet_ntoa (rt_dest entry) ++ [9; 9]);;
  out (inet_ntoa (rt_gw entry) ++ [9]);;
  out (inet_ntoa (rt_mask entry) ++ [9]);;
  (if (length (rt_iface entry) <? sr_IFACE_NAMELEN)%nat then mret tt else fail OutOfBounds);;
  out (rt_iface entry ++ [10]).
Fixpoint print_entries (rt_walker : list sr_rt) : PM unit :=
  match rt_walker with
  | [] => mret tt
  | r :: next => sr_print_routing_entry r;; print_entries next
  end.
Definition sr_print_routing_table (routing_table : list sr_rt) : PM unit :=
  match routing_table with
  | [] => out (str " *warning* Routing table empty " ++ [10])
  | _ =>
      out (str "Destination" ++ [9] ++ str "Gateway" ++ [9; 9] ++ str "Mask" ++ [9] ++ str "Iface" ++ [10]);;
      print_entries routing_table
  end.

(** [DebugMAC], with small letters, and [sr_print_if] and [sr_print_if_list]. *)
Definition hex2_small (b : Z) : buffer :=
  let digit d := if d <? 10 then 48 + d else 87 + d in [digit (b / 16); digit (b mod 16)].
Fixpoint DebugMAC (x : buffer) : buffer :=
  match x with
  | [] => []
  | [b] => hex2_small b
  | b :: x => hex2_small b ++ 58 :: DebugMAC x
  end.
Definition sr_print_if (iface : sr_if) : PM unit :=
  (if (length (if_name iface) <? sr_IFACE_NAMELEN)%nat then mret tt else fail OutOfBounds);;
  out (if_name iface ++ 9 :: str "HWaddr");;
  out (DebugMAC (if_addr iface));;
  out [10];;
  out (9 :: str "inet addr " ++ inet_ntoa (if_ip iface) ++ [10]).
Fixpoint print_ifs (if_walker : list sr_if) : PM unit :=
  match if_walker with
  | [] => mret tt
  | i :: next => sr_print_if i;; print_ifs next
  end.
Definition sr_print_if_list (if_list : list sr_if) : PM unit :=
  match if_list with
  | [] => out (str " Interface list empty " ++ [10])
  | _ => print_ifs if_list
  end.
End tables.

(** ** The ARP cache *)

(** [%.1x] and [%.8x]: a number in base 16 with at least so many digits. *)
Definition hex_min (prec : nat) (n : Z) : buffer :=
  let digits := print_digits (print_fuel n) 16 n (fun d => if d <? 10 then 48 + d else 87 + d) [] in
  replicate (prec - length digits) 48 ++ digits.

Section cache.
(** [ctime], of the C library. *)
Context (ctime : Z -> buffer).

(** A line of [sr_arpcache_dump], and the whole. *)
Definition print_arpentry (cur : sr_arpentry) : PM unit :=
  mac ← lift (rd 0 6 (ae_mac cur));
  out (concat (map (hex_min 1) mac) ++ str "   " ++ hex_min 8 (ntohl (ae_ip cur)) ++ str "   " ++
       take 24 (ctime (ae_added cur)) ++ str "   " ++ dec_signed (if ae_valid cur then 1 else 0) ++ [10]).
Fixpoint print_arpentries (entries : list sr_arpentry) : PM unit :=
  match entries with
  | [] => mret tt
  | cur :: entries => print_arpentry cur;; print_arpentries entries
  end.
Definition sr_arpcache_dump (cache : sr_arpcache) : PM unit :=
  out (10 :: str "MAC            IP         ADDED                      VALID" ++ [10]);;
  out (str "-----------------------------------------------------------" ++ [10]);;
  print_arpentries (ac_entries cache);;
  out [10].

(** The digits of an address run together, so that the text does not determine it. *)
Lemma dump_ambiguous ip added valid :
  print_arpentry (SrArpEntry [1; 17; 2; 3; 4; 5] ip added valid) =
  print_arpentry (SrArpEntry [17; 1; 2; 3; 4; 5] ip added valid).
Proof. reflexivity. Qed.
End cache.

(** * What is printed *)

(** [m] prints [t], whatever has been printed before. *)
Definition prints (m : PM unit) (t : buffer) : Prop := forall o, m o = Ok (tt, o ++ t).

Lemma prints_out t : prints (out t) t.
Proof. by intros o. Qed.

Lemma prints_same m t u : prints m t -> prints m u -> t = u.
Proof. intros Ht Hu. specialize (Ht []). rewrite Hu in Ht. by injection Ht. Qed.

Lemma prints_nil : prints (mret tt) [].
Proof. intros o. by rewrite app_nil_r. Qed.

Lemma prints_seq (m k : PM unit) t u : prints m t -> prints k u -> prints (m;; k) (t ++ u).
Proof. intros Hm Hk o. rewrite (bind_ok _ _ _ _ _ (Hm o)), Hk. by rewrite app_assoc. Qed.

Lemma prints_lift {A} (r : res A) (k : A -> PM unit) a t :
  r = Ok a -> prints (k a) t -> prints (a ← lift r; k a) t.
Proof. intros -> H o. exec. apply H. Qed.

Lemma prints_ld f base buf (k : Z -> PM unit) t :
  in_field f base buf -> prints (k (fval f base buf)) t -> prints (v ← lift (ld f base buf); k v) t.
Proof. intros Hf. by apply prints_lift, ld_ok. Qed.

Lemma prints_ld_arr f base buf (k : buffer -> PM unit) t :
  in_field f base buf -> prints (k (fbytes f base buf)) t ->
  prints (v ← lift (ld_arr f base buf); k v) t.
Proof. intros Hf. by apply prints_lift, ld_arr_ok. Qed.

(** The text of a line, of a hardware address and of an address. *)
Definition line_text (label : string) (n : Z) : buffer := 9 :: str label ++ dec_signed n ++ [10].
Definition mac_text (addr : buffer) : buffer := print_addr_loop true addr ++ [10].
Definition dotted_text (bytes : buffer) : buffer :=
  match bytes with
  | [a; b; c; d] => dec a ++ 46 :: dec b ++ 46 :: dec c ++ 46 :: dec d ++ [10]
  | _ => []
  end.

Lemma prints_line label n : prints (line label n) (line_text label n).
Proof. apply prints_out. Qed.
Lemma prints_mac addr : prints (print_addr_eth addr) (mac_text addr).
Proof. apply prints_out. Qed.

Lemma dec_signed_nonneg n : 0 <= n -> dec_signed n = dec n.
Proof. intros Hn. unfold dec_signed. by rewrite (proj2 (Z.ltb_ge _ _)). Qed.

(** The octets of an address in network byte order are printed in the order in
    which they are stored. *)
Lemma prints_ip a :
  0 <= a < 4294967296 -> prints (print_addr_ip_int (ntohl a)) (dotted_text (le_bytes 4 a)).
Proof.
  intros Ha. unfold print_addr_ip_int.
  assert (Hb : exists b0 b1 b2 b3, le_bytes 4 a = [b0; b1; b2; b3] /\ is_byte b0 /\ is_byte b1 /\
    is_byte b2 /\ is_byte b3 /\ ntohl a = b0 * 16777216 + b1 * 65536 + b2 * 256 + b3).
  { pose proof (le_bytes_ok 4 a) as Hok. unfold ntohl, htonl, bswap.
    cbn [le_bytes] in *. repeat (apply Forall_cons in Hok as [? Hok]).
    do 4 eexists. split; [reflexivity|]. do 4 (split; [assumption|]). cbn. lia. }
  destruct Hb as (b0 & b1 & b2 & b3 & E & H0 & H1 & H2 & H3 & V). rewrite E, V.
  unfold is_byte in *. unfold u32.
  rewrite !Z.shiftr_div_pow2, !Z.shiftl_mul_pow2 by lia.
  change (2 ^ 24) with 16777216. change (2 ^ 16) with 65536. change (2 ^ 8) with 256.
  assert (E0 : (b0 * 16777216 + b1 * 65536 + b2 * 256 + b3) / 16777216 = b0) by (Z.to_euclidean_division_equations; lia).
  assert (E1 : (b0 * 16777216 + b1 * 65536 + b2 * 256 + b3) * 256 mod 4294967296 / 16777216 = b1)
    by (Z.to_euclidean_division_equations; lia).
  assert (E2 : (b0 * 16777216 + b1 * 65536 + b2 * 256 + b3) * 65536 mod 4294967296 / 16777216 = b2)
    by (Z.to_euclidean_division_equations; lia).
  assert (E3 : (b0 * 16777216 + b1 * 65536 + b2 * 256 + b3) * 16777216 mod 4294967296 / 16777216 = b3)
    by (Z.to_euclidean_division_equations; lia).
  cbv zeta. rewrite E0, E1, E2, E3, !dec_signed_nonneg by lia.
  replace (dotted_text [b0; b1; b2; b3]) with
    ((dec b0 ++ [46]) ++ (dec b1 ++ [46]) ++ (dec b2 ++ [46]) ++ (dec b3 ++ [10]))
    by (cbn [dotted_text]; by rewrite <-!app_assoc).
  repeat apply prints_seq; apply prints_out.
Qed.

Ltac in_bounds := unfold sizeof_ether, sizeof_ip, sizeof_arp, sizeof_icmp in *; unfold in_field; cbn; lia.

(** Runs a printing function on a buffer that is long enough. *)
Ltac printing :=
  lazymatch goal with
  | |- prints (line _ _) _ => apply prints_line
  | |- prints (print_addr_eth _) _ => apply prints_mac
  | |- prints (print_addr_ip_int _) _ =>
      apply prints_ip; apply (fval_range (Field _ 4)); [in_bounds|assumption]
  | |- prints (out _) _ => apply prints_out
  | |- prints (mbind _ (lift (ld _ _ _))) _ => eapply prints_ld; [in_bounds|printing]
  | |- prints (mbind _ (lift (ld_arr _ _ _))) _ => eapply prints_ld_arr; [in_bounds|printing]
  | |- prints (mbind _ _) _ => eapply prints_seq; [printing|printing]
  end.

(** The texts of the headers. *)
Definition eth_text (e : ether_view) : buffer :=
  (str "ETHERNET header:" ++ [10]) ++ (9 :: str "destination: ") ++ mac_text (ev_dhost e) ++
  (9 :: str "source: ") ++ mac_text (ev_shost e) ++ line_text "type: " (ev_type e).
Definition arp_text (a : arp_view) : buffer :=
  (str "ARP header" ++ [10]) ++ line_text "hardware type: " (av_hrd a) ++
  line_text "protocol type: " (av_pro a) ++ line_text "hardware address length: " (av_hln a) ++
  line_text "protocol address length: " (av_pln a) ++ line_text "opcode: " (av_op a) ++
  (9 :: str "sender hardware address: ") ++ mac_text (av_sha a) ++
  (9 :: str "sender ip address: ") ++ dotted_text (le_bytes 4 (av_sip a)) ++
  (9 :: str "target hardware address: ") ++ mac_text (av_tha a) ++
  (9 :: str "target ip address: ") ++ dotted_text (le_bytes 4 (av_tip a)).

Lemma prints_hdr_eth buf :
  (sizeof_ether <= length buf)%nat -> prints (print_hdr_eth 0 buf) (eth_text (view_ether buf)).
Proof. intros Hl. unfold print_hdr_eth, eth_text, view_ether. cbn [ev_dhost ev_shost ev_type]. printing. Qed.

Lemma prints_hdr_arp buf :
  bytes_ok buf -> (sizeof_ether + sizeof_arp <= length buf)%nat ->
  prints (print_hdr_arp sizeof_ether buf) (arp_text (view_arp buf)).
Proof. intros Hok Hl.
  unfold print_hdr_arp, arp_text, view_arp.
  cbn [av_hrd av_pro av_hln av_pln av_op av_sha av_sip av_tha av_tip]. printing. Qed.

Lemma prints_hdr_icmp base buf :
  (base + sizeof_icmp <= length buf)%nat -> exists t, prints (print_hdr_icmp base buf) t.
Proof. intros Hl. unfold print_hdr_icmp. eexists. printing. Qed.

Lemma prints_flags off : exists t, prints
  (if negb (Z.land off IP_DF =? 0) then out (9 :: str "fragment flag: DF" ++ [10])
   else if negb (Z.land off IP_MF =? 0) then out (9 :: str "fragment flag: MF" ++ [10])
   else if negb (Z.land off IP_RF =? 0) then out (9 :: str "fragment flag: R" ++ [10])
   else mret tt) t.
Proof.
  repeat match goal with |- context [if ?b then _ else _] => destruct b end;
    eexists; (apply prints_out || apply prints_nil).
Qed.

Lemma prints_hdr_ip buf :
  bytes_ok buf -> (sizeof_ether + sizeof_ip <= length buf)%nat ->
  exists t, prints (print_hdr_ip sizeof_ether buf) t.
Proof.
  intros Hok Hl. destruct (prints_flags (ntohs (fval ip_off sizeof_ether buf))) as [t Ht].
  assert (Hv : ld_ip_v sizeof_ether buf = Ok (Z.shiftr (fval ip_hl_v sizeof_ether buf) 4))
    by (unfold ld_ip_v; by rewrite ld_ok by in_bounds).
  assert (Hh : ld_ip_hl sizeof_ether buf = Ok (Z.land (fval ip_hl_v sizeof_ether buf) 0xf))
    by (unfold ld_ip_hl; by rewrite ld_ok by in_bounds).
  eexists. unfold print_hdr_ip.
  eapply prints_seq; [printing|]. eapply prints_lift; [exact Hv|].
  eapply prints_seq; [printing|]. eapply prints_lift; [exact Hh|].
  do 3 (eapply prints_seq; [printing|]; eapply prints_ld; [in_bounds|]).
  do 1 (eapply prints_seq; [printing|]; eapply prints_ld; [in_bounds|]).
  eapply prints_seq; [exact Ht|]. printing.
Qed.

(** * Reading what has been printed *)

Lemma dec_inj n m c d r r' :
  0 <= n -> 0 <= m -> is_digit c = false -> is_digit d = false ->
  dec n ++ c :: r = dec m ++ d :: r' -> n = m /\ c :: r = d :: r'.
Proof.
  intros Hn Hm Hc Hd E. assert (n = m) as ->.
  { rewrite <-(digits_dec n (c :: r)), <-(digits_dec m (d :: r')) by done. by rewrite E. }
  split; [done|]. by apply app_inv_head in E.
Qed.

Lemma line_text_inj label n m r r' :
  0 <= n -> 0 <= m -> line_text label n ++ r = line_text label m ++ r' -> n = m /\ r = r'.
Proof.
  intros Hn Hm. unfold line_text. rewrite !dec_signed_nonneg by done.
  intros [= E]. rewrite <-!app_assoc in E. apply app_inv_head in E. cbn [app] in E.
  apply dec_inj in E as [-> [= ->]]; done.
Qed.

Lemma hex2_inj a b r r' :
  is_byte a -> is_byte b -> hex2 a ++ r = hex2 b ++ r' -> a = b /\ r = r'.
Proof.
  unfold is_byte. intros Ha Hb [= E1 E2 ->]. split; [|done].
  assert (Hd : forall d e, 0 <= d < 16 -> 0 <= e < 16 -> hex_digit d = hex_digit e -> d = e).
  { intros d e Hd He. unfold hex_digit. destruct (Z.ltb_spec d 10), (Z.ltb_spec e 10); lia. }
  apply Hd in E1; [|Z.to_euclidean_division_equations; lia..].
  apply Hd in E2; [|apply Z.mod_pos_bound; lia..].
  rewrite (Z.div_mod a 16), (Z.div_mod b 16) by lia. by rewrite E1, E2.
Qed.

Lemma mac_loop_inj a : forall first b r r',
  bytes_ok a -> bytes_ok b -> length a = length b ->
  print_addr_loop first a ++ r = print_addr_loop first b ++ r' -> a = b /\ r = r'.
Proof.
  induction a as [|x a IH]; intros first [|y b] r r' Ha Hb Hl; try done.
  apply Forall_cons in Ha as [Hx Ha]. apply Forall_cons in Hb as [Hy Hb]. cbn [print_addr_loop].
  rewrite <-!app_assoc. intros E%app_inv_head. apply hex2_inj in E as [-> E]; [|done..].
  apply IH in E as [-> ->]; [done|done|done|by injection Hl].
Qed.

Lemma mac_text_inj a b r r' :
  bytes_ok a -> bytes_ok b -> length a = length b ->
  mac_text a ++ r = mac_text b ++ r' -> a = b /\ r = r'.
Proof.
  intros Ha Hb Hl. unfold mac_text. rewrite <-!app_assoc. intros E.
  apply mac_loop_inj in E as [-> [= ->]]; done.
Qed.

Lemma dotted_text_inj a b r r' :
  bytes_ok a -> bytes_ok b -> length a = 4%nat -> length b = 4%nat ->
  dotted_text a ++ r = dotted_text b ++ r' -> a = b /\ r = r'.
Proof.
  intros Ha Hb. destruct a as [|a0 [|a1 [|a2 [|a3 [|]]]]]; try done.
  destruct b as [|b0 [|b1 [|b2 [|b3 [|]]]]]; try done. intros _ _.
  unfold bytes_ok in *. rewrite !Forall_cons in Ha, Hb. unfold is_byte in *.
  destruct Ha as (? & ? & ? & ? & _), Hb as (? & ? & ? & ? & _). cbn [dotted_text].
  repeat (rewrite <-app_assoc || rewrite <-app_comm_cons). intros E.
  do 4 (apply dec_inj in E as [-> E]; [injection E as E|lia|lia|done|done]).
  by rewrite E.
Qed.

Lemma le_bytes_inj n a b :
  0 <= a < 256 ^ Z.of_nat n -> 0 <= b < 256 ^ Z.of_nat n -> le_bytes n a = le_bytes n b -> a = b.
Proof.
  intros Ha Hb E%(f_equal le_val). by rewrite !le_val_le_bytes, !Z.mod_small in E.
Qed.

(** Views whose fields are in the ranges of their types. *)
Definition ether_in_range (e : ether_view) : Prop :=
  bytes_ok (ev_dhost e) /\ length (ev_dhost e) = 6%nat /\ bytes_ok (ev_shost e) /\
  length (ev_shost e) = 6%nat /\ 0 <= ev_type e.
Definition arp_in_range (a : arp_view) : Prop :=
  (0 <= av_hrd a /\ 0 <= av_pro a /\ 0 <= av_hln a /\ 0 <= av_pln a /\ 0 <= av_op a) /\
  (bytes_ok (av_sha a) /\ length (av_sha a) = 6%nat) /\ 0 <= av_sip a < 256 ^ Z.of_nat 4 /\
  (bytes_ok (av_tha a) /\ length (av_tha a) = 6%nat) /\ 0 <= av_tip a < 256 ^ Z.of_nat 4.

Lemma eth_text_inj e e' r r' :
  ether_in_range e -> ether_in_range e' -> eth_text e ++ r = eth_text e' ++ r' -> e = e' /\ r = r'.
Proof.
  destruct e as [d s t], e' as [d' s' t']. unfold ether_in_range, eth_text.
  cbn [ev_dhost ev_shost ev_type]. intros (? & ? & ? & ? & ?) (? & ? & ? & ? & ?).
  rewrite <-!app_assoc. intros E. do 3 apply app_inv_head in E.
  apply mac_text_inj in E as [-> E%app_inv_head]; [|done|done|congruence].
  apply mac_text_inj in E as [-> E]; [|done|done|congruence].
  apply line_text_inj in E as [-> E]; done.
Qed.

Lemma arp_text_inj a a' : arp_in_range a -> arp_in_range a' -> arp_text a = arp_text a' -> a = a'.
Proof.
  destruct a as [h p hl pl op sha sip tha tip], a' as [h' p' hl' pl' op' sha' sip' tha' tip'].
  unfold arp_in_range, arp_text. cbn [av_hrd av_pro av_hln av_pln av_op av_sha av_sip av_tha av_tip].
  intros ((? & ? & ? & ? & ?) & (? & ?) & ? & (? & ?) & ?) ((? & ? & ? & ? & ?) & (? & ?) & ? & (? & ?) & ?) E.
  apply (f_equal (fun t => t ++ [])) in E. rewrite <-!app_assoc in E. do 2 apply app_inv_head in E.
  do 5 (apply line_text_inj in E as [-> E]; [|done|done]). apply app_inv_head in E.
  apply mac_text_inj in E as [-> E%app_inv_head]; [|done|done|congruence].
  apply dotted_text_inj in E as [E1 E%app_inv_head]; [|apply le_bytes_ok|apply le_bytes_ok|apply length_le_bytes|apply length_le_bytes].
  apply mac_text_inj in E as [-> E%app_inv_head]; [|done|done|congruence].
  apply dotted_text_inj in E as [E2 _]; [|apply le_bytes_ok|apply le_bytes_ok|apply length_le_bytes|apply length_le_bytes].
  apply le_bytes_inj in E1 as ->; [|done|done]. by apply le_bytes_inj in E2 as ->.
Qed.

Lemma view_ether_in_range fr :
  bytes_ok fr -> (sizeof_ether <= length fr)%nat -> ether_in_range (view_ether fr).
Proof.
  intros Hok Hl. unfold ether_in_range, view_ether. cbn [ev_dhost ev_shost ev_type].
  split; [by apply fbytes_ok|]. split; [apply length_fbytes; in_bounds|].
  split; [by apply fbytes_ok|]. split; [apply length_fbytes; in_bounds|].
  apply (bswap_range 2).
Qed.

Lemma view_arp_in_range fr :
  bytes_ok fr -> (sizeof_ether + sizeof_arp <= length fr)%nat -> arp_in_range (view_arp fr).
Proof.
  intros Hok Hl. unfold arp_in_range, view_arp.
  cbn [av_hrd av_pro av_hln av_pln av_op av_sha av_sip av_tha av_tip].
  assert (Hr : forall f, in_field f sizeof_ether fr ->
    0 <= fval f sizeof_ether fr < 256 ^ Z.of_nat (f_size f)) by (intros f Hf; by apply fval_range).
  repeat split; try (by apply fbytes_ok); try apply (bswap_range 2); try (apply length_fbytes; in_bounds);
    apply (Hr (Field _ _)); in_bounds.
Qed.

(** * Printing a frame *)

Lemma prints_ethertype buf (k : Z -> PM unit) t :
  (sizeof_ether <= length buf)%nat -> prints (k (ev_type (view_ether buf))) t ->
  prints (v ← lift (ethertype 0 buf); k v) t.
Proof. intros Hl. apply prints_lift. unfold ethertype. by rewrite ld_ok by in_bounds. Qed.

(** What is printed of an ARP packet. *)
Lemma prints_arp fr n :
  bytes_ok fr -> (n <= length fr)%nat -> (sizeof_ether + sizeof_arp <= n)%nat ->
  ev_type (view_ether fr) = ethertype_arp ->
  prints (print_hdrs fr n) (eth_text (view_ether fr) ++ arp_text (view_arp fr)).
Proof.
  intros Hok Hn Hl Ht. unfold print_hdrs.
  rewrite (proj2 (Nat.ltb_ge _ _)) by (unfold sizeof_ether, sizeof_arp in *; lia).
  apply prints_ethertype; [unfold sizeof_ether, sizeof_arp in *; lia|]. rewrite Ht.
  apply prints_seq; [apply prints_hdr_eth; unfold sizeof_ether, sizeof_arp in *; lia|].
  unfold print_payload_hdrs. change (ethertype_arp =? ethertype_ip) with false. rewrite Z.eqb_refl. cbn iota.
  rewrite (proj2 (Nat.ltb_ge _ _)) by done. apply prints_hdr_arp; [done|lia].
Qed.

Definition short_icmp : buffer :=
  str "Failed to print " ++ str "ICMP" ++ str " header, insufficient length" ++ [10].

Lemma prints_hdrs fr n :
  bytes_ok fr -> (n <= length fr)%nat ->
  exists t, prints (print_hdrs fr n) t /\
    (ev_type (view_ether fr) = ethertype_ip -> iv_p (view_ip fr) = ip_protocol_icmp ->
     (sizeof_ether + sizeof_ip <= n < sizeof_ether + sizeof_ip + sizeof_icmp)%nat ->
     exists t', t = t' ++ short_icmp).
Proof.
  intros Hok Hn. unfold print_hdrs. destruct (Nat.ltb_spec n sizeof_ether) as [Hl|Hl].
  { eexists. split; [apply prints_out|]. lia. }
  set (ty := ev_type (view_ether fr)).
  assert (H : exists t, prints (print_payload_hdrs fr n sizeof_ether ty) t /\
    (ty = ethertype_ip -> iv_p (view_ip fr) = ip_protocol_icmp ->
     (sizeof_ether + sizeof_ip <= n < sizeof_ether + sizeof_ip + sizeof_icmp)%nat ->
     exists t', t = t' ++ short_icmp)); [|destruct H as (t & Ht & Hs)].
  2:{ exists (eth_text (view_ether fr) ++ t). split.
      - apply prints_ethertype; [lia|]. apply prints_seq; [apply prints_hdr_eth; lia|exact Ht].
      - intros H1 H2 H3. destruct (Hs H1 H2 H3) as [t' ->]. eexists. by rewrite app_assoc. }
  unfold print_payload_hdrs. destruct (Z.eqb_spec ty ethertype_ip) as [_|Hne].
  - destruct (Nat.ltb_spec n (sizeof_ether + sizeof_ip)) as [Hi|Hi].
    { eexists. split; [apply prints_out|]. lia. }
    destruct (prints_hdr_ip fr Hok ltac:(lia)) as [t Ht].
    assert (Hp : ip_protocol sizeof_ether fr = Ok (iv_p (view_ip fr)))
      by (unfold ip_protocol; by rewrite ld_ok by in_bounds).
    destruct (Z.eqb_spec (iv_p (view_ip fr)) ip_protocol_icmp) as [Hicmp|Hno].
    + destruct (Nat.ltb_spec n (sizeof_ether + sizeof_ip + sizeof_icmp)) as [Hc|Hc].
      * exists (t ++ short_icmp). split; [|by eexists].
        apply prints_seq; [exact Ht|]. eapply prints_lift; [exact Hp|]. rewrite Hicmp. cbn iota.
        apply prints_out.
      * destruct (prints_hdr_icmp (sizeof_ether + sizeof_ip) fr ltac:(lia)) as [t' Ht'].
        exists (t ++ t'). split; [|lia].
        apply prints_seq; [exact Ht|]. eapply prints_lift; [exact Hp|]. by rewrite Hicmp.
    + exists (t ++ []). split; [|done].
      apply prints_seq; [exact Ht|]. eapply prints_lift; [exact Hp|].
      rewrite (proj2 (Z.eqb_neq _ _)) by done. apply prints_nil.
  - destruct (Z.eqb_spec ty ethertype_arp) as [_|Hno].
    + destruct (Nat.ltb_spec n (sizeof_ether + sizeof_arp)) as [Ha|Ha].
      { eexists. by split; [apply prints_out|]. }
      eexists. split; [apply prints_hdr_arp; [done|lia]|done].
    + eexists. by split; [apply prints_out|].
Qed.

(** C40: [print_hdrs] is safe and, for ARP, tells all. It accesses nothing beyond the
    length that it is given, whatever the frame is, and only adds to what has
    been printed; two ARP packets of which it prints the same have the same
    fields, those of Ethernet included, so the text determines the packet. An
    ICMP message of less than 36 bytes, such as an empty ping, is reported as
    too short to be printed. *)
Theorem print_hdrs_reports :
  (forall fr n, bytes_ok fr -> (n <= length fr)%nat -> exists t, prints (print_hdrs fr n) t) /\
  (forall fr fr' n n' t,
     bytes_ok fr -> (sizeof_ether + sizeof_arp <= n <= length fr)%nat ->
     ev_type (view_ether fr) = ethertype_arp -> prints (print_hdrs fr n) t ->
     bytes_ok fr' -> (sizeof_ether + sizeof_arp <= n' <= length fr')%nat ->
     ev_type (view_ether fr') = ethertype_arp -> prints (print_hdrs fr' n') t ->
     view_ether fr = view_ether fr' /\ view_arp fr = view_arp fr') /\
  (forall fr n, bytes_ok fr -> (n <= length fr)%nat ->
     ev_type (view_ether fr) = ethertype_ip -> iv_p (view_ip fr) = ip_protocol_icmp ->
     (sizeof_ether + sizeof_ip <= n < sizeof_ether + sizeof_ip + sizeof_icmp)%nat ->
     exists t, prints (print_hdrs fr n)
       (t ++ str "Failed to print ICMP header, insufficient length" ++ [10])).
Proof.
  split; [|split].
  - intros fr n Hok Hn. destruct (prints_hdrs fr n Hok Hn) as (t & Ht & _). by exists t.
  - intros fr fr' n n' t Hok Hn Ht Hp Hok' Hn' Ht' Hp'.
    pose proof (prints_arp fr n Hok ltac:(lia) ltac:(lia) Ht) as H1.
    pose proof (prints_arp fr' n' Hok' ltac:(lia) ltac:(lia) Ht') as H2.
    pose proof (prints_same _ _ _ H1 Hp) as <-. pose proof (prints_same _ _ _ H2 Hp') as E.
    symmetry in E. apply eth_text_inj in E as [E1 E2];
      [|apply view_ether_in_range; [done|unfold sizeof_ether, sizeof_arp in *; lia]..].
    split; [exact E1|]. apply arp_text_inj; [apply view_arp_in_range; [done|lia]..|exact E2].
  - intros fr n Hok Hn H1 H2 H3. destruct (prints_hdrs fr n Hok Hn) as (t & Ht & Hs).
    destruct (Hs H1 H2 H3) as [t' ->]. exists t'. exact Ht.
Qed.

Lemma print_hdrs_reports_witness :
  let fr := replicate 12 255 ++ [8; 6] ++ [0; 1; 8; 0; 6; 4; 0; 1] ++ replicate 20 7 in
  (exists t, prints (print_hdrs fr 42) t) /\
  (exists t, prints (print_hdrs (replicate 12 255 ++ [8; 0] ++ replicate 9 0 ++ [1] ++ replicate 18 0) 42)
    (t ++ str "Failed to print ICMP header, insufficient length" ++ [10])).
Proof.
  intros fr. destruct print_hdrs_reports as (H1 & _ & H3).
  assert (Hb : forall l, forallb (fun b => (0 <=? b) && (b <? 256)) l = true -> bytes_ok l).
  { intros l Hl. apply Forall_forall. intros b Hin. apply list_elem_of_In in Hin.
    rewrite forallb_forall in Hl. apply Hl in Hin. apply andb_true_iff in Hin. unfold is_byte. lia. }
  split.
  - apply H1; [apply Hb; vm_compute; reflexivity|apply Nat.leb_le; vm_compute; reflexivity].
  - apply H3; [apply Hb; vm_compute; reflexivity|apply Nat.leb_le; vm_compute; reflexivity| | |].
    + vm_compute. reflexivity.
    + vm_compute. reflexivity.
    + split; [apply Nat.leb_le; vm_compute; reflexivity|apply Nat.ltb_lt; vm_compute; reflexivity].
Defined.
