(* ===== verification/RouterStart.v ===== *)
(** The router's main program (router/src/router/sr_main.c): its options, the
    instance it starts with, and the run of the program. *)
From S2P Require Import Prelude Mem Protocol Interfaces RoutingTable ArpCache Instance Router Sockets CString CStdio Sha1 Vns RouterDump RouterPrint.

(** * Options *)

Record options := Options {
  o_host : cstr; o_user : option cstr; o_server : cstr; o_rtable : cstr;
  o_template : option cstr; o_port : Z; o_topo : Z; o_logfile : option cstr }.

Definition DEFAULT_PORT : Z := 8888.
Definition DEFAULT_HOST : cstr := str "vrhost".
Definition DEFAULT_SERVER : cstr := str "localhost".
Definition DEFAULT_RTABLE : cstr := str "rtable".
Definition DEFAULT_TOPO : Z := 0.
Definition default_options : options :=
  Options DEFAULT_HOST None DEFAULT_SERVER DEFAULT_RTABLE None DEFAULT_PORT DEFAULT_TOPO None.

(** One turn of the loop over the options that [getopt] finds, each a character
    and its argument; [None] when the program ends with its usage. *)
Definition option_turn (o : options) (c : Z) (optarg : cstr) : option options :=
  let '(Options host user server rtable template port topo logfile) := o in
  if c =? 104 (* h *) then None
  else Some (
    if c =? 112 (* p *) then Options host user server rtable template (u32 (atoi optarg)) topo logfile
    else if c =? 116 (* t *) then Options host user server rtable template port (u32 (atoi optarg)) logfile
    else if c =? 118 (* v *) then Options optarg user server rtable template port topo logfile
    else if c =? 117 (* u *) then Options host (Some optarg) server rtable template port topo logfile
    else if c =? 115 (* s *) then Options host user optarg rtable template port topo logfile
    else if c =? 108 (* l *) then Options host user server rtable template port topo (Some optarg)
    else if c =? 114 (* r *) then Options host user server optarg template port topo logfile
    else if c =? 84 (* T *) then Options host user server rtable (Some optarg) port topo logfile
    else o).
Fixpoint parse_options (args : list (Z * cstr)) (o : options) : option options :=
  match args with
  | [] => Some o
  | (c, optarg) :: args => o ← option_turn o c optarg; parse_options args o
  end.

(** * The program *)

(** The instance, with the fields that only this file uses, and what has been
    printed. *)
Record process := Process {
  pr_sess : session; pr_host : cstr; pr_template : cstr; pr_topo : Z; pr_out : buffer }.
Abbreviation SM := (M process).

(** What the program finds on its machine: files by name; the name of its user;
    whether and how a log can be opened; the server, by its name and a 16-bit
    port, if it is known, and whether it accepts; and what Vns needs. *)
Record machine := Machine {
  files : cstr -> option cstr; getpwuid : option cstr; fopen_log : cstr -> option FILE;
  stdout : FILE; gethostbyname : cstr -> bool; connects : cstr -> Z -> bool;
  surround : surroundings }.

Definition in_session {A} (m : CM A) : SM A := fun p =>
  match m (pr_sess p) with
  | Ok (a, c) => Ok (a, Process c (pr_host p) (pr_template p) (pr_topo p) (pr_out p))
  | Fault e => Fault e
  end.
Definition in_instance (f : sr_instance -> sr_instance) : SM unit :=
  in_session (modify (fun c => Session (f (cl_sr c)) (cl_sock c) (cl_files c))).
Definition in_out (m : PM unit) : SM unit := fun p =>
  match m (pr_out p) with
  | Ok (_, o) => Ok (tt, Process (pr_sess p) (pr_host p) (pr_template p) (pr_topo p) o)
  | Fault e => Fault e
  end.

(** [strncpy] of a string into an array of [n] characters, as a string; one that
    has [n] characters lacks its NUL, and to print it is to read on. *)
Definition fill_array (n : nat) (s : cstr) : cstr := take n s.
Definition print_array (n : nat) (s : cstr) : SM unit :=
  if (length s <? n)%nat then mret tt else fail OutOfBounds.

Section main.
Context `{Env} (inet_aton : cstr -> option Z) (inet_ntoa : Z -> buffer) (w : machine).

(** A file that is read: as the program wrote it last, or as it was. *)
Definition read_file (name : cstr) (c : session) : option cstr :=
  match last (filter (fun f => f.1 = name) (cl_files c)) with
  | Some (_, data) => Some data
  | None => files w name
  end.

(** [sr_init_instance]; the cache is left to [sr_init]. *)
Definition sr_init_instance : SM unit :=
  modify (fun p =>
    let s := cl_sr (pr_sess p) in
    Process
      (Session (SrInstance [] [] [] (in_cache s) None (in_clock s) (in_wire s) (in_allocs s))
         (cl_sock (pr_sess p)) (cl_files (pr_sess p)))
      [] (pr_template p) 0 (pr_out p)).

(** [sr_load_rt_wrap]: [false] when it ends the program with status 1. *)
Definition sr_load_rt_wrap (rtable : cstr) : SM bool :=
  p ← get;
  let c := pr_sess p in
  '(r, table) ← lift (sr_load_rt inet_aton (in_routing_table (cl_sr c)) (read_file rtable c));
  in_instance (fun s => set_table s table);;
  if negb (r =? 0) then mret false
  else
    in_out (out (str "Loading routing table" ++ [10]));;
    in_out (sr_print_routing_table inet_ntoa table);;
    mret true.

Definition set_user (s : sr_instance) (user : cstr) : sr_instance :=
  SrInstance user (in_if_list s) (in_routing_table s) (in_cache s) (in_logfile s) (in_clock s)
    (in_wire s) (in_allocs s).

(** [sr_set_user] *)
Definition sr_set_user : SM unit :=
  match getpwuid w with
  | None => in_instance (fun s => set_user s (fill_array 32 (str "something_silly")))
  | Some pw_name => in_instance (fun s => set_user s (fill_array 32 pw_name))
  end.

(** The main loop. Before each command, while it waits for the next, the thread that
    [sr_init] has started makes turns and time passes as [turns] says, which bounds
    the turns of the loop too. A command is handled as a whole. *)
Fixpoint serve (depth fuel : nat) (turns : list (list meantime)) : CM unit :=
  match turns with
  | [] => fail OutOfFuel
  | evs :: turns =>
      in_router (for_each (run_meantime depth) evs);;
      r ← sr_read_from_server (surround w) depth fuel;
      if r =? 1 then serve depth fuel turns else mret tt
  end.

(** From the options to the session with the server; [false] when the program
    ends before, with status 1. *)
Definition set_up (o : options) : SM bool :=
  sr_init_instance;;
  ok ← (match o_template o with
        | None =>
            modify (fun p => Process (pr_sess p) (pr_host p) [] (pr_topo p) (pr_out p));;
            sr_load_rt_wrap (o_rtable o)
        | Some template =>
            modify (fun p => Process (pr_sess p) (pr_host p) (fill_array 30 template) (pr_topo p)
              (pr_out p));;
            mret true
        end);
  if negb ok then mret false
  else
    modify (fun p => Process (pr_sess p) (fill_array 32 (o_host o)) (pr_template p)
      (u16 (o_topo o)) (pr_out p));;
    (match o_user o with
     | None => sr_set_user
     | Some user => in_instance (fun s => set_user s (fill_array 32 user))
     end);;
    ok ← (match o_logfile o with
          | None => mret true
          | Some logfile =>
              match sr_dump_open (stdout w) (fopen_log w) logfile 0 PACKET_DUMP_SIZE with
              | Some _ => in_instance (fun s => set_logfile s (Some []));; mret true
              | None => mret false
              end
          end);
    if negb ok then mret false
    else
      p ← get;
      print_array 32 (in_user (cl_sr (pr_sess p)));;
      mret true.

(** [main], given what [getopt] makes of the command line: the exit status. The
    reading loops have [fuel], and the main loop its [turns]. *)
Definition main (depth fuel : nat) (turns : list (list meantime)) (args : list (Z * cstr)) : SM Z :=
  match parse_options args default_options with
  | None => mret 0
  | Some o =>
      ok ← set_up o;
      if negb ok then mret 1
      else
        p ← get;
        let port := u16 (o_port o) in
        r ← in_session (sr_connect_to_server (surround w) depth fuel (pr_template p) (pr_host p)
              (pr_topo p) (gethostbyname w (o_server o)) (connects w (o_server o) port));
        if r =? -1 then mret 1
        else
          ok ← (if bool_decide (o_template o <> None) && bool_decide (o_rtable o = str "rtable.vrhost")
                then sr_load_rt_wrap (str "rtable.vrhost")
                else sr_load_rt_wrap (o_rtable o));
          if negb ok then mret 1
          else
            in_session (in_router sr_init);;
            in_session (serve depth fuel turns);;
            mret 0
  end.
End main.
