(* ===== verification/RouterStartProps.v ===== *)
(** What the router's main program does: it loads its table, authenticates, opens
    its session and comes to its main loop; and starts that go wrong. *)
From S2P Require Import Prelude Mem Protocol Interfaces RoutingTable ArpCache Instance Router RouterExamples Sockets CString CStdio Sha1 Vns VnsProps RouterDump RouterPrint RouterStart.

(** * Printing the table *)

Definition short_name (r : sr_rt) : Prop := (length (rt_iface r) < sr_IFACE_NAMELEN)%nat.

Lemma prints_entry inet_ntoa r : short_name r -> exists t, prints (sr_print_routing_entry inet_ntoa r) t.
Proof.
  intros Hr. eexists. unfold sr_print_routing_entry. rewrite (proj2 (Nat.ltb_lt _ _)) by done.
  do 3 (eapply prints_seq; [apply prints_out|]).
  eapply prints_seq; [apply prints_nil|apply prints_out].
Qed.

Lemma prints_table inet_ntoa t :
  Forall short_name t -> exists txt, prints (sr_print_routing_table inet_ntoa t) txt.
Proof.
  intros Ht. assert (H : exists txt, prints (print_entries inet_ntoa t) txt).
  { induction Ht as [|r t Hr _ [txt IH]]; [eexists; apply prints_nil|].
    destruct (prints_entry inet_ntoa r Hr) as [u Hu]. eexists. by apply (prints_seq _ _ u txt). }
  destruct H as [txt H]. destruct t as [|r t]; [eexists; apply prints_out|].
  eexists. unfold sr_print_routing_table. eapply prints_seq; [apply prints_out|exact H].
Qed.

Section start.
Context `{Env} (inet_aton : cstr -> option Z) (inet_ntoa : Z -> buffer) (w : machine).

(** ** Loading *)

Definition set_sess (p : process) (c : session) : process :=
  Process c (pr_host p) (pr_template p) (pr_topo p) (pr_out p).
Definition add_out (p : process) (t : buffer) : process :=
  Process (pr_sess p) (pr_host p) (pr_template p) (pr_topo p) (pr_out p ++ t).
Definition with_sr (c : session) (s : sr_instance) : session := Session s (cl_sock c) (cl_files c).

Lemma in_instance_eq f p :
  in_instance f p = Ok (tt, set_sess p (with_sr (pr_sess p) (f (cl_sr (pr_sess p))))).
Proof. done. Qed.

Lemma in_out_eq m t p : prints m t -> in_out m p = Ok (tt, add_out p t).
Proof. intros Hm. unfold in_out. by rewrite Hm. Qed.

Lemma in_session_eq {A} (m : CM A) a c p : m (pr_sess p) = Ok (a, c) -> in_session m p = Ok (a, set_sess p c).
Proof. intros E. unfold in_session. by rewrite E. Qed.

Lemma load_wrap_ok rtable table p :
  sr_load_rt inet_aton (in_routing_table (cl_sr (pr_sess p))) (read_file w rtable (pr_sess p)) = Ok (0, table) ->
  Forall short_name table ->
  exists txt, sr_load_rt_wrap inet_aton inet_ntoa w rtable p =
    Ok (true, add_out (set_sess p (with_sr (pr_sess p) (set_table (cl_sr (pr_sess p)) table))) txt).
Proof.
  intros E Ht. destruct (prints_table inet_ntoa table Ht) as [txt Hp].
  eexists. unfold sr_load_rt_wrap. rewrite bind_get, E, bind_lift. cbn beta iota.
  rewrite (bind_ok _ _ _ _ _ (in_instance_eq _ _)). change (negb (0 =? 0)) with false. cbn iota.
  rewrite (bind_ok _ _ _ _ _ (in_out_eq _ _ _ (prints_out _))).
  rewrite (bind_ok _ _ _ _ _ (in_out_eq _ _ _ Hp)). unfold add_out, set_sess.
  cbn [pr_sess pr_host pr_template pr_topo pr_out]. rewrite <-app_assoc. reflexivity.
Qed.

(** ** Set-up *)

(** The instance after the set-up. *)
Definition started (s : sr_instance) (user : cstr) (table : list sr_rt) (log : bool) : sr_instance :=
  SrInstance user [] table (in_cache s) (if log then Some [] else None) (in_clock s) (in_wire s)
    (in_allocs s).

(** The user: the one given, or the one that runs the program. *)
Definition user_name (o : options) : cstr :=
  match o_user o with
  | Some u => u
  | None => match getpwuid w with Some u => u | None => str "something_silly" end
  end.
Definition user_of (o : options) : cstr := fill_array 32 (user_name o).

(** The log, if one is asked for, can be opened. *)
Definition log_opens (o : options) : Prop :=
  match o_logfile o with
  | None => True
  | Some f => sr_dump_open (stdout w) (fopen_log w) f 0 PACKET_DUMP_SIZE <> None
  end.

Definition wants_log (o : options) : bool := match o_logfile o with Some _ => true | None => false end.

(** The table and the template after it. *)
Definition loads (o : options) (c : session) (table : list sr_rt) : Prop :=
  match o_template o with
  | None => sr_load_rt inet_aton [] (read_file w (o_rtable o) c) = Ok (0, table)
  | Some _ => table = []
  end.
Definition template_of (o : options) : cstr :=
  match o_template o with None => [] | Some t => fill_array 30 t end.

Lemma set_up_steps o p table :
  loads o (pr_sess p) table -> Forall short_name table -> log_opens o ->
  exists out', set_up inet_aton inet_ntoa w o p =
    (print_array 32 (user_of o);; mret true)
      (Process (with_sr (pr_sess p) (started (cl_sr (pr_sess p)) (user_of o) table (wants_log o)))
        (fill_array 32 (o_host o)) (template_of o) (u16 (o_topo o)) out').
Proof.
  intros Hl Hs Hlog. unfold set_up, sr_init_instance. rewrite bind_modify. set (p0 := Process _ _ _ _ _).
  assert (H1 : exists txt, (match o_template o with
        | None =>
            modify (fun p => Process (pr_sess p) (pr_host p) [] (pr_topo p) (pr_out p));;
            sr_load_rt_wrap inet_aton inet_ntoa w (o_rtable o)
        | Some template =>
            modify (fun p => Process (pr_sess p) (pr_host p) (fill_array 30 template) (pr_topo p)
              (pr_out p));;
            mret true
        end) p0 = Ok (true, Process (with_sr (pr_sess p0) (set_table (cl_sr (pr_sess p0)) table))
          (pr_host p0) (template_of o) (pr_topo p0) (pr_out p0 ++ txt))).
  { unfold loads, template_of in *. destruct (o_template o) as [t|].
    - subst table. exists []. by rewrite bind_modify, app_nil_r.
    - rewrite bind_modify. set (p1 := Process _ _ _ _ _).
      destruct (load_wrap_ok (o_rtable o) table p1 Hl Hs) as [txt El]. exists txt. by rewrite El. }
  destruct H1 as [txt El]. rewrite (bind_ok _ _ _ _ _ El). cbn [negb]. rewrite bind_modify. clear El.
  set (p2 := Process _ _ _ _ _).
  assert (Euser : (match o_user o with
     | None => sr_set_user w
     | Some user => in_instance (fun s => set_user s (fill_array 32 user))
     end) p2 = in_instance (fun s => set_user s (user_of o)) p2).
  { unfold user_of, user_name, sr_set_user. destruct (o_user o); [done|]. by destruct (getpwuid w). }
  rewrite in_instance_eq in Euser. rewrite (bind_ok _ _ _ _ _ Euser). set (p3 := set_sess _ _).
  assert (Elog : (match o_logfile o with
      | None => mret true
      | Some logfile =>
          match sr_dump_open (stdout w) (fopen_log w) logfile 0 PACKET_DUMP_SIZE with
          | Some _ => in_instance (fun s => set_logfile s (Some []));; mret true
          | None => mret false
          end
      end) p3 = Ok (true, set_sess p3 (with_sr (pr_sess p3) (set_logfile (cl_sr (pr_sess p3))
        (if wants_log o then Some [] else None))))).
  { unfold log_opens, wants_log in *. destruct (o_logfile o); [|done]. by destruct (sr_dump_open _ _ _ _ _). }
  rewrite (bind_ok _ _ _ _ _ Elog). cbn [negb]. rewrite bind_get. by eexists.
Qed.

(** ** The session *)

(** The server's part: its requests of authentication, with a salt, and its status
    of success, with a message. *)
Definition greeting (salt : buffer) (ok : Z) (msg : buffer) : buffer :=
  base (8 + Z.of_nat (length salt)) VNS_AUTH_REQUEST ++ salt ++
  base (9 + Z.of_nat (length msg)) VNS_AUTH_STATUS ++ ok :: msg.

Record greets (key salt : buffer) (ok : Z) (msg : buffer) : Prop := {
  gr_keyed : keyed (surround w) key;
  gr_salt : bytes_ok salt;
  gr_salt_length : Z.of_nat (length salt) <= 9992;
  gr_ok : 0 < ok < 256;
  gr_msg : Z.of_nat (length msg) <= 9991 }.

Lemma length_open topo host user : length (open_message topo host user) = 108%nat.
Proof.
  assert (Hp : forall s : cstr, length (strncpy_pad IDSIZE s) = 32%nat)
    by (intros s; unfold strncpy_pad; rewrite length_app, length_take, length_replicate; unfold IDSIZE; lia).
  unfold open_message, base. by rewrite !length_app, !Hp, !length_le_bytes, length_replicate.
Qed.

(** Both messages of the greeting are read, and the first is answered. *)
Lemma greeted depth fuel key salt ok msg c n1 sends rest :
  greets key salt ok msg ->
  steady (s_in (cl_sock c)) -> (length (s_in (cl_sock c)) < fuel)%nat ->
  stream (s_in (cl_sock c)) = greeting salt ok msg ++ rest ->
  (length (in_user (cl_sr c)) < 32)%nat ->
  s_sends (cl_sock c) = SSent n1 :: sends -> (64 <= n1)%nat ->
  exists k c1, sr_read_from_server_expect (surround w) depth fuel VNS_AUTH_REQUEST c = Ok (1, c1) /\
    sr_read_from_server_expect (surround w) depth fuel VNS_AUTH_STATUS c1 =
      Ok (1, Session (set_allocs (cl_sr c) (S (in_allocs (cl_sr c)))) k (cl_files c)) /\
    stream (s_in k) = rest /\ steady (s_in k) /\ (length (s_in k) <= length (s_in (cl_sock c)))%nat /\
    s_sends k = sends /\ s_out k = s_out (cl_sock c) ++ auth_reply (in_user (cl_sr c)) salt key.
Proof.
  intros [Hk Hs Hsl Hok Hm] Hst Hf Hstr Hu Hsend Hn1. unfold greeting in Hstr.
  rewrite <-!app_assoc in Hstr.
  destruct (auth_answered (surround w) depth fuel c key salt _ n1 sends Hst Hf Hstr)
    as (k1 & s1 & E1 & -> & S1 & O1 & T1 & L1 & D1); [done|done|done|done|exact Hsend|lia|].
  set (c1 := Session _ k1 (cl_files c)) in *.
  destruct (auth_status_ok (surround w) depth fuel c1 ok msg rest T1) as (k2 & R2 & S2 & E2);
    [cbn [cl_sock c1]; lia|exact S1|done|done|].
  exists k2, c1. destruct R2 as [_ R2a R2b R2c R2d R2e]. cbn [cl_sock c1] in *.
  split; [exact E1|]. split; [exact E2|]. split; [done|]. split; [done|]. split; [lia|].
  split; congruence.
Qed.

Lemma connect_ok depth fuel key salt ok msg host topo c n1 n2 sends rest :
  greets key salt ok msg ->
  steady (s_in (cl_sock c)) -> (length (s_in (cl_sock c)) < fuel)%nat ->
  stream (s_in (cl_sock c)) = greeting salt ok msg ++ rest ->
  (length (in_user (cl_sr c)) < 32)%nat ->
  s_sends (cl_sock c) = SSent n1 :: SSent n2 :: sends -> (64 <= n1)%nat -> (108 <= n2)%nat ->
  exists sk, sr_connect_to_server (surround w) depth fuel [] host topo true true c =
      Ok (0, Session (set_allocs (cl_sr c) (S (in_allocs (cl_sr c)))) sk (cl_files c)) /\
    stream (s_in sk) = rest /\ steady (s_in sk) /\ (length (s_in sk) <= length (s_in (cl_sock c)))%nat /\
    s_out sk = s_out (cl_sock c) ++ auth_reply (in_user (cl_sr c)) salt key ++
      open_message topo host (in_user (cl_sr c)).
Proof.
  intros Hg Hst Hf Hstr Hu Hsend Hn1 Hn2.
  destruct (greeted depth fuel key salt ok msg c n1 (SSent n2 :: sends) rest Hg Hst Hf Hstr Hu Hsend Hn1)
    as (k2 & c1 & E1 & E2 & S2 & T2 & L2 & D2 & O2).
  set (m := open_message topo host (in_user (cl_sr c))).
  exists (Sock (s_in k2) sends (s_out k2 ++ m) (s_closed k2)).
  split; [|by rewrite app_assoc, <-O2].
  unfold sr_connect_to_server. cbn [negb]. rewrite (bind_ok _ _ _ _ _ E1).
  change (negb (1 =? 1)) with false. cbn iota. rewrite (bind_ok _ _ _ _ _ E2).
  change (negb (1 =? 1)) with false. cbn iota. change (length (@nil Z) <? 30)%nat with true.
  cbn iota. rewrite bind_ret_l, bind_get. cbn [cl_sr in_user set_allocs]. fold m.
  set (c2 := Session _ k2 _).
  assert (Eio : in_sock (fun s => send s m) c2 =
    Ok (IoOk m, set_sock (Sock (s_in k2) sends (s_out k2 ++ m) (s_closed k2)) c2)).
  { unfold in_sock, send. cbn [cl_sock c2]. rewrite D2. unfold m at 1 2.
    rewrite take_ge by (rewrite length_open; lia). done. }
  by rewrite (bind_ok _ _ _ _ _ Eio), Nat.eqb_refl.
Qed.

(** A template that fills its array is looked for its end beyond it. *)
Lemma connect_overreads depth fuel key salt ok msg template host topo c n1 sends rest :
  greets key salt ok msg ->
  steady (s_in (cl_sock c)) -> (length (s_in (cl_sock c)) < fuel)%nat ->
  stream (s_in (cl_sock c)) = greeting salt ok msg ++ rest ->
  (length (in_user (cl_sr c)) < 32)%nat ->
  s_sends (cl_sock c) = SSent n1 :: sends -> (64 <= n1)%nat -> (30 <= length template)%nat ->
  sr_connect_to_server (surround w) depth fuel template host topo true true c = Fault OutOfBounds.
Proof.
  intros Hg Hst Hf Hstr Hu Hsend Hn1 Ht.
  destruct (greeted depth fuel key salt ok msg c n1 sends rest Hg Hst Hf Hstr Hu Hsend Hn1)
    as (k2 & c1 & E1 & E2 & _).
  unfold sr_connect_to_server. cbn [negb]. rewrite (bind_ok _ _ _ _ _ E1).
  change (negb (1 =? 1)) with false. cbn iota. rewrite (bind_ok _ _ _ _ _ E2).
  change (negb (1 =? 1)) with false. cbn iota. by rewrite (proj2 (Nat.ltb_ge _ _)) by done.
Qed.

(** ** The whole start *)

Lemma serve_turn depth fuel evs turns c s r c' :
  for_each (run_meantime depth) evs (cl_sr c) = Ok (tt, s) ->
  sr_read_from_server (surround w) depth fuel (with_sr c s) = Ok (r, c') ->
  serve w depth fuel (evs :: turns) c = if r =? 1 then serve w depth fuel turns c' else Ok (tt, c').
Proof.
  intros Es E. cbn [serve]. unfold mbind, M_bind, in_router. rewrite Es.
  change (Session s (cl_sock c) (cl_files c)) with (with_sr c s). rewrite E. by destruct (r =? 1).
Qed.

(** The thread finds nothing to do in an empty cache. *)
Definition waited (ev : meantime) : Z := match ev with Sweep => 0 | Wait n => n end.
Lemma idle_meantime depth evs : forall s,
  in_cache s = sr_arpcache_init ->
  for_each (run_meantime depth) evs s =
    Ok (tt, set_clock s (in_clock s + foldr (fun ev t => waited ev + t) 0 evs)).
Proof.
  induction evs as [|ev evs IH]; intros s Hs; cbn [for_each foldr].
  { rewrite Z.add_0_r. by destruct s. }
  assert (E : run_meantime depth ev s = Ok (tt, set_clock s (in_clock s + waited ev))).
  { destruct ev; [|done]. unfold run_meantime, sr_arpcache_timeout_turn, sr_arpcache_sweepreqs.
    exec. rewrite Hs. cbn [waited]. rewrite Z.add_0_r.
    destruct s; cbn in Hs; subst; reflexivity. }
  rewrite (bind_ok _ _ _ _ _ E), IH by done. cbn [in_clock set_clock]. by rewrite Z.add_assoc.
Qed.

Lemma read_file_fresh name c : cl_files c = [] -> read_file w name c = files w name.
Proof. intros E. unfold read_file. by rewrite E. Qed.

(** The surroundings of a start without a template: the table file is well formed,
    the user's name fits, the log can be opened and the server is there. *)
Record good_start (o : options) (p : process) (table : list sr_rt) : Prop := {
  gs_template : o_template o = None;
  gs_log : log_opens o;
  gs_user : (length (user_of o) < 32)%nat;
  gs_table : forall old, sr_load_rt inet_aton old (files w (o_rtable o)) = Ok (0, table);
  gs_names : Forall short_name table;
  gs_files : cl_files (pr_sess p) = [];
  gs_known : gethostbyname w (o_server o) = true;
  gs_connects : connects w (o_server o) (u16 (o_port o)) = true }.

(** The router starts. Whatever options without a template it is given, when its
    table file loads, its user's name is shorter than 32 characters, the log that
    may be asked for can be opened and the server answers, then however the
    server's messages are cut, the program loads the table, answers the request
    for authentication by the digest of salt and key, asks for its topology by
    number, host and user, takes the interfaces that the server describes, and
    comes to its main loop with an empty ARP cache and all that follows in the
    stream unread. When a route names an interface that the server did not
    describe, it ends with status 0 instead. *)
Theorem router_starts depth fuel evs turns args o p table key salt ok msg ifs rest n1 n2 sends :
  parse_options args default_options = Some o -> good_start o p table ->
  greets key salt ok msg ->
  let k := cl_sock (pr_sess p) in
  steady (s_in k) -> (length (s_in k) < fuel)%nat ->
  stream (s_in k) = greeting salt ok msg ++ hw_message ifs ++ rest ->
  Forall describable ifs -> (length ifs <= 92)%nat ->
  s_sends k = SSent n1 :: SSent n2 :: sends -> (64 <= n1)%nat -> (108 <= n2)%nat ->
  let l := loaded (S (in_allocs (cl_sr (pr_sess p)))) ifs in
  exists sk out', stream (s_in sk) = rest /\
    steady (s_in sk) /\ (length (s_in sk) <= length (s_in k))%nat /\
    s_out sk = s_out k ++ auth_reply (user_of o) salt key ++
      open_message (u16 (o_topo o)) (fill_array 32 (o_host o)) (user_of o) /\
    let s := cl_sr (pr_sess p) in
    let c := Session (SrInstance (user_of o) l table sr_arpcache_init
        (if wants_log o then Some [] else None)
        (in_clock s + foldr (fun ev t => waited ev + t) 0 evs) (in_wire s)
        (in_allocs s + S (length ifs))) sk [] in
    let p' c := Process c (fill_array 32 (o_host o)) [] (u16 (o_topo o)) out' in
    main inet_aton inet_ntoa w depth fuel (evs :: turns) args p =
      if sr_verify_routing_table l table =? 0
      then match serve w depth fuel turns c with
           | Ok (_, c') => Ok (0, p' c')
           | Fault e => Fault e
           end
      else Ok (0, p' c).
Proof.
  intros Ho [Gt Gl Gu Gtab Gn Gf Gk Gc] Hg k Hst Hf Hstr Hd Hifs Hsend Hn1 Hn2 l.
  set (s := cl_sr (pr_sess p)).
  pose proof (Gtab []) as E0. rewrite <-(read_file_fresh (o_rtable o) (pr_sess p) Gf) in E0.
  assert (Hload : loads o (pr_sess p) table) by (unfold loads; by rewrite Gt).
  destruct (set_up_steps o p table Hload Gn Gl) as [out1 Eset]. fold s in Eset.
  unfold template_of, print_array in Eset. rewrite Gt, (proj2 (Nat.ltb_lt _ _)), bind_ret_l in Eset by done.
  set (c0 := with_sr (pr_sess p) (started s (user_of o) table (wants_log o))) in *.
  destruct (connect_ok depth fuel key salt ok msg (fill_array 32 (o_host o)) (u16 (o_topo o)) c0 n1 n2 sends
    (hw_message ifs ++ rest) Hg Hst Hf Hstr) as (k1 & Econ & S1 & T1 & L1 & O1); [done..|].
  cbn [cl_sr cl_files cl_sock c0 with_sr in_user started in_allocs] in Econ, O1, L1. fold k in L1, O1.
  rewrite Gf in Econ. set (s1 := set_allocs _ _) in Econ.
  set (c1 := Session s1 k1 []) in *.
  set (p1 := Process c1 (fill_array 32 (o_host o)) [] (u16 (o_topo o)) out1).
  destruct (load_wrap_ok (o_rtable o) table p1) as [txt Eload];
    [rewrite read_file_fresh by done; apply Gtab|done|].
  set (s2 := set_cache (set_table s1 table) sr_arpcache_init).
  pose proof (idle_meantime depth evs s2 eq_refl) as Eidle. set (t := foldr _ _ evs) in *.
  set (c2 := Session s2 k1 []). set (c3 := with_sr c2 (set_clock s2 (in_clock s2 + t))).
  destruct (hwinfo_loads (surround w) depth fuel c3 ifs rest T1) as (sk & R & S2 & Ehw);
    [cbn [cl_sock c3 c2 with_sr]; lia|exact S1|done|done|].
  cbn [cl_sr c3 c2 with_sr cl_sock cl_files] in Ehw.
  exists sk, (out1 ++ txt). split; [exact S2|].
  split; [apply (hr_steady _ _ _ R)|].
  split; [pose proof (hr_calls _ _ _ R) as Hc; cbn [cl_sock c3 c2 with_sr] in Hc; lia|].
  split; [by rewrite (hr_out _ _ _ R)|]. cbv zeta.
  unfold main. rewrite Ho, (bind_ok _ _ _ _ _ Eset). cbn [negb]. rewrite bind_get.
  cbn [pr_template pr_host pr_topo]. rewrite Gk, Gc.
  set (p0 := Process c0 _ _ _ _). rewrite (bind_ok _ _ _ _ _ (in_session_eq _ _ _ p0 Econ)).
  change (0 =? -1) with false. cbn iota. rewrite Gt, bool_decide_false by (by intros []). cbn [andb].
  change (set_sess p0 c1) with p1. rewrite (bind_ok _ _ _ _ _ Eload). cbn [negb].
  set (p2 := add_out _ _).
  assert (Einit : in_session (in_router sr_init) p2 = Ok (tt, set_sess p2 c2)) by done.
  rewrite (bind_ok _ _ _ _ _ Einit).
  assert (Hc : Session (set_if_list (set_allocs (set_clock s2 (in_clock s2 + t))
      (in_allocs s1 + length ifs)) ([] ++ l)) sk [] =
    Session (SrInstance (user_of o) l table sr_arpcache_init (if wants_log o then Some [] else None)
      (in_clock s + t) (in_wire s) (in_allocs s + S (length ifs))) sk []).
  { unfold s2, set_clock, set_if_list, set_allocs, set_cache, set_table, s1, started.
    cbn [in_allocs app in_user in_routing_table in_cache in_logfile in_clock in_wire in_if_list].
    by rewrite Nat.add_succ_r. }
  set (cx := Session (SrInstance (user_of o) l table _ _ _ _ _) sk []) in *.
  assert (Ehw' : sr_read_from_server (surround w) depth fuel c3 =
    Ok (if sr_verify_routing_table l table =? 0 then 1 else -1, cx)) by (rewrite <-Hc; exact Ehw).
  unfold mbind, M_bind, in_session. change (pr_sess (set_sess p2 c2)) with c2.
  rewrite (serve_turn _ _ _ _ c2 _ _ _ Eidle Ehw'). destruct (sr_verify_routing_table l table =? 0).
  - change (1 =? 1) with true. cbn iota. by destruct (serve w depth fuel turns cx) as [[[] c']|e].
  - reflexivity.
Qed.
(** Starts that read beyond an array. With a user's name of 32 characters or more,
    given or found, [strncpy] leaves the field [user] without a NUL and the
    program prints it before it connects. With a template's name of 30
    characters or more, the field [template] has none, and once the server has
    accepted the user its length is taken. *)
Theorem start_overreads depth fuel turns args o p table :
  parse_options args default_options = Some o -> loads o (pr_sess p) table ->
  Forall short_name table -> log_opens o ->
  ((32 <= length (user_name o))%nat ->
     main inet_aton inet_ntoa w depth fuel turns args p = Fault OutOfBounds) /\
  (forall t key salt ok msg n1 sends rest,
     o_template o = Some t -> (30 <= length t)%nat -> (length (user_name o) < 32)%nat ->
     gethostbyname w (o_server o) = true -> connects w (o_server o) (u16 (o_port o)) = true ->
     let k := cl_sock (pr_sess p) in
     greets key salt ok msg -> steady (s_in k) -> (length (s_in k) < fuel)%nat ->
     stream (s_in k) = greeting salt ok msg ++ rest -> s_sends k = SSent n1 :: sends ->
     (64 <= n1)%nat ->
     main inet_aton inet_ntoa w depth fuel turns args p = Fault OutOfBounds).
Proof.
  intros Ho Hl Hs Hlog. destruct (set_up_steps o p table Hl Hs Hlog) as [out' E].
  assert (Hlen : length (user_of o) = Nat.min 32 (length (user_name o)))
    by (unfold user_of, fill_array; by rewrite length_take).
  split.
  - intros Hu. unfold main. rewrite Ho. apply bind_fault. rewrite E. unfold print_array.
    by rewrite (proj2 (Nat.ltb_ge _ _)) by lia.
  - intros t key salt ok msg n1 sends rest Ht Hlt Hu Hk Hc k Hg Hst Hf Hstr Hsend Hn1.
    unfold print_array in E. rewrite (proj2 (Nat.ltb_lt _ _)), bind_ret_l in E by lia.
    unfold main. rewrite Ho, (bind_ok _ _ _ _ _ E). cbn [negb]. rewrite bind_get. cbn [pr_template pr_host pr_topo].
    rewrite Hk, Hc. apply bind_fault. unfold in_session. cbn [pr_sess].
    unfold template_of. rewrite Ht.
    rewrite (connect_overreads depth fuel key salt ok msg _ _ _ _ n1 sends rest) by
      (done || (cbn [cl_sr with_sr in_user started]; lia) ||
       (unfold fill_array; rewrite length_take; lia)). done.
Qed.
End start.

(** * At concrete inputs *)

(** The repository's last route, an interface of that name, and a server. *)
Definition demo_machine (user : cstr) : machine :=
  Machine (fun f => if decide (f = str "rtable") then Some (render_route repo_route3) else None)
    (Some user) (fun _ => None) (File [] None) (fun _ => true) (fun _ _ => true) example_env.
Definition demo_route : sr_rt := SrRt 0x6401000a 0x6401000a 0xffffffff (str "eth3").

Lemma demo_loads old : sr_load_rt dotted_quad old (Some (render_route repo_route3)) = Ok (0, [demo_route]).
Proof.
  pose proof (load_file_routes dotted_quad old [] [] repo_route3 demo_route 0) as E.
  cbn [app map List.concat replicate] in E. rewrite !app_nil_r in E. apply E.
  - repeat constructor; vm_compute; congruence.
  - repeat constructor; vm_compute; reflexivity.
Qed.

Lemma demo_greets user : greets (demo_machine user) (replicate 64 107) [1; 2; 3] 1 [].
Proof.
  split.
  - constructor; [by eexists | | apply length_replicate | apply Forall_replicate; split; done |
      apply length_replicate | apply length_replicate | apply bytes_ok_zeros].
    intros Hx%elem_of_replicate_inv. discriminate Hx.
  - by_compute.
  - by_compute.
  - by_compute.
  - by_compute.
Qed.

(** The program as it begins, with what the server sends cut in two. *)
Definition demo_process (m : buffer) : process :=
  Process (Session (set_if_list known []) (Sock [RData (take 7 m); RErr EINTR; RData (drop 7 m)]
    [SSent 100; SSent 200] [] false) []) [] [] 0 [].

Lemma router_starts_witness :
  let m := greeting [1; 2; 3] 1 [] ++ hw_message [eth3] in
  exists sk p', s_out sk = [] ++ auth_reply (str "me") [1; 2; 3] (replicate 64 107) ++
      open_message 7 (str "vrhost") (str "me") /\
    main dotted_quad (fun _ => []) (demo_machine (str "me")) 1 4 [[Sweep; Wait 1]] [(116, str "7")]
      (demo_process m) =
      if sr_verify_routing_table (loaded 1 [eth3]) [demo_route] =? 0 then Fault OutOfFuel
      else Ok (0, p').
Proof.
  intros m.
  set (o := Options DEFAULT_HOST None DEFAULT_SERVER DEFAULT_RTABLE None DEFAULT_PORT 7 None).
  destruct (router_starts dotted_quad (fun _ => []) (demo_machine (str "me")) 1 4 [Sweep; Wait 1] [] [(116, str "7")] o
    (demo_process m) [demo_route] (replicate 64 107) [1; 2; 3] 1 [] [eth3] [] 100 200 [])
    as (sk & out' & _ & _ & _ & Ho & E).
  - by_eval.
  - split; [reflexivity|exact I|apply Nat.ltb_lt; by_eval| |repeat constructor; by_compute|reflexivity..].
    intros old. apply (demo_loads old).
  - apply demo_greets.
  - repeat constructor.
  - apply Nat.ltb_lt. by_eval.
  - by_eval.
  - repeat constructor; try discriminate; try (apply Nat.ltb_lt; reflexivity); by_eval.
  - apply Nat.leb_le. reflexivity.
  - reflexivity.
  - apply Nat.leb_le. reflexivity.
  - apply Nat.leb_le. reflexivity.
  - exists sk. eexists. split.
    { assert (Hu : user_of (demo_machine (str "me")) o = str "me") by by_eval.
      rewrite Hu in Ho. exact Ho. }
    rewrite E. destruct (sr_verify_routing_table _ [demo_route] =? 0); reflexivity.
Defined.

Lemma start_overreads_witness :
  let m := greeting [1; 2; 3] 1 [] in
  main dotted_quad (fun _ => []) (demo_machine (replicate 40 97)) 1 4 [] [] (demo_process m) =
    Fault OutOfBounds /\
  main dotted_quad (fun _ => []) (demo_machine (str "me")) 1 4 [] [(84, replicate 30 97)] (demo_process m) =
    Fault OutOfBounds.
Proof.
  intros m. split.
  - apply (start_overreads dotted_quad (fun _ => []) (demo_machine (replicate 40 97)) 1 4 [] []
      default_options (demo_process m) [demo_route]); [reflexivity|exact (demo_loads [])|
      repeat constructor; by_compute|exact I|apply Nat.leb_le; by_eval].
  - set (o := Options DEFAULT_HOST None DEFAULT_SERVER DEFAULT_RTABLE (Some (replicate 30 97)) DEFAULT_PORT 0 None).
    destruct (start_overreads dotted_quad (fun _ => []) (demo_machine (str "me")) 1 4 []
      [(84, replicate 30 97)] o (demo_process m) []) as [_ H]; [reflexivity|reflexivity|constructor|exact I|].
    apply (H (replicate 30 97) (replicate 64 107) [1; 2; 3] 1 [] 100%nat [SSent 200] []).
    + reflexivity.
    + apply Nat.leb_le. by_eval.
    + apply Nat.ltb_lt. by_eval.
    + reflexivity.
    + reflexivity.
    + apply demo_greets.
    + repeat constructor.
    + apply Nat.ltb_lt. by_eval.
    + by_eval.
    + reflexivity.
    + apply Nat.leb_le. reflexivity.
Defined.
