(* ===== verification/HttpHeap.v ===== *)
(** The memory of the HTTP parser (http-proxy/src/proxy_parse.c): the blocks that a
    request consists of, and how its functions allocate, use and free them. What
    the blocks hold is the parsed request of HttpParse, which the functions here
    compute along with them. *)
From S2P Require Import Prelude CString HttpParse.
#[local] Set Warnings "-clear-no-such-hyp".

(** * The heap *)

(** The blocks that have been allocated and not freed; no block comes back. *)
Record heap := Heap { hp_live : gset nat; hp_next : nat }.
Abbreviation HM := (M heap).

Definition malloc : HM nat :=
  h ← get;
  put (Heap ({[hp_next h]} ∪ hp_live h) (S (hp_next h)));;
  mret (hp_next h).
(** An access to a block, and [free] of one; [free] of a null pointer does
    nothing. *)
Definition use (p : nat) : HM unit :=
  h ← get; if decide (p ∈ hp_live h) then mret tt else fail UseAfterFree.
Definition free (p : nat) : HM unit :=
  use p;; modify (fun h => Heap (hp_live h ∖ {[p]}) (hp_next h)).
Definition opt (f : nat -> HM unit) (p : option nat) : HM unit :=
  match p with Some p => f p | None => mret tt end.
Definition realloc (p : nat) : HM nat := free p;; malloc.

(** * A request *)

(** The blocks of a [struct ParsedRequest]: the struct, the array of headers, the
    keys and values of those that have not been removed, [buf], [path]; and what
    it all holds. *)
Record request := Request {
  rq_self : nat; rq_headers : nat; rq_slots : list (option (nat * nat));
  rq_buf : option nat; rq_path : option nat; rq_data : parsed_request }.

Definition with_headers (r : request) (arr : nat) (slots : list (option (nat * nat)))
  (d : parsed_request) : request := Request (rq_self r) arr slots (rq_buf r) (rq_path r) d.

(** [ParsedRequest_create], with [ParsedHeader_create] *)
Definition request_create : HM request :=
  pr ← malloc;
  headers ← malloc;
  mret (Request pr headers [] None None ParsedRequest_create).

(** [ParsedHeader_destroyOne], [ParsedHeader_destroy] and [ParsedRequest_destroy] *)
Definition destroy_one (slot : option (nat * nat)) : HM unit :=
  match slot with None => mret tt | Some (k, v) => free k;; free v end.
Definition destroy_headers (r : request) : HM unit :=
  use (rq_headers r);;
  for_each destroy_one (rq_slots r);;
  free (rq_headers r).
Definition request_destroy (r : request) : HM unit :=
  use (rq_self r);;
  opt free (rq_buf r);;
  opt free (rq_path r);;
  (if (0 <? headerslen (rq_data r))%nat then destroy_headers r else mret tt);;
  free (rq_self r).

(** [ParsedHeader_get]: the keys are read up to the one that is equal. A string that
    is passed in may lie in a block, here [from]. *)
Fixpoint get_slot (from : option nat) (key : buffer) (slots : list (option (nat * nat)))
  (hs : list parsed_header) : HM (option nat) :=
  match slots, hs with
  | slot :: slots, h :: hs =>
      match slot, h with
      | Some (k, _), Some (kb, _) =>
          use k;;
          opt use from;;
          if strcmp_eq kb key then mret (Some O)
          else i ← get_slot from key slots hs; mret (S <$> i)
      | _, _ => i ← get_slot from key slots hs; mret (S <$> i)
      end
  | _, _ => mret None
  end.
Definition header_get (r : request) (from : option nat) (key : buffer) : HM (option nat) :=
  use (rq_self r);;
  use (rq_headers r);;
  get_slot from key (rq_slots r) (headers (rq_data r)).

(** [ParsedHeader_remove] *)
Definition header_remove (r : request) (from : option nat) (key : buffer) : HM (Z * request) :=
  tmp ← header_get r from key;
  match tmp with
  | None => mret (-1, r)
  | Some i =>
      match rq_slots r !! i with
      | Some (Some (k, v)) =>
          free k;;
          free v;;
          mret (0, with_headers r (rq_headers r) (<[i := None]> (rq_slots r))
            (ParsedHeader_remove (rq_data r) key).2)
      | _ => fail NullDeref
      end
  end.

(** [ParsedHeader_set] *)
Definition header_set (r : request) (from_key : option nat) (key : buffer) (from_value : option nat)
  (value : buffer) : HM (Z * request) :=
  '(_, r') ← header_remove r from_key key;
  '(z, d) ← lift (ParsedHeader_set (rq_data r) key value);
  arr ← (if (headerslen (rq_data r') <=? headersused (rq_data r') + 1)%nat
         then realloc (rq_headers r') else mret (rq_headers r'));
  opt use from_key;;
  k ← malloc;
  opt use from_key;;
  opt use from_value;;
  v ← malloc;
  opt use from_value;;
  mret (z, with_headers r' arr (rq_slots r' ++ [Some (k, v)]) d).

(** [ParsedHeader_parse] *)
Definition header_parse (r : request) (hline : buffer) : HM (Z * request) :=
  match index hline COLON with
  | None => mret (-1, r)
  | Some (key, index1) =>
      k ← malloc;
      if (length index1 <? 2)%nat then fail OutOfBounds
      else
        match strstr (drop 2 index1) CRLF with
        | None => fail NullDeref
        | Some (value, _) =>
            v ← malloc;
            '(_, r) ← header_set r (Some k) key (Some v) value;
            free k;;
            free v;;
            mret (0, r)
        end
  end.

(** The loop of [ParsedRequest_parse] over the headers in [tmp_buf]. *)
Fixpoint headers_parse (fuel tmp_buf : nat) (r : request) (current : buffer) : HM (Z * request) :=
  match fuel with
  | O => fail OutOfFuel
  | S fuel =>
      use tmp_buf;;
      match current with
      | [] => mret (0, r)
      | _ =>
          if is_prefix CRLF current then mret (0, r)
          else
            '(ret, r) ← header_parse r current;
            if negb (ret =? 0) then mret (-1, r)
            else
              match strstr current CRLF with
              | None => mret (0, r)
              | Some (_, s) =>
                  if (length s <? 2)%nat then mret (0, r)
                  else headers_parse fuel tmp_buf r (drop 2 s)
              end
      end
  end.

Definition with_line (r : request) (buf path : option nat) (l : option request_line) : request :=
  Request (rq_self r) (rq_headers r) (rq_slots r) buf path
    (ParsedRequest l (headers (rq_data r)) (headerslen (rq_data r))).

(** [ParsedRequest_parse] *)
Definition request_parse (err : Z) (r : request) (buf : buffer) (buflen : Z) : HM (Z * request) :=
  use (rq_self r);;
  match rq_buf r with
  | Some _ => mret (-1, r)
  | None =>
      if (buflen <? MIN_REQ_LEN) || (buflen >? MAX_REQ_LEN) then mret (-1, r)
      else
        tmp_buf ← malloc;
        data ← lift (rd 0 (Z.to_nat buflen) buf);
        tmp ← lift (c_str (data ++ [0]));
        match strstr tmp (CRLF ++ CRLF), strstr tmp CRLF with
        | Some _, Some (first, rest) =>
            b ← malloc;
            t ← lift (parse_addr first);
            match t with
            | None => free tmp_buf;; free b;; mret (-1, with_line r None None None)
            | Some t =>
                p ← malloc;
                match parse_host_port err t with
                | None => free tmp_buf;; free b;; free p;; mret (-1, with_line r None None None)
                | Some l =>
                    '(ret, r) ← headers_parse (S (length rest)) tmp_buf
                      (with_line r (Some b) (Some p) (Some l)) (drop 2 rest);
                    free tmp_buf;;
                    mret (ret, r)
                end
            end
        | _, _ => free tmp_buf;; mret (-1, r)
        end
  end.

(** * Ownership *)

(** The live blocks are those of [l], each once. *)
Record owns (h : heap) (l : list nat) : Prop := {
  ow_live : forall p, p ∈ hp_live h <-> p ∈ l;
  ow_once : NoDup l;
  ow_old : forall p, p ∈ l -> (p < hp_next h)%nat }.

#[export] Instance owns_proper h : Proper (Permutation ==> iff) (owns h).
Proof.
  intros l k Hp. split; intros [H1 H2 H3]; split.
  - intros p. by rewrite H1, Hp.
  - by rewrite <-Hp.
  - intros p Hin. apply H3. by rewrite Hp.
  - intros p. by rewrite H1, Hp.
  - by rewrite Hp.
  - intros p Hin. apply H3. by rewrite <-Hp.
Qed.

Lemma malloc_ok h l : owns h l -> exists p h', malloc h = Ok (p, h') /\ owns h' (p :: l).
Proof.
  intros [H1 H2 H3]. exists (hp_next h). eexists. split; [reflexivity|]. split; cbn.
  - intros p. rewrite elem_of_union, elem_of_singleton, elem_of_cons, H1. done.
  - constructor; [|done]. intros Hin. apply H3 in Hin. lia.
  - intros p [->|Hin]%elem_of_cons; [lia|]. apply H3 in Hin. lia.
Qed.

Lemma use_ok h l p : owns h l -> p ∈ l -> use p h = Ok (tt, h).
Proof.
  intros [H1 _ _] Hin. unfold use. rewrite bind_get. rewrite decide_True by (by apply H1). done.
Qed.

Lemma use_dangling h l p : owns h l -> p ∉ l -> use p h = Fault UseAfterFree.
Proof.
  intros [H1 _ _] Hin. unfold use. rewrite bind_get. rewrite decide_False by (by rewrite H1). done.
Qed.

Lemma free_ok h l p : owns h (p :: l) -> exists h', free p h = Ok (tt, h') /\ owns h' l.
Proof.
  intros Ho. unfold free.
  rewrite (bind_ok _ _ _ _ _ (use_ok h (p :: l) p Ho ltac:(by left))).
  eexists. split; [reflexivity|]. destruct Ho as [H1 H2 H3]. apply NoDup_cons in H2 as [Hn H2].
  split; cbn.
  - intros q. rewrite elem_of_difference, elem_of_singleton, H1, elem_of_cons.
    split; [by intros [[->|?] ?]|]. intros Hq. split; [by right|]. by intros ->.
  - done.
  - intros q Hq. apply H3. by right.
Qed.

(** A block that has been freed. *)
Definition dead (p : nat) (h : heap) : Prop := (p ∉ hp_live h) /\ (p < hp_next h)%nat.

Lemma use_dead p h : dead p h -> use p h = Fault UseAfterFree.
Proof. intros [Hd _]. unfold use. by rewrite bind_get, decide_False. Qed.

Lemma free_inv p h h' : free p h = Ok (tt, h') -> h' = Heap (hp_live h ∖ {[p]}) (hp_next h).
Proof.
  unfold free, use. rewrite bind_assoc, bind_get. case_decide; [|done]. rewrite bind_ret_l. by intros [= <-].
Qed.

Lemma free_dead p q h h' : free p h = Ok (tt, h') -> dead q h \/ (q = p /\ (p < hp_next h)%nat) -> dead q h'.
Proof. intros ->%free_inv [[Hd Hn]|[-> Hn]]; split; cbn; [set_solver|done|set_solver|done]. Qed.

Lemma malloc_dead q h p h' : malloc h = Ok (p, h') -> dead q h -> dead q h'.
Proof. intros [= <- <-] [Hd Hn]. split; cbn; [|lia]. rewrite elem_of_union, elem_of_singleton. intros [->|?]; [lia|done]. Qed.

(** ** The blocks of a request *)

Definition slot_blocks (slots : list (option (nat * nat))) : list nat :=
  concat (map (fun s => match s with Some (k, v) => [k; v] | None => [] end) slots).
Definition owned (r : request) : list nat :=
  rq_self r :: rq_headers r :: option_list (rq_buf r) ++ option_list (rq_path r) ++ slot_blocks (rq_slots r).

(** A request whose blocks agree with what it holds. *)
Definition is_there {A B} (a : option A) (b : option B) : Prop := is_Some a <-> is_Some b.
Record valid (r : request) : Prop := {
  va_slots : Forall2 is_there (rq_slots r) (headers (rq_data r));
  va_buf : is_there (rq_buf r) (line (rq_data r));
  va_path : is_there (rq_path r) (line (rq_data r));
  va_room : (0 < headerslen (rq_data r))%nat }.

Lemma slot_blocks_insert slots i k v :
  slots !! i = Some (Some (k, v)) -> slot_blocks slots ≡ₚ k :: v :: slot_blocks (<[i := None]> slots).
Proof.
  intros Hi. rewrite <-(take_drop_middle slots i _ Hi) at 1.
  rewrite insert_take_drop by (by eapply lookup_lt_Some).
  unfold slot_blocks. rewrite !map_app, !concat_app. cbn [map concat app]. solve_Permutation.
Qed.

Lemma slot_blocks_elem slots i k v :
  slots !! i = Some (Some (k, v)) -> k ∈ slot_blocks slots.
Proof. intros Hi. rewrite (slot_blocks_insert slots i k v Hi). by left. Qed.

(** ** Looking up *)

Lemma get_slot_ok h l from key slots : forall hs,
  owns h l -> (forall p, from = Some p -> p ∈ l) -> slot_blocks slots ⊆ l ->
  Forall2 is_there slots hs -> get_slot from key slots hs h = Ok (find_header key hs, h).
Proof.
  induction slots as [|s slots IH]; intros hs Ho Hf Hsub Hal.
  { by inversion Hal. }
  inversion Hal as [|? hd ? hs' Hs Hal']; subst. cbn [get_slot find_header].
  assert (Hrest : slot_blocks slots ⊆ l).
  { intros p Hp. apply Hsub. unfold slot_blocks. cbn [map concat]. apply elem_of_app. by right. }
  assert (Hi : (i ← get_slot from key slots hs'; mret (S <$> i)) h = Ok (S <$> find_header key hs', h))
    by (by rewrite (bind_ok _ _ _ _ _ (IH hs' Ho Hf Hrest Hal'))).
  destruct s as [[k v]|], hd as [[kb vb]|].
  - assert (Hk : k ∈ l) by (apply Hsub; unfold slot_blocks; cbn; by left).
    rewrite (bind_ok _ _ _ _ _ (use_ok h l k Ho Hk)).
    assert (Hu : opt use from h = Ok (tt, h))
      by (destruct from as [p|]; [by apply (use_ok h l), Hf|done]).
    rewrite (bind_ok _ _ _ _ _ Hu). by destruct (strcmp_eq kb key).
  - destruct Hs as [Hs _]. by destruct (Hs ltac:(by eexists)).
  - destruct Hs as [_ Hs]. by destruct (Hs ltac:(by eexists)).
  - exact Hi.
Qed.

Lemma find_header_lookup key hs i : find_header key hs = Some i -> exists kv, hs !! i = Some (Some kv).
Proof.
  revert i. induction hs as [|hd hs IH]; intros i E; [done|]. cbn [find_header] in E.
  destruct hd as [[k v]|].
  - destruct (strcmp_eq k key); [injection E as <-; by eexists|].
    destruct (find_header key hs) as [j|]; [|done]. injection E as <-. by apply IH.
  - destruct (find_header key hs) as [j|]; [|done]. injection E as <-. by apply IH.
Qed.

(** * The functions *)

(** [m] does to the request what [pure] does to its contents, and owns what the
    request then consists of, next to [frame]. *)
Definition refines (frame : list nat) (pure : res (Z * parsed_request)) (m : HM (Z * request))
  (h : heap) : Prop :=
  match pure with
  | Ok (z, d) => exists r h', m h = Ok ((z, r), h') /\ rq_data r = d /\ valid r /\ owns h' (owned r ++ frame)
  | Fault e => m h = Fault e
  end.

(** A string is static or lies in a block of [l]. *)
Definition lies_in (from : option nat) (l : list nat) : Prop := forall p, from = Some p -> p ∈ l.

Lemma opt_use_ok h l from : owns h l -> lies_in from l -> opt use from h = Ok (tt, h).
Proof. intros Ho Hf. destruct from as [p|]; [by apply (use_ok h l), Hf|done]. Qed.

Lemma lies_in_sub from l k : lies_in from l -> l ⊆ k -> lies_in from k.
Proof. intros Hf Hs p Hp. by apply Hs, Hf. Qed.

Lemma header_get_ok h frame r from key :
  owns h (owned r ++ frame) -> valid r -> lies_in from (owned r ++ frame) ->
  header_get r from key h = Ok (ParsedHeader_get (rq_data r) key, h).
Proof.
  intros Ho [Hs _ _ _] Hf. unfold header_get.
  rewrite (bind_ok _ _ _ _ _ (use_ok h _ (rq_self r) Ho ltac:(by left))).
  rewrite (bind_ok _ _ _ _ _ (use_ok h _ (rq_headers r) Ho ltac:(right; by left))).
  apply (get_slot_ok h (owned r ++ frame)); [done|done| |done].
  intros p Hp. apply elem_of_app. left. unfold owned. do 2 right. rewrite !elem_of_app. by do 2 right.
Qed.

Lemma is_there_insert {A B} (slots : list (option A)) (hs : list (option B)) i :
  Forall2 is_there slots hs -> Forall2 is_there (<[i := None]> slots) (<[i := None]> hs).
Proof. intros Hs. apply Forall2_insert; [done|]. split; intros []; done. Qed.

Lemma header_remove_ok h frame r from key :
  owns h (owned r ++ frame) -> valid r -> lies_in from (owned r ++ frame) ->
  exists slots h', header_remove r from key h =
      Ok (((ParsedHeader_remove (rq_data r) key).1,
           with_headers r (rq_headers r) slots (ParsedHeader_remove (rq_data r) key).2), h') /\
    Forall2 is_there slots (headers (ParsedHeader_remove (rq_data r) key).2) /\
    owns h' (owned (with_headers r (rq_headers r) slots (ParsedHeader_remove (rq_data r) key).2) ++ frame) /\
    (forall i k v, find_header key (headers (rq_data r)) = Some i -> rq_slots r !! i = Some (Some (k, v)) ->
       dead k h').
Proof.
  intros Ho Hv Hf. unfold header_remove.
  rewrite (bind_ok _ _ _ _ _ (header_get_ok h frame r from key Ho Hv Hf)).
  unfold ParsedHeader_remove, ParsedHeader_get. destruct Hv as [Hs _ _ _].
  destruct (find_header key (headers (rq_data r))) as [i|] eqn:Ei.
  2:{ exists (rq_slots r), h. destruct r. split; [done|]. by split. }
  destruct (find_header_lookup key _ i Ei) as [kv Hkv].
  destruct (Forall2_lookup_r _ _ _ _ _ Hs Hkv) as (s & Hi & Hthere).
  destruct s as [[k v]|]; [|destruct Hthere as [_ Ht]; by destruct (Ht ltac:(by eexists))].
  rewrite Hi. set (slots := <[i := None]> (rq_slots r)). set (d := ParsedRequest _ _ _).
  set (r' := with_headers r (rq_headers r) slots d).
  assert (Hperm : owned r ++ frame ≡ₚ k :: v :: owned r' ++ frame).
  { unfold owned, r'. cbn [rq_self rq_headers rq_buf rq_path rq_slots with_headers].
    rewrite (slot_blocks_insert _ i k v Hi). fold slots. solve_Permutation. }
  rewrite Hperm in Ho. destruct (free_ok _ _ _ Ho) as (h1 & E1 & O1).
  destruct (free_ok _ _ _ O1) as (h2 & E2 & O2).
  rewrite (bind_ok _ _ _ _ _ E1), (bind_ok _ _ _ _ _ E2). exists slots, h2.
  split; [done|]. split; [by apply is_there_insert|]. split; [exact O2|].
  intros j k' v' [= <-] Hj. rewrite Hi in Hj. injection Hj as <- <-.
  apply (free_dead _ _ _ _ E2). left. apply (free_dead _ _ _ _ E1). right. split; [done|].
  apply (ow_old _ _ Ho). by left.
Qed.

(** Setting a header, whose key and value are static or in blocks of the frame. *)
Lemma header_set_ok h frame r fk key fv value :
  owns h (owned r ++ frame) -> valid r -> lies_in fk frame -> lies_in fv frame ->
  refines frame (ParsedHeader_set (rq_data r) key value) (header_set r fk key fv value) h.
Proof.
  intros Ho Hv Hfk Hfv. unfold header_set, refines.
  destruct (header_remove_ok h frame r fk key Ho Hv) as (slots & h1 & E1 & Hs & O1 & _).
  { eapply lies_in_sub; [exact Hfk|]. intros p Hp. apply elem_of_app. by right. }
  rewrite (bind_ok _ _ _ _ _ E1). set (d1 := (ParsedHeader_remove (rq_data r) key).2) in *.
  set (r1 := with_headers r (rq_headers r) slots d1) in *.
  assert (Hd1 : line d1 = line (rq_data r) /\ headerslen d1 = headerslen (rq_data r))
    by (unfold d1, ParsedHeader_remove; by destruct (ParsedHeader_get _ _)).
  unfold ParsedHeader_set. fold d1.
  set (cap := if (headerslen d1 <=? headersused d1 + 1)%nat then (headerslen d1 * 2)%nat else headerslen d1).
  destruct (headersused d1 <? cap)%nat; [|done]. rewrite bind_lift. change (rq_data r1) with d1.
  assert (Harr : exists arr h2, (if (headerslen d1 <=? headersused d1 + 1)%nat
      then realloc (rq_headers r1) else mret (rq_headers r1)) h1 = Ok (arr, h2) /\
    owns h2 (owned (with_headers r1 arr slots d1) ++ frame)).
  { destruct (headerslen d1 <=? headersused d1 + 1)%nat; [|by exists (rq_headers r1), h1].
    assert (Hp : owned r1 ++ frame ≡ₚ rq_headers r1 ::
      rq_self r1 :: option_list (rq_buf r1) ++ option_list (rq_path r1) ++ slot_blocks slots ++ frame).
    { unfold owned. change (rq_slots r1) with slots. solve_Permutation. }
    rewrite Hp in O1. destruct (free_ok _ _ _ O1) as (ha & Ea & Oa).
    destruct (malloc_ok _ _ Oa) as (arr & hb & Eb & Ob). exists arr, hb.
    unfold realloc. rewrite (bind_ok _ _ _ _ _ Ea). split; [exact Eb|].
    replace (owned (with_headers r1 arr slots d1)) with
      (rq_self r1 :: arr :: option_list (rq_buf r1) ++ option_list (rq_path r1) ++ slot_blocks slots) by done.
    assert (Hq : arr :: rq_self r1 :: option_list (rq_buf r1) ++ option_list (rq_path r1) ++ slot_blocks slots ++ frame
      ≡ₚ (rq_self r1 :: arr :: option_list (rq_buf r1) ++ option_list (rq_path r1) ++ slot_blocks slots) ++ frame)
      by solve_Permutation. by rewrite <-Hq. }
  destruct Harr as (arr & h2 & E2 & O2). rewrite (bind_ok _ _ _ _ _ E2).
  set (r2 := with_headers r1 arr slots d1) in *.
  assert (Hin : forall p, p ∈ frame -> p ∈ owned r2 ++ frame) by (intros p Hp; apply elem_of_app; by right).
  rewrite (bind_ok _ _ _ _ _ (opt_use_ok h2 _ fk O2 (lies_in_sub _ _ _ Hfk Hin))).
  destruct (malloc_ok _ _ O2) as (k & h3 & E3 & O3). rewrite (bind_ok _ _ _ _ _ E3).
  assert (Hin3 : forall p, p ∈ frame -> p ∈ k :: owned r2 ++ frame) by (intros p Hp; right; by apply Hin).
  rewrite (bind_ok _ _ _ _ _ (opt_use_ok h3 _ fk O3 (lies_in_sub _ _ _ Hfk Hin3))).
  rewrite (bind_ok _ _ _ _ _ (opt_use_ok h3 _ fv O3 (lies_in_sub _ _ _ Hfv Hin3))).
  destruct (malloc_ok _ _ O3) as (v & h4 & E4 & O4). rewrite (bind_ok _ _ _ _ _ E4).
  assert (Hin4 : forall p, p ∈ frame -> p ∈ v :: k :: owned r2 ++ frame) by (intros p Hp; right; by apply Hin3).
  rewrite (bind_ok _ _ _ _ _ (opt_use_ok h4 _ fv O4 (lies_in_sub _ _ _ Hfv Hin4))).
  do 2 eexists. split; [reflexivity|]. split; [done|]. split.
  - destruct Hv as [_ Hb Hpath Hr]. destruct Hd1 as [Hl1 Hl2].
    split; cbn [rq_slots rq_data rq_buf rq_path with_headers headers line headerslen].
    + apply Forall2_app; [exact Hs|]. constructor; [|constructor]. by split; eexists.
    + change (rq_buf r1) with (rq_buf r). by rewrite Hl1.
    + change (rq_path r1) with (rq_path r). by rewrite Hl1.
    + unfold cap. destruct (_ <=? _)%nat; lia.
  - assert (Hp : v :: k :: owned r2 ++ frame ≡ₚ
      (rq_self r1 :: arr :: option_list (rq_buf r1) ++ option_list (rq_path r1) ++
       (slot_blocks slots ++ [k; v])) ++ frame)
      by (unfold owned, r2; cbn [rq_self rq_headers rq_buf rq_path rq_slots with_headers]; solve_Permutation).
    rewrite Hp in O4. unfold owned. cbn [rq_self rq_headers rq_buf rq_path rq_slots with_headers].
    change (rq_slots r1) with slots. unfold slot_blocks at 1. rewrite map_app, concat_app. exact O4.
Qed.

Lemma header_parse_ok h frame r hline :
  owns h (owned r ++ frame) -> valid r ->
  refines frame (ParsedHeader_parse (rq_data r) hline) (header_parse r hline) h.
Proof.
  intros Ho Hv. unfold header_parse, ParsedHeader_parse, refines.
  destruct (index hline COLON) as [[key index1]|]; [|by exists r, h].
  destruct (malloc_ok _ _ Ho) as (k & h1 & E1 & O1). rewrite (bind_ok _ _ _ _ _ E1).
  destruct (length index1 <? 2)%nat; [done|].
  destruct (strstr (drop 2 index1) CRLF) as [[value rest]|]; [|done].
  destruct (malloc_ok _ _ O1) as (v & h2 & E2 & O2). rewrite (bind_ok _ _ _ _ _ E2).
  assert (Hp : v :: k :: owned r ++ frame ≡ₚ owned r ++ v :: k :: frame) by solve_Permutation.
  rewrite Hp in O2.
  pose proof (header_set_ok h2 (v :: k :: frame) r (Some k) key (Some v) value O2 Hv) as H.
  unfold refines in H. destruct (ParsedHeader_set (rq_data r) key value) as [[z d]|e]; cbn [mbind res_bind mret res_ret].
  - destruct H as (r' & h3 & E3 & Hd & Hv' & O3).
    { intros p [= <-]. right. by left. }
    { intros p [= <-]. by left. }
    rewrite (bind_ok _ _ _ _ _ E3).
    assert (Hq : owned r' ++ v :: k :: frame ≡ₚ k :: v :: owned r' ++ frame) by solve_Permutation.
    rewrite Hq in O3. destruct (free_ok _ _ _ O3) as (h4 & E4 & O4).
    destruct (free_ok _ _ _ O4) as (h5 & E5 & O5).
    rewrite (bind_ok _ _ _ _ _ E4), (bind_ok _ _ _ _ _ E5). by exists r', h5.
  - apply bind_fault, H.
    + intros p [= <-]. right. by left.
    + intros p [= <-]. by left.
Qed.

Lemma headers_parse_ok fuel : forall tmp_buf h frame r current,
  tmp_buf ∈ frame -> owns h (owned r ++ frame) -> valid r ->
  refines frame (parse_headers fuel (rq_data r) current) (headers_parse fuel tmp_buf r current) h.
Proof.
  induction fuel as [|fuel IH]; intros tmp_buf h frame r current Ht Ho Hv; [done|].
  cbn [parse_headers headers_parse]. unfold refines.
  assert (Hin : tmp_buf ∈ owned r ++ frame) by (apply elem_of_app; by right).
  rewrite (bind_ok _ _ _ _ _ (use_ok h _ tmp_buf Ho Hin)).
  destruct current as [|c current]; [by exists r, h|].
  destruct (is_prefix CRLF (c :: current)); [by exists r, h|].
  pose proof (header_parse_ok h frame r (c :: current) Ho Hv) as H. unfold refines in H.
  destruct (ParsedHeader_parse (rq_data r) (c :: current)) as [[z d]|e]; cbn [mbind res_bind].
  2:{ by apply bind_fault. }
  destruct H as (r' & h1 & E1 & <- & Hv' & O1). rewrite (bind_ok _ _ _ _ _ E1).
  destruct (negb (z =? 0)); [by exists r', h1|].
  destruct (strstr (c :: current) CRLF) as [[a s]|]; [|by exists r', h1].
  destruct (length s <? 2)%nat; [by exists r', h1|]. by apply IH.
Qed.

(** A request whose line has not been parsed has no [buf] and no [path]. *)
Lemma not_there {A B} (a : option A) (b : option B) : is_there a b -> b = None -> a = None.
Proof. intros [H _] ->. destruct a; [|done]. by destruct (H ltac:(by eexists)). Qed.

Lemma with_line_none r : valid r -> line (rq_data r) = None -> with_line r None None None = r.
Proof.
  intros [_ Hb Hp _] Hl. pose proof (not_there _ _ Hb Hl) as Eb. pose proof (not_there _ _ Hp Hl) as Ep.
  destruct r as [s a sl b p [l hs n]]. cbn in *. by subst.
Qed.

Lemma request_parse_ok h frame err r buf buflen :
  owns h (owned r ++ frame) -> valid r ->
  refines frame (ParsedRequest_parse err (rq_data r) buf buflen) (request_parse err r buf buflen) h.
Proof.
  intros Ho Hv. unfold request_parse, ParsedRequest_parse, refines.
  rewrite (bind_ok _ _ _ _ _ (use_ok h _ (rq_self r) Ho ltac:(by left))).
  destruct (line (rq_data r)) as [l|] eqn:El.
  { pose proof (va_buf _ Hv) as [_ Hb]. rewrite El in Hb. destruct (rq_buf r); [by exists r, h|].
    by destruct (Hb ltac:(by eexists)). }
  rewrite (not_there _ _ (va_buf _ Hv) El).
  destruct (_ || _); [by exists r, h|].
  destruct (malloc_ok _ _ Ho) as (tmp & h1 & E1 & O1). rewrite (bind_ok _ _ _ _ _ E1).
  destruct (rd 0 (Z.to_nat buflen) buf) as [data|e]; [|done]. cbn [mbind res_bind]. rewrite bind_lift.
  destruct (c_str (data ++ [0])) as [s|e]; [|done]. rewrite bind_lift. cbn [mbind res_bind].
  assert (Hfail : refines frame (Ok (-1, rq_data r)) (free tmp;; mret (-1, r)) h1).
  { destruct (free_ok _ _ _ O1) as (h2 & E2 & O2). unfold refines.
    rewrite (bind_ok _ _ _ _ _ E2). by exists r, h2. }
  destruct (strstr s (CRLF ++ CRLF)) as [found|]; [|exact Hfail].
  destruct (strstr s CRLF) as [[first rest]|]; [|exact Hfail]. clear Hfail.
  destruct (malloc_ok _ _ O1) as (b & h2 & E2 & O2). rewrite (bind_ok _ _ _ _ _ E2).
  unfold parse_request_line. destruct (parse_addr first) as [t|e]; [|done]. rewrite bind_lift.
  cbn [mbind res_bind]. destruct t as [t|]; cbn [option_bind].
  2:{ assert (Hp : b :: tmp :: owned r ++ frame ≡ₚ tmp :: b :: owned r ++ frame) by solve_Permutation.
      rewrite Hp in O2. destruct (free_ok _ _ _ O2) as (h3 & E3 & O3).
      destruct (free_ok _ _ _ O3) as (h4 & E4 & O4).
      rewrite (bind_ok _ _ _ _ _ E3), (bind_ok _ _ _ _ _ E4), (with_line_none r Hv El). by exists r, h4. }
  destruct (malloc_ok _ _ O2) as (p & h3 & E3 & O3). rewrite (bind_ok _ _ _ _ _ E3).
  change (Some t ≫= parse_host_port err) with (parse_host_port err t).
  destruct (parse_host_port err t) as [l|].
  2:{ assert (Hp : p :: b :: tmp :: owned r ++ frame ≡ₚ tmp :: b :: p :: owned r ++ frame) by solve_Permutation.
      rewrite Hp in O3. destruct (free_ok _ _ _ O3) as (h4 & E4 & O4).
      destruct (free_ok _ _ _ O4) as (h5 & E5 & O5). destruct (free_ok _ _ _ O5) as (h6 & E6 & O6).
      rewrite (bind_ok _ _ _ _ _ E4), (bind_ok _ _ _ _ _ E5), (bind_ok _ _ _ _ _ E6).
      rewrite (with_line_none r Hv El). by exists r, h6. }
  set (r1 := with_line r (Some b) (Some p) (Some l)).
  assert (Hp : p :: b :: tmp :: owned r ++ frame ≡ₚ owned r1 ++ tmp :: frame).
  { unfold owned, r1. cbn [rq_self rq_headers rq_buf rq_path rq_slots with_line option_list].
    rewrite (not_there _ _ (va_buf _ Hv) El), (not_there _ _ (va_path _ Hv) El). cbn [option_list].
    solve_Permutation. }
  rewrite Hp in O3.
  assert (Hv1 : valid r1).
  { destruct Hv as [Hs _ _ Hr]. split; [exact Hs| |by split; eexists|exact Hr]. by split; eexists. }
  pose proof (headers_parse_ok (S (length rest)) tmp h3 (tmp :: frame) r1 (drop 2 rest) ltac:(by left) O3 Hv1) as H.
  unfold refines in H. change (rq_data r1) with
    (ParsedRequest (Some l) (headers (rq_data r)) (headerslen (rq_data r))) in H.
  destruct (parse_headers _ _ _) as [[z d]|e]; [|by apply bind_fault].
  destruct H as (r2 & h4 & E4 & <- & Hv2 & O4). rewrite (bind_ok _ _ _ _ _ E4).
  assert (Hq : owned r2 ++ tmp :: frame ≡ₚ tmp :: owned r2 ++ frame) by solve_Permutation.
  rewrite Hq in O4. destruct (free_ok _ _ _ O4) as (h5 & E5 & O5).
  rewrite (bind_ok _ _ _ _ _ E5). by exists r2, h5.
Qed.

(** ** From creation to destruction *)

Lemma request_create_ok h frame :
  owns h frame -> exists r h', request_create h = Ok (r, h') /\ rq_data r = ParsedRequest_create /\
    valid r /\ owns h' (owned r ++ frame).
Proof.
  intros Ho. unfold request_create. destruct (malloc_ok _ _ Ho) as (p & h1 & E1 & O1).
  destruct (malloc_ok _ _ O1) as (q & h2 & E2 & O2).
  rewrite (bind_ok _ _ _ _ _ E1), (bind_ok _ _ _ _ _ E2). do 2 eexists. split; [reflexivity|].
  split; [done|]. split.
  - split; [constructor|by split; intros []|by split; intros []|]. cbn. unfold DEFAULT_NHDRS. lia.
  - assert (Hp : q :: p :: frame ≡ₚ p :: q :: frame) by solve_Permutation. by rewrite Hp in O2.
Qed.

Lemma opt_free_ok h b l : owns h (option_list b ++ l) -> exists h', opt free b h = Ok (tt, h') /\ owns h' l.
Proof. intros Ho. destruct b as [p|]; [by apply free_ok|by exists h]. Qed.

Lemma destroy_slots_ok slots : forall h l,
  owns h (slot_blocks slots ++ l) -> exists h', for_each destroy_one slots h = Ok (tt, h') /\ owns h' l.
Proof.
  induction slots as [|s slots IH]; intros h l Ho; [by exists h|]. cbn [for_each].
  destruct s as [[k v]|].
  - change (slot_blocks (Some (k, v) :: slots)) with (k :: v :: slot_blocks slots) in Ho.
    destruct (free_ok _ _ _ Ho) as (h1 & E1 & O1). destruct (free_ok _ _ _ O1) as (h2 & E2 & O2).
    destruct (IH _ _ O2) as (h3 & E3 & O3). exists h3. cbn [destroy_one].
    by rewrite bind_assoc, (bind_ok _ _ _ _ _ E1), (bind_ok _ _ _ _ _ E2).
  - destruct (IH _ _ Ho) as (h1 & E1 & O1). exists h1. cbn [destroy_one]. by rewrite bind_ret_l.
Qed.

Lemma request_destroy_ok h frame r :
  owns h (owned r ++ frame) -> valid r -> exists h', request_destroy r h = Ok (tt, h') /\ owns h' frame.
Proof.
  intros Ho Hv. unfold request_destroy.
  rewrite (bind_ok _ _ _ _ _ (use_ok h _ (rq_self r) Ho ltac:(by left))).
  assert (Hp : owned r ++ frame ≡ₚ option_list (rq_buf r) ++ option_list (rq_path r) ++ slot_blocks (rq_slots r) ++
    rq_headers r :: rq_self r :: frame) by (unfold owned; solve_Permutation).
  rewrite Hp in Ho. destruct (opt_free_ok _ _ _ Ho) as (h1 & E1 & O1).
  destruct (opt_free_ok _ _ _ O1) as (h2 & E2 & O2).
  rewrite (bind_ok _ _ _ _ _ E1), (bind_ok _ _ _ _ _ E2).
  rewrite (proj2 (Nat.ltb_lt _ _)) by apply (va_room _ Hv).
  assert (Hin : rq_headers r ∈ slot_blocks (rq_slots r) ++ rq_headers r :: rq_self r :: frame)
    by (apply elem_of_app; right; by left).
  unfold destroy_headers. rewrite bind_assoc, (bind_ok _ _ _ _ _ (use_ok _ _ _ O2 Hin)), bind_assoc.
  destruct (destroy_slots_ok _ _ _ O2) as (h3 & E3 & O3). rewrite (bind_ok _ _ _ _ _ E3).
  destruct (free_ok _ _ _ O3) as (h4 & E4 & O4). rewrite (bind_ok _ _ _ _ _ E4). by apply free_ok.
Qed.

(** * Runs *)

(** The calls between creation and destruction, with static strings. *)
Inductive call :=
| CSet (key value : buffer)
| CRemove (key : buffer)
| CParse (err : Z) (buf : buffer) (buflen : Z).

Definition pure_call (c : call) (d : parsed_request) : res (Z * parsed_request) :=
  match c with
  | CSet key value => ParsedHeader_set d key value
  | CRemove key => Ok (ParsedHeader_remove d key)
  | CParse err buf buflen => ParsedRequest_parse err d buf buflen
  end.
Definition heap_call (c : call) (r : request) : HM (Z * request) :=
  match c with
  | CSet key value => header_set r None key None value
  | CRemove key => header_remove r None key
  | CParse err buf buflen => request_parse err r buf buflen
  end.

Fixpoint pure_calls (cs : list call) (d : parsed_request) : res (list Z * parsed_request) :=
  match cs with
  | [] => Ok ([], d)
  | c :: cs => '(z, d) ← pure_call c d; '(zs, d) ← pure_calls cs d; mret (z :: zs, d)
  end.
Fixpoint heap_calls (cs : list call) (r : request) : HM (list Z * request) :=
  match cs with
  | [] => mret ([], r)
  | c :: cs => '(z, r) ← heap_call c r; '(zs, r) ← heap_calls cs r; mret (z :: zs, r)
  end.

(** A request from its creation to its destruction: the results and what it held at
    last. *)
Definition lifetime (cs : list call) : HM (list Z * parsed_request) :=
  r ← request_create;
  '(zs, r) ← heap_calls cs r;
  request_destroy r;;
  mret (zs, rq_data r).

Lemma heap_call_ok h frame r c :
  owns h (owned r ++ frame) -> valid r -> refines frame (pure_call c (rq_data r)) (heap_call c r) h.
Proof.
  intros Ho Hv. destruct c as [key value|key|err buf buflen]; cbn [pure_call heap_call].
  - by apply header_set_ok.
  - destruct (header_remove_ok h frame r None key Ho Hv) as (slots & h' & E & Hs & O' & _); [done|].
    unfold refines. destruct (ParsedHeader_remove (rq_data r) key) as [z d] eqn:Er. cbn [fst snd] in *.
    do 2 eexists. split; [exact E|]. split; [done|]. split; [|exact O'].
    assert (Hd : line d = line (rq_data r) /\ headerslen d = headerslen (rq_data r))
      by (unfold ParsedHeader_remove in Er; destruct (ParsedHeader_get _ _); by injection Er as <- <-).
    destruct Hv as [_ Hb Hp Hr], Hd as [Hd1 Hd2].
    split; cbn [rq_slots rq_data rq_buf rq_path with_headers]; [done|by rewrite Hd1|by rewrite Hd1|by rewrite Hd2].
  - by apply request_parse_ok.
Qed.

Lemma heap_calls_ok cs : forall h frame r,
  owns h (owned r ++ frame) -> valid r ->
  match pure_calls cs (rq_data r) with
  | Ok (zs, d) => exists r' h', heap_calls cs r h = Ok ((zs, r'), h') /\ rq_data r' = d /\ valid r' /\
      owns h' (owned r' ++ frame)
  | Fault e => heap_calls cs r h = Fault e
  end.
Proof.
  induction cs as [|c cs IH]; intros h frame r Ho Hv; [by exists r, h|]. cbn [pure_calls heap_calls].
  pose proof (heap_call_ok h frame r c Ho Hv) as H. unfold refines in H.
  destruct (pure_call c (rq_data r)) as [[z d]|e]; cbn [mbind res_bind]; [|by apply bind_fault].
  destruct H as (r1 & h1 & E1 & <- & Hv1 & O1). rewrite (bind_ok _ _ _ _ _ E1).
  specialize (IH h1 frame r1 O1 Hv1).
  destruct (pure_calls cs (rq_data r1)) as [[zs d]|e]; cbn [mret res_ret]; [|by apply bind_fault].
  destruct IH as (r2 & h2 & E2 & Hd & Hv2 & O2). rewrite (bind_ok _ _ _ _ _ E2). by exists r2, h2.
Qed.

(** C17: The memory of the parser. Whatever headers are set and removed and whatever
    is parsed, as often as one likes and with whatever success, between the
    creation of a request and its destruction, every access is to a live block,
    no block is freed twice, and afterwards exactly the blocks that were live
    before are live: none has leaked, on any path. The results and what the
    request holds are those of the functions of HttpParse, with the same faults,
    none of which comes of the memory's management. *)
Theorem no_leak_no_double_free cs h frame :
  owns h frame ->
  match pure_calls cs ParsedRequest_create with
  | Ok (zs, d) => exists h', lifetime cs h = Ok ((zs, d), h') /\ owns h' frame
  | Fault e => lifetime cs h = Fault e
  end.
Proof.
  intros Ho. unfold lifetime.
  destruct (request_create_ok h frame Ho) as (r & h1 & E1 & <- & Hv1 & O1).
  rewrite (bind_ok _ _ _ _ _ E1). pose proof (heap_calls_ok cs h1 frame r O1 Hv1) as H.
  destruct (pure_calls cs (rq_data r)) as [[zs d]|e]; [|by apply bind_fault].
  destruct H as (r2 & h2 & E2 & <- & Hv2 & O2). rewrite (bind_ok _ _ _ _ _ E2).
  destruct (request_destroy_ok h2 frame r2 O2 Hv2) as (h3 & E3 & O3).
  rewrite (bind_ok _ _ _ _ _ E3). by exists h3.
Qed.

Lemma no_leak_no_double_free_witness :
  let cs := [CSet [65] [1]; CParse 0 (str "GET / HTTP/1.0" ++ CRLF ++ CRLF) 18; CSet [65] [2];
    CParse 0 (str "GET http://h:80/p HTTP/1.0" ++ CRLF ++ str "B: x" ++ CRLF ++ CRLF) 36; CRemove [65]] in
  exists d h', lifetime cs (Heap {[7%nat]} 8) = Ok (([0; -1; 0; 0; 0], d), h') /\ owns h' [7%nat].
Proof.
  intros cs. assert (Ho : owns (Heap {[7%nat]} 8) [7%nat]).
  { split; cbn.
    - intros p. by rewrite elem_of_singleton, list_elem_of_singleton.
    - apply NoDup_singleton.
    - intros p ->%list_elem_of_singleton. lia. }
  pose proof (no_leak_no_double_free cs _ _ Ho) as H.
  destruct (pure_calls cs ParsedRequest_create) as [[zs d]|e] eqn:E; [|vm_compute in E; discriminate E].
  destruct H as (h' & E' & O'). exists d, h'. split; [|exact O']. rewrite E'.
  vm_compute in E. injection E as <- <-. reflexivity.
Defined.

(** Setting a header with the key that the request itself holds, as [ParsedHeader_get]
    gives it, reads the key after it has been freed. *)
Theorem own_key_dangles h frame r i k v key value z d :
  owns h (owned r ++ frame) -> valid r -> find_header key (headers (rq_data r)) = Some i ->
  rq_slots r !! i = Some (Some (k, v)) -> ParsedHeader_set (rq_data r) key value = Ok (z, d) ->
  header_set r (Some k) key None value h = Fault UseAfterFree.
Proof.
  intros Ho Hv Hi Hk Hset. unfold header_set.
  destruct (header_remove_ok h frame r (Some k) key Ho Hv) as (slots & h1 & E1 & Hs & O1 & Hdead).
  { intros p [= <-]. apply elem_of_app. left. unfold owned. do 2 right. rewrite !elem_of_app.
    right. right. by eapply slot_blocks_elem. }
  specialize (Hdead i k v Hi Hk). rewrite (bind_ok _ _ _ _ _ E1), Hset, bind_lift.
  set (r1 := with_headers _ _ _ _) in *.
  assert (Harr : exists arr h2, (if (headerslen (rq_data r1) <=? headersused (rq_data r1) + 1)%nat
      then realloc (rq_headers r1) else mret (rq_headers r1)) h1 = Ok (arr, h2) /\ dead k h2).
  { destruct (_ <=? _)%nat; [|by exists (rq_headers r1), h1].
    assert (Hp : owned r1 ++ frame ≡ₚ rq_headers r1 :: rq_self r1 :: option_list (rq_buf r1) ++
      option_list (rq_path r1) ++ slot_blocks slots ++ frame)
      by (unfold owned; change (rq_slots r1) with slots; solve_Permutation).
    rewrite Hp in O1. destruct (free_ok _ _ _ O1) as (ha & Ea & Oa).
    destruct (malloc_ok _ _ Oa) as (arr & hb & Eb & _). exists arr, hb. unfold realloc.
    rewrite (bind_ok _ _ _ _ _ Ea). split; [exact Eb|]. apply (malloc_dead _ _ _ _ Eb).
    apply (free_dead _ _ _ _ Ea). by left. }
  destruct Harr as (arr & h2 & E2 & D2). rewrite (bind_ok _ _ _ _ _ E2). by apply bind_fault, use_dead.
Qed.
