(* ===== verification/RouterSession.v ===== *)
(** The router's main loop: whatever frames the server sends, in whatever pieces,
    the loop handles each of them in turn, while the thread that sweeps the ARP cache
    takes turns and time passes between them, and returns when the server closes the
    session, in a state that is as sane as the one it began with; and the run of
    the program, from its command line to its exit status. *)
From S2P Require Import Prelude Mem Protocol Interfaces RoutingTable ArpCache Instance Router RouterFrames RouterProps RouterSafety RouterExamples RouterThreads Sockets CString Sha1 Vns VnsProps RouterDump RouterPrint RouterStart RouterStartProps.

(** * What the server sends *)

(** Commands that the loop takes without ending. *)
Inductive command :=
  | Packet (iface frame : buffer)
  | Banner (text padding : buffer).
Definition command_bytes (m : command) : buffer :=
  match m with
  | Packet iface frame => vns_message iface frame
  | Banner text padding =>
      base (8 + Z.of_nat (length (text ++ 0 :: padding))) VNSBANNER ++ text ++ 0 :: padding
  end.
(** The last command, with its reason. *)
Definition close_bytes (reason padding : buffer) : buffer :=
  base (8 + Z.of_nat (length (reason ++ 0 :: padding))) VNSCLOSE ++ reason ++ 0 :: padding.

(** What a router with these interfaces can be sent. *)
Definition command_ok (ifs : list sr_if) (m : command) : Prop :=
  match m with
  | Packet iface frame =>
      c_string iface /\ (length iface < 16)%nat /\ is_Some (sr_get_interface ifs iface) /\
      frame_ok frame /\ Z.of_nat (length frame) <= 9976 /\ (14 <= length frame)%nat /\
      (length frame < 34 \/ 42 <= length frame)%nat
  | Banner text padding =>
      c_string text /\ 8 + Z.of_nat (length (text ++ 0 :: padding)) <= 10000
  end.

(** What happens in a session: commands, and what goes on before each of them and
    before the close command. *)
Inductive happening :=
  | Command (m : command)
  | Between (ev : meantime).
Definition happenings (script : list (list meantime * command)) (last : list meantime)
  : list happening :=
  concat (map (fun x => map Between x.1 ++ [Command x.2]) script) ++ map Between last.

Section session.
Context `{Env} (w : machine) (depth fuel : nat).

(** What each command means to the router. *)
Definition obey (m : command) : RM unit := fun s =>
  match m with
  | Packet iface frame =>
      match sr_get_interface (in_if_list s) iface with
      | Some i => frame_step (S depth) iface frame i s
      | None => Fault NullDeref
      end
  | Banner _ _ => Ok (tt, s)
  end.

(** What each happening does to the router. *)
Definition happen (h : happening) : RM unit :=
  match h with Command m => obey m | Between ev => run_meantime (S depth) ev end.

Lemma for_each_between evs s :
  for_each happen (map Between evs) s = for_each (run_meantime (S depth)) evs s.
Proof.
  revert s. induction evs as [|ev evs IH]; intros s; [done|]. cbn [map for_each].
  unfold mbind, M_bind. cbn [happen]. by destruct (run_meantime _ _ _) as [[]|].
Qed.

Lemma keeps_obey s0 s m :
  good s0 s -> command_ok (in_if_list s) m -> keeps s0 (obey m s).
Proof.
  intros Hg Hm. destruct m as [iface frame|]; [|by apply keeps_ret].
  destruct Hm as (_ & _ & [i Hi] & Hf & _ & H1 & H2). unfold obey. rewrite Hi.
  unfold frame_step. destruct (arp_for_other i frame); [by apply keeps_ret|].
  eapply keeps_handlepacket; [|done|done|done|exact Hi]. by eapply good_same.
Qed.

(** Reads that took something leave a stream that can be read on. *)
Lemma has_read_on s a s' n :
  has_read s a s' -> (length (s_in s) < n)%nat -> steady (s_in s') /\ (length (s_in s') < n)%nat.
Proof. intros [_ ? ? _ _ _] ?. split; [done|lia]. Qed.

(** One command of the loop. *)
Lemma command_served c m rest :
  steady (s_in (cl_sock c)) -> (length (s_in (cl_sock c)) < fuel)%nat ->
  stream (s_in (cl_sock c)) = command_bytes m ++ rest -> command_ok (in_if_list (cl_sr c)) m ->
  exists sk, has_read (cl_sock c) (command_bytes m) sk /\ stream (s_in sk) = rest /\
    sr_read_from_server (surround w) (S depth) fuel c =
      (in_router (obey m);; mret 1) (set_sock sk c).
Proof.
  intros Hst Hf Hstr Hm. destruct m as [iface frame|text padding].
  - destruct Hm as (H1 & H2 & [i Hi] & _ & H3 & _).
    destruct (packet_expected (surround w) (S depth) fuel c iface frame rest i)
      as (sk & R & Hs & E); [done..|].
    exists sk. split; [exact R|]. split; [exact Hs|]. rewrite E.
    unfold mbind, M_bind, in_router, obey. cbn [cl_sr set_sock]. by rewrite Hi.
  - destruct Hm as [H1 H2]. cbn [command_bytes] in *. rewrite <-app_assoc in Hstr.
    destruct (expect_ok (surround w) (S depth) fuel 0 c VNSBANNER _ rest Hst Hf Hstr)
      as (sk & R & Hs & E); [done|unfold VNSBANNER; lia|].
    exists sk. split; [exact R|]. split; [exact Hs|]. unfold sr_read_from_server. rewrite E.
    cbn [negb andb Z.eqb]. unfold handle_command. cbn [Z.eqb VNSBANNER VNSPACKET VNSCLOSE Pos.eqb].
    change (drop 8 (?a ++ ?b ++ ?l)) with l. by rewrite c_str_app.
Qed.

Lemma close_served c reason padding rest :
  steady (s_in (cl_sock c)) -> (length (s_in (cl_sock c)) < fuel)%nat ->
  stream (s_in (cl_sock c)) = close_bytes reason padding ++ rest -> c_string reason ->
  8 + Z.of_nat (length (reason ++ 0 :: padding)) <= 10000 ->
  exists sk, stream (s_in sk) = rest /\ s_out sk = s_out (cl_sock c) /\
    sr_read_from_server (surround w) (S depth) fuel c = Ok (0, set_sock sk c).
Proof.
  intros Hst Hf Hstr Hr Hl. unfold close_bytes in Hstr. rewrite <-app_assoc in Hstr.
  destruct (expect_ok (surround w) (S depth) fuel 0 c VNSCLOSE _ rest Hst Hf Hstr)
    as (sk & R & Hs & E); [done|unfold VNSCLOSE; lia|].
  exists sk. split; [exact Hs|]. split; [apply (hr_out _ _ _ R)|].
  unfold sr_read_from_server. rewrite E.
  cbn [negb andb Z.eqb]. unfold handle_command. cbn [Z.eqb VNSPACKET VNSCLOSE Pos.eqb].
  change (drop 8 (?a ++ ?b ++ ?l)) with l. by rewrite c_str_app.
Qed.

(** What goes on before a command. *)
Lemma between_ok s0 evs rest s :
  sane s0 s -> Forall meantime_ok evs -> in_time happen (map Between evs ++ rest) s = true ->
  exists s', for_each (run_meantime (S depth)) evs s = Ok (tt, s') /\ sane s0 s' /\
    in_time happen rest s' = true.
Proof.
  intros Hs He Ht.
  destruct (for_each_in_time happen (sane s0)
    (fun h => match h with Command _ => False | Between ev => meantime_ok ev end) rest)
    with (l1 := map Between evs) (s := s) as (s' & E & H'); [|done|by apply Forall_map|done|].
  - intros [m|ev] x; [done|]. apply run_meantime_ok.
  - exists s'. by rewrite <-for_each_between.
Qed.

Lemma serve_good s0 last script : forall c reason padding rest,
  sane s0 (cl_sr c) -> in_time happen (happenings script last) (cl_sr c) = true ->
  steady (s_in (cl_sock c)) -> (length (s_in (cl_sock c)) < fuel)%nat ->
  Forall (fun x => Forall meantime_ok x.1 /\ command_ok (in_if_list s0) x.2) script ->
  Forall meantime_ok last -> c_string reason ->
  8 + Z.of_nat (length (reason ++ 0 :: padding)) <= 10000 ->
  stream (s_in (cl_sock c)) =
    concat (map command_bytes (map snd script)) ++ close_bytes reason padding ++ rest ->
  exists s' sk, for_each happen (happenings script last) (cl_sr c) = Ok (tt, s') /\ sane s0 s' /\
    no_timeouts s' /\ stream (s_in sk) = rest /\ s_out sk = s_out (cl_sock c) /\
    serve w (S depth) fuel (map fst script ++ [last]) c = Ok (tt, Session s' sk (cl_files c)).
Proof.
  unfold happenings. induction script as [|[evs m] script IH];
    intros c reason padding rest Hs Ht Hst Hf Hm Hlast Hr Hl Hstr.
  - cbn [map concat app] in *. rewrite <-(app_nil_r (map _ _)) in Ht.
    destruct (between_ok s0 last [] (cl_sr c) Hs Hlast Ht) as (s1 & E1 & Hs1 & Ht1).
    destruct (close_served (with_sr c s1) reason padding rest) as (sk & Hrest & Hout & E); [done..|].
    exists s1, sk. rewrite for_each_between. split; [done|]. split; [done|].
    split; [by eapply in_time_start|]. do 2 (split; [done|]).
    rewrite (serve_turn _ _ _ _ _ _ _ _ _ E1 E). done.
  - apply Forall_cons in Hm as [[He Hm] Hms]. cbn [map concat fst snd] in Ht, Hstr |- *.
    rewrite <-app_assoc in Hstr. rewrite <-!app_assoc in Ht.
    destruct (between_ok s0 evs _ (cl_sr c) Hs He Ht) as (s1 & E1 & Hs1 & Ht1).
    cbn [app] in Ht1. pose proof (in_time_start _ _ _ Ht1) as Hn1. destruct Hs1 as [Hi1 Hc1].
    assert (Hm' : command_ok (in_if_list s1) m) by (by destruct Hc1 as (_ & -> & _)).
    set (c1 := with_sr c s1).
    destruct (command_served c1 m _ Hst Hf Hstr Hm') as (sk & R & Hrest & E).
    destruct (has_read_on _ _ _ _ R Hf) as [Hst' Hf'].
    destruct (ok_with_inv _ _ (keeps_obey s1 s1 m (sane_good s1 Hi1 Hn1) Hm')) as ([[] s2] & E2 & Hg2).
    destruct (IH (Session s2 sk (cl_files c)) reason padding rest)
      as (s' & sk' & F & Hs' & Hn' & Hrest' & Hout' & E'); [by eapply good_sane| |done..|].
    { by apply (in_time_cons happen (Command m) _ s1). }
    exists s', sk'. split; [|split; [done|split; [done|split; [done|split]]]].
    + rewrite <-!app_assoc, for_each_app.
      rewrite (bind_ok _ _ _ tt s1) by (by rewrite for_each_between).
      cbn [app for_each happen]. by rewrite (bind_ok _ _ _ _ _ E2).
    + rewrite Hout'. apply (hr_out _ _ _ R).
    + assert (E3 : sr_read_from_server (surround w) (S depth) fuel c1 =
        Ok (1, Session s2 sk (cl_files c))).
      { rewrite E. unfold mbind, M_bind, in_router. cbn [cl_sr set_sock cl_sock cl_files c1 with_sr].
        by rewrite E2. }
      cbn [app]. rewrite (serve_turn _ _ _ _ _ _ _ _ _ E1 E3). exact E'.
Qed.

(** C11: The main loop serves a session to its end, with the thread that sweeps the
    ARP cache beside it: before each command that thread makes any number of turns
    and any time passes. Given a sane state, and a stream, cut and interrupted in
    any way, that holds frames for the interfaces of the router (of at least 14
    bytes and either short of IP, or long enough to be quoted) and banners, and at
    last a close command, and as long as in no state of the run a request has used
    up its five attempts and is due, [serve] returns after as many turns as there
    are commands. Each frame has then been logged and handled once, in the order of
    arrival, in the state that the frames, the sweeps and the time before left;
    exactly the commands have been taken from the stream; nothing faulted, and the
    state is still sane, with the same user, interfaces and routes. A command is
    handled as a whole; [sweeps_between_calls] is about sweeps that come in between
    the calls of one, and about what happens when a request has used up its
    attempts. *)
Theorem session_served c script last reason padding rest :
  instance_ok (cl_sr c) -> in_time happen (happenings script last) (cl_sr c) = true ->
  steady (s_in (cl_sock c)) -> (length (s_in (cl_sock c)) < fuel)%nat ->
  Forall (fun x => Forall meantime_ok x.1 /\ command_ok (in_if_list (cl_sr c)) x.2) script ->
  Forall meantime_ok last -> c_string reason ->
  8 + Z.of_nat (length (reason ++ 0 :: padding)) <= 10000 ->
  stream (s_in (cl_sock c)) =
    concat (map command_bytes (map snd script)) ++ close_bytes reason padding ++ rest ->
  exists s' sk, for_each happen (happenings script last) (cl_sr c) = Ok (tt, s') /\
    serve w (S depth) fuel (map fst script ++ [last]) c = Ok (tt, Session s' sk (cl_files c)) /\
    stream (s_in sk) = rest /\ instance_ok s' /\ no_timeouts s' /\ same_setup (cl_sr c) s'.
Proof.
  intros Hi Ht Hst Hf Hm Hlast Hr Hl Hstr.
  destruct (serve_good (cl_sr c) last script c reason padding rest (sane_refl _ Hi) Ht Hst Hf Hm
    Hlast Hr Hl Hstr) as (s' & sk & F & [I1 I2] & N & S & _ & E).
  by exists s', sk.
Qed.
End session.

(** * The whole run *)

(** ** Interfaces as they were described *)

Lemma described_lookup l ifs name :
  map described l = map described ifs ->
  option_map described (sr_get_interface l name) = option_map described (sr_get_interface ifs name).
Proof.
  revert ifs. induction l as [|i l IH]; intros [|j ifs]; [done..|]. cbn [map].
  intros [= H1 H2 H3 H4]. cbn [sr_get_interface]. rewrite H1.
  case_match; [|by apply IH]. unfold option_map, described. by rewrite H1, H2, H3.
Qed.

Lemma described_verify l ifs table :
  map described l = map described ifs ->
  sr_verify_routing_table l table = sr_verify_routing_table ifs table.
Proof.
  intros Hd.
  assert (Hx : forall (f : cstr -> bool), existsb (fun i => f (if_name i)) l =
    existsb (fun i => f (if_name i)) ifs).
  { intros f. revert ifs Hd. induction l as [|i l IH]; intros [|j ifs]; [done..|].
    intros [= H1 _ _ H2]. cbn [existsb]. by rewrite H1, (IH ifs H2). }
  assert (Hf : forall t n, fold_left (fun ret r =>
      if existsb (fun i => strncmp_eq sr_IFACE_NAMELEN (if_name i) (rt_iface r)) l
      then ret else ret + 1) t n =
    fold_left (fun ret r =>
      if existsb (fun i => strncmp_eq sr_IFACE_NAMELEN (if_name i) (rt_iface r)) ifs
      then ret else ret + 1) t n).
  { induction t as [|r t IH]; intros n; [done|]. cbn [fold_left].
    rewrite IH. by rewrite (Hx (fun name => strncmp_eq sr_IFACE_NAMELEN name (rt_iface r))). }
  unfold sr_verify_routing_table. rewrite Hf. by destruct l, ifs.
Qed.

Lemma described_if_ok l ifs :
  map described l = map described ifs -> Forall if_ok ifs -> Forall if_ok l.
Proof.
  revert ifs. induction l as [|i l IH]; intros [|j ifs]; [done..|].
  intros [= _ H2 H3 H4] [Hj Hifs]%Forall_cons. constructor; [|by apply (IH ifs)].
  unfold if_ok in *. by rewrite H2, H3.
Qed.

Lemma described_command l ifs m :
  map described l = map described ifs -> command_ok ifs m -> command_ok l m.
Proof.
  intros Hd. destruct m as [iface frame|]; [|done]. intros (H1 & H2 & [i Hi] & H3).
  split; [done|]. split; [done|]. split; [|done].
  pose proof (described_lookup l ifs iface Hd) as E. rewrite Hi in E.
  destruct (sr_get_interface l iface); [by eexists|done].
Qed.

(** A router before its first frame. *)
Lemma start_good user l table log clock wire allocs :
  Forall if_ok l ->
  let s := SrInstance user l table sr_arpcache_init log clock wire allocs in
  instance_ok s /\ no_timeouts s.
Proof.
  intros Hl s. split; [|by apply Forall_nil].
  split; [done| |apply init_wf|by apply Forall_nil].
  apply Forall_replicate. split; [done|]. apply bytes_ok_zeros.
Qed.

Section run.
Context `{Env} (inet_aton : cstr -> option Z) (inet_ntoa : Z -> buffer) (w : machine).

(** The state in which the router comes to its first frame: the routes of its file,
    the interfaces described, an empty ARP cache and log, and a clock that has gone
    on. *)
Definition first_state (o : options) (s : sr_instance) (table : list sr_rt) (ifs : list sr_if)
    (evs : list meantime) : sr_instance :=
  SrInstance (user_of w o) (loaded (S (in_allocs s)) ifs) table sr_arpcache_init
    (if wants_log o then Some [] else None)
    (in_clock s + foldr (fun ev t => waited ev + t) 0 evs) (in_wire s)
    (in_allocs s + S (length ifs)).

(** C12: The router's program, from its command line to its exit status, with the
    thread that it starts. Whatever options without a template it is given, when its
    surroundings let it start, and the server greets it, describes interfaces among
    which are those of all routes, sends frames (as [session_served] has them) and
    banners and closes the session (all in one stream, cut and interrupted in any
    way), and however often the sweeping thread makes its turn and time passes before
    each command, then [main] returns 0, as long as in no state of the run a request
    for an address has used up its five attempts and is due. On the way it has
    answered the authentication and opened its topology, and then handled each frame
    once, in order, among the sweeps and waits, beginning with the routing table of
    its file, the interfaces described and an empty ARP cache; it does not fault, and
    what is left is a sane state. A command is handled as a whole;
    [sweeps_between_calls] is about sweeps that come in between the calls of one. *)
Theorem router_runs depth fuel args o p table key salt ok msg ifs evs script lastly reason padding
    rest n1 n2 sends :
  parse_options args default_options = Some o -> good_start inet_aton w o p table ->
  greets w key salt ok msg ->
  let k := cl_sock (pr_sess p) in
  steady (s_in k) -> (length (s_in k) < fuel)%nat ->
  stream (s_in k) = greeting salt ok msg ++ hw_message ifs ++
    concat (map command_bytes (map snd script)) ++ close_bytes reason padding ++ rest ->
  Forall describable ifs -> Forall if_ok ifs -> (length ifs <= 92)%nat ->
  sr_verify_routing_table ifs table = 0 ->
  Forall (fun x => Forall meantime_ok x.1 /\ command_ok ifs x.2) script ->
  Forall meantime_ok lastly -> c_string reason ->
  8 + Z.of_nat (length (reason ++ 0 :: padding)) <= 10000 ->
  s_sends k = SSent n1 :: SSent n2 :: sends -> (64 <= n1)%nat -> (108 <= n2)%nat ->
  let s := first_state o (cl_sr (pr_sess p)) table ifs evs in
  in_time (happen depth) (happenings script lastly) s = true ->
  exists p',
    main inet_aton inet_ntoa w (S depth) fuel (evs :: map fst script ++ [lastly]) args p =
      Ok (0, p') /\
    for_each (happen depth) (happenings script lastly) s = Ok (tt, cl_sr (pr_sess p')) /\
    instance_ok (cl_sr (pr_sess p')) /\ same_setup s (cl_sr (pr_sess p')) /\
    stream (s_in (cl_sock (pr_sess p'))) = rest /\
    s_out (cl_sock (pr_sess p')) = s_out k ++ auth_reply (user_of w o) salt key ++
      open_message (u16 (o_topo o)) (fill_array 32 (o_host o)) (user_of w o).
Proof.
  intros Ho Hs Hg k Hst Hf Hstr Hd Hok Hn Hv Hm Hlast Hr Hl Hsend H1 H2 s Ht.
  destruct (router_starts inet_aton inet_ntoa w (S depth) fuel evs (map fst script ++ [lastly]) args
    o p table key salt ok msg ifs _ n1 n2 sends Ho Hs Hg Hst Hf Hstr Hd Hn Hsend H1 H2)
    as (sk & out' & S1 & St & Ln & Hout & E).
  pose proof (described_loaded ifs (S (in_allocs (cl_sr (pr_sess p))))) as El.
  cbv zeta in E. rewrite (described_verify _ ifs table El), Hv in E.
  change (0 =? 0) with true in E. cbn iota in E.
  set (c := Session _ sk []) in E. change (SrInstance _ _ _ _ _ _ _ _) with s in (value of c).
  assert (G1 : instance_ok s) by (apply start_good; by eapply described_if_ok).
  destruct (serve_good w depth fuel s lastly script c reason padding rest)
    as (s' & sk' & F & [I1 I2] & _ & S2 & So & E2); [by apply sane_refl|done|exact St| | |done..|].
  - cbn [cl_sock c]. fold k in Ln. lia.
  - eapply Forall_impl; [exact Hm|]. intros x [Hx1 Hx2]. split; [done|]. by eapply described_command.
  - rewrite E2 in E. eexists. split; [exact E|]. split; [exact F|]. split; [exact I1|].
    split; [exact I2|]. split; [exact S2|]. cbn [pr_sess cl_sock]. rewrite So. exact Hout.
Qed.
End run.

(** * At a concrete input *)

(** A banner, a packet to forward, and the end, cut in the middle of a command
    and interrupted. *)
Definition session_commands : list command :=
  [Banner (str "hello") []; Packet (str "eth3") (transit_frame 9)].
Definition session_bytes : buffer :=
  concat (map command_bytes session_commands) ++ close_bytes (str "bye") [0] ++ [].
Definition session_machine : machine :=
  Machine (fun _ => None) None (fun _ => None) (File [] None) (fun _ => false) (fun _ _ => false) example_env.

(** Meanwhile the ARP cache is swept and time passes: the packet's next hop is asked
    again before the session ends. *)
Definition session_script : list (list meantime * command) :=
  [([Wait 3], Banner (str "hello") []); ([Sweep; Wait 1], Packet (str "eth3") (transit_frame 9))].
Definition session_end : list meantime := [Wait 2; Sweep; Wait 1; Sweep].

Lemma session_script_ok ifs :
  is_Some (sr_get_interface ifs (str "eth3")) ->
  Forall (fun x => Forall meantime_ok x.1 /\ command_ok ifs x.2) session_script.
Proof.
  intros Hi. apply Forall_cons. split; [split; [repeat constructor; discriminate|]|].
  { split; [repeat constructor; discriminate|by_compute]. }
  apply Forall_cons. split; [|apply Forall_nil; exact I].
  split; [repeat constructor; discriminate|].
  split; [repeat constructor; discriminate|]. split; [by_compute|]. split; [exact Hi|].
  split; [by_compute|]. split; [by_compute|]. split; [by_compute|]. right. by_compute.
Qed.

Lemma session_end_ok : Forall meantime_ok session_end.
Proof. repeat constructor; discriminate. Qed.

Lemma session_served_witness :
  exists s' sk, serve session_machine 1 4 [[Wait 3]; [Sweep; Wait 1]; session_end]
      (example_session fresh session_bytes) = Ok (tt, Session s' sk []) /\
    instance_ok s' /\ stream (s_in sk) = [] /\ length (in_wire s') = 2%nat.
Proof.
  destruct (session_served session_machine 0 4 (example_session fresh session_bytes)
    session_script session_end (str "bye") [0] []) as (s' & sk & F & E & Hs & Hi & _).
  - split; [by_compute|by_compute|apply init_wf|apply Forall_nil; exact I].
  - by_eval.
  - repeat constructor.
  - apply Nat.ltb_lt. reflexivity.
  - apply session_script_ok. by eexists.
  - apply session_end_ok.
  - repeat constructor; discriminate.
  - by_compute.
  - by_eval.
  - exists s', sk. split; [exact E|]. split; [exact Hi|]. split; [exact Hs|].
    assert (Hw : match for_each (happen 0) (happenings session_script session_end) fresh with
                 | Ok (_, s') => length (in_wire s') = 2%nat | Fault _ => False end) by by_eval.
    cbn [cl_sr example_session] in F. rewrite F in Hw. exact Hw.
Defined.

Lemma router_runs_witness :
  let m := greeting [1; 2; 3] 1 [] ++ hw_message [eth3] ++
    concat (map command_bytes session_commands) ++ close_bytes (str "bye") [0] ++ [] in
  exists p', main dotted_quad (fun _ => []) (demo_machine (str "me")) 1 4
      [[Wait 1; Sweep]; [Wait 3]; [Sweep; Wait 1]; session_end] [(116, str "7")]
      (demo_process m) = Ok (0, p') /\ in_routing_table (cl_sr (pr_sess p')) = [demo_route] /\
    instance_ok (cl_sr (pr_sess p')).
Proof.
  intros m.
  set (o := Options DEFAULT_HOST None DEFAULT_SERVER DEFAULT_RTABLE None DEFAULT_PORT 7 None).
  destruct (router_runs dotted_quad (fun _ => []) (demo_machine (str "me")) 0 4 [(116, str "7")] o
    (demo_process m) [demo_route] (replicate 64 107) [1; 2; 3] 1 [] [eth3] [Wait 1; Sweep]
    session_script session_end (str "bye") [0] [] 100 200 [])
    as (p' & E & _ & I1 & (_ & _ & Ht) & _).
  - by_eval.
  - split; [reflexivity|exact I|apply Nat.ltb_lt; by_eval| |repeat constructor; by_compute|reflexivity..].
    intros old. apply (demo_loads old).
  - apply demo_greets.
  - repeat constructor.
  - apply Nat.ltb_lt. by_eval.
  - by_eval.
  - repeat constructor; try discriminate; try (apply Nat.ltb_lt; reflexivity); by_eval.
  - by_compute.
  - apply Nat.leb_le. reflexivity.
  - by_eval.
  - apply session_script_ok. by eexists.
  - apply session_end_ok.
  - repeat constructor; discriminate.
  - by_compute.
  - reflexivity.
  - apply Nat.leb_le. reflexivity.
  - apply Nat.leb_le. reflexivity.
  - by_eval.
  - exists p'. split; [exact E|]. split; [exact Ht|exact I1].
Defined.
