(* ===== verification/StcpTypes.v ===== *)
(** One end of an STCP connection against a world that does as it likes: any
    packets from the network, any use by the application. Nothing is assumed of
    the peer; what is proved is what the types of the C code promise, and that
    everything sent is a segment. *)
From stdpp Require Import relations.
From S2P Require Import Prelude Mem TcpSum PacketQueue Stcp StcpProps.

(** * Types *)

Definition is_u16 (z : Z) : Prop := 0 <= z < 2 ^ 16.
Definition is_u32 (z : Z) : Prop := 0 <= z < 2 ^ 32.

(** The integer fields of [context_t] hold values of their types. *)
Record ctx_typed (c : context_t) : Prop := {
  ct_isn : is_u32 (initial_sequence_num c);
  ct_seq : is_u32 (sequence_num c);
  ct_ack : is_u32 (ack_num c);
  ct_window : is_u16 (recv_window_size c);
  ct_used : is_u16 (recv_buffer_used c);
  ct_next : is_u32 (next_seq_expected c);
  ct_peer : is_u16 (peer_window_size c);
  ct_acked : is_u32 (last_ack_received c);
  ct_sent : is_u32 (last_byte_sent c) }.

(** An endpoint of a connection between known addresses: its queues hold bytes,
    and all it has sent are segments that the other end's checksum accepts. *)
Record typed (local peer : Z) (e : endpoint) : Prop := {
  ty_ctx : ctx_typed (ep_ctx e);
  ty_connected : connected e;
  ty_addr : ep_local e = local /\ ep_peer e = peer;
  ty_net : Forall bytes_ok (network_recv_queue e);
  ty_to_app : Forall bytes_ok (app_send_queue e);
  ty_from_app : Forall bytes_ok (app_recv_queue e);
  ty_sent : Forall (fun s => exists v, segment local peer s v) (ep_sent e) }.

Section typing.
Context {memcpy : Memcpy} (local peer : Z).

(** Run from a typed state, a computation that returns gives such a value and
    leaves a typed state. *)
Definition yields {A} (m : SM A) (Q : A -> Prop) : Prop :=
  forall e, typed local peer e ->
    match m e with Ok (a, e') => Q a /\ typed local peer e' | Fault _ => True end.

Lemma yields_bind {A B} (m : SM A) (f : A -> SM B) P Q :
  yields m P -> (forall a, P a -> yields (f a) Q) -> yields (m ≫= f) Q.
Proof.
  intros Hm Hf e He. specialize (Hm e He). unfold mbind, M_bind.
  destruct (m e) as [[a e']|]; [|done]. destruct Hm. by apply Hf.
Qed.

Lemma yields_ret {A} (a : A) (Q : A -> Prop) : Q a -> yields (mret a) Q.
Proof. intros Ha e He. by split. Qed.

Lemma yields_fail {A} f (Q : A -> Prop) : yields (fail f) Q.
Proof. intros e He. exact I. Qed.

Lemma yields_lift {A} (r : res A) (Q : A -> Prop) :
  (forall a, r = Ok a -> Q a) -> yields (lift r) Q.
Proof. intros Hr e He. unfold lift. destruct r; [split; auto|done]. Qed.

Lemma yields_assert b : yields (assertM b) (fun _ => b = true).
Proof. destruct b; [by apply yields_ret|by apply yields_fail]. Qed.

Lemma yields_get_ctx : yields get_ctx ctx_typed.
Proof. intros e He. split; [apply He|done]. Qed.

Lemma yields_upd f : (forall c, ctx_typed c -> ctx_typed (f c)) -> yields (upd f) (fun _ => True).
Proof. intros Hf e [? ? ? ? ? ? ?]. split; [done|]. split; try done. by apply Hf. Qed.

Lemma yields_mono {A} (m : SM A) (P Q : A -> Prop) :
  yields m P -> (forall a, P a -> Q a) -> yields m Q.
Proof.
  intros Hm HQ e He. specialize (Hm e He). destruct (m e) as [[a e']|]; [|done].
  destruct Hm. auto.
Qed.

(** ** The interface below *)

Lemma yields_wait flags : yields (stcp_wait_for_event flags) (fun _ => True).
Proof.
  intros e He. unfold stcp_wait_for_event. exec.
  match goal with |- context [(?rc =? 0)] => destruct (rc =? 0) end; [done|].
  exec. split; [done|]. destruct (_ && _); [|done]. by destruct He.
Qed.

Lemma dequeue_typed q n partial d len q' :
  Forall bytes_ok q -> mysock_dequeue_buffer q n partial = Ok (d, len, q') ->
  bytes_ok d /\ Forall bytes_ok q'.
Proof.
  intros Hq. destruct q as [|x q]; [done|]. apply Forall_cons in Hq as [Hx Hq]. simpl.
  destruct (_ && _); [destruct (_ && _); [done|]|]; intros [= <- <- <-].
  - split; [by apply Forall_take|]. constructor; [by apply Forall_drop|done].
  - split; [by apply Forall_take|done].
Qed.

Lemma yields_network_recv n : yields (stcp_network_recv n) (fun r => bytes_ok r.1).
Proof.
  intros e He. unfold stcp_network_recv. exec.
  destruct (mysock_dequeue_buffer _ _ _) as [[[d len] q]|] eqn:E; [|done].
  destruct (dequeue_typed _ _ _ _ _ _ (ty_net _ _ _ He) E) as [Hd Hq]. exec.
  assert (typed local peer (set_net e q)) by (by destruct He).
  destruct (_ =? 0)%nat; [by split|]. destruct (_ <? _)%nat; [done|].
  destruct (mysock_verify_checksum _ _ _) as [[]|]; exec; by try split.
Qed.

Lemma yields_app_recv n :
  yields (stcp_app_recv n) (fun r => bytes_ok r.1 /\ r.2 = length r.1 /\ (r.2 <= n)%nat).
Proof.
  intros e He. unfold stcp_app_recv. exec.
  destruct (mysock_dequeue_buffer _ _ _) as [[[d len] q]|] eqn:E; [|done].
  destruct (dequeue_typed _ _ _ _ _ _ (ty_from_app _ _ _ He) E) as [Hd Hq]. exec.
  apply dequeue_partial in E as (E1 & E2 & _). split; [done|]. by destruct He.
Qed.

Lemma yields_to_app d :
  bytes_ok d ->
  yields (modify (fun e => set_to_app e (mysock_enqueue_buffer (app_send_queue e) d)))
    (fun _ => True).
Proof.
  intros Hd e [? ? ? ? ? ? ?]. split; [done|]. split; try done.
  apply Forall_app. split; [done|]. by constructor.
Qed.

Lemma yields_app_send d : bytes_ok d -> yields (stcp_app_send d) (fun _ => True).
Proof.
  intros Hd. unfold stcp_app_send. case_match; [by apply yields_to_app|by apply yields_ret].
Qed.

Lemma yields_fin_received : yields stcp_fin_received (fun _ => True).
Proof. apply yields_to_app, Forall_nil. exact I. Qed.

Lemma yields_unblock err : yields (stcp_unblock_application err) (fun _ => True).
Proof.
  intros e He. unfold stcp_unblock_application. exec.
  destruct (ep_unblocked e); [done|]. split; [done|]. by destruct He.
Qed.

Lemma yields_send_packet data flags :
  bytes_ok data -> 0 <= flags < 256 -> yields (send_packet data flags) (fun _ => True).
Proof.
  intros Hd Hf e He.
  destruct (Nat.leb_spec (length data) STCP_MSS) as [Hl|Hl].
  2:{ unfold send_packet. by rewrite (proj2 (Nat.leb_gt _ _)) by lia. }
  destruct (send_packet_ok e data flags) as (p & -> & Hp);
    [apply He|split; apply (ty_ctx _ _ _ He)|done..|].
  split; [done|]. destruct He as [? ? [A1 A2] ? ? ? ?]. split; try done.
  rewrite A1, A2 in Hp. apply Forall_app. split; [done|]. constructor; [|done].
  by eexists.
Qed.
End typing.

(** ** Contexts *)

Lemma u32_typed z : is_u32 (u32 z).
Proof. apply u32_range. Qed.
Lemma u16_typed z : is_u16 (u16 z).
Proof. apply u16_range. Qed.
Lemma ntohs_typed z : is_u16 (ntohs z).
Proof. apply (bswap_range 2). Qed.

Create HintDb typing.
#[export] Hint Resolve u32_typed u16_typed ntohs_typed : typing.

(** A context whose fields are typed one by one. *)
Ltac ctx_typing := intros ? [? ? ? ? ? ? ? ? ?]; split; cbn -[bswap u16 u32]; eauto with typing.

#[export] Hint Resolve yields_wait yields_network_recv yields_app_recv yields_app_send
  yields_fin_received yields_unblock yields_get_ctx yields_assert : typing.
#[export] Hint Extern 1 (yields _ _ (upd _) _) => apply yields_upd; ctx_typing : typing.
#[export] Hint Extern 1 (yields _ _ (send_packet _ _) _) =>
  apply yields_send_packet;
  [first [assumption|apply Forall_nil; exact I]|split; [discriminate|reflexivity]] : typing.
#[export] Hint Extern 1 (yields _ _ (lift _) (fun _ => True)) =>
  apply yields_lift; intros; exact I : typing.
#[export] Hint Extern 1 (yields _ _ (mret _) (fun _ => True)) =>
  apply yields_ret; exact I : typing.

(** Follow a computation's control flow. *)
Ltac typing_step :=
  match goal with
  | |- yields _ _ (lift _ ≫= _) _ =>
      eapply (yields_bind _ _ _ _ (fun _ => True)); [by apply yields_lift|intros ? _]
  | |- yields _ _ (_ ≫= _) _ => eapply yields_bind; [solve [eauto with typing]|intros ? ?]
  | |- yields _ _ ((if _ then _ else _) ≫= _) _ =>
      eapply (yields_bind _ _ _ _ (fun _ => True)); [|intros ? _]
  | |- forall _, _ => intros
  | |- yields _ _ (let '(_, _) := ?x in _) _ => destruct x
  | |- yields _ _ (if ?b then _ else _) _ => destruct b eqn:?
  | |- yields _ _ (match ?x with _ => _ end) _ => destruct x eqn:?
  end.
Ltac typing := repeat typing_step; eauto with typing.

Section endpoints.
Context {memcpy : Memcpy} (local peer : Z).
Abbreviation yields := (yields local peer).

Lemma yields_recv_header :
  yields recv_header (fun h => match h with Some b => bytes_ok b | None => True end).
Proof. unfold recv_header. typing; by apply yields_ret. Qed.

Lemma rd_typed off n b d : bytes_ok b -> rd off n b = Ok d -> bytes_ok d.
Proof. intros Hb. unfold rd. case_match; [|done]. intros [= <-]. by apply bytes_ok_slice. Qed.

Lemma yields_active_syn : yields active_syn (fun _ => True).
Proof. unfold active_syn. typing. Qed.
Lemma yields_active_established : yields active_established (fun _ => True).
Proof. unfold active_established. eapply yields_bind; [apply yields_recv_header|]. intros h Hh. typing. Qed.
Lemma yields_passive_syn : yields passive_syn (fun _ => True).
Proof. unfold passive_syn. eapply yields_bind; [apply yields_recv_header|]. intros h Hh. typing. Qed.
Lemma yields_passive_established : yields passive_established (fun _ => True).
Proof.
  unfold passive_established. eapply yields_bind; [apply yields_recv_header|]. intros h Hh.
  typing.
Qed.

Lemma yields_handle_app_data : yields handle_app_data (fun _ => True).
Proof.
  unfold handle_app_data. typing_step. typing_step; [|by apply yields_ret].
  eapply yields_bind; [apply yields_app_recv|]. intros [d n] (Hd & Hn & _). cbn in Hd, Hn.
  typing_step; [|by apply yields_ret].
  eapply yields_bind; [by apply yields_send_packet|]. typing.
Qed.

Lemma yields_handle_fin seq : yields (handle_fin seq) (fun _ => True).
Proof. unfold handle_fin. typing. Qed.
Lemma yields_handle_ack ack : yields (handle_ack ack) (fun _ => True).
Proof. unfold handle_ack. typing. Qed.

Lemma yields_handle_data buf n seq : bytes_ok buf -> yields (handle_data buf n seq) (fun _ => True).
Proof.
  intros Hb. unfold handle_data.
  assert (Hd : forall b off k, yields (lift (if b : bool then rd off k buf else Fault OutOfBounds)) bytes_ok).
  { intros b off k. apply yields_lift. intros d. destruct b; [|done]. by apply rd_typed. }
  typing_step. typing_step. typing_step; [|typing]. typing_step.
  eapply (yields_bind _ _ _ _ (fun _ => True)); [|typing].
  typing_step; [|by apply yields_ret]. typing_step.
  eapply yields_bind; [apply Hd|]. typing.
Qed.

Lemma yields_handle_segment buf n : bytes_ok buf -> yields (handle_segment buf n) (fun _ => True).
Proof.
  intros Hb. unfold handle_segment.
  typing; [apply yields_handle_fin|apply yields_handle_ack|..]; by apply yields_handle_data.
Qed.

Lemma yields_handle_network_data : yields handle_network_data (fun _ => True).
Proof.
  unfold handle_network_data. eapply yields_bind; [apply yields_network_recv|].
  intros [buf n] Hb. typing_step; [typing|].
  eapply yields_bind; [by apply yields_handle_segment|]. typing.
Qed.

Lemma yields_control_step : yields control_step (fun _ => True).
Proof.
  unfold control_step, handle_close.
  typing; [apply yields_handle_app_data|apply yields_handle_network_data].
Qed.
End endpoints.

(** * Any world *)

Section world.
Context {memcpy : Memcpy}.

(** What can happen to an endpoint: its transport thread runs one of its parts,
    any bytes arrive as a packet, the application writes, reads or closes. *)
Inductive world_step (e : endpoint) : endpoint -> Prop :=
  | world_active_syn e' : active_syn e = Ok (tt, e') -> world_step e e'
  | world_active b e' : active_established e = Ok (b, e') -> world_step e e'
  | world_passive_syn b e' : passive_syn e = Ok (b, e') -> world_step e e'
  | world_passive b e' : passive_established e = Ok (b, e') -> world_step e e'
  | world_turn e' : control_step e = Ok (tt, e') -> world_step e e'
  | world_packet p : bytes_ok p ->
      world_step e (set_net e (mysock_enqueue_buffer (network_recv_queue e) p))
  | world_write eof data n a : bytes_ok data ->
      mywrite (AppSide (app_recv_queue e) (app_send_queue e) (close_requested e) eof) data
        = Ok (n, a) ->
      world_step e (set_from_app e (as_recv_queue a))
  | world_read eof size d n a :
      myread (AppSide (app_recv_queue e) (app_send_queue e) (close_requested e) eof) size
        = Ok (d, n, a) ->
      world_step e (set_to_app e (as_send_queue a))
  | world_close : world_step e (set_close e true).

Lemma yields_step {A} local peer (m : SM A) e a e' :
  yields local peer m (fun _ => True) -> typed local peer e -> m e = Ok (a, e') ->
  typed local peer e'.
Proof. intros Hm He E. specialize (Hm e He). rewrite E in Hm. apply Hm. Qed.

Lemma world_step_typed local peer e e' :
  typed local peer e -> world_step e e' -> typed local peer e'.
Proof.
  intros He Hs.
  destruct Hs as [e' E|b e' E|b e' E|b e' E|e' E|p Hp|eof data n a Hd E|eof size d n a E|].
  - eapply yields_step; [apply yields_active_syn|done|exact E].
  - eapply yields_step; [apply yields_active_established|done|exact E].
  - eapply yields_step; [apply yields_passive_syn|done|exact E].
  - eapply yields_step; [apply yields_passive_established|done|exact E].
  - eapply yields_step; [apply yields_control_step|done|exact E].
  - destruct He. split; try done. apply Forall_app. split; [done|by constructor].
  - unfold mywrite in E. cbn in E. destruct (close_requested e); [done|].
    injection E as <- <-. destruct He. split; try done.
    apply Forall_app. split; [done|by constructor].
  - unfold myread in E. cbn in E. destruct (close_requested e); [done|].
    destruct eof; [injection E as <- <- <-; by destruct He|].
    destruct (mysock_dequeue_buffer _ _ _) as [[[d' l] q]|] eqn:Eq; [|done].
    injection E as <- <- <-.
    destruct (dequeue_typed _ _ _ _ _ _ (ty_to_app _ _ _ He) Eq) as [_ Hq]. by destruct He.
  - by destruct He.
Qed.

Lemma fresh_typed isn e :
  fresh isn e -> Forall bytes_ok (network_recv_queue e) -> Forall bytes_ok (app_send_queue e) ->
  Forall bytes_ok (app_recv_queue e) -> typed (ep_local e) (ep_peer e) e.
Proof.
  intros [Hc Hi Hn _ _ Hs] H1 H2 H3. split; try done.
  - rewrite Hc. assert (is_u16 RECEIVER_WINDOW_SIZE /\ is_u16 0 /\ is_u32 0) as (? & ? & ?)
      by (unfold is_u16, is_u32, RECEIVER_WINDOW_SIZE; lia).
    by split.
  - by rewrite Hs.
Qed.

(** C34: Whatever the network delivers (any bytes, from any peer, at any time) and
    whatever the application does, an endpoint stays well typed: every sequence
    number is a 32-bit and every window a 16-bit number, the queues hold bytes,
    and everything it has handed to the network is a segment of at most
    [STCP_MSS] data bytes, with its header in place, that the checksum at the
    other end accepts. *)
Theorem stcp_typed isn e e' :
  fresh isn e -> Forall bytes_ok (network_recv_queue e) -> Forall bytes_ok (app_send_queue e) ->
  Forall bytes_ok (app_recv_queue e) -> rtc world_step e e' ->
  typed (ep_local e) (ep_peer e) e'.
Proof.
  intros Hf H1 H2 H3 Hr. pose proof (fresh_typed isn e Hf H1 H2 H3) as Ht. revert Ht.
  generalize (ep_local e) (ep_peer e). intros local peer Ht. clear Hf H1 H2 H3.
  induction Hr as [|e1 e2 e3 Hs _ IH]; [done|]. by apply IH, (world_step_typed _ _ e1).
Qed.

End world.

#[local] Existing Instance moving_memcpy.

(** An active end sends its SYN; bytes that are no segment arrive; the
    application has closed. *)
Definition lonely : endpoint := new_endpoint 4294967295 16777343 33554559 4660 80.
Definition lonely_syn : endpoint :=
  match active_syn lonely with Ok (_, e) => e | Fault _ => lonely end.
Definition lonely_end : endpoint := set_close (set_net lonely_syn [[255; 0; 3]]) true.

Lemma stcp_typed_witness :
  rtc world_step lonely lonely_end /\ length (ep_sent lonely_end) = 1%nat /\
  typed 16777343 33554559 lonely_end.
Proof.
  assert (R : rtc world_step lonely lonely_end).
  { apply (rtc_l _ _ lonely_syn); [apply world_active_syn; reflexivity|].
    apply (rtc_l _ _ (set_net lonely_syn [[255; 0; 3]])).
    - apply (world_packet lonely_syn [255; 0; 3]). repeat constructor; discriminate.
    - apply (rtc_l _ _ lonely_end); [apply world_close|apply rtc_refl]. }
  split; [exact R|]. split; [reflexivity|].
  apply (stcp_typed 4294967295 lonely lonely_end); [|apply Forall_nil; exact I..|exact R].
  apply new_fresh; lia.
Defined.
