(* ===== verification/Connect.v ===== *)
(** The transport threads of a process (transport-layer/src/mysock.c and stcp_api.c):
    the parts of transport.c run on the contexts of Mysock, where they meet the
    listening mysockets of Demux; and a connection from its SYN to [myaccept]. *)
From S2P Require Import Prelude Mem Sockets TcpSum PacketQueue NetTcp HashTable Stcp StcpProps StcpNet Mysock Demux MysockApi DemuxRep DemuxProps DemuxHazards.
#[local] Set Warnings "-clear-no-such-hyp".

(** * A transport thread on its context *)

Section thread.
Context {memcpy : Memcpy} (interface_ip : Z -> Z) (port : nat -> Z).

(** What the code of transport.c sees of the context of descriptor [sd], with its
    own [context_t]: the addresses are those that tcp_sum.c and stcp_api.c look
    up. *)
Definition endpoint_of (sd : nat) (c : mysock_context) (x : context_t) (sent : list buffer)
  : res endpoint :=
  local ← network_get_local_addr interface_ip (mc_net c);
  peer ← ld sin_addr 0 (nc_peer_addr (mc_net c));
  dport ← ld sin_port 0 (nc_peer_addr (mc_net c));
  Ok (Endpoint x local peer (port sd) dport (mc_network_recv_queue c)
        (as_send_queue (mc_app c)) (as_recv_queue (mc_app c))
        (as_close_requested (mc_app c))
        (if mc_blocking c then None else Some (mc_stcp_errno c)) sent).

(** The queues and the close request, as the thread leaves them. *)
Definition store_endpoint (e : endpoint) (c : mysock_context) : mysock_context :=
  set_network_recv
    (set_app c (AppSide (app_recv_queue e) (app_send_queue e) (close_requested e)
      (as_eof (mc_app c)))) (network_recv_queue e).

(** A part of the thread's code, up to where it waits; [stcp_unblock_application]
    also completes a connection of the backlog. *)
Definition thread_part {A} (sd : nat) (m : SM A) (x : context_t) (sent : list buffer)
  : MM (A * context_t * list buffer) :=
  c ← mysock_get_context sd;
  e ← lift (endpoint_of sd c x sent);
  '(a, e') ← lift (m e);
  upd_context sd (store_endpoint e');;
  match ep_unblocked e, ep_unblocked e' with
  | None, Some err => unblock_application sd err
  | _, _ => mret tt
  end;;
  mret (a, ep_ctx e', ep_sent e').

(** [network_recv_thread_func] hands a packet to its connection. *)
Definition thread_packet (sd : nat) (packet : buffer) : MM unit :=
  upd_context sd (fun c =>
    set_network_recv c (mysock_enqueue_buffer (mc_network_recv_queue c) packet)).

(** ** Its effect on the process *)

(** A change of a connection's queues and flags that the backlog does not see. *)
Definition private (f : mysock_context -> mysock_context) : Prop :=
  forall c, mc_my_sd (f c) = mc_my_sd c /\ mc_listening (f c) = mc_listening c /\
    mc_listen_sd (f c) = mc_listen_sd c /\ mc_is_active (f c) = mc_is_active c /\
    mc_net (f c) = mc_net c /\ mc_blocking (f c) = mc_blocking c /\
    mc_stcp_errno (f c) = mc_stcp_errno c /\ mc_transport (f c) = mc_transport c.

Lemma store_private e : private (store_endpoint e).
Proof. done. Qed.

Lemma conn_private s sd f k :
  private f ->
  conn_of (with_context s sd f) k = if decide (k = sd) then f <$> conn_of s sd else conn_of s k.
Proof.
  intros Hf. unfold conn_of. rewrite context_of_with. case_decide as Hk; [|done].
  destruct (context_of s sd) as [c|]; [|done]. cbn. destruct (Hf c) as (_ & -> & _).
  by destruct (mc_listening c).
Qed.

Lemma child_private L a f c : private f -> child L a c -> child L a (f c).
Proof.
  intros Hf [H1 H2 H3 H4 H5]. destruct (Hf c) as (_ & _ & E3 & E4 & E5 & E6 & E7 & E8).
  split; rewrite ?E3, ?E4, ?E5, ?E6, ?E8; done.
Qed.

Section private.
Context (L sd : nat) (s : mysocks) (f : mysock_context -> mysock_context).
Context (Hf : private f).
Let s' := with_context s sd f.

(** How a connection of the new state was before. *)
Lemma slot_private q k a d c :
  slot_of (conn_of s) L q k a d c ->
  slot_of (conn_of s') L q k a d (if decide (d = sd) then f c else c).
Proof.
  intros [S1 S2 S3 S4]. split; [done| | |done].
  - unfold s'. rewrite conn_private by done. case_decide as Hd; [|done]. subst d. by rewrite S2.
  - case_decide; [by apply child_private|done].
Qed.

Lemma slot_private_inv q k a d c' :
  slot_of (conn_of s') L q k a d c' ->
  exists c, slot_of (conn_of s) L q k a d c /\ c' = (if decide (d = sd) then f c else c).
Proof.
  intros [S1 S2 S3 S4]. unfold s' in S2. rewrite conn_private in S2 by done.
  case_decide as Hd; [|by exists c']. subst d.
  destruct (conn_of s sd) as [c|] eqn:Hc; [|done]. injection S2 as <-.
  exists c. split; [|done]. split; [done|done| |done].
  destruct S3 as [C1 C2 C3 C4 C5], (Hf c) as (_ & _ & E3 & E4 & E5 & E6 & _ & E8).
  split; [congruence..|]. intros Hb. rewrite <-E8. apply C5. congruence.
Qed.

Lemma private_queue_rep c0 q b :
  conn_of s sd = Some c0 -> queue_rep (conn_of s) L q b -> queue_rep (conn_of s') L q b.
Proof.
  intros Hc0 [Q1 Q2 Q3 Q4 Q5 Q6 Q7 Q8 Q9 Q10 Q11 Q12 Q13].
  assert (Hb : forall d c, mc_blocking (if decide (d = sd) then f c else c) = mc_blocking c /\
    mc_stcp_errno (if decide (d = sd) then f c else c) = mc_stcp_errno c /\
    mc_listen_sd (if decide (d = sd) then f c else c) = mc_listen_sd c).
  { intros d c. destruct (Hf c) as (_ & _ & ? & _ & _ & ? & ? & _). by case_decide. }
  split; try done.
  - intros k r Hr. destruct (Q6 k r Hr) as [|(a & d & c & Hs)]; [by left|].
    right. eexists a, d, _. by apply slot_private.
  - intros k k' a d d' c c' (x & H1 & _)%slot_private_inv (y & H2 & _)%slot_private_inv.
    by eapply Q7.
  - intros k k' a a' d c c' (x & H1 & _)%slot_private_inv (y & H2 & _)%slot_private_inv.
    by eapply Q8.
  - eapply Forall2_impl; [exact Q9|]. intros e x (He & d & c & Hs & Hr1 & Hr2).
    split; [done|]. eexists d, _. split; [by apply slot_private|].
    destruct (Hb d c) as (-> & -> & _). done.
  - intros a. rewrite Q11. split.
    + intros (k & d & c & Hs & Hr). eexists k, d, _. split; [by apply slot_private|].
      by destruct (Hb d c) as (-> & _).
    + intros (k & d & c' & (c & Hs & ->)%slot_private_inv & Hr). exists k, d, c.
      split; [done|]. by destruct (Hb d c) as (<- & _).
  - intros k a d c' (c & Hs & ->)%slot_private_inv Hr. eapply Q12; [exact Hs|].
    by destruct (Hb d c) as (<- & _).
  - intros d c' Hc H1 H2.
    assert (exists c, conn_of s d = Some c /\ c' = if decide (d = sd) then f c else c)
      as (c & Hc' & ->).
    { unfold s' in Hc. rewrite conn_private in Hc by done. case_decide; [|by exists c'].
      subst d. rewrite Hc0 in Hc. injection Hc as <-. by exists c0. }
    destruct (Hb d c) as (E1 & _ & E2). rewrite E1 in H2. rewrite E2 in H1.
    destruct (Q13 d c Hc' H1 H2) as (k & a & Hs). exists k, a. by apply slot_private.
Qed.

Lemma private_rep b c0 :
  demux_rep L s b -> conn_of s sd = Some c0 -> demux_rep L s' b.
Proof.
  intros [Hul Hw Hfr (lc & Hlc & Hll & Hlb) (p & q & Hlook & Hp & Hq) Hpas] Hc0.
  destruct (conn_of_some _ _ _ Hc0) as [Hcx Hcl].
  assert (HLs : L <> sd) by (intros <-; congruence).
  assert (HL : context_of s' L = Some lc)
    by (unfold s'; by rewrite context_of_with, decide_False).
  split.
  - done.
  - apply with_context_wf; [done|]. intros c. apply Hf.
  - unfold s'. by rewrite count_with.
  - by exists lc.
  - exists p, q. split; [done|]. split; [done|]. by apply (private_queue_rep c0).
  - intros c. rewrite HL. intros [= <-]. by apply Hpas.
Qed.
End private.

(** A connection from a known address, seen by its transport thread. *)
Lemma endpoint_ok L sd a c x sent :
  child L a c -> inet_addr a -> tc_peer_valid (nc_tcp (mc_net c)) = true ->
  endpoint_of sd c x sent =
    Ok (Endpoint x (interface_ip (fval sin_addr 0 a)) (fval sin_addr 0 a) (port sd)
          (fval sin_port 0 a) (mc_network_recv_queue c) (as_send_queue (mc_app c))
          (as_recv_queue (mc_app c)) (as_close_requested (mc_app c))
          (if mc_blocking c then None else Some (mc_stcp_errno c)) sent).
Proof.
  intros [_ _ Ha Hl _] [Hlen Hfam] Hv. unfold sizeof_sockaddr in *.
  unfold endpoint_of, network_get_local_addr.
  rewrite Hv, Hl, Ha. cbn [negb orb Z.ltb]. change (0 <? Z.of_nat 16) with true. cbn [negb].
  assert (Hin : in_field sa_family 0 a /\ in_field sin_addr 0 a /\ in_field sin_port 0 a)
    by (unfold in_field, sa_family, sin_addr, sin_port; cbn [f_off f_size]; lia).
  destruct Hin as (H1 & H2 & H3). rewrite (ld_ok sa_family), Hfam by done.
  cbn [mbind res_bind]. rewrite Z.eqb_refl. cbn [negb]. by rewrite !ld_ok.
Qed.

(** A part that unblocks nobody. *)
Lemma thread_part_ok {A} sd (m : SM A) x sent s c e a e' :
  table_wf s -> conn_of s sd = Some c -> endpoint_of sd c x sent = Ok e -> m e = Ok (a, e') ->
  ep_unblocked e' = None ->
  thread_part sd m x sent s =
    Ok ((a, ep_ctx e', ep_sent e'), with_context s sd (store_endpoint e')).
Proof.
  intros Hw Hc He Hm Hu. unfold thread_part. destruct (conn_of_some _ _ _ Hc) as [Hcx _].
  rewrite (bind_ok _ _ _ _ _ (get_context_ok _ _ _ Hw Hcx)), He, bind_lift, Hm, bind_lift.
  cbn beta iota. rewrite (bind_ok _ _ _ _ _ (upd_context_eq _ _ _)), Hu.
  by destruct (ep_unblocked e).
Qed.

(** A part that ends the wait of the application. *)
Lemma thread_part_unblocks {A} sd (m : SM A) x sent s c e a e' err s' :
  table_wf s -> conn_of s sd = Some c -> endpoint_of sd c x sent = Ok e -> m e = Ok (a, e') ->
  ep_unblocked e = None -> ep_unblocked e' = Some err ->
  unblock_application sd err (with_context s sd (store_endpoint e')) = Ok (tt, s') ->
  thread_part sd m x sent s = Ok ((a, ep_ctx e', ep_sent e'), s').
Proof.
  intros Hw Hc He Hm Hu Hu' Hs. unfold thread_part. destruct (conn_of_some _ _ _ Hc) as [Hcx _].
  rewrite (bind_ok _ _ _ _ _ (get_context_ok _ _ _ Hw Hcx)), He, bind_lift, Hm, bind_lift.
  cbn beta iota. rewrite (bind_ok _ _ _ _ _ (upd_context_eq _ _ _)), Hu, Hu'.
  by rewrite (bind_ok _ _ _ _ _ Hs).
Qed.

Lemma syn_is_packet src dst p v :
  segment src dst p v -> sv_data v = [] -> has (sv_flags v) TH_SYN = true ->
  carried p /\ syn_packet p.
Proof.
  intros [Hl _ _ _ _ Hf _ _ _ _] Hd Hs. rewrite Hd in Hl. cbn in Hl.
  split; [unfold carried, MAX_IP_PAYLOAD_LEN; lia|]. split; [unfold sizeof_tcphdr; lia|].
  rewrite Hf. unfold has in Hs. by destruct (Z.eqb_spec (Z.land (sv_flags v) TH_SYN) 0).
Qed.

(** * From the SYN to [myaccept] *)

(** The end of a connection that a listening process gives to address [a]. *)
Definition server_end (sd : nat) (a : buffer) (isn : Z) : endpoint :=
  new_endpoint isn (interface_ip (fval sin_addr 0 a)) (fval sin_addr 0 a) (port sd)
    (fval sin_port 0 a).

(** The server's part of the handshake: a connection of the backlog answers the
    SYN; when the ACK comes it is complete. *)
Lemma handshake_served L s b new n a isn isn_c syn synack ack :
  demux_rep L s b -> conn_of s new = Some n -> newborn syn n -> child L a n -> inet_addr a ->
  let e0 := server_end new a isn in
  passive_syn (Stcp.set_net e0 [syn]) = Ok (true, syn_received e0 isn isn_c synack) ->
  passive_established (Stcp.set_net (syn_received e0 isn isn_c synack) [ack]) =
    Ok (true, opened e0 (established_ctx isn isn_c) [synack]) ->
  let x2 := ep_ctx (syn_received e0 isn isn_c synack) in
  let x3 := established_ctx isn isn_c in
  exists s2 s3 n3,
    thread_part new passive_syn (init_context isn) [] s = Ok ((true, x2, [synack]), s2) /\
    demux_rep L s2 b /\
    (thread_packet new ack;; thread_part new passive_established x2 [synack]) s2 =
      Ok ((true, x3, [synack]), s3) /\
    demux_rep L s3 (spec_complete b a 0) /\ queued s3 L new a /\ conn_of s3 new = Some n3 /\
    endpoint_of new n3 x3 [synack] = Ok (opened e0 x3 [synack]).
Proof.
  intros Hrep Hn [B1 B2 B3 B4 B5] Hch Ha e0 E2 E4 x2 x3.
  pose proof (dr_wf _ _ _ Hrep) as Hw.
  set (b1 := syn_received e0 isn isn_c synack) in *.
  assert (He0 : endpoint_of new n (init_context isn) [] = Ok (Stcp.set_net e0 [syn])).
  { rewrite (endpoint_ok L new a) by done. by rewrite B2, B3, B4. }
  pose proof (thread_part_ok new passive_syn _ _ s n _ _ _ Hw Hn He0 E2 eq_refl) as P1.
  set (s2 := with_context s new (store_endpoint b1)) in *.
  pose proof (private_rep L new s _ (store_private b1) b n Hrep Hn) as Hrep2. fold s2 in Hrep2.
  assert (Hn2 : conn_of s2 new = Some (store_endpoint b1 n)).
  { unfold s2. rewrite conn_private by done. by rewrite decide_True, Hn. }
  set (f := fun c => set_network_recv c (mysock_enqueue_buffer (mc_network_recv_queue c) ack)).
  assert (Hf : private f) by done.
  set (s2' := with_context s2 new f).
  pose proof (private_rep L new s2 f Hf b _ Hrep2 Hn2) as Hrep2'. fold s2' in Hrep2'.
  set (n2 := f (store_endpoint b1 n)).
  assert (Hn2' : conn_of s2' new = Some n2).
  { unfold s2'. rewrite conn_private by done. by rewrite decide_True, Hn2. }
  assert (Hch2 : child L a n2) by (apply child_private, child_private; done).
  assert (He2 : endpoint_of new n2 (ep_ctx b1) [synack] = Ok (Stcp.set_net b1 [ack])).
  { rewrite (endpoint_ok L new a) by done. cbn. by rewrite B2. }
  set (e3 := opened e0 (established_ctx isn isn_c) [synack]) in *.
  pose proof (private_rep L new s2' _ (store_private e3) b n2 Hrep2' Hn2') as Hrep3.
  set (s3' := with_context s2' new (store_endpoint e3)) in *.
  set (n3 := store_endpoint e3 n2).
  assert (Hn3 : conn_of s3' new = Some n3).
  { unfold s3'. rewrite conn_private by done. by rewrite decide_True, Hn2'. }
  destruct (unblock_simulates L s3' b new n3 0 Hrep3 Hn3) as (s3 & Eu & Hrep4 & _ & Hqd & Hcon);
    [apply Hch2|exact B2|].
  pose proof (thread_part_unblocks new passive_established _ _ s2' n2 _ _ _ 0 s3
    (dr_wf _ _ _ Hrep2') Hn2' He2 E4 eq_refl eq_refl Eu) as P2.
  change (nc_peer_addr (mc_net n3)) with (nc_peer_addr (mc_net n)) in Hrep4, Hqd.
  rewrite (ch_peer _ _ _ Hch) in Hrep4, Hqd.
  exists s2, s3, (set_unblocked n3 0). split; [exact P1|]. split; [exact Hrep2|].
  split; [exact P2|]. split; [exact Hrep4|]. split; [exact Hqd|].
  split; [by rewrite Hcon, decide_True|].
  rewrite (endpoint_ok L new a); [done| |done|exact B5].
  destruct Hch2. by split.
Qed.

(** The backlog, once a connection has come and been taken. *)
Lemma accepted_backlog b a :
  admits b a = true -> bl_ready b = [] ->
  bl_ready (spec_complete (spec_syn b a) a 0) = [(a, 0)] /\
  spec_accept (spec_complete (spec_syn b a) a 0) =
    Backlog (bl_max b) (bl_free b - 1) (bl_pending b) [].
Proof.
  intros Ha Hr. unfold spec_syn. rewrite Ha. unfold spec_complete, spec_accept.
  cbn [bl_ready bl_max bl_free bl_pending]. rewrite Hr. split; [done|]. cbn [app tail].
  f_equal. unfold admits, known in Ha. apply andb_true_iff in Ha as [Ha _].
  apply andb_true_iff in Ha as [Ha _]. apply negb_true_iff, orb_false_iff in Ha as [Ha _].
  apply bool_decide_eq_false in Ha. by rewrite (difference_union_distr_l_L _ _ _), difference_diag_L, (left_id_L ∅ (∪)), difference_disjoint_L by set_solver.
Qed.

(** C5: A connection from [myconnect]'s first segment to [myaccept]. At a listening
    mysocket whose backlog admits the client's address, whose completed
    connections have all been taken, and to which a socket comes that carries
    the client's SYN in any pieces: the receive thread makes a connection of its
    own for it, whose transport thread answers; [myaccept] waits until the
    client's ACK is there, and then gives exactly this connection's descriptor
    and the client's address; the backlog has the room it had. The two ends are
    those of an opened connection, so that all that holds of connections
    (their streams, their end) holds of them. *)
Theorem connect_accept L s b lc t addr sk isn_c isn_s cl cl1 syn :
  demux_rep L s b -> bl_ready b = [] -> admits b addr = true ->
  context_of s L = Some lc -> tc_new_socket (nc_tcp (mc_net lc)) = None ->
  inet_addr addr -> 0 < fval sin_port 0 addr ->
  fresh isn_c cl -> app_recv_queue cl = [] -> app_send_queue cl = [] -> 0 <= isn_s < 2 ^ 32 ->
  ep_local cl = fval sin_addr 0 addr -> ep_peer cl = interface_ip (fval sin_addr 0 addr) ->
  active_syn cl = Ok (tt, cl1) -> ep_sent cl1 = [syn] -> carries t syn ->
  exists s1 new synack x2 s2 cl2 ack x3 s3 s4 n e,
    listen_turn L (Some (t, addr)) (Some sk) s = Ok (true, s1) /\
    thread_part new passive_syn (init_context isn_s) [] s1 = Ok ((true, x2, [synack]), s2) /\
    active_established (Stcp.set_net cl1 [synack]) = Ok (true, cl2) /\
    ep_sent cl2 = [syn; ack] /\ myaccept L s2 = Fault Blocked /\
    (thread_packet new ack;; thread_part new passive_established x2 [synack]) s2 =
      Ok ((true, x3, [synack]), s3) /\
    myaccept L s3 = Ok ((Some new, Some addr), s4) /\
    demux_rep L s4 (Backlog (bl_max b) (bl_free b - 1) (bl_pending b) []) /\
    conn_of s4 new = Some n /\ endpoint_of new n x3 [synack] = Ok e /\
    conn_reachable (party_at isn_c cl2, party_at isn_s e).
Proof.
  intros Hrep Hr Hadm Hlc Hnone Ha Hport Fc Q1 Q2 Hisn Hl Hp Hsyn Hsent Hca.
  assert (Hfr : forall d, fresh isn_s (server_end d addr isn_s)).
  { intros d. destruct Fc as [_ _ (C1 & C2 & _) _ _ _]. apply new_fresh; congruence || done. }
  assert (Hlk : forall d, linked cl (server_end d addr isn_s)) by (by split).
  destruct (open_steps isn_c isn_s cl _ Fc (Hfr 0%nat) (Hlk 0%nat))
    as (syn' & _ & _ & E1 & _ & _ & _ & Ss & _).
  rewrite Hsyn in E1. injection E1 as E1. rewrite E1 in Hsent. injection Hsent as ->.
  destruct (syn_is_packet _ _ _ _ Ss eq_refl eq_refl) as [Hcr Hsp].
  destruct (listen_turn_simulates L s b t addr syn sk lc Hrep Hlc Hnone Ha Hca Hcr Hsp)
    as (s1 & T1 & Hrep1 & _ & Hnew). destruct (Hnew Hadm) as (new & n & Hn & Hnb & Hch).
  destruct (open_steps isn_c isn_s cl _ Fc (Hfr new) (Hlk new))
    as (syn2 & synack & ack & E2 & E3 & E4 & E5 & _).
  rewrite Hsyn in E2. injection E2 as E2.
  assert (syn2 = syn) as -> by (rewrite E1 in E2; by injection E2).
  destruct (handshake_served L s1 _ new n addr isn_s isn_c syn synack ack Hrep1 Hn Hnb Hch Ha E3 E5)
    as (s2 & s3 & n3 & P1 & Hrep2 & P2 & Hrep3 & Hq & Hn3 & He).
  destruct (accepted_backlog b addr Hadm Hr) as [Hready Hacc].
  destruct (accept_simulates L s3 _ addr 0 [] Hrep3 Hready)
    as (sd & c & s4 & _ & _ & A & Hrep4 & Hq' & Hg).
  pose proof (queued_unique L s3 _ _ _ _ Hrep3 Hq Hq') as <-. rewrite Hacc in Hrep4.
  exists s1, new, synack. eexists. exists s2. eexists. exists ack. eexists.
  exists s3, s4, n3. eexists.
  split; [exact T1|]. split; [exact P1|]. split; [rewrite E1; exact E4|]. split; [done|].
  split; [apply (myaccept_waits _ _ _ Hrep2); unfold spec_syn; by rewrite Hadm|].
  split; [exact P2|]. split; [exact A|]. split; [exact Hrep4|].
  split; [unfold conn_of, context_of in *; by rewrite Hg|]. split; [exact He|].
  eapply (reach_open isn_c isn_s cl (server_end new addr isn_s)); try done.
  unfold open_connection. rewrite Hsyn. cbn [mbind res_bind]. rewrite E1.
  cbn [syn_sent ep_sent set_sent]. rewrite E3. cbn [mbind res_bind syn_received ep_sent].
  rewrite E4. cbn [mbind res_bind opened ep_sent drop]. by rewrite E5.
Qed.
End thread.

#[local] Existing Instance moving_memcpy.

(** * At a concrete input *)

(** The process of DemuxHazards that listens on port 80, and a client at another
    address; its SYN comes cut in two. *)
Definition demo_server_ip : Z := fval sin_addr 0 (demo_addr 1).
Definition demo_client : endpoint :=
  new_endpoint 5 (fval sin_addr 0 (demo_addr 7)) demo_server_ip (htons 9) (htons 80).
Definition demo_client1 : endpoint :=
  match active_syn demo_client with Ok (_, e) => e | Fault _ => demo_client end.
Definition demo_client_syn : buffer := match ep_sent demo_client1 with p :: _ => p | [] => [] end.
Definition demo_client_sock : sock :=
  Sock [RData (take 1 (frame demo_client_syn)); RData (drop 1 (frame demo_client_syn))] [] [] false.

Lemma connect_accept_witness :
  exists s1 new x2 s2 ack s3 s4 synack x3 p q,
    listen_turn 0 (Some (demo_client_sock, demo_addr 7)) (Some demo_sock) demo1 = Ok (true, s1) /\
    thread_part (fun _ => demo_server_ip) (fun _ => htons 80) new passive_syn (init_context 9) [] s1 =
      Ok ((true, x2, [synack]), s2) /\
    (thread_packet new ack;;
     thread_part (fun _ => demo_server_ip) (fun _ => htons 80) new passive_established x2 [synack]) s2 =
      Ok ((true, x3, [synack]), s3) /\
    myaccept 0 s3 = Ok ((Some new, Some (demo_addr 7)), s4) /\ conn_reachable (p, q).
Proof.
  destruct (connect_accept (fun _ => demo_server_ip) (fun _ => htons 80) 0 demo1 backlog1
    (default (MysockContext false (NetworkContext [] [] 0 (network_init demo_sock)) false false 0
       None false 0 TNone false (AppSide [] [] false false) []) (context_of demo1 0))
    demo_client_sock (demo_addr 7) demo_sock 5 9 demo_client demo_client1 demo_client_syn)
    as (s1 & new & synack & x2 & s2 & cl2 & ack & x3 & s3 & s4 & n & e & H1 & H2 & _ & _ & _ & H3 & H4
        & _ & _ & _ & H5).
  - exact demo1_rep.
  - reflexivity.
  - vm_compute. reflexivity.
  - reflexivity.
  - reflexivity.
  - split; reflexivity.
  - reflexivity.
  - apply new_fresh; [lia|reflexivity..].
  - reflexivity.
  - reflexivity.
  - lia.
  - reflexivity.
  - reflexivity.
  - vm_compute. reflexivity.
  - vm_compute. reflexivity.
  - exists (s_in demo_client_sock), [], []. split; [reflexivity|].
    split; [repeat constructor; discriminate|reflexivity].
  - exists s1, new, x2, s2, ack, s3, s4, synack, x3. do 2 eexists.
    split; [exact H1|]. split; [exact H2|]. split; [exact H3|]. split; [exact H4|exact H5].
Defined.
