(* ===== verification/Skeleton.v ===== *)
(** The template of the transport layer (transport-layer/src/transport3.c), over
    the same interface as Stcp. The Makefile builds transport.c in its place; what
    the template does for an application that is linked with it is stated here. *)
From S2P Require Import Prelude Mem TcpSum PacketQueue Stcp.

(** * State *)

(** The only state of the template's enumeration. *)
Definition CSTATE_ESTABLISHED : Z := 0.

Record context_t := Context_t {
  done : bool; connection_state : Z; initial_sequence_num : Z }.

(** What [calloc] gives. *)
Definition calloc_context : context_t := Context_t false 0 0.

Definition generate_initial_seq_num (fixed : bool) (ctx : context_t) : context_t :=
  if fixed then Context_t (done ctx) (connection_state ctx) 1 else ctx.

(** * The transport thread *)

(** The body of the loop of [control_loop]: it looks at the events and does
    nothing about them. *)
Definition control_turn : SM unit :=
  event ← stcp_wait_for_event ANY_EVENT;
  (if has event APP_DATA then mret tt else mret tt);;
  (if has event NETWORK_DATA then mret tt else mret tt);;
  (if has event APP_CLOSE_REQUESTED then mret tt else mret tt).

Fixpoint control_loop (fuel : nat) (ctx : context_t) : SM unit :=
  match fuel with
  | O => fail OutOfFuel
  | S fuel => if done ctx then mret tt else control_turn;; control_loop fuel ctx
  end.

(** [transport_init] up to the loop; [err] is what [errno] holds. *)
Definition transport_open (fixed is_active : bool) (err : Z) : SM context_t :=
  let ctx := generate_initial_seq_num fixed calloc_context in
  (if is_active then mret tt else mret tt);;
  let ctx := Context_t (done ctx) CSTATE_ESTABLISHED (initial_sequence_num ctx) in
  stcp_unblock_application err;;
  mret ctx.

Definition transport_init (fixed is_active : bool) (err : Z) (fuel : nat) : SM unit :=
  ctx ← transport_open fixed is_active err;
  control_loop fuel ctx.

(** [our_dprintf]: of what the format comes to, the [buffer] of 1024 characters
    keeps its NUL and the rest. *)
Definition our_dprintf (out : buffer) : buffer := take 1023 out.

(** * What it does *)

(** Is there data that nobody takes? *)
Definition data_waits (e : endpoint) : bool :=
  nonempty (app_recv_queue e) || nonempty (network_recv_queue e).

Lemma control_turn_eq e :
  control_turn e =
    if data_waits e || close_requested e
    then Ok (tt, if close_requested e && negb (nonempty (app_recv_queue e))
                 then set_close e false else e)
    else Fault Blocked.
Proof.
  unfold control_turn, data_waits, stcp_wait_for_event.
  destruct e as [ctx l p sp dp net toapp fromapp close un sent].
  by destruct fromapp, net, close.
Qed.

Lemma control_loop_S n ctx e :
  done ctx = false ->
  control_loop (S n) ctx e =
    match control_turn e with Ok (_, e') => control_loop n ctx e' | Fault f => Fault f end.
Proof. intros Hd. cbn [control_loop]. by rewrite Hd. Qed.

(** With data waiting the loop spins. *)
Lemma loop_spins ctx fuel : forall e,
  done ctx = false -> data_waits e = true -> control_loop fuel ctx e = Fault OutOfFuel.
Proof.
  induction fuel as [|fuel IH]; intros e Hd Hw; [done|].
  rewrite control_loop_S, control_turn_eq, Hw by done. cbn [orb].
  apply IH; [done|]. by case_match.
Qed.

(** Without, it waits; a request to close is taken off first, and forgotten. *)
Lemma loop_waits ctx fuel e :
  done ctx = false -> data_waits e = false -> (2 <= fuel)%nat ->
  control_loop fuel ctx e = Fault Blocked.
Proof.
  intros Hd Hw Hf. destruct fuel as [|[|fuel]]; [lia|lia|].
  rewrite control_loop_S, control_turn_eq, Hw by done. cbn [orb].
  destruct e as [x l p sp dp net toapp fromapp close un sent]. unfold data_waits in *. cbn in Hw.
  destruct fromapp, net; try done. destruct close; [|done].
  cbn [close_requested app_recv_queue network_recv_queue nonempty orb andb negb].
  by rewrite control_loop_S, control_turn_eq.
Qed.

(** With the template for its transport layer, a connection is reported to the
    application at once, whatever the peer does: nothing has been sent or taken
    from the network. The transport thread then never returns: it spins as long as
    there is data, which nobody takes, and otherwise waits for ever, even when
    the application has asked to close the connection. No turn of it sends
    anything or touches a queue. *)
Theorem skeleton_never_returns fixed is_active err e :
  ep_unblocked e = None ->
  (exists ctx, transport_open fixed is_active err e =
     Ok (ctx, set_unblocked e (if err =? EINTR then 0 else err)) /\
     connection_state ctx = CSTATE_ESTABLISHED /\
     initial_sequence_num ctx = (if fixed then 1 else 0)) /\
  (data_waits e = true -> forall fuel,
     transport_init fixed is_active err fuel e = Fault OutOfFuel) /\
  (data_waits e = false -> forall fuel, (2 <= fuel)%nat ->
     transport_init fixed is_active err fuel e = Fault Blocked) /\
  (forall e1 e2, control_turn e1 = Ok (tt, e2) ->
     ep_sent e2 = ep_sent e1 /\ network_recv_queue e2 = network_recv_queue e1 /\
     app_recv_queue e2 = app_recv_queue e1 /\ app_send_queue e2 = app_send_queue e1).
Proof.
  intros Hu.
  assert (Ho : exists ctx, transport_open fixed is_active err e =
     Ok (ctx, set_unblocked e (if err =? EINTR then 0 else err)) /\
     (connection_state ctx = CSTATE_ESTABLISHED /\
      initial_sequence_num ctx = (if fixed then 1 else 0)) /\ done ctx = false).
  { unfold transport_open, stcp_unblock_application. exists (Context_t false 0 (if fixed then 1 else 0)).
    split; [|by destruct fixed].
    destruct e as [x l p sp dp net toapp fromapp close un sent]. cbn in Hu. subst un.
    by destruct is_active, fixed. }
  destruct Ho as (ctx & Ho & Hc & Hd). split; [by exists ctx|].
  unfold transport_init. split; [|split].
  - intros Hw fuel. unfold mbind, M_bind. rewrite Ho. by apply loop_spins.
  - intros Hw fuel Hf. unfold mbind, M_bind. rewrite Ho. by apply loop_waits.
  - intros e1 e2. rewrite control_turn_eq.
    destruct (data_waits e1 || close_requested e1); [|done]. intros [= <-].
    by destruct (close_requested e1 && negb (nonempty (app_recv_queue e1))).
Qed.

(** An active end that a segment has reached. *)
Definition demo_end : endpoint :=
  Endpoint (init_context 0) 1 2 3 4 [replicate sizeof_tcphdr 0] [] [] false None [].

Lemma skeleton_never_returns_witness :
  ep_unblocked demo_end = None /\ forall fuel, transport_init true true 0 fuel demo_end = Fault OutOfFuel.
Proof.
  split; [reflexivity|]. apply (skeleton_never_returns true true 0 demo_end eq_refl). reflexivity.
Defined.
